(* ===== verification/_CoqProject ===== *)
-Q . S2P
Prelude.v
RuntimeUtil.v
FdIO.v
Cobs.v
Conc.v
ConcSum.v
Message.v
Shm.v
F32.v
ShmLocks.v
ShmSpec.v
ShmLife.v
ShmLifeSpec.v
NetUtil.v
Logger.v
Protos.v
Udp.v
TcpConn.v
NetHandler.v
TcpSpec.v
UdpSpec.v
Executor.v
GameState.v
DevHandler.v
DevRelay.v
DevSpec.v
Lifecycle.v
Messenger.v
Lowcar.v
LowcarDevices.v
KoalaBear.v
LowcarSpec.v
ExecSpec.v
KoalaSpec.v
NetSpec.v
GameSpec.v
Battery.v
BatterySpec.v
DeviceTypes.v
Converter.v
ConverterSpec.v
EndToEnd.v
Runtime.v
Descriptors.v
DescriptorsSpec.v
StudentApi.v
StudentSpec.v
StudentSystem.v
