(* ===== verification/Prelude.v ===== *)
(** * The robot runtime of Pioneers in Engineering, checked by the kernel.

    The runtime connects a student's Python code and the user's computer (Dawn) and the field
    control (Shepherd) with the devices of a robot. Its processes share memory; the devices are
    Arduinos on serial lines. This development models the C and C++ code under src/ as Rocq
    functions and proves what makes it correct, from the single loop to the whole path of a
    command.

    ** The program and the files

    - src/runtime_util: the registry of the devices, names and bits ([RuntimeUtil]); reads and
      writes of whole buffers ([FdIO]).
    - src/shm_wrapper: the blocks of shared memory, their semaphores, and the functions that
      every process calls ([Shm]); [ShmLocks] is their locking, [ShmSpec] their effects. How
      the blocks are created, attached and removed on a kernel of named objects: [ShmLife],
      [ShmLifeSpec].
    - src/dev_handler: the codec ([Cobs]) and the messages ([Message]); the three threads of a
      device ([DevHandler]); ports, polling, connecting and cleaning up ([DevRelay]); [DevSpec],
      and [Lifecycle], the relayer from the first ping to the clean-up.
    - src/lowcar: the code on the Arduinos: its own copies of codec and checksum and the serial
      line ([Messenger]), the main loop against the interface of the device classes ([Lowcar]),
      seven classes ([LowcarDevices], [KoalaBear], and [Battery] with its EEPROM) on single
      precision floats ([F32]); [LowcarSpec], [KoalaSpec], [BatterySpec], and [DeviceTypes], the
      classes against the registry.
    - src/net_handler: framing ([NetUtil]), the threads of the TCP connections ([TcpConn]), the
      two UDP threads ([Udp]), the accept loop ([NetHandler]); [TcpSpec], [UdpSpec], [NetSpec];
      the program that relays between UDP and TCP ([Converter]); [ConverterSpec].
      The generated protobuf code is the class [Protos].
    - src/executor: the parent that follows the run mode and the child that runs the student's
      functions and challenges ([Executor]), the game states ([GameState]); [ExecSpec], [GameSpec].
      The interface of the student's Python code, which is Cython ([StudentApi]): a call is a
      program whose result is a value or an exception. [StudentSpec] follows a value that the
      student sets to the device's class, and one that a device measures to the student;
      [StudentSystem] has the inputs, the subscriptions, the actions, and the student's threads
      among the other processes.
    - src/logger: configuration and printing ([Logger]).
    - The descriptors that all of these open and close - serial ports and their settings, sockets
      of every kind, the log - over the kernel's table: [Descriptors], [DescriptorsSpec]; with the
      set-up of the network handler, the UDP threads, the converter and the executor.
    - [EndToEnd] leads from the network to the motors; [Runtime] puts the threads of all these
      processes on both memories, the blocks and the ports, side by side.

    [Prelude] holds the outcomes of C code, buffers, bits and the common tactics; [Conc] the
    programs over shared memory, their sequential and interleaved meaning and the locking
    discipline, and [ConcSum] two memories side by side. A function of the code has the same
    name here; a handler that the code writes in one piece is split into definitions at its
    cases and loops, each of which is said to be which part.

    ** How the code is modelled

    A pure C function is a Rocq function into [outcome]: a value, a fault (a NULL pointer
    followed, an access out of bounds, a shift out of range, a wrong conversion, a wild
    pointer), [exit], or waiting for ever. Integers are [Z], wrapped to their width where the
    code computes ([u8], [u16], [u32], [u64], [s32]); an allocation is the list of its bytes,
    and every access to it is checked. A function that works on shared memory is a program
    ([Conc.prog]): a tree of waits, posts and accesses to one region, which [run] executes alone
    and [step] interleaves with other processes at every operation.

    The environment is data or a parameter. A descriptor is the list of what its reads and
    writes will do, so that data arrives in any pieces; fresh memory and the stack hold anything
    ([Heap], [Stack]; [ReliableHeap] is an allocator that does not fail); the results of [fork],
    of the calls of the Python interpreter and of the sockets are arguments; the clock is an
    argument, for the motor controller a stream. Floats are their 32 bits with the arithmetic of
    IEEE 754, and what a conversion beyond an [int] gives is a parameter. A text of Python is the
    list of its code points; what the interpreter takes for digits and spaces beyond ASCII, and
    how its numbers become C numbers, is the class [PythonValues] with the laws [PythonLaws].

    ** The theorems

    - The whole runtime: connections, inputs, accept loop, executor, game states, student's writes,
      and the relayers, senders, receivers and polling of the device handler, in any number and
      any interleaving, do not fault or deadlock, and race only where the code reads the catalog
      or the identifiers without a semaphore. This supposes sockets that do not fail, ports that
      can be opened, devices that take writes and send well-formed messages, and nobody that
      writes log data.
    - Shared memory: under any interleaving of any calls of the wrapper and of the student's code,
      those that write log data excepted, nobody faults or deadlocks, races are as above, every
      execution ends, and the blocks stay well-formed; each operation's result and effect on every
      branch; commands and subscriptions are
      delivered; only connected devices have pending commands. Stopping and starting the shared memory again
      leads from whatever killed processes left to the initial state of these theorems, and
      what is left of an interrupted stop does not go away.
    - Messages: the pointer codec is the reference encoding; what is sent is what is received,
      and a damaged frame is told apart; values of all types survive.
    - The path of a command: written by the executor, put on the wire by the handler, read by the
      device, assigned to exactly the parameters meant. The path of data back, and a
      subscription. When a mode ends the motors of every KoalaBear are told to stop, and when a
      client's connection is lost the mode ends. A device is connected in the lowest free place
      with the identity it announced; one that is refused, vanishes or falls silent leaves nothing
      behind.
    - Devices: every class but the battery monitor reads and writes as many bytes as the types have
      that the registry gives its parameters; the receiver implements the table of latest reports;
      verification; the motor controller keeps its pins in bounds and brakes; what it does when
      the handler is silent; a battery's calibration survives a restart and its safety verdict is
      what its cells say.
    - Network: any bytes in any pieces are framed as sent; the connection threads are safe
      together with all processes on sockets that do not fail; a lost connection stops the robot; Dawn cannot override
      Shepherd; a reconnecting client takes its place; Dawn is sent a snapshot of the shared
      memory, and what its user presses is what the student's code reads; the converter passes
      on in order and whole what either side sends.
    - The student's code: what it sets is what the device gets, what a device measures is what it
      reads, what the user presses is what it is told, and it is subscribed to what it reads; a
      call that is refused changes nothing; any threads of it that do not log are safe together
      with the other processes; at most eight actions are alive. A type that is not the device's
      evades the filter of the game states, and a log key of fewer than 64 characters but 64 bytes
      or more freezes the log, as does a 256th key.
    - Executor: one child at most, the right mode, how functions are called and ended; what
      challenges send back, and that nothing is sent when their time is over; game states last ten
      seconds and limit the velocities.
    - Descriptors: a port's settings through its life; what each program leaves open, on every
      refusal of the kernel; ports that cannot be set up exhaust the table, the serial ones by being
      tried again at every poll; what an interrupt does when UDP could not be started; the
      converter serves one client after the other.
    - Logger: where a line goes, what it is, and what a configuration file sets.
    - Defects that the model shows are theorems of the same kind: an overlong message that
      overruns a device's buffer, motors that keep driving when the handler is silent, a stopped
      child that blocks its parent, a ghost of Shepherd, challenge results that were never set.

    ** Bounds and fuel

    Loops over arrays count iterations and are total. The loops of [readn] and [writen] have one
    more step of fuel than their descriptor's script has entries, of which each iteration takes
    one; the search for a delimiter and the decoders have the number of bytes there are, of
    which each iteration takes one. That the fuel suffices is proved with the functions' results.
    Loops that the code runs for ever are given the list of what their iterations meet.

    ** Not modelled

    Threads and processes are created by system calls whose results are arguments; [init] of the
    device handler only calls the initialisations of the logger and of the shared memory, and
    [shm_close] gives back what an exiting process has open. Freed memory is not tracked: what
    the code fails to free is a finding where it is not a counter of the model. Lines for the log
    are left out where they carry no state. Of the student's interface, [get_all_params] imports and
    evaluates the student's file, and printing, sleeping and the body of a thread are the
    interpreter's.
    The vendored libraries of src/lowcar/lib are the environment. The RFID reader's class does
    not compile and no registry entry leads to it, and nothing calls the status LED. The thread
    that sends device data over UDP is modelled but is no task of [Runtime]: with 255 values in
    the log data it reads past its arrays. Nor are the handlers of SIGINT, which run in the
    middle of other threads. Tests, client tools, scripts and containers are not part of the
    runtime. *)

From stdpp Require Export base option list decidable.
From Stdlib Require Export ZArith Lia.

#[global] Open Scope Z_scope.

(** ** Outcomes of C code *)

(** What executing a C expression that may leave defined behaviour can do. *)
Inductive fault : Set :=
| NullDeref      (* a field of a NULL pointer is accessed *)
| OutOfBounds    (* a byte outside an allocation is read or written *)
| ShiftRange     (* a shift by an amount outside [0, 31] *)
| BadFormat      (* a printf conversion is given an argument of another type *)
| WildPtr.       (* a pointer that was never set is followed *)

(** [Exited c] is [exit(c)]; [Blocked] is a call that waits for input that the
    environment of this run never supplies. *)
Inductive outcome (A : Type) : Type :=
| Done (a : A)
| Faulty (f : fault)
| Exited (code : Z)
| Blocked
| OutOfFuel.

Arguments Done {A} a.
Arguments Faulty {A} f.
Arguments Exited {A} code.
Arguments Blocked {A}.
Arguments OutOfFuel {A}.

#[export] Instance outcome_ret : MRet outcome := fun A a => Done a.
#[export] Instance outcome_bind : MBind outcome := fun A B k m =>
  match m with
  | Done a => k a
  | Faulty f => Faulty f
  | Exited c => Exited c
  | Blocked => Blocked
  | OutOfFuel => OutOfFuel
  end.

#[export] Instance fault_eq_dec : EqDecision fault.
Proof. solve_decision. Defined.

#[export] Instance outcome_eq_dec `{EqDecision A} : EqDecision (outcome A).
Proof. solve_decision. Defined.

Lemma bind_done {A B} (a : A) (k : A -> outcome B) : (Done a ≫= k) = k a.
Proof. reflexivity. Qed.

Lemma bind_ret {A B} (a : A) (k : A -> outcome B) : (mret a ≫= k) = k a.
Proof. reflexivity. Qed.

Lemma bind_assoc {A B C} (m : outcome A) (f : A -> outcome B) (g : B -> outcome C) :
  ((m ≫= f) ≫= g) = (m ≫= fun a => f a ≫= g).
Proof. by destruct m. Qed.

Lemma bind_done_inv {A B} (m : outcome A) (k : A -> outcome B) b :
  (m ≫= k) = Done b -> exists a, m = Done a /\ k a = Done b.
Proof. destruct m; simpl; try discriminate. eauto. Qed.

Lemma done_inj {A} (a b : A) : Done a = Done b -> a = b.
Proof. by intros [= ->]. Qed.

Lemma done_pair {A B} (a a' : A) (b b' : B) : Done (a, b) = Done (a', b') -> a = a' /\ b = b'.
Proof. by intros [= -> ->]. Qed.

Definition is_done {A} (m : outcome A) : bool := match m with Done _ => true | _ => false end.

Lemma is_done_inv {A} (m : outcome A) : is_done m = true -> exists a, m = Done a.
Proof. destruct m; try discriminate. eauto. Qed.

(** Inverts every [bind] that produced a [Done]. *)
Ltac inv_done :=
  repeat match goal with
  | H : mbind _ _ = Done _ |- _ =>
      let a := fresh "a" in let Ha := fresh "Ha" in
      apply bind_done_inv in H as (a & Ha & H)
  | H : (_ ≫= _) = Done _ |- _ =>
      let a := fresh "a" in let Ha := fresh "Ha" in
      apply bind_done_inv in H as (a & Ha & H)
  | H : mret _ = Done _ |- _ => apply done_inj in H
  | H : Done _ = Done _ |- _ => apply done_inj in H
  end.

(** ** Machine words *)

(** A w-bit unsigned object holds a value modulo [2^w]. *)
Definition u8 (x : Z) : Z := x mod 2 ^ 8.
Definition u16 (x : Z) : Z := x mod 2 ^ 16.
Definition u32 (x : Z) : Z := x mod 2 ^ 32.
Definition u64 (x : Z) : Z := x mod 2 ^ 64.

(** Two's complement reading of a 32-bit word, and of an 8-bit one. *)
Definition s32 (x : Z) : Z := (x + 2 ^ 31) mod 2 ^ 32 - 2 ^ 31.
Definition s8 (x : Z) : Z := (x + 2 ^ 7) mod 2 ^ 8 - 2 ^ 7.

(** [1 << n] at type [int]: a shift of 32 or more (or negative) is undefined;
    [1 << 31] is the sign bit (the behaviour GCC documents for it). *)
Definition int_shl1 (n : Z) : outcome Z :=
  if (0 <=? n) && (n <? 32) then mret (s32 (Z.shiftl 1 n)) else Faulty ShiftRange.

Lemma u8_range x : 0 <= u8 x < 256.
Proof. apply Z.mod_pos_bound. lia. Qed.

Lemma u16_range x : 0 <= u16 x < 65536.
Proof. apply Z.mod_pos_bound. lia. Qed.

Lemma u8_small x : 0 <= x < 256 -> u8 x = x.
Proof. intros. apply Z.mod_small. lia. Qed.

Lemma u16_small x : 0 <= x < 65536 -> u16 x = x.
Proof. intros. apply Z.mod_small. lia. Qed.

Lemma u32_small x : 0 <= x < 2 ^ 32 -> u32 x = x.
Proof. intros. apply Z.mod_small. lia. Qed.

Lemma u64_small x : 0 <= x < 2 ^ 64 -> u64 x = x.
Proof. intros. apply Z.mod_small. lia. Qed.

Create HintDb words.
Create Rewrite HintDb words.
#[export] Hint Rewrite u8_small u16_small u32_small u64_small using lia : words.

(** ** Bitmaps held in unsigned words *)

(** [m & (1 << i)], read as a truth value. *)
Definition bit_on (m : Z) (i : nat) : bool := negb (Z.land m (Z.shiftl 1 (Z.of_nat i)) =? 0).
(** [m |= (1 << i)] and [m &= ~(1 << i)]. *)
Definition bit_set (m : Z) (i : nat) : Z := Z.lor m (Z.shiftl 1 (Z.of_nat i)).
Definition bit_clear (m : Z) (i : nat) : Z := Z.land m (Z.lnot (Z.shiftl 1 (Z.of_nat i))).

Lemma testbit_shl1 i j : Z.testbit (Z.shiftl 1 (Z.of_nat i)) (Z.of_nat j) = bool_decide (i = j).
Proof.
  rewrite Z.shiftl_spec by lia. case_bool_decide as Hij.
  - subst. by rewrite Z.sub_diag.
  - destruct (Z.ltb_spec (Z.of_nat j - Z.of_nat i) 0).
    + by apply Z.testbit_neg_r.
    + apply (Z.bits_above_log2 1); simpl; lia.
Qed.

Lemma land_shl1 m i :
  Z.land m (Z.shiftl 1 (Z.of_nat i)) =
  if Z.testbit m (Z.of_nat i) then Z.shiftl 1 (Z.of_nat i) else 0.
Proof.
  apply Z.bits_inj'. intros n Hn. rewrite Z.land_spec.
  rewrite <- (Z2Nat.id n) by lia. rewrite testbit_shl1.
  case_bool_decide as Hi.
  - subst. destruct (Z.testbit m _) eqn:E; simpl.
    + by rewrite testbit_shl1, bool_decide_true.
    + by rewrite Z.bits_0.
  - rewrite andb_false_r. destruct (Z.testbit m _).
    + by rewrite testbit_shl1, bool_decide_false.
    + by rewrite Z.bits_0.
Qed.

Lemma bit_on_testbit m i : bit_on m i = Z.testbit m (Z.of_nat i).
Proof.
  unfold bit_on. rewrite land_shl1. destruct (Z.testbit m _); [|done].
  rewrite Z.shiftl_1_l. assert (0 < 2 ^ Z.of_nat i) by (apply Z.pow_pos_nonneg; lia).
  destruct (Z.eqb_spec (2 ^ Z.of_nat i) 0); [lia | done].
Qed.

Lemma bit_on_set m i j : bit_on (bit_set m i) j = bool_decide (i = j) || bit_on m j.
Proof.
  rewrite !bit_on_testbit. unfold bit_set.
  rewrite Z.lor_spec, testbit_shl1. apply orb_comm.
Qed.

Lemma bit_on_clear m i j : bit_on (bit_clear m i) j = bool_decide (i ≠ j) && bit_on m j.
Proof.
  rewrite !bit_on_testbit. unfold bit_clear.
  rewrite Z.land_spec, Z.lnot_spec, testbit_shl1 by lia.
  rewrite andb_comm. f_equal. by rewrite <- bool_decide_not.
Qed.

Lemma bit_on_set_eq m i : bit_on (bit_set m i) i = true.
Proof. by rewrite bit_on_set, bool_decide_true. Qed.

Lemma bit_on_set_ne m i j : i ≠ j -> bit_on (bit_set m i) j = bit_on m j.
Proof. intros. by rewrite bit_on_set, bool_decide_false. Qed.

Lemma bit_on_clear_eq m i : bit_on (bit_clear m i) i = false.
Proof. rewrite bit_on_clear, bool_decide_false; naive_solver. Qed.

Lemma bit_on_clear_ne m i j : i ≠ j -> bit_on (bit_clear m i) j = bit_on m j.
Proof. intros. by rewrite bit_on_clear, bool_decide_true. Qed.

Lemma bit_on_0 i : bit_on 0 i = false.
Proof. rewrite bit_on_testbit. apply Z.bits_0. Qed.

Lemma bit_on_lor a b i : bit_on (Z.lor a b) i = bit_on a i || bit_on b i.
Proof. rewrite !bit_on_testbit. apply Z.lor_spec. Qed.

Lemma bit_on_land a b i : bit_on (Z.land a b) i = bit_on a i && bit_on b i.
Proof. rewrite !bit_on_testbit. apply Z.land_spec. Qed.

Lemma bit_on_andnot a b i : bit_on (Z.land a (Z.lnot b)) i = bit_on a i && negb (bit_on b i).
Proof. rewrite !bit_on_testbit, Z.land_spec, Z.lnot_spec by lia. done. Qed.

Create Rewrite HintDb bits.
#[export] Hint Rewrite bit_on_set_eq bit_on_clear_eq bit_on_0 bit_on_lor bit_on_land bit_on_andnot : bits.
#[export] Hint Rewrite bit_on_set_ne bit_on_clear_ne using (first [done | lia | congruence]) : bits.

(** A word that fits 32 bits is determined by its first 32 bits. *)
Definition word32 (m : Z) : Prop := 0 <= m < 2 ^ 32.

#[export] Instance word32_dec m : Decision (word32 m).
Proof. unfold word32. apply _. Defined.

Lemma testbit_high w m i : 0 <= m < 2 ^ w -> 0 <= w <= i -> Z.testbit m i = false.
Proof.
  intros Hm Hi. destruct (Z.eq_dec m 0) as [->|Hne]; [apply Z.bits_0|].
  apply Z.bits_above_log2; [lia|].
  assert (Z.log2 m < w) by (apply Z.log2_lt_pow2; lia). lia.
Qed.

Lemma word_from_bits w m : 0 <= w ->
  (forall i, w <= i -> Z.testbit m i = false) -> 0 <= m -> m < 2 ^ w.
Proof.
  intros Hw Hbits Hm. destruct (Z.eq_dec m 0) as [->|Hne]; [apply Z.pow_pos_nonneg; lia|].
  apply Z.log2_lt_pow2; [lia|].
  destruct (Z.lt_ge_cases (Z.log2 m) w) as [|Hge]; [done|].
  specialize (Hbits _ Hge). rewrite Z.bit_log2 in Hbits by lia. done.
Qed.

Lemma word32_bits m : 0 <= m -> (forall i, (32 <= i)%nat -> bit_on m i = false) -> word32 m.
Proof.
  intros Hm Hb. split; [done|]. apply word_from_bits; [lia| |done].
  intros i Hi. rewrite <- (Z2Nat.id i) by lia. rewrite <- bit_on_testbit. apply Hb. lia.
Qed.

Lemma word32_high m i : word32 m -> (32 <= i)%nat -> bit_on m i = false.
Proof. intros Hm Hi. rewrite bit_on_testbit. apply (testbit_high 32); [done | lia]. Qed.

Lemma word32_ext a b :
  word32 a -> word32 b -> (forall i, (i < 32)%nat -> bit_on a i = bit_on b i) -> a = b.
Proof.
  intros Ha Hb Hab. apply Z.bits_inj'. intros n Hn.
  rewrite <- (Z2Nat.id n) by lia. rewrite <- !bit_on_testbit.
  destruct (Nat.lt_ge_cases (Z.to_nat n) 32); [by apply Hab|].
  by rewrite !word32_high.
Qed.

Lemma word32_set m i : word32 m -> (i < 32)%nat -> word32 (bit_set m i).
Proof.
  intros Hm Hi. apply word32_bits.
  - unfold bit_set. apply Z.lor_nonneg. split; [apply Hm|]. apply Z.shiftl_nonneg. lia.
  - intros j Hj. rewrite bit_on_set_ne by lia. by apply word32_high.
Qed.

Lemma word32_land a b : word32 a -> word32 (Z.land a b).
Proof.
  intros Ha. apply word32_bits.
  - apply Z.land_nonneg. left. apply Ha.
  - intros j Hj. rewrite bit_on_land, (word32_high a) by done. done.
Qed.

Lemma word32_clear m i : word32 m -> word32 (bit_clear m i).
Proof. apply word32_land. Qed.

Lemma word32_lor a b : word32 a -> word32 b -> word32 (Z.lor a b).
Proof.
  intros Ha Hb. apply word32_bits.
  - apply Z.lor_nonneg. split; [apply Ha | apply Hb].
  - intros j Hj. by rewrite bit_on_lor, !word32_high.
Qed.

Lemma word32_0 : word32 0.
Proof. unfold word32. lia. Qed.

#[export] Hint Resolve word32_0 word32_set word32_clear word32_land word32_lor : words.

(** ** Byte buffers: an allocation is the list of its bytes *)

Definition bytes : Set := list Z.

Definition byte_ok (b : Z) : Prop := 0 <= b < 256.

#[export] Instance byte_ok_dec b : Decision (byte_ok b).
Proof. unfold byte_ok. apply _. Defined.

Definition buf_get {A} (b : list A) (i : nat) : outcome A :=
  match b !! i with
  | Some x => mret x
  | None => Faulty OutOfBounds
  end.

Definition buf_set {A} (b : list A) (i : nat) (x : A) : outcome (list A) :=
  if (i <? length b)%nat then mret (<[i:=x]> b) else Faulty OutOfBounds.

(** [memcpy] out of, and into, an allocation. *)
Definition buf_read (b : bytes) (i n : nat) : outcome bytes :=
  if (i + n <=? length b)%nat then mret (take n (drop i b)) else Faulty OutOfBounds.

Definition buf_write (b : bytes) (i : nat) (bs : bytes) : outcome bytes :=
  if (i + length bs <=? length b)%nat
  then mret (take i b ++ bs ++ drop (i + length bs) b) else Faulty OutOfBounds.

Lemma buf_get_done {A} (b : list A) i x : b !! i = Some x -> buf_get b i = Done x.
Proof. intros H. unfold buf_get. by rewrite H. Qed.

Lemma buf_set_done {A} (b : list A) i x : (i < length b)%nat -> buf_set b i x = Done (<[i:=x]> b).
Proof. intros H. unfold buf_set. by rewrite (proj2 (Nat.ltb_lt _ _) H). Qed.

Lemma buf_set_inv {A} (b b' : list A) i x :
  buf_set b i x = Done b' -> (i < length b)%nat /\ b' = <[i:=x]> b.
Proof.
  unfold buf_set. destruct (Nat.ltb_spec i (length b)); [|done].
  intros [= <-]. done.
Qed.

Lemma buf_get_inv {A} (b : list A) i x : buf_get b i = Done x -> b !! i = Some x.
Proof. unfold buf_get. destruct (b !! i); [by intros [= <-] | done]. Qed.

Lemma buf_get_app {A} (pre post : list A) x i :
  i = length pre -> buf_get (pre ++ x :: post) i = Done x.
Proof. intros ->. apply buf_get_done. by apply list_lookup_middle. Qed.

Lemma buf_set_app {A} (pre post : list A) x y i :
  i = length pre -> buf_set (pre ++ x :: post) i y = Done (pre ++ y :: post).
Proof.
  intros ->. rewrite buf_set_done by (rewrite length_app; simpl; lia).
  by rewrite <- (Nat.add_0_r (length pre)), insert_app_r.
Qed.

Lemma buf_read_app pre mid post i n :
  i = length pre -> n = length mid -> buf_read (pre ++ mid ++ post) i n = Done mid.
Proof.
  intros -> ->. unfold buf_read.
  rewrite (proj2 (Nat.leb_le _ _)) by (rewrite !length_app; lia).
  by rewrite drop_app_length, take_app_length.
Qed.

Lemma buf_write_app pre mid post bs i :
  i = length pre -> length bs = length mid ->
  buf_write (pre ++ mid ++ post) i bs = Done (pre ++ bs ++ post).
Proof.
  intros -> Hl. unfold buf_write.
  rewrite (proj2 (Nat.leb_le _ _)) by (rewrite !length_app; lia).
  rewrite take_app_length. do 3 f_equal.
  by rewrite <- drop_drop, drop_app_length, Hl, drop_app_length.
Qed.

(** Writing a whole prefix of an allocation. *)
Lemma buf_write_prefix b bs : (length bs <= length b)%nat ->
  buf_write b 0 bs = Done (bs ++ drop (length bs) b).
Proof. intros H. unfold buf_write. by rewrite (proj2 (Nat.leb_le _ _)) by lia. Qed.

Lemma buf_write_length b i bs b' : buf_write b i bs = Done b' -> length b' = length b.
Proof.
  unfold buf_write. destruct (Nat.leb_spec (i + length bs) (length b)); [|done].
  intros [= <-]. rewrite !length_app, length_take, length_drop. lia.
Qed.

Lemma buf_read_length b i n bs : buf_read b i n = Done bs -> length bs = n.
Proof.
  unfold buf_read. destruct (Nat.leb_spec (i + n) (length b)); [|done].
  intros [= <-]. rewrite length_take, length_drop. lia.
Qed.

Lemma buf_read_prefix b n : (n <= length b)%nat -> buf_read b 0 n = Done (take n b).
Proof. intros H. unfold buf_read. by rewrite (proj2 (Nat.leb_le _ _)) by lia. Qed.

(** ** The allocator *)

(** [malloc n] is the block obtained, with whatever it contains, or NULL. *)
Class Heap : Set := { malloc : nat -> option bytes }.

(** An allocator that never runs out of memory. *)
Class ReliableHeap (H : Heap) : Prop :=
  malloc_ok : forall n, exists b, malloc n = Some b /\ length b = n.

(** [malloc] followed by the test that logs and calls [exit(1)] on NULL. *)
Definition alloc `{Heap} (n : nat) : outcome bytes :=
  match malloc n with
  | Some b => mret b
  | None => Exited 1
  end.

Lemma alloc_done {H : Heap} {HR : ReliableHeap H} n : exists b, alloc n = Done b /\ length b = n.
Proof. destruct (malloc_ok n) as (b & Hb & Hl). exists b. unfold alloc. by rewrite Hb. Qed.

(** A heap whose fresh memory is zero and which never runs out. *)
Definition zero_heap : Heap := {| malloc n := Some (replicate n 0) |}.

#[export] Instance zero_heap_reliable : ReliableHeap zero_heap.
Proof. intros n. exists (replicate n 0). by rewrite length_replicate. Qed.

(** ** Little-endian images of integers *)

Fixpoint le_bytes (n : nat) (z : Z) : bytes :=
  match n with
  | O => []
  | S n' => z mod 256 :: le_bytes n' (z / 256)
  end.

Fixpoint le_word (bs : bytes) : Z :=
  match bs with
  | [] => 0
  | b :: bs' => b + 256 * le_word bs'
  end.

Lemma length_le_bytes n z : length (le_bytes n z) = n.
Proof. revert z. induction n; simpl; auto. Qed.

Lemma le_bytes_ok n z : Forall byte_ok (le_bytes n z).
Proof.
  revert z. induction n; simpl; constructor; auto.
  apply Z.mod_pos_bound. lia.
Qed.

Lemma le_word_bytes n z : le_word (le_bytes n z) = z mod 2 ^ (8 * Z.of_nat n).
Proof.
  revert z. induction n as [|n IH]; intros z; cbn [le_bytes le_word].
  { by rewrite Z.mod_1_r. }
  rewrite IH, Nat2Z.inj_succ.
  replace (8 * Z.succ (Z.of_nat n)) with (8 + 8 * Z.of_nat n) by lia.
  rewrite Z.pow_add_r by lia. change (2 ^ 8) with 256.
  assert (0 < 2 ^ (8 * Z.of_nat n)) by (apply Z.pow_pos_nonneg; lia).
  rewrite Z.rem_mul_r by lia. done.
Qed.

Lemma le_word_range bs : Forall byte_ok bs -> 0 <= le_word bs < 2 ^ (8 * Z.of_nat (length bs)).
Proof.
  induction 1 as [|b bs Hb _ IH]; cbn [le_word length]; [done|].
  rewrite Nat2Z.inj_succ. replace (8 * Z.succ (Z.of_nat (length bs)))
    with (8 + 8 * Z.of_nat (length bs)) by lia.
  rewrite Z.pow_add_r by lia. unfold byte_ok in Hb. lia.
Qed.

Lemma le_bytes_word bs : Forall byte_ok bs -> le_bytes (length bs) (le_word bs) = bs.
Proof.
  induction 1 as [|b bs Hb _ IH]; cbn [le_word length le_bytes]; [done|].
  unfold byte_ok in Hb.
  rewrite Z.mul_comm, Z.mod_add, Z.mod_small, Z.div_add, Z.div_small, Z.add_0_l by lia.
  by rewrite IH.
Qed.

Lemma le_word32 z : word32 z -> le_word (le_bytes 4 z) = z.
Proof. intros Hz. rewrite le_word_bytes. by apply Z.mod_small. Qed.

Create Rewrite HintDb lengths.
#[export] Hint Rewrite length_le_bytes @length_app @length_take @length_drop @length_replicate @length_insert : lengths.

(** ** Lists *)

(** Linear arithmetic over the lengths of list expressions. *)
Ltac list_lia :=
  repeat (progress (cbn [length app] in *; autorewrite with lengths in *)); lia.

Lemma nth_middle' {A} (l l' : list A) x d n : length l = n -> nth n (l ++ x :: l') d = x.
Proof. intros <-. apply nth_middle. Qed.

Lemma nth_replicate {A} n i (x : A) : nth i (replicate n x) x = x.
Proof.
  rewrite nth_lookup. destruct (replicate n x !! i) as [y|] eqn:E; [|done].
  by apply lookup_replicate in E as [-> _].
Qed.

(** A list paired with its indices. *)
Lemma lookup_zip_seq {A} (l : list A) i x :
  l !! i = Some x -> zip (seq 0 (length l)) l !! i = Some (i, x).
Proof.
  intros Hi. apply lookup_zip_with_Some. exists i, x. split; [done|]. split; [|done].
  apply lookup_seq. split; [done|]. by apply lookup_lt_Some in Hi.
Qed.

(** ** Ranges of indices *)

(** [j] is one of the [k] indices from [first] on. *)
Definition between (first k j : nat) : bool := ((first <=? j) && (j <? first + k))%nat.

Lemma between_true first k j : between first k j = true <-> (first <= j < first + k)%nat.
Proof. unfold between. rewrite andb_true_iff, Nat.leb_le, Nat.ltb_lt. done. Qed.

Lemma between_0 first j : between first 0 j = false.
Proof. apply not_true_iff_false. rewrite between_true. lia. Qed.

Lemma between_all k j : (j < k)%nat -> between 0 k j = true.
Proof. intros Hj. apply between_true. lia. Qed.

Lemma between_out k j : (k <= j)%nat -> between 0 k j = false.
Proof. intros Hj. apply not_true_iff_false. rewrite between_true. lia. Qed.

Lemma between_here first k : between first (S k) first = true.
Proof. apply between_true. lia. Qed.

Lemma between_past first k : between (S first) k first = false.
Proof. apply not_true_iff_false. rewrite between_true. lia. Qed.

Lemma between_S first k j : j ≠ first -> between first (S k) j = between (S first) k j.
Proof. intros Hj. apply eq_true_iff_eq. rewrite !between_true. lia. Qed.

Create Rewrite HintDb ranges.
#[export] Hint Rewrite between_0 between_here between_past : ranges.
#[export] Hint Rewrite between_all between_out between_S using (first [done | lia]) : ranges.

(** ** Loops *)

(** [for (i = first; i < first + k; i++) body]. *)
Fixpoint for_range {S : Type} (k first : nat) (body : nat -> S -> outcome S) (s : S) : outcome S :=
  match k with
  | O => mret s
  | Datatypes.S k' => s' ← body first s; for_range k' (Datatypes.S first) body s'
  end.

(** [for (i = first; (bitmap >> i) > 0 && i < first + k; i++) body]; the bitmap may be a
    part of the state that the body changes. (The code also evaluates the shift once more at the
    bound, before it compares the index; no result depends on it.) *)
Fixpoint for_bits {S : Type} (k first : nat) (bitmap : S -> Z) (body : nat -> S -> outcome S) (s : S)
  : outcome S :=
  match k with
  | O => mret s
  | Datatypes.S k' =>
      if Z.shiftr (bitmap s) (Z.of_nat first) >? 0
      then s' ← body first s; for_bits k' (Datatypes.S first) bitmap body s'
      else mret s
  end.

Lemma for_range_app {S} k k' first body (s : S) :
  for_range (k + k') first body s =
  (s' ← for_range k first body s; for_range k' (first + k) body s').
Proof.
  revert first s. induction k as [|k IH]; intros first s; cbn [for_range Nat.add].
  - by rewrite Nat.add_0_r.
  - rewrite bind_assoc. destruct (body first s); try done.
    rewrite !bind_done, IH. by replace (first + Datatypes.S k)%nat with (Datatypes.S first + k)%nat by lia.
Qed.

Lemma for_range_ext {S} k first body body' (s : S) :
  (forall i s, (first <= i < first + k)%nat -> body i s = body' i s) ->
  for_range k first body s = for_range k first body' s.
Proof.
  revert first s. induction k as [|k IH]; intros first s Hb; cbn [for_range]; [done|].
  rewrite Hb by lia. destruct (body' first s); try done.
  rewrite !bind_done. apply IH. intros. apply Hb. lia.
Qed.

(** An invariant indexed by the loop counter. *)
Lemma for_range_inv {S} (I : nat -> S -> Prop) k first body (s : S) :
  I first s ->
  (forall i s, (first <= i < first + k)%nat -> I i s ->
     exists s', body i s = Done s' /\ I (Datatypes.S i) s') ->
  exists s', for_range k first body s = Done s' /\ I (first + k)%nat s'.
Proof.
  revert first s. induction k as [|k IH]; intros first s Hs Hb; cbn [for_range].
  - exists s. by rewrite Nat.add_0_r.
  - destruct (Hb first s) as (s1 & -> & H1); [lia | done |]. rewrite bind_done.
    destruct (IH (Datatypes.S first) s1 H1) as (s2 & -> & H2).
    { intros i s' Hi. apply Hb. lia. }
    exists s2. split; [done|]. by replace (first + Datatypes.S k)%nat with (Datatypes.S first + k)%nat by lia.
Qed.

Lemma shiftr_gt0 m i j : 0 <= m -> (i <= j)%nat -> bit_on m j = true ->
  (Z.shiftr m (Z.of_nat i) >? 0) = true.
Proof.
  intros Hm Hij Hb. apply Z.gtb_lt. rewrite bit_on_testbit in Hb.
  assert (Z.shiftr m (Z.of_nat i) ≠ 0).
  { intros H0. assert (Ht : Z.testbit (Z.shiftr m (Z.of_nat i)) (Z.of_nat (j - i)) = false)
      by (by rewrite H0, Z.bits_0).
    rewrite Z.shiftr_spec in Ht by lia.
    replace (Z.of_nat (j - i) + Z.of_nat i) with (Z.of_nat j) in Ht by lia. congruence. }
  assert (0 <= Z.shiftr m (Z.of_nat i)) by (by apply Z.shiftr_nonneg). lia.
Qed.

(** With a fixed bitmap and a body that does nothing on clear bits, the early exit of
    [for_bits] changes nothing. *)
Lemma for_bits_range {S} k first m body (s : S) :
  0 <= m ->
  (forall i s, (first <= i < first + k)%nat -> bit_on m i = false -> body i s = Done s) ->
  for_bits k first (fun _ => m) body s = for_range k first body s.
Proof.
  revert first s. induction k as [|k IH]; intros first s Hm Hb; cbn [for_bits for_range]; [done|].
  destruct (Z.gtb_spec (Z.shiftr m (Z.of_nat first)) 0) as [Hgt|Hle].
  - destruct (body first s); try done. rewrite !bind_done. apply IH; [done|].
    intros i s' Hi. apply Hb. lia.
  - assert (Hoff : forall j, (first <= j)%nat -> bit_on m j = false).
    { intros j Hj. destruct (bit_on m j) eqn:E; [|done].
      apply (shiftr_gt0 m first j) in E; [|done..]. apply Z.gtb_lt in E. lia. }
    rewrite Hb, bind_done by (lia || (apply Hoff; lia)).
    clear -Hb Hoff. symmetry.
    assert (Hall : forall k' f', (first < f')%nat -> (f' + k' <= first + Datatypes.S k)%nat ->
      for_range k' f' body s = Done s).
    { induction k' as [|k' IH']; intros f' H1 H2; cbn [for_range]; [done|].
      rewrite Hb, bind_done by (lia || (apply Hoff; lia)). apply IH'; lia. }
    apply Hall; lia.
Qed.

(** Loops that clear some bits of the bitmap they run over. *)
Definition filtered (keep : nat -> bool) (k first : nat) (m m' : Z) : Prop :=
  0 <= m' /\ forall j, bit_on m' j = bit_on m j && (keep j || negb (between first k j)).

Lemma filtered_step keep k first m m' :
  filtered keep k (Datatypes.S first) (if keep first then m else bit_clear m first) m' ->
  filtered keep (Datatypes.S k) first m m'.
Proof.
  intros [H0 Hb]. split; [done|]. intros j. rewrite Hb.
  destruct (decide (j = first)) as [->|Hj].
  - rewrite between_past, between_here. cbn [negb]. rewrite orb_true_r, orb_false_r, andb_true_r.
    destruct (keep first); [by rewrite andb_true_r | by rewrite bit_on_clear_eq, andb_false_r].
  - rewrite between_S by done. destruct (keep first); [done|]. by rewrite bit_on_clear_ne.
Qed.

Lemma clear_nonneg (keep : bool) m i : 0 <= m -> 0 <= (if keep then m else bit_clear m i).
Proof. intros Hm. destruct keep; [done|]. apply Z.land_nonneg. by left. Qed.

Lemma filtered_0 keep first m : 0 <= m -> filtered keep 0 first m m.
Proof.
  intros Hm. split; [done|]. intros j. rewrite between_0. cbn [negb]. by rewrite orb_true_r, andb_true_r.
Qed.

Lemma for_range_filter (keep : nat -> bool) k : forall first (m : Z) (body : nat -> Z -> outcome Z), 0 <= m ->
  (forall i m, (first <= i < first + k)%nat ->
     body i m = Done (if keep i then m else bit_clear m i)) ->
  exists m', for_range k first body m = Done m' /\ filtered keep k first m m'.
Proof.
  induction k as [|k IH]; intros first m body Hm Hb; cbn [for_range].
  { exists m. split; [done | by apply filtered_0]. }
  rewrite Hb, bind_done by lia.
  destruct (IH (Datatypes.S first) (if keep first then m else bit_clear m first) body) as (m' & -> & Hf).
  { by apply clear_nonneg. }
  { intros i m' Hi. apply Hb. lia. }
  exists m'. split; [done | by apply filtered_step].
Qed.

Lemma for_bits_filter (keep : nat -> bool) k : forall first (m : Z) (body : nat -> Z -> outcome Z), 0 <= m ->
  (forall i m, (first <= i < first + k)%nat ->
     body i m = Done (if keep i then m else bit_clear m i)) ->
  exists m', for_bits k first (fun m => m) body m = Done m' /\ filtered keep k first m m'.
Proof.
  induction k as [|k IH]; intros first m body Hm Hb; cbn [for_bits].
  { exists m. split; [done | by apply filtered_0]. }
  destruct (Z.gtb_spec (Z.shiftr m (Z.of_nat first)) 0) as [Hgt|Hle].
  - rewrite Hb, bind_done by lia.
    destruct (IH (Datatypes.S first) (if keep first then m else bit_clear m first) body) as (m' & -> & Hf).
    { by apply clear_nonneg. }
    { intros i m' Hi. apply Hb. lia. }
    exists m'. split; [done | by apply filtered_step].
  - exists m. split; [done|]. split; [done|]. intros j.
    destruct (between first (Datatypes.S k) j) eqn:Hj; [|by rewrite orb_true_r, andb_true_r].
    apply between_true in Hj. destruct (bit_on m j) eqn:E; [|done].
    apply (shiftr_gt0 m first j), Z.gtb_lt in E; [lia | done | lia].
Qed.

(** A filter over all the bits of a word. *)
Lemma filtered_word32 keep m m' :
  word32 m -> filtered keep 32 0 m m' ->
  word32 m' /\ forall i, bit_on m' i = bit_on m i && keep i.
Proof.
  intros Hm [H0 Hb].
  assert (Hbits : forall i, bit_on m' i = bit_on m i && keep i).
  { intros i. rewrite Hb. destruct (Nat.lt_ge_cases i 32).
    - rewrite between_all by done. by rewrite orb_false_r.
    - by rewrite word32_high. }
  split; [|done]. apply word32_bits; [done|]. intros i Hi. by rewrite Hbits, word32_high.
Qed.
