(* ===== verification/RuntimeUtil.v ===== *)
(** * Runtime utilities: enumerations, the device registry, bit names, the clock
    (src/runtime_util/runtime_util.h and runtime_util.c).

    The registry [DEVICES] is the constructor-initialised array of the code; the
    lookup functions scan it the way their [for] loops do. *)

From stdpp Require Import strings.
From S2P Require Export Prelude.

(** ** Constants *)

Definition MAX_DEVICES : nat := 32.
Definition MAX_PARAMS : nat := 32.
Definition DEVICES_LENGTH : nat := 64.
Definition NUM_DESC_FIELDS_PERM : nat := 6.
Definition NUM_DESC_FIELDS_TEMP : nat := 3.
Definition NUM_DESC_FIELDS : nat := NUM_DESC_FIELDS_PERM + NUM_DESC_FIELDS_TEMP.
Definition LOG_KEY_LENGTH : nat := 64.
Definition NUM_GAMEPAD_BUTTONS : nat := 17.
Definition NUM_KEYBOARD_BUTTONS : nat := 47.
Definition UCHAR_MAX : nat := 255.

(** ** Enumerations *)

Inductive process_t : Set := DEV_HANDLER | EXECUTOR | NET_HANDLER | SHM | TEST.

Inductive robot_desc_field_t : Set :=
| RUN_MODE | DAWN | SHEPHERD | GAMEPAD | KEYBOARD | START_POS
| HYPOTHERMIA | POISON_IVY | DEHYDRATION.

Inductive robot_desc_val_t : Set :=
| IDLE | AUTO | TELEOP | CHALLENGE
| CONNECTED | DISCONNECTED
| LEFT | RIGHT
| ACTIVE | INACTIVE.

Inductive param_type_t : Set := INT | FLOAT | BOOL.

#[export] Instance process_eq_dec : EqDecision process_t.
Proof. solve_decision. Defined.
#[export] Instance field_eq_dec : EqDecision robot_desc_field_t.
Proof. solve_decision. Defined.
#[export] Instance val_eq_dec : EqDecision robot_desc_val_t.
Proof. solve_decision. Defined.
#[export] Instance param_type_eq_dec : EqDecision param_type_t.
Proof. solve_decision. Defined.

(** The value of a field's enumerator, used by the code as an array index. *)
Definition field_index (f : robot_desc_field_t) : nat :=
  match f with
  | RUN_MODE => 0 | DAWN => 1 | SHEPHERD => 2 | GAMEPAD => 3 | KEYBOARD => 4 | START_POS => 5
  | HYPOTHERMIA => 6 | POISON_IVY => 7 | DEHYDRATION => 8
  end.

(** ** Parameter values *)

(** [param_val_t] is a 4-byte union; an object of it is its 32-bit image. The
    [float] member is read and written as its bit pattern. *)
Notation param_val_t := Z (only parsing).

Definition p_i (v : param_val_t) : Z := s32 v.
Definition p_f (v : param_val_t) : Z := v.
Definition p_b (v : param_val_t) : Z := u8 v.

(** Writing the one-byte member leaves the other three bytes of the union. *)
Definition set_p_i (v : param_val_t) (x : Z) : param_val_t := u32 x.
Definition set_p_f (v : param_val_t) (x : Z) : param_val_t := u32 x.
Definition set_p_b (v : param_val_t) (x : Z) : param_val_t := 256 * (v / 256) + u8 x.

(** The [sizeof] of the C type a parameter is serialised as. *)
Definition param_size (ty : param_type_t) : nat :=
  match ty with INT => 4 | FLOAT => 4 | BOOL => 1 end.

(** ** Records *)

Record dev_id_t : Set := DevId { id_type : Z; id_year : Z; id_uid : Z }.

(** [name] is a pointer: the parameters past [num_params] are zero-initialised, so
    theirs is NULL. *)
Record param_desc_t : Set :=
  ParamDesc { pd_name : option string; pd_type : param_type_t; pd_read : Z; pd_write : Z }.

Record device_t : Set := Device {
  device_type : Z;
  device_name : string;
  num_params : nat;
  params : list param_desc_t   (* MAX_PARAMS elements *)
}.

#[export] Instance dev_id_eq_dec : EqDecision dev_id_t.
Proof. solve_decision. Defined.
#[export] Instance param_desc_eq_dec : EqDecision param_desc_t.
Proof. solve_decision. Defined.
#[export] Instance device_eq_dec : EqDecision device_t.
Proof. solve_decision. Defined.

Definition zero_param : param_desc_t := ParamDesc None INT 0 0.

(** An initialiser names the first parameters; C zero-initialises the others. *)
Definition init_device (type : Z) (name : string) (n : nat) (ps : list param_desc_t) : device_t :=
  Device type name n (ps ++ replicate (MAX_PARAMS - length ps) zero_param).

Definition Param (name : string) (ty : param_type_t) (read write : Z) : param_desc_t :=
  ParamDesc (Some name) ty read write.

(** ** The device definitions *)

Definition DummyDevice : device_t :=
  init_device 0 "DummyDevice" 16
    [ Param "RUNTIME" INT 1 0;
      Param "SHEPHERD" FLOAT 1 0;
      Param "DAWN" BOOL 1 0;
      Param "DEVOPS" INT 1 0;
      Param "ATLAS" FLOAT 1 0;
      Param "INFRA" BOOL 1 0;
      Param "SENS" INT 0 1;
      Param "PDB" FLOAT 0 1;
      Param "MECH" BOOL 0 1;
      Param "CPR" INT 0 1;
      Param "EDU" FLOAT 0 1;
      Param "EXEC" BOOL 0 1;
      Param "PIEF" INT 1 1;
      Param "FUNTIME" FLOAT 1 1;
      Param "SHEEP" BOOL 1 1;
      Param "DUSK" INT 1 1 ].

Definition LimitSwitch : device_t :=
  init_device 1 "LimitSwitch" 3
    [ Param "switch0" BOOL 1 0;
      Param "switch1" BOOL 1 0;
      Param "switch2" BOOL 1 0 ].

Definition LineFollower : device_t :=
  init_device 2 "LineFollower" 3
    [ Param "left" FLOAT 1 0;
      Param "center" FLOAT 1 0;
      Param "right" FLOAT 1 0 ].

Definition BatteryBuzzer : device_t :=
  init_device 3 "BatteryBuzzer" 8
    [ Param "is_unsafe" BOOL 1 0;
      Param "calibrated" BOOL 1 0;
      Param "v_cell1" FLOAT 1 0;
      Param "v_cell2" FLOAT 1 0;
      Param "v_cell3" FLOAT 1 0;
      Param "v_batt" FLOAT 1 0;
      Param "dv_cell2" FLOAT 1 0;
      Param "dv_cell3" FLOAT 1 0 ].

Definition ServoControl : device_t :=
  init_device 4 "ServoControl" 2
    [ Param "servo0" FLOAT 1 1;
      Param "servo1" FLOAT 1 1 ].

Definition PolarBear : device_t :=
  init_device 5 "PolarBear" 3
    [ Param "duty_cycle" FLOAT 1 1;
      Param "motor_current" FLOAT 1 0;
      Param "deadband" FLOAT 1 1 ].

Definition KoalaBear : device_t :=
  init_device 6 "KoalaBear" 16
    [ Param "velocity_a" FLOAT 1 1;
      Param "deadband_a" FLOAT 1 1;
      Param "invert_a" BOOL 1 1;
      Param "pid_enabled_a" BOOL 1 1;
      Param "pid_kp_a" FLOAT 1 1;
      Param "pid_ki_a" FLOAT 1 1;
      Param "pid_kd_a" FLOAT 1 1;
      Param "enc_a" INT 1 1;
      Param "velocity_b" FLOAT 1 1;
      Param "deadband_b" FLOAT 1 1;
      Param "invert_b" BOOL 1 1;
      Param "pid_enabled_b" BOOL 1 1;
      Param "pid_kp_b" FLOAT 1 1;
      Param "pid_ki_b" FLOAT 1 1;
      Param "pid_kd_b" FLOAT 1 1;
      Param "enc_b" INT 1 1 ].

Definition CustomDevice : device_t :=
  init_device (Z.of_nat MAX_DEVICES) "CustomDevice" 1
    [ Param "time_ms" INT 1 0 ].

Definition SoundDevice : device_t :=
  init_device 59 "SoundDevice" 2
    [ Param "SOCK_FD" INT 0 0;
      Param "PITCH" FLOAT 1 1 ].

Definition TimeTestDevice : device_t :=
  init_device 60 "TimeTestDevice" 2
    [ Param "GET_TIME" BOOL 1 1;
      Param "TIMESTAMP" INT 1 0 ].

Definition UnstableTestDevice : device_t :=
  init_device 61 "UnstableTestDevice" 1
    [ Param "NUM_ACTIONS" INT 1 0 ].

Definition SimpleTestDevice : device_t :=
  init_device 62 "SimpleTestDevice" 4
    [ Param "INCREASING" INT 1 0;
      Param "DOUBLING" FLOAT 1 0;
      Param "FLIP_FLOP" BOOL 1 0;
      Param "MY_INT" INT 1 1 ].

Definition GeneralTestDevice : device_t :=
  init_device 63 "GeneralTestDevice" 32
    [ Param "INCREASING_ODD" INT 1 0;
      Param "DECREASING_ODD" INT 1 0;
      Param "INCREASING_EVEN" INT 1 0;
      Param "DECREASING_EVEN" INT 1 0;
      Param "INCREASING_FLIP" INT 1 0;
      Param "ALWAYS_LEET" INT 1 0;
      Param "DOUBLING" FLOAT 1 0;
      Param "DOUBLING_NEG" FLOAT 1 0;
      Param "HALFING" FLOAT 1 0;
      Param "HALFING_NEG" FLOAT 1 0;
      Param "EXP_ONE_PT_ONE" FLOAT 1 0;
      Param "EXP_ONE_PT_TWO" FLOAT 1 0;
      Param "ALWAYS_PI" FLOAT 1 0;
      Param "FLIP_FLOP" BOOL 1 0;
      Param "ALWAYS_TRUE" BOOL 1 0;
      Param "ALWAYS_FALSE" BOOL 1 0;
      Param "RED_INT" INT 1 1;
      Param "ORANGE_INT" INT 1 1;
      Param "GREEN_INT" INT 1 1;
      Param "BLUE_INT" INT 1 1;
      Param "PURPLE_INT" INT 1 1;
      Param "RED_FLOAT" FLOAT 1 1;
      Param "ORANGE_FLOAT" FLOAT 1 1;
      Param "GREEN_FLOAT" FLOAT 1 1;
      Param "BLUE_FLOAT" FLOAT 1 1;
      Param "PURPLE_FLOAT" FLOAT 1 1;
      Param "RED_BOOL" BOOL 1 1;
      Param "ORANGE_BOOL" BOOL 1 1;
      Param "GREEN_BOOL" BOOL 1 1;
      Param "BLUE_BOOL" BOOL 1 1;
      Param "PURPLE_BOOL" BOOL 1 1;
      Param "YELLOW_BOOL" BOOL 1 1 ].

(** ** The registry and its lookups *)

(** The assignments of the constructor function, in order. *)
Definition devices_arr_init (DEVICES : list (option device_t)) : list (option device_t) :=
  foldl (fun arr d => <[Z.to_nat (device_type d) := Some d]> arr) DEVICES
    [ DummyDevice; LimitSwitch; LineFollower; BatteryBuzzer; ServoControl; PolarBear;
      KoalaBear; CustomDevice; SoundDevice; TimeTestDevice; UnstableTestDevice;
      SimpleTestDevice; GeneralTestDevice ].

Definition DEVICES : list (option device_t) :=
  devices_arr_init (replicate DEVICES_LENGTH None).

Definition get_device (dev_type : Z) : option device_t :=
  if (0 <=? dev_type) && (dev_type <? Z.of_nat DEVICES_LENGTH)
  then mjoin (DEVICES !! Z.to_nat dev_type) else None.

Definition device_name_to_type (dev_name : string) : Z :=
  match list_find (fun d => option_map device_name d = Some dev_name) DEVICES with
  | Some (i, _) => u8 (Z.of_nat i)
  | None => u8 (-1)
  end.

Definition get_device_name (dev_type : Z) : option string :=
  match get_device dev_type with
  | None => None
  | Some device => Some (device_name device)
  end.

(** The scan [for (i = 0; i < device->num_params; i++) if (strcmp(...) == 0)]. *)
Definition find_param (device : device_t) (param_name : string) : option (nat * param_desc_t) :=
  list_find (fun p => pd_name p = Some param_name) (take (num_params device) (params device)).

Definition get_param_desc (dev_type : Z) (param_name : string) : option param_desc_t :=
  match get_device dev_type with
  | None => None
  | Some device => snd <$> find_param device param_name
  end.

Definition get_param_idx (dev_type : Z) (param_name : string) : Z :=
  match get_device dev_type with
  | None => -1
  | Some device =>
      match find_param device param_name with
      | Some (i, _) => s8 (Z.of_nat i)
      | None => -1
      end
  end.

(** ** Buttons and keys *)

Definition BUTTON_NAMES : list string :=
  [ "button_a"; "button_b"; "button_x"; "button_y"; "l_bumper"; "r_bumper"; "l_trigger";
    "r_trigger"; "button_back"; "button_start"; "l_stick"; "r_stick"; "dpad_up"; "dpad_down";
    "dpad_left"; "dpad_right"; "button_xbox" ]%string.

Definition JOYSTICK_NAMES : list string :=
  [ "joystick_left_x"; "joystick_left_y"; "joystick_right_x"; "joystick_right_y" ]%string.

Definition KEY_NAMES : list string :=
  [ "a"; "b"; "c"; "d"; "e"; "f"; "g"; "h"; "i"; "j"; "k"; "l"; "m"; "n"; "o"; "p"; "q"; "r";
    "s"; "t"; "u"; "v"; "w"; "x"; "y"; "z";
    "1"; "2"; "3"; "4"; "5"; "6"; "7"; "8"; "9"; "0"; ","; "."; "/"; ";"; "'"; "["; "]";
    "left_arrow"; "right_arrow"; "up_arrow"; "down_arrow" ]%string.

(** [return 1 << i] is an [int] shift whose result is converted to [uint64_t]. *)
Definition get_button_bit (button_name : string) : outcome Z :=
  match list_find (fun s => s = button_name) (take NUM_GAMEPAD_BUTTONS BUTTON_NAMES) with
  | Some (i, _) => r ← int_shl1 (Z.of_nat i); mret (u64 r)
  | None => mret (u64 (-1))
  end.

Definition get_key_bit (key_name : string) : outcome Z :=
  match list_find (fun s => s = key_name) (take NUM_KEYBOARD_BUTTONS KEY_NAMES) with
  | Some (i, _) => r ← int_shl1 (Z.of_nat i); mret (u64 r)
  | None => mret (u64 (-1))
  end.

Definition field_to_string (field : robot_desc_field_t) : option string :=
  match field with
  | GAMEPAD => Some "Gamepad"%string
  | KEYBOARD => Some "Keyboard"%string
  | RUN_MODE => Some "Run Mode"%string
  | DAWN => Some "Dawn"%string
  | SHEPHERD => Some "Shepherd"%string
  | START_POS => Some "Start Pos"%string
  | _ => None
  end.

(** ** The clock: [gettimeofday] supplies seconds and microseconds *)

Definition millis (tv_sec tv_usec : Z) : Z :=
  let s1 := u64 (u64 tv_sec * 1000) in
  let s2 := u64 (tv_usec / 1000) in
  u64 (s1 + s2).

(** ** Well-formedness of the registry *)

(** What every registered device satisfies: it sits at the index of its type, has
    between 1 and MAX_PARAMS parameters, all named, with distinct names. *)
Definition device_wf (t : nat) (d : device_t) : Prop :=
  device_type d = Z.of_nat t /\ (1 <= num_params d)%nat /\ (num_params d <= MAX_PARAMS)%nat /\
  length (params d) = MAX_PARAMS /\
  Forall (fun p => pd_name p ≠ None) (take (num_params d) (params d)) /\
  Forall (fun p => p = zero_param) (drop (num_params d) (params d)) /\
  NoDup (map pd_name (take (num_params d) (params d))).

#[export] Instance device_wf_dec t d : Decision (device_wf t d).
Proof. unfold device_wf. apply _. Defined.

(** A check of every registered device against its index, by computation. *)
Definition registry_forall (P : nat -> device_t -> bool) (reg : list (option device_t)) : bool :=
  forallb (fun '(i, o) => match o with None => true | Some d => P i d end)
    (zip (seq 0 (length reg)) reg).

Lemma registry_forall_lookup P reg i d :
  registry_forall P reg = true -> reg !! i = Some (Some d) -> P i d = true.
Proof.
  unfold registry_forall. rewrite forallb_forall. intros Hall Hi.
  apply (Hall (i, Some d)), list_elem_of_In, list_elem_of_lookup. exists i.
  by apply lookup_zip_seq.
Qed.

Lemma registry_wf i d : DEVICES !! i = Some (Some d) -> device_wf i d.
Proof.
  intros Hi. apply (bool_decide_eq_true_1 (device_wf i d)).
  refine (registry_forall_lookup (fun i d => bool_decide (device_wf i d)) _ _ _ _ Hi).
  vm_compute. reflexivity.
Qed.

Lemma registry_names i d :
  DEVICES !! i = Some (Some d) -> device_name_to_type (device_name d) = Z.of_nat i.
Proof.
  intros Hi. apply Z.eqb_eq.
  refine (registry_forall_lookup
    (fun i d => device_name_to_type (device_name d) =? Z.of_nat i) _ _ _ _ Hi).
  vm_compute. reflexivity.
Qed.

Lemma get_device_Some t d :
  get_device t = Some d <-> 0 <= t < 64 /\ DEVICES !! Z.to_nat t = Some (Some d).
Proof.
  unfold get_device, DEVICES_LENGTH.
  destruct (Z.leb_spec 0 t), (Z.ltb_spec t (Z.of_nat 64)); simpl;
    try (split; [done | intros [? _]; lia]).
  destruct (DEVICES !! Z.to_nat t) as [[d'|]|]; simpl; split;
    [intros [= ->] | intros [_ [= ->]] | done | by intros [_ ?] | done | by intros [_ ?]];
    auto with lia.
Qed.

Lemma get_device_wf t d : get_device t = Some d -> device_wf (Z.to_nat t) d.
Proof. intros [_ H]%get_device_Some. by apply registry_wf. Qed.

(** The parameters a device does not have are neither readable nor writable. *)
Lemma device_wf_high t d i p :
  device_wf t d -> (num_params d <= i)%nat -> params d !! i = Some p -> p = zero_param.
Proof.
  intros (_ & _ & _ & _ & _ & Hz & _) Hi Hp. rewrite Forall_lookup in Hz.
  apply (Hz (i - num_params d)%nat). rewrite lookup_drop, <- Hp. f_equal. lia.
Qed.

Lemma device_wf_param t d i :
  device_wf t d -> (i < MAX_PARAMS)%nat -> exists p, params d !! i = Some p.
Proof. intros (_ & _ & _ & Hl & _) Hi. apply lookup_lt_is_Some. unfold MAX_PARAMS in *. lia. Qed.

(** ** Correctness of the lookups *)

(** The registry round trip. A type number that has a device maps to its name and the
    name maps back to that type number; a name that maps to anything but 255 is the name
    of the device registered under the number it maps to. *)
Theorem device_name_type_roundtrip :
  (forall t d, get_device t = Some d ->
     device_type d = t /\ get_device_name t = Some (device_name d) /\
     device_name_to_type (device_name d) = t) /\
  (forall name, device_name_to_type name ≠ 255 ->
     get_device_name (device_name_to_type name) = Some name).
Proof.
  split.
  - intros t d Hd. pose proof (get_device_wf _ _ Hd) as (Ht & _).
    unfold get_device_name. rewrite Hd. apply get_device_Some in Hd as [Hr Hi].
    rewrite (registry_names _ _ Hi). rewrite Z2Nat.id in Ht |- * by lia. done.
  - intros name. unfold device_name_to_type at 1 2.
    destruct (list_find _ DEVICES) as [[i o]|] eqn:Hf; [|done]. intros _.
    apply list_find_Some in Hf as (Hi & Ho & _).
    destruct o as [d|]; [|done]. simpl in Ho. injection Ho as <-.
    assert (Hlt : (i < 64)%nat) by (by apply lookup_lt_Some in Hi).
    rewrite u8_small by lia. unfold get_device_name.
    rewrite (proj2 (get_device_Some (Z.of_nat i) d)); [done|].
    rewrite Nat2Z.id. split; [lia | done].
Qed.

Lemma find_param_Some t d n i p :
  get_device t = Some d ->
  find_param d n = Some (i, p) <->
  (i < num_params d)%nat /\ params d !! i = Some p /\ pd_name p = Some n.
Proof.
  intros Hd. pose proof (get_device_wf _ _ Hd) as (_ & _ & _ & _ & _ & _ & Hnd).
  unfold find_param. rewrite list_find_Some. split.
  - intros (Hi & Hn & _). apply lookup_take_Some in Hi as [Hi Hlt]. done.
  - intros (Hlt & Hi & Hn). rewrite lookup_take_Some. split; [done|]. split; [done|].
    intros j q Hj Hji Hq. cut (j = i); [lia|].
    apply (NoDup_lookup _ j i (Some n) Hnd); apply list_lookup_fmap_Some.
    + exists q. done.
    + exists p. by rewrite lookup_take_Some.
Qed.

(** [get_param_desc] and [get_param_idx] agree and find every parameter: for a
    registered device and any name, either no parameter has that name and they return NULL
    and -1, or exactly the index and the descriptor of the parameter so named. *)
Theorem get_param_spec t d n :
  get_device t = Some d ->
  (get_param_desc t n = None /\ get_param_idx t n = -1 /\
   (forall i p, (i < num_params d)%nat -> params d !! i = Some p -> pd_name p ≠ Some n)) \/
  (exists i p, get_param_desc t n = Some p /\ get_param_idx t n = Z.of_nat i /\
     (i < num_params d)%nat /\ params d !! i = Some p /\ pd_name p = Some n).
Proof.
  intros Hd. unfold get_param_desc, get_param_idx. rewrite Hd.
  destruct (find_param d n) as [[i p]|] eqn:Hf; simpl.
  - right. apply (find_param_Some t) in Hf as (Hi & Hp & Hn); [|done]. exists i, p.
    assert ((i < 32)%nat) by (pose proof (get_device_wf _ _ Hd) as (_ & _ & ? & _);
      unfold MAX_PARAMS in *; lia).
    split; [done|]. split; [|done].
    unfold s8. rewrite Z.mod_small by lia. lia.
  - left. split; [done|]. split; [done|]. intros i p Hi Hp Hn.
    assert (Hs : find_param d n = Some (i, p)) by (by apply (find_param_Some t)).
    congruence.
Qed.

Lemma get_param_spec_witness :
  exists d, get_device 6 = Some d /\
  ((get_param_desc 6 "enc_b" = None /\ get_param_idx 6 "enc_b" = -1 /\
   (forall i p, (i < num_params d)%nat -> params d !! i = Some p ->
      pd_name p ≠ Some "enc_b"%string)) \/
  (exists i p, get_param_desc 6 "enc_b" = Some p /\ get_param_idx 6 "enc_b" = Z.of_nat i /\
     (i < num_params d)%nat /\ params d !! i = Some p /\ pd_name p = Some "enc_b"%string)).
Proof.
  exists KoalaBear. split; [reflexivity|]. apply (get_param_spec 6). reflexivity.
Defined.

(** Button and key masks. Every gamepad button maps to its own bit, an unknown name to
    the all-ones word. For keys this holds for the first 31 only: key 31 (the digit 6) maps
    to a mask that also covers bits 32 to 63, and from key 32 on the [int] shift is out of
    range, which C leaves undefined. *)
Theorem input_bit_masks :
  (forall i s, BUTTON_NAMES !! i = Some s -> get_button_bit s = Done (2 ^ Z.of_nat i)) /\
  (forall i s, KEY_NAMES !! i = Some s ->
     get_key_bit s =
       if (i <? 31)%nat then Done (2 ^ Z.of_nat i)
       else if (i =? 31)%nat then Done (2 ^ 64 - 2 ^ 31)
       else Faulty ShiftRange) /\
  (forall s, s ∉ BUTTON_NAMES -> get_button_bit s = Done (2 ^ 64 - 1)).
Proof.
  split; [|split].
  - assert (Hc : Forall (fun '(i, s) => get_button_bit s = Done (2 ^ Z.of_nat i))
      (zip (seq 0 17) BUTTON_NAMES)) by (repeat constructor).
    intros i s Hi. rewrite Forall_lookup in Hc. apply (Hc i (i, s)).
    exact (lookup_zip_seq _ _ _ Hi).
  - assert (Hc : Forall (fun '(i, s) => get_key_bit s =
       if (i <? 31)%nat then Done (2 ^ Z.of_nat i)
       else if (i =? 31)%nat then Done (2 ^ 64 - 2 ^ 31)
       else Faulty ShiftRange) (zip (seq 0 47) KEY_NAMES)) by (repeat constructor).
    intros i s Hi. rewrite Forall_lookup in Hc. apply (Hc i (i, s)).
    exact (lookup_zip_seq _ _ _ Hi).
  - intros s Hs. unfold get_button_bit.
    destruct (list_find _ _) as [[i s']|] eqn:Hf; [|done].
    apply list_find_Some in Hf as (Hi & -> & _). destruct Hs.
    by eapply list_elem_of_lookup_2.
Qed.

(** The millisecond clock is exact for every date a 64-bit counter of milliseconds holds. *)
Lemma millis_exact tv_sec tv_usec :
  0 <= tv_sec < 2 ^ 50 -> 0 <= tv_usec < 1000000 ->
  millis tv_sec tv_usec = tv_sec * 1000 + tv_usec / 1000.
Proof.
  intros Hs Hu. unfold millis.
  assert (0 <= tv_usec / 1000 < 1000) by (split; [apply Z.div_pos | apply Z.div_lt_upper_bound]; lia).
  rewrite (u64_small tv_sec), (u64_small (tv_sec * 1000)), (u64_small (tv_usec / 1000)) by lia.
  apply u64_small. lia.
Qed.
