(* ===== verification/FdIO.v ===== *)
(** * Reads and writes of whole buffers on file descriptors
    (the functions [readn] and [writen] of src/runtime_util/runtime_util.c).

    The kernel is the environment: the state of a readable descriptor is the list of what
    the next [read] calls will find, that of a writable one the list of what the next
    [write] calls will answer. Both functions keep their counters in [uint16_t], as the
    code does, so a return value of -1 is stored as 65535. *)

From S2P Require Export RuntimeUtil.

(** ** The system calls *)

(** What a [read] finds: bytes (at most [count] are taken, the others stay), the end of the
    file (which stays), or an error. *)
Inductive chunk : Set :=
| Data (bs : bytes)
| Eof
| Err (errno : Z).

Definition EINTR : Z := 4.
Definition EPIPE : Z := 32.

(** [read(fd, buf, count)]: the return value, the bytes stored, [errno], and the chunks
    left; [None] when nothing will ever arrive. *)
Definition sys_read (count : nat) (cs : list chunk) : option (Z * bytes * Z * list chunk) :=
  match cs with
  | [] => None
  | Data bs :: cs' =>
      if (length bs <=? count)%nat then Some (Z.of_nat (length bs), bs, 0, cs')
      else Some (Z.of_nat count, take count bs, 0, Data (drop count bs) :: cs')
  | Eof :: _ => Some (0, [], 0, cs)
  | Err e :: cs' => Some (-1, [], e, cs')
  end.

(** What a [write] answers: the number of bytes taken (never more than asked), or an error. *)
Inductive write_res : Set :=
| Wrote (k : nat)
| WErr (errno : Z).

Definition sys_write (count : nat) (r : write_res) : Z * Z :=
  match r with
  | Wrote k => (Z.of_nat (k `min` count), 0)
  | WErr e => (-1, e)
  end.

(** ** [readn] *)

(** The bytes the kernel stores must lie inside the caller's buffer. *)
Definition kernel_store (buf : bytes) (curr : nat) (bs : bytes) : outcome bytes :=
  match bs with
  | [] => mret buf
  | _ => buf_write buf curr bs
  end.

Fixpoint readn_loop (fuel : nat) (n n_remain curr : Z) (buf : bytes) (cs : list chunk)
  : outcome (Z * bytes * list chunk) :=
  if n_remain >? 0 then
    match fuel with
    | O => OutOfFuel
    | S fuel' =>
        match sys_read (Z.to_nat n_remain) cs with
        | None => Blocked
        | Some (ret, bs, errno, cs') =>
            buf' ← kernel_store buf (Z.to_nat curr) bs;
            let n_read := u16 ret in
            if n_read <? 0 then
              if errno =? EINTR then readn_loop fuel' n n_remain curr buf' cs'
              else mret (-1, buf', cs')
            else if n_read =? 0 then mret (0, buf', cs')
            else readn_loop fuel' n (u16 (n_remain - n_read)) (curr + n_read) buf' cs'
        end
    end
  else mret (n - n_remain, buf, cs).

(** Every iteration but the last consumes a chunk, so one more than their number is enough. *)
Definition readn (n : Z) (buf : bytes) (cs : list chunk) : outcome (Z * bytes * list chunk) :=
  readn_loop (S (length cs)) (u16 n) (u16 n) 0 buf cs.

(** ** [writen] *)

Fixpoint writen_loop (n n_remain curr : Z) (buf : bytes) (ws : list write_res) (sink : bytes)
  : outcome (Z * bytes * list write_res) :=
  if n_remain >? 0 then
    match ws with
    | [] => Blocked
    | w :: ws' =>
        let '(ret, errno) := sys_write (Z.to_nat n_remain) w in
        out ← buf_read buf (if 0 <? ret then Z.to_nat curr else 0) (Z.to_nat ret);
        let sink' := sink ++ out in
        let n_written := u16 ret in
        if n_written <=? 0 then
          if (n_written <? 0) && (errno =? EINTR)
          then writen_loop n n_remain curr buf ws' sink'
          else mret (-1, sink', ws')
        else writen_loop n (u16 (n_remain - n_written)) (curr + n_written) buf ws' sink'
    end
  else mret (n, sink, ws).

Definition writen (n : Z) (buf : bytes) (ws : list write_res) (sink : bytes)
  : outcome (Z * bytes * list write_res) :=
  writen_loop (u16 n) (u16 n) 0 buf ws sink.

(** ** Streams without errors *)

(** A chunk of at least one byte. *)
Definition is_data (c : chunk) : Prop := exists b bs, c = Data (b :: bs).

Definition chunk_bytes (c : chunk) : bytes := match c with Data bs => bs | _ => [] end.

Definition stream (cs : list chunk) : bytes := cs ≫= chunk_bytes.

Lemma stream_cons c cs : stream (c :: cs) = chunk_bytes c ++ stream cs.
Proof. reflexivity. Qed.

Lemma stream_app cs cs' : stream (cs ++ cs') = stream cs ++ stream cs'.
Proof. apply bind_app. Qed.

Lemma readn_loop_0 fuel n curr buf cs : readn_loop fuel n 0 curr buf cs = Done (n, buf, cs).
Proof. destruct fuel; simpl; by rewrite Z.sub_0_r. Qed.

Lemma kernel_store_write buf curr bs :
  (curr + length bs <= length buf)%nat ->
  kernel_store buf curr bs = Done (take curr buf ++ bs ++ drop (curr + length bs) buf).
Proof.
  intros Hl. destruct bs as [|b bs].
  - simpl. by rewrite Nat.add_0_r, take_drop.
  - unfold kernel_store, buf_write.
    destruct (Nat.leb_spec (curr + length (b :: bs)) (length buf)); [done | lia].
Qed.

(** Storing [d] at [curr] and then [bs] behind it stores [d ++ bs] at [curr]. *)
Lemma store_twice (buf d bs : bytes) curr m :
  (curr + length d + m <= length buf)%nat ->
  let buf1 := take curr buf ++ d ++ drop (curr + length d) buf in
  take (curr + length d) buf1 ++ bs ++ drop (curr + length d + m) buf1 =
  take curr buf ++ (d ++ bs) ++ drop (curr + (length d + m)) buf.
Proof.
  intros Hl. simpl.
  assert (Ht : length (take curr buf ++ d) = (curr + length d)%nat)
    by (autorewrite with lengths; lia).
  rewrite !(app_assoc (take curr buf) d), <- Ht, take_app_length.
  rewrite drop_app_add, Ht, drop_drop, <- !app_assoc. by rewrite Nat.add_assoc.
Qed.

(** One iteration of [readn] on a data chunk that does not exceed what remains. *)
Lemma readn_loop_data fuel n rem curr buf bs cs :
  0 < rem < 65536 -> bs ≠ [] -> Z.of_nat (length bs) <= rem ->
  (curr + length bs <= length buf)%nat ->
  readn_loop (S fuel) n rem (Z.of_nat curr) buf (Data bs :: cs) =
  readn_loop fuel n (rem - Z.of_nat (length bs)) (Z.of_nat (curr + length bs))
    (take curr buf ++ bs ++ drop (curr + length bs) buf) cs.
Proof.
  intros Hr Hne Hl Hb. assert (0 < length bs)%nat by (destruct bs; simpl; [done|lia]).
  cbn [readn_loop sys_read]. rewrite (proj2 (Z.gtb_lt rem 0)) by lia.
  rewrite (proj2 (Nat.leb_le _ (Z.to_nat rem))) by lia. cbv zeta.
  rewrite Nat2Z.id, kernel_store_write, bind_done by done.
  rewrite (u16_small (Z.of_nat _)) by lia.
  rewrite (proj2 (Z.ltb_ge _ 0)), (proj2 (Z.eqb_neq _ 0)), u16_small by lia.
  by rewrite Nat2Z.inj_add.
Qed.

(** One iteration on a chunk that holds more than what remains ends the loop. *)
Lemma readn_loop_split fuel n rem curr buf bs cs :
  0 < rem < 65536 -> rem < Z.of_nat (length bs) ->
  (curr + Z.to_nat rem <= length buf)%nat ->
  readn_loop (S fuel) n rem (Z.of_nat curr) buf (Data bs :: cs) =
  Done (n, take curr buf ++ take (Z.to_nat rem) bs ++ drop (curr + Z.to_nat rem) buf,
        Data (drop (Z.to_nat rem) bs) :: cs).
Proof.
  intros Hr Hl Hb. assert (Ht : length (take (Z.to_nat rem) bs) = Z.to_nat rem)
    by (rewrite length_take; lia).
  cbn [readn_loop sys_read]. rewrite (proj2 (Z.gtb_lt rem 0)) by lia.
  rewrite (proj2 (Nat.leb_gt _ (Z.to_nat rem))) by lia. cbv zeta.
  rewrite Nat2Z.id, kernel_store_write, bind_done by lia.
  rewrite Z2Nat.id, (u16_small rem) by lia.
  rewrite (proj2 (Z.ltb_ge _ 0)), (proj2 (Z.eqb_neq _ 0)) by lia.
  rewrite Z.sub_diag. change (u16 0) with 0. rewrite readn_loop_0. by rewrite Ht.
Qed.

Lemma readn_loop_stream cs : forall fuel n rem curr buf tail,
  Forall is_data cs -> (length cs < fuel)%nat -> 0 <= rem < 65536 ->
  rem <= Z.of_nat (length (stream cs)) -> (curr + Z.to_nat rem <= length buf)%nat ->
  exists cs', readn_loop fuel n rem (Z.of_nat curr) buf (cs ++ tail) =
    Done (n, take curr buf ++ take (Z.to_nat rem) (stream cs) ++ drop (curr + Z.to_nat rem) buf,
          cs' ++ tail) /\
    stream cs' = drop (Z.to_nat rem) (stream cs) /\ Forall is_data cs'.
Proof.
  induction cs as [|c cs IH]; intros fuel n rem curr buf tail Hd Hf Hr Hs Hb.
  - simpl in Hs. assert (rem = 0) as -> by lia. exists []. rewrite readn_loop_0.
    simpl. by rewrite Nat.add_0_r, take_drop.
  - apply Forall_cons_1 in Hd as [(b & bs & ->) Hd].
    destruct (Z.eq_dec rem 0) as [->|Hne].
    { exists (Data (b :: bs) :: cs). rewrite readn_loop_0. simpl.
      rewrite Nat.add_0_r, take_drop. split; [done|]. split; [done|].
      constructor; [by exists b, bs | done]. }
    destruct fuel as [|fuel]; [simpl in Hf; lia|].
    rewrite stream_cons in Hs |- *. cbn [chunk_bytes] in Hs |- *.
    set (d := b :: bs) in *. assert (Hdl : (0 < length d)%nat) by (simpl; lia).
    rewrite length_app in Hs.
    destruct (Z.le_gt_cases (Z.of_nat (length d)) rem) as [Hle|Hgt].
    + change ((Data d :: cs) ++ tail) with (Data d :: (cs ++ tail)).
      rewrite readn_loop_data by (done || lia).
      assert (Hk : Z.to_nat rem = (length d + Z.to_nat (rem - Z.of_nat (length d)))%nat) by lia.
      edestruct (IH fuel n (rem - Z.of_nat (length d)) (curr + length d)%nat
        (take curr buf ++ d ++ drop (curr + length d) buf) tail) as (cs' & -> & Hs' & Hd');
        [done | simpl in Hf; lia | lia | lia | autorewrite with lengths; lia |].
      exists cs'. split; [|split; [|done]].
      * rewrite store_twice by lia. rewrite Hk at 1 2. by rewrite take_app_add.
      * rewrite Hs', Hk. by rewrite drop_app_add.
    + change ((Data d :: cs) ++ tail) with (Data d :: (cs ++ tail)).
      rewrite readn_loop_split by (done || lia).
      exists (Data (drop (Z.to_nat rem) d) :: cs). rewrite stream_cons. cbn [chunk_bytes].
      rewrite take_app_le, drop_app_le by lia. split; [done|]. split; [done|].
      constructor; [|done]. destruct (drop (Z.to_nat rem) d) as [|x xs] eqn:E; [|by exists x, xs].
      apply (f_equal length) in E. rewrite length_drop in E. change (length (@nil Z)) with 0%nat in E. lia.
Qed.

(** Running to the end of the file before [rem] bytes have come. *)
Lemma readn_loop_eof cs : forall fuel n rem curr buf tail,
  Forall is_data cs -> (length cs < fuel)%nat -> 0 < rem < 65536 ->
  Z.of_nat (length (stream cs)) < rem -> (curr + Z.to_nat rem <= length buf)%nat ->
  readn_loop fuel n rem (Z.of_nat curr) buf (cs ++ Eof :: tail) =
    Done (0, take curr buf ++ stream cs ++ drop (curr + length (stream cs)) buf, Eof :: tail).
Proof.
  induction cs as [|c cs IH]; intros fuel n rem curr buf tail Hd Hf Hr Hs Hb;
    (destruct fuel as [|fuel]; [simpl in Hf; lia|]).
  - cbn [readn_loop sys_read app]. rewrite (proj2 (Z.gtb_lt rem 0)) by lia.
    simpl. by rewrite Nat.add_0_r, take_drop.
  - apply Forall_cons_1 in Hd as [(b & bs & ->) Hd].
    rewrite stream_cons in Hs |- *. cbn [chunk_bytes] in Hs |- *.
    set (d := b :: bs) in *. assert (Hdl : (0 < length d)%nat) by (simpl; lia).
    rewrite length_app in Hs |- *.
    change ((Data d :: cs) ++ Eof :: tail) with (Data d :: (cs ++ Eof :: tail)).
    rewrite readn_loop_data by (done || lia).
    rewrite IH by (done || (simpl in Hf; lia) || (autorewrite with lengths; lia)).
    by rewrite store_twice by lia.
Qed.

(** What holds of one iteration whatever the kernel answers: a failed call is stored as
    65535, which the tests that follow take for a byte count. *)
Lemma readn_loop_err fuel n rem curr buf e cs :
  0 < rem < 65536 ->
  readn_loop (S fuel) n rem curr buf (Err e :: cs) =
  readn_loop fuel n (u16 (rem + 1)) (curr + 65535) buf cs.
Proof.
  intros Hr. cbn [readn_loop sys_read kernel_store]. rewrite (proj2 (Z.gtb_lt rem 0)) by lia.
  rewrite bind_done. change (u16 (-1)) with 65535. cbv zeta.
  change (65535 <? 0) with false. change (65535 =? 0) with false. cbv iota.
  f_equal. unfold u16. replace (rem - 65535) with (rem + 1 + (-1) * 2 ^ 16) by lia.
  by rewrite Z.mod_add.
Qed.

Lemma readn_loop_result fuel : forall n rem curr buf cs r buf' cs',
  0 <= rem < 65536 ->
  readn_loop fuel n rem curr buf cs = Done (r, buf', cs') -> r = 0 \/ r = n.
Proof.
  induction fuel as [|fuel IH]; intros n rem curr buf cs r buf' cs' Hr H.
  - cbn [readn_loop] in H. destruct (Z.gtb_spec rem 0); [done|]. injection H as <- _ _. lia.
  - cbn [readn_loop] in H. destruct (Z.gtb_spec rem 0); [|injection H as <- _ _; lia].
    destruct (sys_read _ cs) as [[[[ret bs] errno] cs1]|]; [|done]. inv_done.
    pose proof (u16_range ret). destruct (Z.ltb_spec (u16 ret) 0); [lia|].
    destruct (Z.eqb_spec (u16 ret) 0); [inv_done; simplify_eq; by left|].
    eapply IH; [apply u16_range | exact H].
Qed.

Lemma readn_loop_fuel fuel : forall n rem curr buf cs,
  0 <= rem < 65536 -> (length cs < fuel)%nat -> readn_loop fuel n rem curr buf cs ≠ OutOfFuel.
Proof.
  induction fuel as [|fuel IH]; intros n rem curr buf cs Hr Hf; [lia|].
  cbn [readn_loop]. destruct (Z.gtb_spec rem 0) as [Hpos|]; [|done].
  destruct (sys_read _ cs) as [[[[ret bs] errno] cs1]|] eqn:Hs; [|done].
  destruct (kernel_store _ _ bs) as [buf'| | | |] eqn:Hk; try done.
  2: { by unfold kernel_store, buf_write in Hk; repeat case_match. }
  rewrite bind_done. cbv zeta. pose proof (u16_range ret).
  destruct (Z.ltb_spec (u16 ret) 0); [lia|]. destruct (Z.eqb_spec (u16 ret) 0) as [|Hne]; [done|].
  destruct cs as [|[bs'| |e] cs]; cbn [sys_read] in Hs; simplify_eq; cbn [length] in Hf.
  - destruct (Nat.leb_spec (length bs') (Z.to_nat rem)); simplify_eq.
    + apply IH; [apply u16_range | lia].
    + rewrite Z2Nat.id, (u16_small rem), Z.sub_diag by lia. change (u16 0) with 0.
      by rewrite readn_loop_0.
  - apply IH; [apply u16_range | lia].
Qed.

(** ** [readn] and [writen] as a whole *)

Lemma readn_run n buf cs tail :
  Forall is_data cs -> 0 <= n < 65536 ->
  (Z.to_nat n <= length (stream cs))%nat -> (Z.to_nat n <= length buf)%nat ->
  exists cs', readn n buf (cs ++ tail) =
    Done (n, take (Z.to_nat n) (stream cs) ++ drop (Z.to_nat n) buf, cs' ++ tail) /\
    stream cs' = drop (Z.to_nat n) (stream cs) /\ Forall is_data cs'.
Proof.
  intros Hd Hn Hs Hb. unfold readn. rewrite u16_small by lia.
  apply (readn_loop_stream cs _ n n 0%nat); try done; try lia.
  rewrite length_app. lia.
Qed.

Lemma readn_eof_run n buf cs tail :
  Forall is_data cs -> n < 65536 ->
  Z.of_nat (length (stream cs)) < n -> (Z.to_nat n <= length buf)%nat ->
  readn n buf (cs ++ Eof :: tail) =
    Done (0, stream cs ++ drop (length (stream cs)) buf, Eof :: tail).
Proof.
  intros Hd Hn Hs Hb. unfold readn. rewrite u16_small by lia.
  apply (readn_loop_eof cs _ n n 0%nat); try done; try lia. rewrite length_app. simpl. lia.
Qed.

Lemma readn_result n buf cs r buf' cs' : readn n buf cs = Done (r, buf', cs') -> r = 0 \/ r = u16 n.
Proof. apply readn_loop_result, u16_range. Qed.

(** ** Descriptors that never fail

    Without errors the two functions stay inside the buffer: they end, or they wait for ever. *)

Definition no_error (c : chunk) : Prop := match c with Err _ => False | _ => True end.

Lemma kernel_store_length buf curr bs : (curr + length bs <= length buf)%nat ->
  exists buf', kernel_store buf curr bs = Done buf' /\ length buf' = length buf.
Proof. intros Hl. rewrite kernel_store_write by done. eexists. split; [done | list_lia]. Qed.

Lemma sys_read_clean count cs ret bs errno cs' : Forall no_error cs ->
  sys_read count cs = Some (ret, bs, errno, cs') ->
  ret = Z.of_nat (length bs) /\ (length bs <= count)%nat /\ Forall no_error cs' /\
  ((length cs' < length cs)%nat \/ ret = Z.of_nat count \/ ret = 0).
Proof.
  intros Hc Hs. destruct cs as [|[d| |e] cs]; cbn [sys_read] in Hs; [done| | |by inversion Hc].
  - inversion Hc; subst. destruct (Nat.leb_spec (length d) count); injection Hs as <- <- <- <-.
    + split; [done|]. split; [done|]. split; [done|]. left. cbn. lia.
    + rewrite length_take_le by lia. split; [done|]. split; [done|]. split; [by constructor | auto].
  - injection Hs as <- <- <- <-. split; [done|]. split; [cbn; lia|]. auto.
Qed.

Lemma readn_loop_clean fuel : forall n rem curr buf cs,
  Forall no_error cs -> (length cs < fuel)%nat -> 0 <= rem < 65536 -> 0 <= curr ->
  (Z.to_nat curr + Z.to_nat rem <= length buf)%nat ->
  readn_loop fuel n rem curr buf cs = Blocked \/
  exists r buf' cs', readn_loop fuel n rem curr buf cs = Done (r, buf', cs') /\ Forall no_error cs' /\
    length buf' = length buf.
Proof.
  induction fuel as [|fuel IH]; intros n rem curr buf cs Hc Hf Hr Hcu Hb; [lia|].
  cbn [readn_loop]. destruct (Z.gtb_spec rem 0); [|by right; exists (n - rem), buf, cs].
  destruct (sys_read (Z.to_nat rem) cs) as [[[[ret bs] errno] cs1]|] eqn:Hs; [|by left].
  destruct (sys_read_clean _ _ _ _ _ _ Hc Hs) as (-> & Hl & Hc1 & Hn).
  destruct (kernel_store_length buf (Z.to_nat curr) bs) as (buf1 & -> & Hb1); [lia|].
  rewrite bind_done. cbv zeta. rewrite (u16_small (Z.of_nat _)) by lia.
  destruct (Z.ltb_spec (Z.of_nat (length bs)) 0); [lia|].
  destruct (Z.eqb_spec (Z.of_nat (length bs)) 0); [by right; exists 0, buf1, cs1|].
  rewrite u16_small by lia. destruct (Z.eq_dec rem (Z.of_nat (length bs))) as [->|Hne].
  - rewrite Z.sub_diag, readn_loop_0. right. by exists n, buf1, cs1.
  - destruct (IH n (rem - Z.of_nat (length bs)) (curr + Z.of_nat (length bs)) buf1 cs1)
      as [?|(r & b & c & Hres & Hcc & Hbb)]; [done | lia | lia | lia | lia | by left |].
    right. exists r, b, c. split; [done|]. split; [done | lia].
Qed.

Lemma readn_clean n buf cs : Forall no_error cs -> 0 <= n < 65536 -> (Z.to_nat n <= length buf)%nat ->
  readn n buf cs = Blocked \/
  exists r buf' cs', readn n buf cs = Done (r, buf', cs') /\ Forall no_error cs' /\ length buf' = length buf.
Proof.
  intros Hc Hn Hb. unfold readn. rewrite u16_small by lia. apply readn_loop_clean; try done; lia.
Qed.

Definition no_werror (w : write_res) : Prop := match w with WErr _ => False | _ => True end.

Lemma writen_loop_clean ws : forall n rem curr buf sink,
  Forall no_werror ws -> 0 <= rem < 65536 -> 0 <= curr ->
  (Z.to_nat curr + Z.to_nat rem <= length buf)%nat ->
  writen_loop n rem curr buf ws sink = Blocked \/
  exists r sink' ws', writen_loop n rem curr buf ws sink = Done (r, sink', ws') /\ Forall no_werror ws'.
Proof.
  induction ws as [|w ws IH]; intros n rem curr buf sink Hw Hr Hcu Hb; cbn [writen_loop];
    (destruct (Z.gtb_spec rem 0); [|by right; eexists _, _, _]); [by left|].
  inversion Hw as [|? ? Hw1 Hw2]; subst. destruct w as [k|e]; [|done]. cbn [sys_write].
  set (j := (k `min` Z.to_nat rem)%nat). rewrite Nat2Z.id.
  assert (Hread : exists out, buf_read buf (if 0 <? Z.of_nat j then Z.to_nat curr else 0%nat) j = Done out).
  { unfold buf_read. destruct (0 <? Z.of_nat j); rewrite (proj2 (Nat.leb_le _ _)) by lia; by eexists. }
  destruct Hread as (out & ->). rewrite bind_done. cbv zeta. rewrite (u16_small (Z.of_nat j)) by lia.
  destruct (Z.leb_spec (Z.of_nat j) 0) as [H0|H0].
  - rewrite (proj2 (Z.ltb_ge _ 0)) by lia. right. by eexists _, _, _.
  - rewrite u16_small by lia. apply IH; [done | lia..].
Qed.

Lemma writen_clean n buf ws sink : Forall no_werror ws -> 0 <= n < 65536 -> (Z.to_nat n <= length buf)%nat ->
  writen n buf ws sink = Blocked \/
  exists r sink' ws', writen n buf ws sink = Done (r, sink', ws') /\ Forall no_werror ws'.
Proof.
  intros Hw Hn Hb. unfold writen. rewrite u16_small by lia. apply writen_loop_clean; try done; lia.
Qed.

(** ** The theorems on [readn] *)

(** [readn] does not depend on how the kernel cuts the stream into chunks. When the
    chunks hold at least [n] bytes before any end of file or error, it returns [n], stores
    exactly the next [n] bytes of the stream at the start of the buffer, leaves the rest of
    the buffer alone, and leaves the rest of the stream for the next call. *)
Theorem readn_stream n buf cs tail :
  Forall is_data cs -> 0 <= n < 65536 ->
  (Z.to_nat n <= length (stream cs))%nat -> (Z.to_nat n <= length buf)%nat ->
  exists cs', readn n buf (cs ++ tail) =
    Done (n, take (Z.to_nat n) (stream cs) ++ drop (Z.to_nat n) buf, cs' ++ tail) /\
    stream cs' = drop (Z.to_nat n) (stream cs) /\ Forall is_data cs'.
Proof. apply readn_run. Qed.

Lemma readn_stream_witness :
  exists cs', readn 3 [0; 0; 0; 9] ([Data [5; 6]; Data [7; 8]] ++ [Eof]) =
    Done (3, take (Z.to_nat 3) (stream [Data [5; 6]; Data [7; 8]]) ++ drop (Z.to_nat 3) [0; 0; 0; 9],
          cs' ++ [Eof]) /\
    stream cs' = drop (Z.to_nat 3) (stream [Data [5; 6]; Data [7; 8]]) /\ Forall is_data cs'.
Proof.
  apply (readn_stream 3 [0; 0; 0; 9] [Data [5; 6]; Data [7; 8]] [Eof]).
  - repeat constructor; eexists _, _; reflexivity.
  - lia.
  - simpl. lia.
  - simpl. lia.
Defined.

(** ** [readn] returns

    What [readn] does is settled by the chunks: it ends by a full count, it ends at the end
    of the file, or it waits because nothing more comes. *)

(** Data chunks that hold fewer than [rem] bytes, and nothing behind them. *)
Lemma readn_loop_starved cs : forall fuel n rem curr buf,
  Forall is_data cs -> (length cs < fuel)%nat -> 0 < rem < 65536 ->
  Z.of_nat (length (stream cs)) < rem -> (curr + Z.to_nat rem <= length buf)%nat ->
  readn_loop fuel n rem (Z.of_nat curr) buf cs = Blocked.
Proof.
  induction cs as [|c cs IH]; intros fuel n rem curr buf Hd Hf Hr Hs Hb;
    (destruct fuel as [|fuel]; [simpl in Hf; lia|]).
  - cbn [readn_loop sys_read]. by rewrite (proj2 (Z.gtb_lt rem 0)) by lia.
  - apply Forall_cons_1 in Hd as [(b & bs & ->) Hd].
    rewrite stream_cons in Hs. cbn [chunk_bytes] in Hs. set (d := b :: bs) in *.
    assert (Hdl : (0 < length d)%nat) by (simpl; lia). rewrite length_app in Hs.
    rewrite readn_loop_data by (done || lia).
    apply IH; [done | simpl in Hf; lia | lia | lia | list_lia].
Qed.

(** Whatever data come, empty reads included, the end of the file ends the loop. *)
Lemma readn_loop_ends cs : forall fuel n rem curr buf tail,
  Forall no_error cs -> (length cs < fuel)%nat -> 0 <= rem < 65536 ->
  (curr + Z.to_nat rem <= length buf)%nat ->
  exists r buf' cs', readn_loop fuel n rem (Z.of_nat curr) buf (cs ++ Eof :: tail) = Done (r, buf', cs') /\
    (r = 0 \/ r = n) /\ length buf' = length buf.
Proof.
  induction cs as [|c cs IH]; intros fuel n rem curr buf tail Hc Hf Hr Hb;
    (destruct (Z.eq_dec rem 0) as [->|Hne]; [rewrite readn_loop_0; eexists _, _, _; by auto|]);
    (destruct fuel as [|fuel]; [simpl in Hf; lia|]).
  - cbn [readn_loop sys_read app]. rewrite (proj2 (Z.gtb_lt rem 0)) by lia. eexists _, _, _. by auto.
  - apply Forall_cons_1 in Hc as [Hc1 Hc]. destruct c as [bs| |e]; [|clear Hc1|done]; cbn [app].
    2: { cbn [readn_loop sys_read]. rewrite (proj2 (Z.gtb_lt rem 0)) by lia. eexists _, _, _. by auto. }
    destruct (Z.le_gt_cases (Z.of_nat (length bs)) rem) as [Hle|Hgt].
    + destruct bs as [|b bs].
      { cbn [readn_loop sys_read]. rewrite (proj2 (Z.gtb_lt rem 0)) by lia. eexists _, _, _. by auto. }
      rewrite readn_loop_data by (done || lia).
      edestruct (IH fuel n (rem - Z.of_nat (length (b :: bs))) (curr + length (b :: bs))%nat) as (r & b' & c' & -> & Hr' & Hl);
        [done | simpl in Hf; lia | simpl in *; lia | |].
      2: { exists r, b', c'. split; [done|]. split; [done|]. rewrite Hl. list_lia. }
      list_lia.
    + rewrite readn_loop_split by lia. eexists _, _, _. split; [done|]. split; [by right|].
      rewrite !length_app, length_drop, !length_take. lia.
Qed.

(** C40: what [readn] returns, for a request of [n] bytes and a buffer that holds them. When
    at least [n] bytes come, in whatever chunks, it returns [n], with exactly the next [n]
    bytes of the stream in the buffer and the others left for the next call. When the end of
    the file comes first it returns 0: the bytes that did come are in the buffer, their number
    is lost. When fewer bytes come and then nothing, it waits for ever. On every input without
    errors that reaches the end of the file, empty reads included, it does return, 0 or [n],
    and keeps inside the buffer. On every input at all, errors included, the fuel is enough
    (the number of system calls is bounded by that of the chunks), and a value it returns is
    0 or [n]. *)
Theorem readn_eof_and_total n buf : 0 <= n < 65536 -> (Z.to_nat n <= length buf)%nat ->
  (forall cs tail, Forall is_data cs ->
     ((Z.to_nat n <= length (stream cs))%nat ->
        exists cs', readn n buf (cs ++ tail) =
          Done (n, take (Z.to_nat n) (stream cs) ++ drop (Z.to_nat n) buf, cs' ++ tail) /\
          stream cs' = drop (Z.to_nat n) (stream cs)) /\
     (Z.of_nat (length (stream cs)) < n ->
        readn n buf (cs ++ Eof :: tail) =
          Done (0, stream cs ++ drop (length (stream cs)) buf, Eof :: tail) /\
        readn n buf cs = Blocked)) /\
  (forall cs tail, Forall no_error cs ->
     exists r buf' cs', readn n buf (cs ++ Eof :: tail) = Done (r, buf', cs') /\
       (r = 0 \/ r = n) /\ length buf' = length buf) /\
  (forall cs, readn n buf cs ≠ OutOfFuel /\
     forall r buf' cs', readn n buf cs = Done (r, buf', cs') -> r = 0 \/ r = n).
Proof.
  intros Hn Hb. split; [|split].
  - intros cs tail Hd. split.
    + intros Hs. destruct (readn_run n buf cs tail Hd Hn Hs Hb) as (cs' & Hr & Hs' & _). by exists cs'.
    + intros Hs. split; [apply readn_eof_run; (done || lia)|].
      unfold readn. rewrite u16_small by lia. apply (readn_loop_starved cs _ n n 0%nat); (done || lia).
  - intros cs tail Hc. unfold readn. rewrite u16_small by lia.
    apply (readn_loop_ends cs _ n n 0%nat); [done | rewrite length_app; simpl; lia | lia | lia].
  - intros cs. split; [apply readn_loop_fuel; [apply u16_range | lia]|].
    intros r buf' cs' Hr. apply readn_result in Hr. by rewrite u16_small in Hr by lia.
Qed.

(** Three bytes wanted: [5; 6] and the end of the file give 0, an empty read in between too,
    and [5; 6; 7] gives 3. *)
Lemma readn_eof_and_total_witness :
  readn 3 [0; 0; 0; 9] ([Data [5; 6]] ++ [Eof]) = Done (0, [5; 6; 0; 9], [Eof]) /\
  readn 3 [0; 0; 0; 9] [Data [5; 6]] = Blocked /\
  (exists cs', readn 3 [0; 0; 0; 9] ([Data [5]; Data [6; 7]] ++ [Eof]) = Done (3, [5; 6; 7; 9], cs' ++ [Eof])) /\
  (exists r buf' cs', readn 3 [0; 0; 0; 9] ([Data [5]; Data []; Data [6; 7]] ++ [Eof]) = Done (r, buf', cs') /\
    (r = 0 \/ r = 3) /\ length buf' = 4%nat) /\
  readn 3 [0; 0; 0; 9] [Err EINTR; Data [5; 6]] ≠ OutOfFuel.
Proof.
  assert (Hd : forall bs : list (Z * bytes), Forall is_data (map (fun '(b, r) => Data (b :: r)) bs))
    by (intros bs; induction bs as [|[b r] bs IH]; constructor; [by exists b, r | done]).
  destruct (readn_eof_and_total 3 [0; 0; 0; 9] ltac:(lia) ltac:(simpl; lia)) as (Hdata & Hend & Hfuel).
  split; [|split; [|split; [|split]]].
  - apply (Hdata [Data [5; 6]] [] (Hd [(5, [6])])). reflexivity.
  - apply (Hdata [Data [5; 6]] [] (Hd [(5, [6])])). reflexivity.
  - destruct (proj1 (Hdata [Data [5]; Data [6; 7]] [Eof] (Hd [(5, []); (6, [7])])) ltac:(simpl; lia)) as (cs' & Hr & _).
    exists cs'. exact Hr.
  - apply Hend. repeat constructor.
  - apply Hfuel.
Defined.

(** A descriptor that answers every [read] with an error. *)
Lemma readn_loop_persistent_err k : forall fuel n rem curr buf e tail,
  0 < rem -> rem + Z.of_nat (S k) = 65536 -> (S k <= fuel)%nat ->
  readn_loop fuel n rem curr buf (replicate (S k) (Err e) ++ tail) = Done (n, buf, tail).
Proof.
  induction k as [|k IH]; intros fuel n rem curr buf e tail Hr Hk Hf;
    (destruct fuel as [|fuel]; [lia|]);
    rewrite replicate_S; cbn [app]; rewrite readn_loop_err by lia.
  - replace (rem + 1) with 65536 by lia. change (u16 65536) with 0. by rewrite readn_loop_0.
  - rewrite u16_small by lia. apply IH; lia.
Qed.

(** The error branch of [readn] is dead. Whatever the descriptor does, the value
    returned is 0 or [n], never -1; and on a descriptor whose every [read] fails, [readn]
    reports [n] bytes read after 65536 - n failures, with the buffer untouched. *)
Theorem readn_hides_errors :
  (forall n buf cs r buf' cs', readn n buf cs = Done (r, buf', cs') -> r = 0 \/ r = u16 n) /\
  (forall n buf e tail, 0 < n < 65536 ->
     readn n buf (replicate (Z.to_nat (65536 - n)) (Err e) ++ tail) = Done (n, buf, tail)).
Proof.
  split; [exact readn_result|]. unfold readn.
  intros n buf e tail Hn. rewrite u16_small by lia.
  destruct (Z.to_nat (65536 - n)) as [|k] eqn:Hk; [lia|].
  apply readn_loop_persistent_err; [lia | lia |]. rewrite length_app, length_replicate. lia.
Qed.

(** ** The theorems on [writen] *)

Lemma writen_loop_0 n curr buf ws sink : writen_loop n 0 curr buf ws sink = Done (n, sink, ws).
Proof. by destruct ws. Qed.

(** ** Writing again and again *)

(** An answer of a connection that takes at least a byte. *)
Definition takes_some (w : write_res) : Prop := exists k, w = Wrote (S k).

Lemma writen_loop_takes ws : forall n rem curr buf sink,
  Forall takes_some ws -> 0 <= rem < 65536 -> (Z.to_nat rem <= length ws)%nat -> (curr + Z.to_nat rem <= length buf)%nat ->
  exists ws', writen_loop n rem (Z.of_nat curr) buf ws sink = Done (n, sink ++ take (Z.to_nat rem) (drop curr buf), ws') /\
    Forall takes_some ws' /\ (length ws <= length ws' + Z.to_nat rem)%nat.
Proof.
  induction ws as [|w ws IH]; intros n rem curr buf sink Hw Hr Hl Hb.
  { cbn in Hl. assert (rem = 0) as -> by lia. exists []. by rewrite writen_loop_0, app_nil_r. }
  destruct (Z.eq_dec rem 0) as [->|Hne].
  { exists (w :: ws). rewrite writen_loop_0, app_nil_r. split; [done|]. split; [done | lia]. }
  apply Forall_cons_1 in Hw as [[k ->] Hw]. cbn [length] in Hl.
  set (j := (S k `min` Z.to_nat rem)%nat). assert (Hj : (0 < j <= Z.to_nat rem)%nat) by lia.
  destruct (IH n (rem - Z.of_nat j) (curr + j)%nat buf (sink ++ take j (drop curr buf)) Hw) as (ws' & Hrun & Hw' & Hl'); [lia..|].
  exists ws'. split; [|split; [done | cbn [length]; lia]].
  cbn [writen_loop sys_write]. rewrite (proj2 (Z.gtb_lt rem 0)) by lia. fold j.
  rewrite (proj2 (Z.ltb_lt 0 _)), !Nat2Z.id by lia. unfold buf_read. rewrite (proj2 (Nat.leb_le _ _)) by lia.
  cbn [mbind outcome_bind]. rewrite bind_done, (u16_small (Z.of_nat j)) by lia. cbv zeta.
  rewrite (proj2 (Z.leb_gt _ 0)), u16_small, <- Nat2Z.inj_add, Hrun by lia. rewrite <- app_assoc, <- drop_drop. do 3 f_equal.
  replace (Z.to_nat rem) with (j + Z.to_nat (rem - Z.of_nat j))%nat by lia. by rewrite take_take_drop.
Qed.

(** However short the script: the buffer is sent, or the call waits for ever. *)
Lemma writen_loop_takes_any ws : forall n rem curr buf sink,
  Forall takes_some ws -> 0 <= rem < 65536 -> 0 <= curr -> (Z.to_nat curr + Z.to_nat rem <= length buf)%nat ->
  writen_loop n rem curr buf ws sink = Blocked \/
  exists sink' ws', writen_loop n rem curr buf ws sink = Done (n, sink', ws') /\ Forall takes_some ws'.
Proof.
  induction ws as [|w ws IH]; intros n rem curr buf sink Hw Hr Hcu Hb; cbn [writen_loop];
    (destruct (Z.gtb_spec rem 0); [|by right; eexists _, _]); [by left|].
  apply Forall_cons_1 in Hw as [[k ->] Hw]. cbn [sys_write]. set (j := (S k `min` Z.to_nat rem)%nat).
  rewrite (proj2 (Z.ltb_lt 0 (Z.of_nat j))), Nat2Z.id by lia. unfold buf_read. rewrite (proj2 (Nat.leb_le _ _)) by lia.
  rewrite bind_ret. cbv zeta. rewrite (u16_small (Z.of_nat j)), (proj2 (Z.leb_gt _ 0)), u16_small by lia.
  apply IH; [done | lia..].
Qed.

Lemma writen_takes_any n buf ws sink : Forall takes_some ws -> 0 <= n < 65536 -> (Z.to_nat n <= length buf)%nat ->
  writen n buf ws sink = Blocked \/ exists sink' ws', writen n buf ws sink = Done (n, sink', ws') /\ Forall takes_some ws'.
Proof. intros Hw Hn Hb. unfold writen. rewrite u16_small by lia. apply writen_loop_takes_any; (done || lia). Qed.

Definition writes (w : write_res) (k : nat) : Prop := w = Wrote k /\ (0 < k)%nat.

Lemma writen_loop_progress ws : forall ks n rem curr buf sink tail,
  Forall2 writes ws ks -> 0 <= rem < 65536 -> rem <= Z.of_nat (sum_list ks) ->
  (curr + Z.to_nat rem <= length buf)%nat ->
  exists ws', writen_loop n rem (Z.of_nat curr) buf (ws ++ tail) sink =
    Done (n, sink ++ take (Z.to_nat rem) (drop curr buf), ws' ++ tail).
Proof.
  induction ws as [|w ws IH]; intros ks n rem curr buf sink tail Hw Hr Hs Hb;
    inversion Hw as [|? k ? ks' [-> Hk] Hw']; subst; clear Hw.
  - simpl in Hs. assert (rem = 0) as -> by lia. exists [].
    by rewrite writen_loop_0, app_nil_r.
  - destruct (Z.eq_dec rem 0) as [->|Hne].
    { exists (Wrote k :: ws). by rewrite writen_loop_0, app_nil_r. }
    set (j := (k `min` Z.to_nat rem)%nat). assert (Hj : (0 < j <= Z.to_nat rem)%nat) by lia.
    edestruct (IH ks' n (rem - Z.of_nat j) (curr + j)%nat buf
      (sink ++ take j (drop curr buf)) tail) as (ws' & Hws); [done | lia | simpl in Hs; lia | lia |].
    exists ws'. cbn [writen_loop app sys_write]. rewrite (proj2 (Z.gtb_lt rem 0)) by lia. fold j.
    rewrite (proj2 (Z.ltb_lt 0 _)), !Nat2Z.id by lia.
    unfold buf_read. rewrite (proj2 (Nat.leb_le _ _)) by lia. cbn [mbind outcome_bind].
    rewrite bind_done, (u16_small (Z.of_nat j)) by lia. cbv zeta.
    rewrite (proj2 (Z.leb_gt _ 0)), u16_small, <- Nat2Z.inj_add, Hws by lia.
    rewrite <- app_assoc, <- drop_drop. do 3 f_equal.
    replace (Z.to_nat rem) with (j + Z.to_nat (rem - Z.of_nat j))%nat by lia.
    by rewrite take_take_drop.
Qed.

Lemma writen_run ws ks n buf sink tail :
  Forall2 writes ws ks -> 0 <= n < 65536 -> n <= Z.of_nat (sum_list ks) ->
  (Z.to_nat n <= length buf)%nat ->
  exists ws', writen n buf (ws ++ tail) sink = Done (n, sink ++ take (Z.to_nat n) buf, ws' ++ tail).
Proof.
  intros Hw Hn Hs Hb. unfold writen. rewrite u16_small by lia.
  apply (writen_loop_progress ws ks n n 0%nat); try done.
Qed.

(** [writen] sends the whole buffer however the kernel splits the writes. As long as
    every [write] takes at least one byte, it returns [n] and exactly the first [n] bytes
    of the buffer are appended, in order, to what was sent before. *)
Theorem writen_complete ws ks n buf sink tail :
  Forall2 writes ws ks -> 0 <= n < 65536 -> n <= Z.of_nat (sum_list ks) ->
  (Z.to_nat n <= length buf)%nat ->
  exists ws', writen n buf (ws ++ tail) sink = Done (n, sink ++ take (Z.to_nat n) buf, ws' ++ tail).
Proof. apply writen_run. Qed.

Lemma writen_complete_witness :
  exists ws', writen 4 [1; 2; 3; 4] ([Wrote 1; Wrote 2; Wrote 9] ++ []) [7] =
    Done (4, [7] ++ take (Z.to_nat 4) [1; 2; 3; 4], ws' ++ []).
Proof.
  apply (writen_complete [Wrote 1; Wrote 2; Wrote 9] [1; 2; 9]%nat).
  - repeat constructor.
  - lia.
  - simpl. lia.
  - simpl. lia.
Defined.

Lemma writen_loop_err n rem curr buf e ws sink :
  0 < rem < 65536 ->
  writen_loop n rem curr buf (WErr e :: ws) sink =
  writen_loop n (u16 (rem + 1)) (curr + 65535) buf ws sink.
Proof.
  intros Hr. cbn [writen_loop sys_write]. rewrite (proj2 (Z.gtb_lt rem 0)) by lia.
  change (0 <? -1) with false. cbv iota. unfold buf_read.
  rewrite (proj2 (Nat.leb_le _ _)) by (simpl; lia). cbn [mbind outcome_bind].
  rewrite bind_done, take_0, app_nil_r. change (u16 (-1)) with 65535. cbv zeta.
  change (65535 <=? 0) with false. cbv iota.
  f_equal. unfold u16. replace (rem - 65535) with (rem + 1 + (-1) * 2 ^ 16) by lia.
  by rewrite Z.mod_add.
Qed.

Lemma writen_loop_persistent_err k : forall n rem curr buf e tail sink,
  0 < rem -> rem + Z.of_nat (S k) = 65536 ->
  writen_loop n rem curr buf (replicate (S k) (WErr e) ++ tail) sink = Done (n, sink, tail).
Proof.
  induction k as [|k IH]; intros n rem curr buf e tail sink Hr Hk;
    rewrite replicate_S; cbn [app]; rewrite writen_loop_err by lia.
  - replace (rem + 1) with 65536 by lia. change (u16 65536) with 0. by rewrite writen_loop_0.
  - rewrite u16_small by lia. apply IH; lia.
Qed.

(** [writen] cannot report a failed descriptor. When every [write] fails (a closed
    socket, a FIFO without a reader), it returns [n], as after a complete write, after
    65536 - n failures and without having sent a byte. It returns -1 for a [write] that
    returned 0. *)
Theorem writen_hides_errors :
  (forall n buf e tail sink, 0 < n < 65536 ->
     writen n buf (replicate (Z.to_nat (65536 - n)) (WErr e) ++ tail) sink = Done (n, sink, tail)) /\
  (forall n buf ws sink, 0 < n < 65536 ->
     writen n buf (Wrote 0 :: ws) sink = Done (-1, sink, ws)).
Proof.
  split; unfold writen.
  - intros n buf e tail sink Hn. rewrite u16_small by lia.
    destruct (Z.to_nat (65536 - n)) as [|k] eqn:Hk; [lia|].
    apply writen_loop_persistent_err; lia.
  - intros n buf ws sink Hn. rewrite u16_small by lia. cbn [writen_loop sys_write].
    rewrite (proj2 (Z.gtb_lt n 0)) by lia. simpl. unfold buf_read. simpl.
    by rewrite take_0, app_nil_r.
Qed.
