(* ===== verification/Cobs.v ===== *)
(** * Consistent overhead byte stuffing
    ([cobs_encode] and [cobs_decode] of src/dev_handler/message.c).

    The encoder and the decoder walk two allocations by index, checking every access: a
    pointer of the code is an index into the list of the bytes of its allocation. The
    reference encoding [cobs_ref] is the specification the pointer code is proved against. *)

From S2P Require Export Prelude.

(** ** The encoder *)

(** The locals of [cobs_encode]: the destination memory, the indices [block] and [dst]
    point to, and the two counters. *)
Record enc_state : Set := Enc {
  e_mem : bytes;
  e_block : nat;
  e_dst : nat;
  e_block_len : Z;
  e_dst_len : nat
}.

(** The macro [finish_block]. *)
Definition finish_block (s : enc_state) : outcome enc_state :=
  mem ← buf_set (e_mem s) (e_block s) (u8 (e_block_len s));
  mret (Enc mem (e_dst s) (S (e_dst s)) 1 (S (e_dst_len s))).

(** The body of the [while] loop, for the byte [b] that [src] points to. *)
Definition encode_step (s : enc_state) (b : Z) : outcome enc_state :=
  if b =? 0 then finish_block s
  else
    mem ← buf_set (e_mem s) (e_dst s) b;
    let s' := Enc mem (e_block s) (S (e_dst s)) (e_block_len s + 1) (S (e_dst_len s)) in
    if e_block_len s' =? 255 then finish_block s' else mret s'.

Fixpoint encode_loop (s : enc_state) (src : bytes) : outcome enc_state :=
  match src with
  | [] => mret s
  | b :: src' => s' ← encode_step s b; encode_loop s' src'
  end.

(** Returns the encoded length and the destination memory. *)
Definition cobs_encode (dst : bytes) (src : bytes) : outcome (nat * bytes) :=
  s ← encode_loop (Enc dst 0 1 1 0) src;
  s' ← finish_block s;
  mret (e_dst_len s', e_mem s').

(** ** The decoder *)

(** The destination memory, the indices [dst] and [src], and [out_len]. *)
Record dec_state : Set := Dec {
  d_mem : bytes;
  d_dst : nat;
  d_src : nat;
  d_out : nat
}.

(** How the walk goes on: [Bad] is the early [return 0] for a bad packet. *)
Inductive dec_result : Set :=
| Good (s : dec_state)
| Bad (s : dec_state).

(** The [for] loop that copies [num_bytes_to_copy - 1] bytes. *)
Fixpoint decode_copy (k : nat) (src : bytes) (end_ : nat) (s : dec_state) : outcome dec_result :=
  match k with
  | O => mret (Good s)
  | S k' =>
      b ← buf_get src (d_src s);
      mem ← buf_set (d_mem s) (d_dst s) b;
      let s' := Dec mem (S (d_dst s)) (S (d_src s)) (S (d_out s)) in
      if (end_ <? d_src s')%nat then mret (Bad s') else decode_copy k' src end_ s'
  end.

Fixpoint decode_loop (fuel : nat) (src : bytes) (end_ : nat) (s : dec_state) : outcome dec_result :=
  if (d_src s <? end_)%nat then
    match fuel with
    | O => OutOfFuel
    | S fuel' =>
        num_bytes_to_copy ← buf_get src (d_src s);
        r ← decode_copy (Z.to_nat num_bytes_to_copy - 1) src end_
              (Dec (d_mem s) (d_dst s) (S (d_src s)) (d_out s));
        match r with
        | Bad s1 => mret (Bad s1)
        | Good s1 =>
            if (d_src s1 =? end_)%nat then decode_loop fuel' src end_ s1
            else
              mem ← buf_set (d_mem s1) (d_dst s1) 0;
              decode_loop fuel' src end_ (Dec mem (S (d_dst s1)) (d_src s1) (S (d_out s1)))
        end
    end
  else mret (Good s).

(** Every iteration reads at least the length byte, so [src_len] iterations are enough.
    Returns the decoded length (0 for a bad packet) and the destination memory. *)
Definition cobs_decode (dst : bytes) (src : bytes) (src_len : nat) : outcome (nat * bytes) :=
  r ← decode_loop src_len src src_len (Dec dst 0 0 0);
  match r with
  | Bad s => mret (0%nat, d_mem s)
  | Good s => mret (d_out s, d_mem s)
  end.

(** ** The reference encoding *)

(** [cobs_ref blk src] encodes [src] when the bytes [blk] of the current block have been
    read already. *)
Fixpoint cobs_ref (blk src : bytes) : bytes :=
  match src with
  | [] => Z.of_nat (S (length blk)) :: blk
  | b :: src' =>
      if b =? 0 then Z.of_nat (S (length blk)) :: blk ++ cobs_ref [] src'
      else if (length blk =? 253)%nat then 255 :: (blk ++ [b]) ++ cobs_ref [] src'
      else cobs_ref (blk ++ [b]) src'
  end.

(** What the decoder makes of the encoding of [src]: a zero after every full block, where
    the encoder had removed none. [n] is the length of the run read so far. *)
Fixpoint stuffed (n : nat) (src : bytes) : bytes :=
  match src with
  | [] => []
  | b :: src' =>
      if b =? 0 then 0 :: stuffed 0 src'
      else if (n =? 253)%nat then b :: 0 :: stuffed 0 src'
      else b :: stuffed (S n) src'
  end.

(** No run of 254 or more non-zero bytes. *)
Fixpoint short_runs (n : nat) (src : bytes) : bool :=
  match src with
  | [] => true
  | b :: src' =>
      if b =? 0 then short_runs 0 src'
      else negb (n =? 253)%nat && short_runs (S n) src'
  end.

(** ** Facts on the reference encoding *)

Lemma cobs_ref_length_pos blk src : (0 < length (cobs_ref blk src))%nat.
Proof.
  revert blk. induction src as [|b src IH]; intros blk; simpl; [lia|].
  repeat case_match; simpl; try lia. apply IH.
Qed.

(** The overhead is one byte and one more for every 254 bytes. *)
Lemma cobs_ref_length blk src :
  (length blk <= 253)%nat ->
  (254 * length (cobs_ref blk src) <= 255 * (length blk + length src) + 254)%nat /\
  (length blk + length src < length (cobs_ref blk src))%nat.
Proof.
  revert blk. induction src as [|b src IH]; intros blk Hb; simpl; [lia|].
  repeat case_match; simpl; rewrite ?length_app; simpl.
  - destruct (IH [] ltac:(simpl; lia)). simpl in *. lia.
  - destruct (IH [] ltac:(simpl; lia)). simpl in *. rewrite Nat.eqb_eq in *. lia.
  - rewrite Nat.eqb_neq in *. destruct (IH (blk ++ [b])); rewrite length_app in *; simpl in *; lia.
Qed.

Lemma cobs_ref_bytes blk src :
  (length blk <= 253)%nat -> Forall (fun b => 0 < b < 256) blk -> Forall byte_ok src ->
  Forall (fun b => 0 < b < 256) (cobs_ref blk src).
Proof.
  revert blk. induction src as [|b src IH]; intros blk Hl Hb Hs; simpl.
  - constructor; [lia | done].
  - apply Forall_cons_1 in Hs as [Hb0 Hs]. unfold byte_ok in Hb0.
    destruct (Z.eqb_spec b 0); [|destruct (Nat.eqb_spec (length blk) 253)].
    + constructor; [lia|]. apply Forall_app_2; [done|]. apply IH; simpl; auto; lia.
    + constructor; [lia|]. apply Forall_app_2; [|apply IH; simpl; auto; lia].
      apply Forall_app_2; [done|]. constructor; [lia | done].
    + apply IH; [rewrite length_app; simpl; lia | | done].
      apply Forall_app_2; [done|]. constructor; [lia | done].
Qed.

(** ** The pointer code computes the reference encoding *)

(** The encoder's state when [dn] is finished, [x] is the slot of the current block's
    length, and [blk] are the bytes of that block. *)
Definition enc_at (dn blk : bytes) (x : Z) (tail : bytes) : enc_state :=
  Enc (dn ++ x :: blk ++ tail) (length dn) (length dn + S (length blk))
    (Z.of_nat (S (length blk))) (length dn + length blk).

Lemma finish_block_at dn blk x y tail :
  (length blk < 255)%nat ->
  finish_block (enc_at dn blk x (y :: tail)) =
  Done (enc_at (dn ++ Z.of_nat (S (length blk)) :: blk) [] y tail).
Proof.
  intros Hl. unfold finish_block, enc_at. cbn [e_mem e_block e_dst e_block_len e_dst_len].
  rewrite buf_set_app, bind_done, u8_small by lia.
  rewrite <- app_assoc. cbn [app]. rewrite length_app. cbn [length].
  unfold mret, outcome_ret. do 2 f_equal; lia.
Qed.

Lemma encode_copy_at dn blk x y tail b :
  b ≠ 0 -> (length blk ≠ 253)%nat ->
  encode_step (enc_at dn blk x (y :: tail)) b = Done (enc_at dn (blk ++ [b]) x tail).
Proof.
  intros Hb Hl. unfold encode_step, enc_at. rewrite (proj2 (Z.eqb_neq b 0)) by done.
  cbn [e_mem e_block e_dst e_block_len e_dst_len].
  rewrite app_comm_cons, app_assoc.
  rewrite (buf_set_app (dn ++ x :: blk)) by (rewrite length_app; simpl; lia).
  rewrite bind_done, (proj2 (Z.eqb_neq _ 255)) by lia.
  unfold mret, outcome_ret. rewrite length_app. cbn [length].
  rewrite <- app_assoc, <- app_comm_cons, <- app_assoc. cbn [app].
  do 2 f_equal; lia.
Qed.

(** The 254th byte of a block is stored and the block finished in one step. *)
Lemma encode_full_at dn blk x y z tail b :
  b ≠ 0 -> length blk = 253%nat ->
  encode_step (enc_at dn blk x (y :: z :: tail)) b =
  Done (enc_at (dn ++ 255 :: blk ++ [b]) [] z tail).
Proof.
  intros Hb Hl. unfold encode_step, enc_at. rewrite (proj2 (Z.eqb_neq b 0)) by done.
  cbn [e_mem e_block e_dst e_block_len e_dst_len].
  rewrite app_comm_cons, app_assoc.
  rewrite (buf_set_app (dn ++ x :: blk)) by (rewrite length_app; simpl; lia).
  rewrite bind_done, (proj2 (Z.eqb_eq _ 255)) by lia.
  unfold finish_block. cbn [e_mem e_block e_dst e_block_len e_dst_len].
  rewrite <- app_assoc, <- app_comm_cons, buf_set_app, bind_done by done.
  replace (Z.of_nat (S (length blk)) + 1) with 255 by lia. change (u8 255) with 255.
  unfold mret, outcome_ret. rewrite <- app_assoc. cbn [app]. rewrite <- app_assoc. cbn [app].
  rewrite length_app. cbn [length]. rewrite length_app. cbn [length].
  do 2 f_equal; lia.
Qed.

(** [room] is the part of the destination that the rest of the encoding fills. *)
Lemma encode_loop_ref src : forall dn blk x room rest,
  (length blk <= 253)%nat -> length (cobs_ref blk src) = S (length blk + length room) ->
  exists s, (s ← encode_loop (enc_at dn blk x (room ++ rest)) src; finish_block s) = Done s /\
    e_mem s = dn ++ cobs_ref blk src ++ rest /\
    e_dst_len s = (length dn + length (cobs_ref blk src))%nat.
Proof.
  induction src as [|b src IH]; intros dn blk x room rest Hl Hcap; cbn [cobs_ref] in Hcap |- *.
  - destruct room; [|simpl in Hcap; lia].
    cbn [encode_loop mret outcome_ret app]. rewrite bind_done. unfold finish_block, enc_at.
    cbn [e_mem e_block e_dst e_block_len e_dst_len].
    rewrite buf_set_app, bind_done, u8_small by lia. eexists. split; [done|].
    cbn [e_mem e_dst_len length]. split; [done | lia].
  - cbn [encode_loop]. rewrite bind_assoc.
    pose proof (cobs_ref_length_pos [] src) as Hpos.
    destruct (Z.eqb_spec b 0) as [->|Hb]; [|destruct (Nat.eqb_spec (length blk) 253) as [H253|]].
    + cbn [length] in Hcap. rewrite length_app in Hcap.
      destruct room as [|y room]; cbn [length app] in *; [lia|].
      unfold encode_step. cbn [Z.eqb]. rewrite finish_block_at, bind_done by lia.
      edestruct (IH (dn ++ Z.of_nat (S (length blk)) :: blk) [] y room rest) as (s & Hs & Hm & Hlen);
        [cbn [length]; lia.. |].
      exists s. split; [done|]. rewrite Hm, Hlen. split; [by simplify_list_eq | list_lia].
    + cbn [length] in Hcap. rewrite !length_app in Hcap.
      destruct room as [|y [|z room]]; cbn [length app] in *; [lia.. |].
      rewrite encode_full_at, bind_done by done.
      edestruct (IH (dn ++ 255 :: blk ++ [b]) [] z room rest) as (s & Hs & Hm & Hlen);
        [cbn [length]; lia.. |].
      exists s. split; [done|]. rewrite Hm, Hlen. split; [by simplify_list_eq | list_lia].
    + pose proof (cobs_ref_length (blk ++ [b]) src) as Hlong.
      rewrite length_app in Hlong. cbn [length] in Hlong.
      destruct room as [|y room]; cbn [length app] in *; [lia|].
      rewrite encode_copy_at, bind_done by done.
      apply IH; rewrite length_app; cbn [length]; lia.
Qed.

(** The encoder on a destination with enough room. *)
Lemma cobs_encode_ref dst src :
  (length (cobs_ref [] src) <= length dst)%nat ->
  cobs_encode dst src =
  Done (length (cobs_ref [] src), cobs_ref [] src ++ drop (length (cobs_ref [] src)) dst).
Proof.
  intros Hcap. set (L := length (cobs_ref [] src)) in *.
  assert (HL : (0 < L)%nat) by apply cobs_ref_length_pos.
  destruct dst as [|x dst]; [simpl in Hcap; lia|]. cbn [length] in Hcap.
  destruct (encode_loop_ref src [] [] x (take (L - 1) dst) (drop (L - 1) dst))
    as (s & Hs & Hm & Hlen).
  { simpl. lia. }
  { rewrite length_take. cbn [length]. fold L. lia. }
  unfold enc_at in Hs. cbn [app length] in Hs. rewrite take_drop in Hs.
  change (encode_loop (Enc (x :: dst) 0 1 1 0) src ≫= finish_block = Done s) in Hs.
  unfold cobs_encode. rewrite <- bind_assoc, Hs, bind_done.
  rewrite Hm, Hlen. cbn [app length]. fold L.
  destruct L as [|k]; [lia|]. cbn [drop]. by replace (S k - 1)%nat with k by lia.
Qed.

(** ** The decoder inverts the reference encoding *)

(** The decoder's state when [out] has been produced from [pre]. *)
Definition dec_at (out room pre : bytes) : dec_state :=
  Dec (out ++ room) (length out) (length pre) (length out).

Lemma decode_copy_at blk : forall out hole room pre post end_,
  length hole = length blk -> (length pre + length blk <= end_)%nat ->
  decode_copy (length blk) (pre ++ blk ++ post) end_ (dec_at out (hole ++ room) pre) =
  Done (Good (dec_at (out ++ blk) room (pre ++ blk))).
Proof.
  induction blk as [|b blk IH]; intros out hole room pre post end_ Hh He.
  - destruct hole; [|done]. cbn [decode_copy length app]. by rewrite !app_nil_r.
  - destruct hole as [|h hole]; [done|]. cbn [length] in *. cbn [decode_copy].
    unfold dec_at. cbn [d_mem d_dst d_src d_out app].
    rewrite buf_get_app, bind_done, buf_set_app, bind_done by done.
    rewrite (proj2 (Nat.ltb_ge _ _)) by lia.
    specialize (IH (out ++ [b]) hole room (pre ++ [b]) post end_).
    unfold dec_at in IH |- *. rewrite !length_app, <- !app_assoc in IH. cbn [length app] in IH.
    rewrite !Nat.add_1_r in IH. rewrite IH, !length_app, <- app_assoc by lia. cbn [length app].
    do 3 f_equal; lia.
Qed.

(** One block of an encoding: its length byte and its bytes are consumed. *)
Lemma decode_block fuel blk out hole room pre post end_ :
  length hole = length blk -> (length blk < 255)%nat ->
  let src := pre ++ (Z.of_nat (S (length blk)) :: blk) ++ post in
  let pre' := pre ++ Z.of_nat (S (length blk)) :: blk in
  (length pre' <= end_)%nat ->
  decode_loop (S fuel) src end_ (dec_at out (hole ++ room) pre) =
  if (length pre' =? end_)%nat then decode_loop fuel src end_ (dec_at (out ++ blk) room pre')
  else
    mem ← buf_set (out ++ blk ++ room) (length out + length blk) 0;
    decode_loop fuel src end_
      (Dec mem (S (length out + length blk)) (length pre') (S (length out + length blk))).
Proof.
  intros Hh Hl src pre' He.
  assert (Hp : length pre' = (length pre + S (length blk))%nat)
    by (unfold pre'; rewrite length_app; done).
  assert (Hg : buf_get src (length pre) = Done (Z.of_nat (S (length blk))))
    by (by apply buf_get_app).
  assert (Hc : decode_copy (length blk) src end_
      (Dec (out ++ hole ++ room) (length out) (S (length pre)) (length out)) =
    Done (Good (dec_at (out ++ blk) room pre'))).
  { pose proof (decode_copy_at blk out hole room (pre ++ [Z.of_nat (S (length blk))]) post end_) as Hc.
    unfold dec_at in Hc at 1. rewrite length_app, <- !app_assoc, Nat.add_1_r in Hc.
    apply Hc; [done | lia]. }
  clearbody src pre'. cbn [decode_loop]. unfold dec_at.
  cbn [d_mem d_dst d_src d_out].
  rewrite (proj2 (Nat.ltb_lt _ _)), Hg, bind_done by lia.
  replace (Z.to_nat (Z.of_nat (S (length blk))) - 1)%nat with (length blk) by lia.
  rewrite Hc, bind_done. unfold dec_at. cbn [d_mem d_dst d_src d_out].
  by rewrite !length_app, <- !app_assoc.
Qed.

(** The block is followed by another one, [next]: a zero is put back. *)
Lemma decode_block_more fuel code blk next out hole y room rest pre post :
  code = Z.of_nat (S (length blk)) -> length hole = length blk -> (length blk < 255)%nat ->
  (0 < length next)%nat ->
  decode_loop (S fuel) (pre ++ (code :: blk ++ next) ++ post) (length (pre ++ code :: blk ++ next))
    (dec_at out ((hole ++ y :: room) ++ rest) pre) =
  decode_loop fuel ((pre ++ code :: blk) ++ next ++ post) (length ((pre ++ code :: blk) ++ next))
    (dec_at (out ++ blk ++ [0]) (room ++ rest) (pre ++ code :: blk)).
Proof.
  intros -> Hh Hl Hn.
  replace (pre ++ (Z.of_nat (S (length blk)) :: blk ++ next) ++ post)
    with (pre ++ (Z.of_nat (S (length blk)) :: blk) ++ next ++ post) by (by simplify_list_eq).
  rewrite <- (app_assoc hole).
  rewrite decode_block by (done || list_lia).
  rewrite (proj2 (Nat.eqb_neq _ _)) by list_lia.
  cbn [app]. rewrite (app_assoc out blk), buf_set_app, bind_done by (by rewrite length_app).
  f_equal; [by simplify_list_eq | by simplify_list_eq |].
  unfold dec_at. rewrite <- !app_assoc, !length_app. cbn [length app]. f_equal; lia.
Qed.

Lemma stuffed_length n src : (length src <= length (stuffed n src))%nat.
Proof.
  revert n. induction src as [|b src IH]; intros n; simpl; [lia|].
  repeat case_match; simpl; [specialize (IH 0%nat) | specialize (IH 0%nat) | specialize (IH (S n))]; lia.
Qed.

Lemma decode_loop_done fuel src end_ s :
  (end_ <= d_src s)%nat -> decode_loop fuel src end_ s = Done (Good s).
Proof. intros H. destruct fuel; simpl; by rewrite (proj2 (Nat.ltb_ge _ _)) by lia. Qed.

(** The part of the destination for a block, the zero behind it, and the rest. *)
Lemma split_room (room : bytes) k m :
  length room = (k + S m)%nat ->
  exists hole y room', room = hole ++ y :: room' /\ length hole = k /\ length room' = m.
Proof.
  intros H. destruct (drop k room) as [|y room'] eqn:E.
  - apply (f_equal length) in E. rewrite length_drop in E. cbn [length] in E. lia.
  - exists (take k room), y, room'. rewrite <- E, take_drop, length_take.
    apply (f_equal length) in E. rewrite length_drop in E. cbn [length] in E.
    repeat split; lia.
Qed.

Lemma decode_loop_ref src : forall blk fuel out room rest pre post,
  (length blk <= 253)%nat -> (length (cobs_ref blk src) <= fuel)%nat ->
  length room = (length blk + length (stuffed (length blk) src))%nat ->
  decode_loop fuel (pre ++ cobs_ref blk src ++ post) (length (pre ++ cobs_ref blk src))
    (dec_at out (room ++ rest) pre) =
  Done (Good (dec_at (out ++ blk ++ stuffed (length blk) src) rest (pre ++ cobs_ref blk src))).
Proof.
  induction src as [|b src IH]; intros blk fuel out room rest pre post Hl Hf Hr;
    cbn [cobs_ref stuffed] in *.
  - destruct fuel as [|fuel]; [simpl in Hf; lia|]. cbn [length] in Hr. rewrite Nat.add_0_r in Hr.
    rewrite app_nil_r, decode_block, Nat.eqb_refl by (done || lia).
    by apply decode_loop_done.
  - pose proof (cobs_ref_length_pos [] src) as Hpos.
    destruct (Z.eqb_spec b 0) as [->|Hb]; [|destruct (Nat.eqb_spec (length blk) 253) as [H253|H253]].
    + destruct fuel as [|fuel]; [list_lia|].
      destruct (split_room room (length blk) (length (stuffed 0 src))) as (hole & y & room' & -> & Hh & Hr');
        [list_lia|].
      rewrite decode_block_more, (IH []) by (done || list_lia).
      do 3 f_equal; by simplify_list_eq.
    + destruct fuel as [|fuel]; [list_lia|].
      destruct (split_room room (length (blk ++ [b])) (length (stuffed 0 src)))
        as (hole & y & room' & -> & Hh & Hr'); [list_lia|].
      rewrite decode_block_more, (IH []) by (done || list_lia).
      do 3 f_equal; by simplify_list_eq.
    + assert (Hs : length (blk ++ [b]) = S (length blk)) by list_lia.
      specialize (IH (blk ++ [b])). rewrite Hs in IH.
      rewrite IH by (done || lia || list_lia).
      do 3 f_equal; by simplify_list_eq.
Qed.

(** The decoder on an encoding, in a destination with enough room. *)
Lemma cobs_decode_ref dst src post :
  (length (stuffed 0 src) <= length dst)%nat ->
  cobs_decode dst (cobs_ref [] src ++ post) (length (cobs_ref [] src)) =
  Done (length (stuffed 0 src), stuffed 0 src ++ drop (length (stuffed 0 src)) dst).
Proof.
  intros Hcap. unfold cobs_decode. set (n := length (stuffed 0 src)) in *.
  pose proof (decode_loop_ref src [] (length (cobs_ref [] src)) [] (take n dst) (drop n dst)
    [] post) as Hd.
  cbn [app length] in Hd. unfold dec_at in Hd. cbn [app length] in Hd. rewrite take_drop in Hd.
  rewrite Hd, bind_done; [done | lia | lia | rewrite length_take; lia].
Qed.

Lemma stuffed_short src : forall n, stuffed n src = src <-> short_runs n src = true.
Proof.
  induction src as [|b src IH]; intros n; cbn [stuffed short_runs]; [done|].
  destruct (Z.eqb_spec b 0) as [->|Hb].
  { rewrite <- (IH 0%nat). split; [by intros [= ?] | congruence]. }
  destruct (Nat.eqb_spec n 253) as [->|Hn]; simpl.
  { split; [|done]. intros [= H]. apply (f_equal length) in H.
    pose proof (stuffed_length 0 src). simpl in H. lia. }
  rewrite <- (IH (S n)). split; [by intros [= ?] | congruence].
Qed.

Lemma short_runs_length src : forall n, (n + length src <= 253)%nat -> short_runs n src = true.
Proof.
  induction src as [|b src IH]; intros n Hl; cbn [short_runs length] in *; [done|].
  destruct (b =? 0); [apply IH; lia|].
  rewrite (proj2 (Nat.eqb_neq n 253)) by lia. apply IH. lia.
Qed.

(** ** The theorems *)

(** C14: the encoder computes the reference encoding. With a destination of the size the
    caller computes (the source length, one more per 254 bytes, and one), it stays inside
    it, fills it with the encoding and nothing more, returns its length; the encoding has
    no zero byte and every byte of it is a byte. *)
Theorem cobs_encode_spec dst src :
  Forall byte_ok src -> (length src + length src / 254 + 1 <= length dst)%nat ->
  exists frame, cobs_encode dst src = Done (length frame, frame ++ drop (length frame) dst) /\
    frame = cobs_ref [] src /\
    (length src < length frame)%nat /\ (length frame <= length src + length src / 254 + 1)%nat /\
    Forall (fun b => 0 < b < 256) frame.
Proof.
  intros Hb Hcap. exists (cobs_ref [] src).
  destruct (cobs_ref_length [] src) as [Hle Hlt]; [simpl; lia|]. cbn [length] in Hle, Hlt.
  assert (length (cobs_ref [] src) <= length src + length src / 254 + 1)%nat.
  { pose proof (Nat.div_mod_eq (length src) 254).
    pose proof (Nat.mod_upper_bound (length src) 254 ltac:(lia)). lia. }
  split; [apply cobs_encode_ref; lia|]. split; [done|]. split; [lia|]. split; [lia|].
  apply cobs_ref_bytes; [simpl; lia | constructor | done].
Qed.

Lemma cobs_encode_spec_witness :
  exists frame, cobs_encode (replicate 5 7) [1; 0; 2] =
      Done (length frame, frame ++ drop (length frame) (replicate 5 7)) /\
    frame = cobs_ref [] [1; 0; 2] /\
    (length [1; 0; 2] < length frame)%nat /\
    (length frame <= length [1; 0; 2] + length [1; 0; 2] / 254 + 1)%nat /\
    Forall (fun b => (0 < b < 256)) frame.
Proof.
  apply (cobs_encode_spec (replicate 5 7) [1; 0; 2]).
  - repeat constructor; done.
  - vm_compute. lia.
Defined.

(** The exact behaviour of decoding an encoding. The decoder returns the source with a
    zero byte after every run of 254 non-zero bytes; so the round trip is the identity
    exactly on sources without such a run, in particular on every source of at most 253
    bytes. *)
Theorem cobs_roundtrip_exact dst1 dst2 src :
  (length src + length src / 254 + 1 <= length dst1)%nat ->
  (length (stuffed 0 src) <= length dst2)%nat ->
  (exists n mem, cobs_encode dst1 src = Done (n, mem) /\
     cobs_decode dst2 mem n =
       Done (length (stuffed 0 src), stuffed 0 src ++ drop (length (stuffed 0 src)) dst2)) /\
  (stuffed 0 src = src <-> short_runs 0 src = true) /\
  ((length src <= 253)%nat -> stuffed 0 src = src).
Proof.
  intros H1 H2. destruct (cobs_ref_length [] src) as [Hle Hlt]; [simpl; lia|].
  cbn [length] in Hle, Hlt. split; [|split].
  - eexists _, _. split; [apply cobs_encode_ref | by apply cobs_decode_ref].
    pose proof (Nat.div_mod_eq (length src) 254).
    pose proof (Nat.mod_upper_bound (length src) 254 ltac:(lia)). lia.
  - apply stuffed_short.
  - intros Hl. by apply stuffed_short, short_runs_length.
Qed.

Lemma cobs_roundtrip_exact_witness :
  (exists n mem, cobs_encode (replicate 300 0) (replicate 254 1) = Done (n, mem) /\
     cobs_decode (replicate 300 0) mem n =
       Done (length (stuffed 0 (replicate 254 1)),
             stuffed 0 (replicate 254 1) ++
               drop (length (stuffed 0 (replicate 254 1))) (replicate 300 0))) /\
  (stuffed 0 (replicate 254 1) = replicate 254 1 <-> short_runs 0 (replicate 254 1) = true) /\
  ((length (replicate 254 1) <= 253)%nat -> stuffed 0 (replicate 254 1) = replicate 254 1).
Proof.
  apply (cobs_roundtrip_exact (replicate 300 0) (replicate 300 0) (replicate 254 1));
    vm_compute; lia.
Defined.

(** ** Memory safety of the decoder on arbitrary input *)

(** At the head of the loop the decoder has produced no more than it has consumed. *)
Definition dec_inv (n : nat) (s : dec_state) : Prop :=
  (length (d_mem s) = n /\ d_dst s <= d_src s /\ d_out s = d_dst s)%nat.

Lemma decode_copy_safe k src end_ n : forall s,
  (end_ < length src)%nat -> (end_ <= n)%nat ->
  (d_src s <= end_)%nat -> (d_dst s < d_src s)%nat -> d_out s = d_dst s -> length (d_mem s) = n ->
  exists r, decode_copy k src end_ s = Done r /\
    match r with
    | Bad s' => length (d_mem s') = n
    | Good s' => (d_src s <= d_src s' <= end_)%nat /\ (d_dst s' < d_src s')%nat /\
                 d_out s' = d_dst s' /\ length (d_mem s') = n
    end.
Proof.
  induction k as [|k IH]; intros s Hs Hn He Hd Ho Hm; cbn [decode_copy].
  - eexists. split; [done|]. repeat split; (done || lia).
  - destruct (lookup_lt_is_Some_2 src (d_src s) ltac:(lia)) as [b Hb].
    rewrite (buf_get_done _ _ _ Hb), bind_done, buf_set_done, bind_done by lia.
    cbn [d_src]. destruct (Nat.ltb_spec end_ (S (d_src s))).
    + eexists. split; [done|]. simpl. by rewrite length_insert.
    + edestruct IH as (r & -> & Hr); [done | done | | | | |];
        [cbn [d_src d_dst d_out d_mem]; rewrite ?length_insert; lia.. |].
      eexists. split; [done|]. destruct r; [|done]. cbn [d_src] in Hr. intuition lia.
Qed.

Lemma decode_loop_safe fuel src end_ n : forall s,
  (end_ < length src)%nat -> (end_ <= n)%nat -> (end_ <= d_src s + fuel)%nat ->
  (d_src s <= end_)%nat -> dec_inv n s ->
  exists r, decode_loop fuel src end_ s = Done r /\
    match r with
    | Bad s' => length (d_mem s') = n
    | Good s' => (d_out s' <= end_)%nat /\ length (d_mem s') = n
    end.
Proof.
  induction fuel as [|fuel IH]; intros s Hs Hn Hf He (Hm & Hd & Ho); cbn [decode_loop];
    (destruct (Nat.ltb_spec (d_src s) end_) as [Hlt|Hge];
      [|eexists; split; [done|]; simpl; lia]); [lia|].
  destruct (lookup_lt_is_Some_2 src (d_src s) ltac:(lia)) as [b Hb].
  rewrite (buf_get_done _ _ _ Hb), bind_done.
  destruct (decode_copy_safe (Z.to_nat b - 1) src end_ n
    (Dec (d_mem s) (d_dst s) (S (d_src s)) (d_out s))) as (r & -> & Hr);
    [cbn [d_src d_dst d_out d_mem]; lia.. |].
  rewrite bind_done. destruct r as [s1|s1]; [|eexists; split; [done|]; done].
  cbn [d_src] in Hr. destruct Hr as (Hs1 & Hd1 & Ho1 & Hm1).
  destruct (Nat.eqb_spec (d_src s1) end_).
  - apply IH; try done; try lia. repeat split; lia.
  - rewrite buf_set_done, bind_done by lia.
    apply IH; try done; cbn [d_src d_dst d_out d_mem]; try lia.
    unfold dec_inv. cbn [d_src d_dst d_out d_mem]. rewrite length_insert. lia.
Qed.

Lemma cobs_decode_bounded dst src src_len :
  (src_len < length src)%nat -> (src_len <= length dst)%nat ->
  exists n mem, cobs_decode dst src src_len = Done (n, mem) /\
    (n <= src_len)%nat /\ length mem = length dst.
Proof.
  intros Hs Hd. unfold cobs_decode.
  destruct (decode_loop_safe src_len src src_len (length dst) (Dec dst 0 0 0)) as (r & -> & Hr);
    [done | done | simpl; lia | simpl; lia | done |].
  rewrite bind_done. destruct r as [s|s].
  - exists (d_out s), (d_mem s). intuition.
  - exists 0%nat, (d_mem s). split; [done|]. split; [lia | done].
Qed.

(** The decoder is total and memory-safe on every input that is followed by one more
    readable byte: for any bytes of the packet it returns, without leaving the source
    (extended by that byte) or the destination, a length of at most [src_len]. *)
Theorem cobs_decode_safe dst src src_len :
  (src_len < length src)%nat -> (src_len <= length dst)%nat ->
  exists n mem, cobs_decode dst src src_len = Done (n, mem) /\
    (n <= src_len)%nat /\ length mem = length dst.
Proof. apply cobs_decode_bounded. Qed.

Lemma cobs_decode_safe_witness :
  exists n mem, cobs_decode [0; 0] [3; 5; 77] 2 = Done (n, mem) /\
    (n <= 2)%nat /\ length mem = length [0; 0].
Proof. apply (cobs_decode_safe [0; 0] [3; 5; 77] 2); simpl; lia. Defined.

(** Copying past the end of an allocation that ends where the packet ends. *)
Lemma decode_copy_overreads k end_ rest : forall pre out hole room,
  length hole = length rest -> (length pre + length rest = end_)%nat ->
  decode_copy (length rest + S k) (pre ++ rest) end_ (dec_at out (hole ++ room) pre) =
  Faulty OutOfBounds.
Proof.
  induction rest as [|b rest IH]; intros pre out hole room Hh Hp.
  - cbn [length Nat.add decode_copy dec_at d_src]. unfold buf_get.
    rewrite lookup_ge_None_2; [done | list_lia].
  - destruct hole as [|h hole]; [done|]. cbn [length Nat.add decode_copy] in *.
    unfold dec_at. cbn [d_mem d_dst d_src d_out app].
    rewrite buf_get_app, bind_done, buf_set_app, bind_done by done.
    rewrite (proj2 (Nat.ltb_ge _ _)) by lia.
    specialize (IH (pre ++ [b]) (out ++ [b]) hole room). unfold dec_at in IH.
    rewrite !length_app, <- !app_assoc in IH. cbn [length app] in IH.
    rewrite !Nat.add_1_r in IH. apply IH; lia.
Qed.

(** Without that extra byte the decoder over-reads. On an allocation that holds the
    packet and nothing more, a first block that claims more bytes than the packet has makes
    the decoder read past the end of the allocation: the test that detects the bad packet
    comes after the read. *)
Theorem cobs_decode_overreads dst code rest :
  (length (code :: rest) <= length dst)%nat ->
  Z.of_nat (length (code :: rest)) < code ->
  cobs_decode dst (code :: rest) (length (code :: rest)) = Faulty OutOfBounds.
Proof.
  intros Hd Hc. cbn [length] in *. unfold cobs_decode. cbn [decode_loop d_src].
  rewrite (proj2 (Nat.ltb_lt _ _)) by lia.
  rewrite (buf_get_done _ _ code), bind_done by done. cbn [d_mem d_dst d_out].
  replace (Z.to_nat code - 1)%nat with (length rest + S (Z.to_nat code - 2 - length rest))%nat by lia.
  pose proof (decode_copy_overreads (Z.to_nat code - 2 - length rest) (S (length rest)) rest [code] [] (take (length rest) dst) (drop (length rest) dst)) as Hg.
  unfold dec_at in Hg. cbn [length app] in Hg. rewrite take_drop in Hg.
  rewrite Hg; [done | rewrite length_take; lia | lia].
Qed.

Lemma cobs_decode_overreads_witness :
  cobs_decode [0; 0; 0] [9; 1; 2] (length [9; 1; 2]) = Faulty OutOfBounds.
Proof. apply (cobs_decode_overreads [0; 0; 0] 9 [1; 2]); simpl; lia. Defined.
