(* ===== verification/Conc.v ===== *)
(** * Processes that share memory under semaphores.

    A program of a process is a tree of the operations that reach outside it: waiting on and
    posting semaphores, accesses to one region of the shared memory, [exit], and a call that
    waits for input that never comes ([Starve]). The file gives
    the sequential meaning [run], the interleaving of several processes [step], the locking
    discipline [disc], and proves that processes that keep the discipline never fault, never
    race on a region and never deadlock. The memory itself is an interface, [SharedMem]. *)

From stdpp Require Import gmap relations.
From S2P Require Export Prelude.

(** ** The interface: semaphores, their order, and a memory divided into regions *)

Class SharedMem : Type := {
  sem : Set;
  sem_eq_dec :: EqDecision sem;
  sem_countable :: Countable sem;
  sem_ok : sem -> Prop;             (* the semaphore exists *)
  rank : sem -> nat;                (* the order in which semaphores are taken *)
  max_rank : nat;
  memory : Set;
  region : Set;
  region_ty : region -> Set;
  load : forall r, memory -> region_ty r;
  store : forall r, region_ty r -> memory -> memory;
  owner : region -> sem;            (* the semaphore that protects the region *)
  peekable : region -> bool;        (* the code reads it without its semaphore *)
  region_wf : forall r, region_ty r -> Prop
}.

Definition mem_wf {M : SharedMem} (m : memory) : Prop := forall r, region_wf r (load r m).

Class SharedMemLaws (M : SharedMem) : Prop := {
  rank_bound : forall s, (rank s < max_rank)%nat;
  store_load : forall r m, store r (load r m) m = m;
  load_store_ne : forall r r' v m, r ≠ r' -> load r' (store r v m) = load r' m;
  store_wf : forall r v m, mem_wf m -> region_wf r v -> mem_wf (store r v m)
}.

Section Programs.
Context `{M : SharedMem}.

(** ** Programs *)

Inductive prog (A : Type) : Type :=
| Ret (a : A)
| Wait (s : sem) (k : prog A)
| Post (s : sem) (k : prog A)
| Access (r : region) (B : Set) (f : region_ty r -> outcome (B * region_ty r)) (k : B -> prog A)
| Exit (code : Z)
| Starve
| Fail (f : fault).

Arguments Ret {A} a.
Arguments Wait {A} s k.
Arguments Post {A} s k.
Arguments Access {A} r B f k.
Arguments Exit {A} code.
Arguments Starve {A}.
Arguments Fail {A} f.

Fixpoint prog_bind_def {A B : Type} (k : A -> prog B) (p : prog A) : prog B :=
  match p with
  | Ret a => k a
  | Wait s p' => Wait s (prog_bind_def k p')
  | Post s p' => Post s (prog_bind_def k p')
  | Access r C f p' => Access r C f (fun c => prog_bind_def k (p' c))
  | Exit code => Exit code
  | Starve => Starve
  | Fail e => Fail e
  end.

#[export] Instance prog_ret : MRet prog := fun A a => Ret a.
#[export] Instance prog_bind : MBind prog := fun A B k p => prog_bind_def k p.

Definition wait (s : sem) : prog unit := Wait s (Ret tt).
Definition post (s : sem) : prog unit := Post s (Ret tt).
Definition access (r : region) {B : Set} (f : region_ty r -> outcome (B * region_ty r)) : prog B :=
  Access r B f Ret.
(** A read, and an assignment. *)
Definition get (r : region) {B : Set} (f : region_ty r -> outcome B) : prog B :=
  access r (fun v => b ← f v; mret (b, v)).
Definition upd (r : region) (f : region_ty r -> outcome (region_ty r)) : prog unit :=
  access r (fun v => v' ← f v; mret (tt, v')).

(** Computations on the caller's own memory. *)
Definition local {A : Type} (o : outcome A) : prog A :=
  match o with
  | Done a => Ret a
  | Faulty f => Fail f
  | Exited c => Exit c
  | Blocked => Starve
  | OutOfFuel => Fail OutOfBounds
  end.

(** ** One process alone *)

Record sys : Type := Sys { mem : memory; sems : gmap sem nat }.

Fixpoint run {A : Type} (p : prog A) (st : sys) : outcome (A * sys) :=
  match p with
  | Ret a => mret (a, st)
  | Wait s k =>
      match sems st !! s with
      | Some (S n) => run k (Sys (mem st) (<[s := n]> (sems st)))
      | Some O => Blocked
      | None => Faulty NullDeref
      end
  | Post s k =>
      match sems st !! s with
      | Some n => run k (Sys (mem st) (<[s := S n]> (sems st)))
      | None => Faulty NullDeref
      end
  | Access r B f k =>
      '(b, v) ← f (load r (mem st)); run (k b) (Sys (store r v (mem st)) (sems st))
  | Exit code => Exited code
  | Starve => Blocked
  | Fail e => Faulty e
  end.

(** ** Several processes *)

Record config : Type := Config { c_sys : sys; c_threads : list (prog unit) }.

(** One operation of one process. *)
Definition advance {A : Type} (p : prog A) (st : sys) : option (prog A * sys) :=
  match p with
  | Wait s k =>
      match sems st !! s with
      | Some (S n) => Some (k, Sys (mem st) (<[s := n]> (sems st)))
      | _ => None
      end
  | Post s k =>
      match sems st !! s with
      | Some n => Some (k, Sys (mem st) (<[s := S n]> (sems st)))
      | None => None
      end
  | Access r B f k =>
      match f (load r (mem st)) with
      | Done (b, v) => Some (k b, Sys (store r v (mem st)) (sems st))
      | _ => None
      end
  | _ => None
  end.

Inductive step : config -> config -> Prop :=
| step_thread i p p' st st' ts :
    ts !! i = Some p -> advance p st = Some (p', st') ->
    step (Config st ts) (Config st' (<[i := p']> ts)).

Definition finished {A : Type} (p : prog A) : bool :=
  match p with Ret _ => true | Exit _ => true | Starve => true | _ => false end.

(** The process is about to execute something undefined. *)
Definition faulting {A : Type} (p : prog A) (st : sys) : bool :=
  match p with
  | Fail _ => true
  | Access r B f k => match f (load r (mem st)) with Done _ => false | _ => true end
  | Post s _ => match sems st !! s with None => true | _ => false end
  | Wait s _ => match sems st !! s with None => true | _ => false end
  | _ => false
  end.

(** The region a process accesses next, and whether it leaves it unchanged. *)
Definition next_region {A : Type} (p : prog A) : option region :=
  match p with Access r _ _ _ => Some r | _ => None end.

Definition reads_only {A : Type} (p : prog A) : Prop :=
  match p with
  | Access r B f k => forall v b v', f v = Done (b, v') -> v' = v
  | _ => True
  end.

(** ** The discipline *)

(** [disc L p L' Q]: started with the semaphores [L] held, [p] takes semaphores in the order
    of their ranks, posts only what it holds, accesses a region only while it holds its
    owner (or to read it, when the region is peekable), keeps every region well-formed and
    never faults; it ends with [L'] held and a result in [Q], or by [exit(1)], or in a call that
    waits for input for ever, in both cases holding nothing. *)
Fixpoint disc {A : Type} (L : list sem) (p : prog A) (L' : list sem) (Q : A -> Prop) : Prop :=
  match p with
  | Ret a => L = L' /\ Q a
  | Wait s k =>
      sem_ok s /\ Forall (fun s' => (rank s' < rank s)%nat) L /\ disc (s :: L) k L' Q
  | Post s k => s ∈ L /\ disc (filter (fun s' => s' ≠ s) L) k L' Q
  | Access r B f k =>
      (owner r ∈ L \/ (peekable r = true /\ forall v b v', f v = Done (b, v') -> v' = v)) /\
      forall v, region_wf r v ->
        exists b v', f v = Done (b, v') /\ region_wf r v' /\ disc L (k b) L' Q
  | Exit code => code = 1 /\ L = []
  | Starve => L = []
  | Fail _ => False
  end.

(** [p] does not change the region [r0]. *)
Fixpoint keeps {A : Type} (r0 : region) (p : prog A) : Prop :=
  match p with
  | Wait _ k => keeps r0 k
  | Post _ k => keeps r0 k
  | Access r B f k =>
      (r ≠ r0 \/ forall v b v', f v = Done (b, v') -> v' = v) /\ forall b, keeps r0 (k b)
  | _ => True
  end.

(** [p] never waits for input. *)
Fixpoint calm {A : Type} (p : prog A) : Prop :=
  match p with
  | Wait _ k => calm k
  | Post _ k => calm k
  | Access r B f k => forall b, calm (k b)
  | Starve => False
  | _ => True
  end.

(** The steps that the processes of [sched] take, in turn. *)
Fixpoint run_schedule (sched : list nat) (c : config) : option config :=
  match sched with
  | [] => Some c
  | i :: sched' =>
      p ← c_threads c !! i;
      '(p', st') ← advance p (c_sys c);
      run_schedule sched' (Config st' (<[i := p']> (c_threads c)))
  end.

End Programs.

Arguments Ret {M A} a.
Arguments Wait {M A} s k.
Arguments Post {M A} s k.
Arguments Access {M A} r B f k.
Arguments Exit {M A} code.
Arguments Starve {M A}.
Arguments Fail {M A} f.

(** ** Facts on programs *)

Section Facts.
Context `{M : SharedMem}.

Lemma run_bind {A B} (p : prog A) (k : A -> prog B) st :
  run (p ≫= k) st = (run p st ≫= fun '(a, st') => run (k a) st').
Proof.
  revert st. induction p as [a|s p IH|s p IH|r C f p IH|c| |e]; intros st; cbn; try done.
  - destruct (sems st !! s) as [[|n]|]; [done | apply IH | done].
  - destruct (sems st !! s); [apply IH | done].
  - destruct (f (load r (mem st))) as [[b v]| | | |]; cbn; try done. apply IH.
Qed.

Lemma disc_weaken {A} (p : prog A) : forall L L' (Q Q' : A -> Prop),
  disc L p L' Q -> (forall a, Q a -> Q' a) -> disc L p L' Q'.
Proof.
  induction p as [a|s p IH|s p IH|r C f p IH|c| |e]; intros L L' Q Q' Hd HQ; cbn in *; try done.
  - destruct Hd as [-> HQa]. auto.
  - destruct Hd as (? & ? & Hd). eauto.
  - destruct Hd as (? & Hd). eauto.
  - destruct Hd as (Hp & Hd). split; [done|]. intros v Hv.
    destruct (Hd v Hv) as (b & v' & ? & ? & ?). eauto 10.
Qed.

Lemma disc_bind {A B} (p : prog A) (k : A -> prog B) : forall L L1 L2 Q R,
  disc L p L1 Q -> (forall a, Q a -> disc L1 (k a) L2 R) -> disc L (p ≫= k) L2 R.
Proof.
  induction p as [a|s p IH|s p IH|r C f p IH|c| |e]; intros L L1 L2 Q R Hd Hk; cbn in *; try done.
  - destruct Hd as [-> HQ]. by apply Hk.
  - destruct Hd as (? & ? & Hd). repeat split; try done. by eapply IH.
  - destruct Hd as (? & Hd). split; [done|]. by eapply IH.
  - destruct Hd as (Hp & Hd). split; [done|]. intros v Hv.
    destruct (Hd v Hv) as (b & v' & ? & ? & ?). exists b, v'. repeat split; try done. by eapply IH.
Qed.

Lemma disc_ret {A} L (a : A) (Q : A -> Prop) : Q a -> disc L (mret a) L Q.
Proof. done. Qed.

Lemma disc_wait L s :
  sem_ok s -> Forall (fun s' => (rank s' < rank s)%nat) L ->
  disc L (wait s) (s :: L) (fun _ => True).
Proof. done. Qed.

Lemma disc_post L s : s ∈ L -> disc L (post s) (filter (fun s' => s' ≠ s) L) (fun _ => True).
Proof. done. Qed.

Lemma disc_post_eq L s L' : s ∈ L -> filter (fun s' => s' ≠ s) L = L' ->
  disc L (post s) L' (fun _ => True).
Proof. intros Hs <-. by apply disc_post. Qed.

Lemma disc_get L r {B : Set} (f : region_ty r -> outcome B) (Q : B -> Prop) :
  (owner r ∈ L \/ peekable r = true) ->
  (forall v, region_wf r v -> exists b, f v = Done b /\ Q b) ->
  disc L (get r f) L Q.
Proof.
  intros Ho Hf. cbn. split.
  - destruct Ho as [Ho|Ho]; [by left | right]. split; [done|]. intros v b v' Hv.
    destruct (f v); [|done..]. cbn in Hv. by injection Hv as _ ->.
  - intros v Hv. destruct (Hf v Hv) as (b & Hb & HQ). rewrite Hb. exists b, v. cbn. done.
Qed.

Lemma disc_upd L r (f : region_ty r -> outcome (region_ty r)) :
  owner r ∈ L ->
  (forall v, region_wf r v -> exists v', f v = Done v' /\ region_wf r v') ->
  disc L (upd r f) L (fun _ => True).
Proof.
  intros Ho Hf. cbn. split; [by left|]. intros v Hv. destruct (Hf v Hv) as (v' & Hv' & Hw).
  rewrite Hv'. exists tt, v'. cbn. done.
Qed.

Lemma disc_local {A} L (o : outcome A) a (Q : A -> Prop) :
  o = Done a -> Q a -> disc L (local o) L Q.
Proof. intros -> HQ. done. Qed.

Lemma local_done {A B} (a : A) (k : A -> prog B) : (local (Done a) ≫= k) = k a.
Proof. done. Qed.

End Facts.

(** ** Disciplined processes together *)

Section Interleaving.
Context `{M : SharedMem} {ML : SharedMemLaws M}.

Definition thread_ok (L : list sem) (p : prog unit) : Prop := disc L p [] (fun _ => True).

(** Process [i] holds the semaphore [s], by the ghost lists [Ls]. *)
Definition holds (Ls : list (list sem)) (i : nat) (s : sem) : Prop :=
  exists L, Ls !! i = Some L /\ s ∈ L.

Record inv (Ls : list (list sem)) (c : config) : Prop := {
  inv_mem : mem_wf (mem (c_sys c));
  inv_threads : forall i p, c_threads c !! i = Some p ->
    exists L, Ls !! i = Some L /\ thread_ok L p;
  inv_length : length Ls = length (c_threads c);
  inv_excl : forall s i j, holds Ls i s -> holds Ls j s -> i = j;
  inv_sems : forall s, sem_ok s ->
    (sems (c_sys c) !! s = Some 1%nat /\ forall i, ~ holds Ls i s) \/
    (sems (c_sys c) !! s = Some 0%nat /\ exists i, holds Ls i s);
  inv_held : forall s i, holds Ls i s -> sem_ok s
}.

Lemma holds_insert Ls i L j s : (i < length Ls)%nat ->
  holds (<[i:=L]> Ls) j s <-> (j = i /\ s ∈ L) \/ (j ≠ i /\ holds Ls j s).
Proof.
  intros Hi. unfold holds. destruct (decide (j = i)) as [->|Hj].
  - rewrite list_lookup_insert_eq by done. split.
    + intros (L' & [= <-] & Hs). by left.
    + intros [[_ Hs]|[Hj _]]; [by exists L | done].
  - rewrite list_lookup_insert_ne by done. split; [by right|].
    by intros [[? _]|[_ Hh]].
Qed.

Lemma holds_at Ls i L s : Ls !! i = Some L -> holds Ls i s <-> s ∈ L.
Proof.
  intros Hi. unfold holds. rewrite Hi. split; [by intros (L' & [= <-] & Hs) | by exists L].
Qed.

(** The threads after one of them has moved. *)
Lemma threads_insert Ls ts i L p :
  (i < length Ls)%nat -> (i < length ts)%nat -> thread_ok L p ->
  (forall j q, ts !! j = Some q -> exists L, Ls !! j = Some L /\ thread_ok L q) ->
  forall j q, <[i:=p]> ts !! j = Some q -> exists L', <[i:=L]> Ls !! j = Some L' /\ thread_ok L' q.
Proof.
  intros HLs Hts Hok Hall j q. destruct (decide (j = i)) as [->|Hj].
  - rewrite !list_lookup_insert_eq by done. intros [= <-]. eauto.
  - rewrite !list_lookup_insert_ne by done. apply Hall.
Qed.

Lemma inv_wait Ls st ts i L s k :
  inv Ls (Config st ts) -> ts !! i = Some (Wait s k) -> Ls !! i = Some L ->
  thread_ok L (Wait s k) -> forall n, sems st !! s = Some (S n) ->
  inv (<[i:=s :: L]> Ls) (Config (Sys (mem st) (<[s:=n]> (sems st))) (<[i:=k]> ts)).
Proof.
  intros [Hm Ht Hl Hx Hs Hh] Hi HL (Hok & Hr & Hk) n Hn. cbn in *.
  assert (HiL : (i < length Ls)%nat) by (by apply lookup_lt_Some in HL).
  assert (Hfree : n = 0%nat /\ forall j, ~ holds Ls j s).
  { destruct (Hs s Hok) as [[H1 H2]|[H1 _]]; rewrite Hn in H1; [|done]. by injection H1 as ->. }
  destruct Hfree as [-> Hfree].
  split; cbn; try done.
  - eapply threads_insert; try done. rewrite <- Hl. done.
  - by rewrite !length_insert.
  - assert (Hno : forall j s', j ≠ i -> holds Ls j s' -> s' ∈ s :: L -> False).
    { intros j s' Hj Hjs Hin. apply elem_of_cons in Hin as [Heq|Hin].
      - rewrite Heq in Hjs. by destruct (Hfree j).
      - destruct Hj. eapply Hx; [done|]. by apply (holds_at _ _ _ _ HL). }
    intros s' j j'. rewrite !holds_insert by done.
    intros [[-> Hj]|[Hj Hj2]] [[-> Hj']|[Hj' Hj2']]; [done | | |by eapply Hx].
    + by destruct (Hno j' s').
    + by destruct (Hno j s').
  - intros s' Hok'. destruct (decide (s' = s)) as [->|Hne].
    + right. rewrite lookup_insert_eq. split; [done|]. exists i. apply holds_insert; [done|].
      left. split; [done|]. apply elem_of_cons. by left.
    + rewrite lookup_insert_ne by done. destruct (Hs s' Hok') as [[H1 H2]|[H1 [j H2]]].
      * left. split; [done|]. intros j Hj. apply holds_insert in Hj as [[-> Hj]|[_ Hj]]; [|by apply (H2 j)|done].
        apply elem_of_cons in Hj as [?|Hj]; [done|]. apply (H2 i). by apply (holds_at _ _ _ _ HL).
      * right. split; [done|]. exists j. apply holds_insert; [done|].
        destruct (decide (j = i)) as [->|]; [left|by right].
        split; [done|]. apply elem_of_cons. right. by apply (holds_at _ _ _ _ HL).
  - intros s' j. rewrite holds_insert, elem_of_cons by done.
    intros [[-> [->|Hj]]|[_ Hj]]; [done | | by eapply Hh].
    eapply Hh. by apply (holds_at _ _ _ _ HL).
Qed.

Lemma inv_post Ls st ts i L s k n :
  inv Ls (Config st ts) -> ts !! i = Some (Post s k) -> Ls !! i = Some L ->
  thread_ok L (Post s k) -> sems st !! s = Some n ->
  inv (<[i:=filter (fun s' => s' ≠ s) L]> Ls)
    (Config (Sys (mem st) (<[s:=S n]> (sems st))) (<[i:=k]> ts)).
Proof.
  intros [Hm Ht Hl Hx Hs Hh] Hi HL (Hin & Hk) Hn. cbn in *.
  assert (HiL : (i < length Ls)%nat) by (by apply lookup_lt_Some in HL).
  assert (Hhold : holds Ls i s) by (by apply (holds_at _ _ _ _ HL)).
  assert (n = 0%nat) as ->.
  { destruct (Hs s (Hh _ _ Hhold)) as [[_ H2]|[H1 _]]; [by destruct (H2 i) | congruence]. }
  split; cbn; try done.
  - eapply threads_insert; try done. by rewrite <- Hl.
  - by rewrite !length_insert.
  - intros s' j j'. rewrite !holds_insert, !list_elem_of_filter by done.
    intros [[-> [Hj1 Hj]]|[Hj Hj2]] [[-> [Hj1' Hj']]|[Hj' Hj2']]; try done.
    + destruct Hj'. eapply Hx; [done|]. by apply (holds_at _ _ _ _ HL).
    + destruct Hj. eapply Hx; [done|]. by apply (holds_at _ _ _ _ HL).
    + eapply Hx; done.
  - intros s' Hok'. destruct (decide (s' = s)) as [->|Hne].
    + left. rewrite lookup_insert_eq. split; [done|]. intros j Hj.
      apply holds_insert in Hj as [[-> Hj]|[Hj Hj2]]; [|by destruct Hj; eapply Hx|done].
      by apply list_elem_of_filter in Hj as [? _].
    + rewrite lookup_insert_ne by done. destruct (Hs s' Hok') as [[H1 H2]|[H1 [j H2]]].
      * left. split; [done|]. intros j Hj. apply holds_insert in Hj as [[-> Hj]|[_ Hj]]; [|by apply (H2 j)|done].
        apply list_elem_of_filter in Hj as [_ Hj]. apply (H2 i). by apply (holds_at _ _ _ _ HL).
      * right. split; [done|]. exists j. apply holds_insert; [done|].
        destruct (decide (j = i)) as [->|]; [left|by right].
        split; [done|]. apply list_elem_of_filter. split; [done|]. by apply (holds_at _ _ _ _ HL).
  - intros s' j. rewrite holds_insert, list_elem_of_filter by done.
    intros [[-> [_ Hj]]|[_ Hj]]; [|by eapply Hh]. eapply Hh. by apply (holds_at _ _ _ _ HL).
Qed.

Lemma inv_step Ls c c' : inv Ls c -> step c c' -> exists Ls', inv Ls' c'.
Proof.
  intros HI Hstep. destruct Hstep as [i p p' st st' ts Hi Hadv].
  destruct (inv_threads _ _ HI i p Hi) as (L & HL & Hok).
  destruct p as [a|s k|s k|r C f k|code| |e]; cbn in Hadv; try done.
  - destruct (sems st !! s) as [[|n]|] eqn:Hn; [done| |done]. injection Hadv as <- <-.
    eexists. by eapply inv_wait.
  - destruct (sems st !! s) as [n|] eqn:Hn; [|done]. injection Hadv as <- <-.
    eexists. by eapply inv_post.
  - destruct Hok as (Hp & Hacc). destruct HI as [Hm Ht Hl Hx Hs Hh]. cbn in *.
    destruct (Hacc (load r (mem st)) (Hm r)) as (b & v & Hf & Hw & Hk).
    rewrite Hf in Hadv. injection Hadv as <- <-. exists Ls. split; cbn; try done.
    + by apply store_wf.
    + intros j q Hj. destruct (decide (j = i)) as [->|Hne].
      * rewrite list_lookup_insert_eq in Hj by (by apply lookup_lt_Some in Hi).
        injection Hj as <-. by exists L.
      * rewrite list_lookup_insert_ne in Hj by done. by apply Ht.
    + by rewrite length_insert.
Qed.

(** A process that waits for a taken semaphore leads to one that can move. *)
Lemma progress_from Ls st ts d : forall i s k,
  inv Ls (Config st ts) -> ts !! i = Some (Wait s k) -> (max_rank <= rank s + d)%nat ->
  exists c', step (Config st ts) c'.
Proof.
  induction d as [|d IH]; intros i s k HI Hi Hd.
  { pose proof (rank_bound s). lia. }
  destruct (inv_threads _ _ HI i _ Hi) as (L & HL & (Hok & Hr & Hk)).
  destruct (inv_sems _ _ HI s Hok) as [[H1 _]|[H1 [j Hj]]]; cbn in H1.
  { eexists. eapply step_thread; [done|]. cbn. by rewrite H1. }
  destruct Hj as (L' & HL' & Hs).
  assert (exists q, ts !! j = Some q) as [q Hq].
  { apply lookup_lt_is_Some. pose proof (inv_length _ _ HI) as Hl. cbn in Hl.
    rewrite <- Hl. by apply lookup_lt_Some in HL'. }
  destruct (inv_threads _ _ HI j q Hq) as (L'' & HL'' & Hok'').
  rewrite HL' in HL''. injection HL'' as <-.
  destruct q as [a|s2 k2|s2 k2|r C f k2|code| |e]; cbn in Hok''.
  - destruct Hok'' as [-> _]. by apply not_elem_of_nil in Hs.
  - destruct Hok'' as (Hok2 & Hr2 & _). apply (IH j s2 k2); [done..|].
    rewrite Forall_forall in Hr2. apply list_elem_of_In in Hs. specialize (Hr2 s Hs). lia.
  - destruct (inv_sems _ _ HI s2) as [[H2 _]|[H2 _]].
    { apply (inv_held _ _ HI s2 j). exists L'. by destruct Hok''. }
    all: cbn in H2; eexists; (eapply step_thread; [exact Hq|]); cbn; by rewrite H2.
  - destruct Hok'' as (_ & Hacc).
    destruct (Hacc (load r (mem st)) (inv_mem _ _ HI r)) as (b & v & Hf & _).
    eexists. eapply step_thread; [exact Hq|]. cbn. by rewrite Hf.
  - destruct Hok'' as [_ ->]. by apply not_elem_of_nil in Hs.
  - rewrite Hok'' in Hs. by apply not_elem_of_nil in Hs.
  - done.
Qed.

Lemma inv_progress Ls c i p :
  inv Ls c -> c_threads c !! i = Some p -> finished p = false -> exists c', step c c'.
Proof.
  intros HI Hi Hnf. destruct c as [st ts]. cbn in Hi.
  destruct (inv_threads _ _ HI i _ Hi) as (L & HL & Hok).
  destruct p as [a|s k|s k|r C f k|code| |e]; try done.
  - eapply (progress_from Ls st ts max_rank); [done..|lia].
  - destruct (inv_sems _ _ HI s) as [[H2 _]|[H2 _]].
    { apply (inv_held _ _ HI s i). exists L. by destruct Hok. }
    all: cbn in H2; eexists; (eapply step_thread; [exact Hi|]); cbn; by rewrite H2.
  - destruct Hok as (_ & Hacc).
    destruct (Hacc (load r (mem st)) (inv_mem _ _ HI r)) as (b & v & Hf & _).
    eexists. eapply step_thread; [exact Hi|]. cbn. by rewrite Hf.
Qed.

Lemma inv_no_fault Ls c i p :
  inv Ls c -> c_threads c !! i = Some p -> faulting p (c_sys c) = false.
Proof.
  intros HI Hi. destruct (inv_threads _ _ HI i _ Hi) as (L & HL & Hok).
  destruct p as [a|s k|s k|r C f k|code| |e]; try done; cbn in *.
  - destruct Hok as (Hs & _).
    destruct (inv_sems _ _ HI s Hs) as [[H2 _]|[H2 _]]; by rewrite H2.
  - destruct (inv_sems _ _ HI s) as [[H2 _]|[H2 _]]; [|by rewrite H2..].
    apply (inv_held _ _ HI s i). exists L. by destruct Hok.
  - destruct Hok as (_ & Hacc).
    destruct (Hacc (load r (mem (c_sys c))) (inv_mem _ _ HI r)) as (b & v & Hf & _). by rewrite Hf.
Qed.

(** Two processes about to access the same region: one of them only reads it, and the region
    is one that the code reads without its semaphore. *)
Lemma inv_race_free Ls c i j p q r :
  inv Ls c -> i ≠ j -> c_threads c !! i = Some p -> c_threads c !! j = Some q ->
  next_region p = Some r -> next_region q = Some r ->
  peekable r = true /\ (reads_only p \/ reads_only q).
Proof.
  intros HI Hij Hi Hj Hp Hq.
  destruct (inv_threads _ _ HI i _ Hi) as (L & HL & Hok).
  destruct (inv_threads _ _ HI j _ Hj) as (L' & HL' & Hok').
  destruct p as [| | |r1 C f k| | |], q as [| | |r2 C' f' k'| | |]; try done; cbn in *.
  injection Hp as ->. injection Hq as ->. destruct Hok as [[Ho|[Hk Hro]] _], Hok' as [[Ho'|[Hk' Hro']] _];
    [|by eauto..].
  destruct Hij. eapply (inv_excl _ _ HI (owner r)); [by exists L | by exists L'].
Qed.

(** The initial state: every semaphore has the value 1. *)
Lemma inv_init st ts :
  mem_wf (mem st) -> (forall s, sem_ok s -> sems st !! s = Some 1%nat) ->
  Forall (thread_ok []) ts -> inv (replicate (length ts) []) (Config st ts).
Proof.
  intros Hm Hs Ht.
  assert (Hno : forall i s, ~ holds (replicate (length ts) []) i s).
  { intros i s (L & HL & Hin). apply lookup_replicate in HL as [-> _]. by apply not_elem_of_nil in Hin. }
  split; cbn; try done.
  - intros i p Hi. exists []. rewrite lookup_replicate. split.
    + split; [done|]. by apply lookup_lt_Some in Hi.
    + rewrite Forall_lookup in Ht. by apply (Ht i).
  - by rewrite length_replicate.
  - intros s i j Hi. by destruct (Hno i s).
  - intros s Hok. left. split; [by apply Hs|]. intros i. apply Hno.
  - intros s i Hi. by destruct (Hno i s).
Qed.

(** What a configuration of well-behaved processes looks like from outside. *)
Record safe (c : config) : Prop := {
  safe_mem : mem_wf (mem (c_sys c));
  safe_fault : forall i p, c_threads c !! i = Some p -> faulting p (c_sys c) = false;
  safe_race : forall i j p q r, i ≠ j -> c_threads c !! i = Some p -> c_threads c !! j = Some q ->
    next_region p = Some r -> next_region q = Some r ->
    peekable r = true /\ (reads_only p \/ reads_only q);
  safe_progress : forall i p, c_threads c !! i = Some p -> finished p = false ->
    exists c', step c c'
}.

Lemma disciplined_safe st ts c :
  mem_wf (mem st) -> (forall s, sem_ok s -> sems st !! s = Some 1%nat) ->
  Forall (thread_ok []) ts -> rtc step (Config st ts) c -> safe c.
Proof.
  intros Hm Hs Ht Hrtc.
  assert (HI : exists Ls, inv Ls c).
  { pose proof (inv_init st ts Hm Hs Ht) as HI. revert HI.
    generalize (replicate (length ts) (@nil sem)) as Ls.
    induction Hrtc as [x|x y z Hxy _ IH]; intros Ls HI; [by exists Ls|].
    destruct (inv_step _ _ _ HI Hxy) as [Ls' HI']. by eapply IH. }
  destruct HI as [Ls HI]. split.
  - by eapply inv_mem.
  - intros. by eapply inv_no_fault.
  - intros. by eapply inv_race_free.
  - intros. by eapply inv_progress.
Qed.

(** ** Every execution ends

    A program is a finite tree, and every step replaces one by a part of it, so no schedule
    can go on for ever; with [safe_progress], an execution only stops where all have finished. *)

Definition after (p' p : prog unit) : Prop := exists st st', advance p st = Some (p', st').

Lemma after_acc p : Acc after p.
Proof.
  induction p as [a|s p IH|s p IH|r C f p IH|c| |e]; constructor; intros p' (st & st' & Ha); cbn in Ha;
    try discriminate; repeat case_match; try discriminate; by injection Ha as <- <-.
Qed.

Definition threads_after (ts' ts : list (prog unit)) : Prop :=
  exists i p p', ts !! i = Some p /\ after p' p /\ ts' = <[i:=p']> ts.

Lemma threads_acc_cons p : Acc after p -> forall ts, Acc threads_after ts -> Acc threads_after (p :: ts).
Proof.
  induction 1 as [p Hp IHp]. induction 1 as [ts Hts IHts].
  constructor. intros ts' (i & q & q' & Hi & Hq & ->). destruct i as [|i]; cbn in Hi.
  - injection Hi as <-. apply (IHp q' Hq). by constructor.
  - apply IHts. by exists i, q, q'.
Qed.

Lemma threads_acc ts : Acc threads_after ts.
Proof.
  induction ts as [|p ts IH].
  - constructor. intros ts' (i & p & p' & Hi & _). by rewrite lookup_nil in Hi.
  - apply threads_acc_cons; [apply after_acc | done].
Qed.

Lemma step_acc c : Acc (fun c' c => step c c') c.
Proof.
  destruct c as [st ts]. revert st. induction (threads_acc ts) as [ts _ IH]. intros st.
  constructor. intros c' Hstep. inversion Hstep as [i p p' st0 st' ts0 Hi Ha]; subst.
  apply IH. exists i, p, p'. split; [done|]. split; [by exists st, st' | done].
Qed.

Lemma safe_stopped c : safe c -> (forall c', ~ step c c') -> forallb finished (c_threads c) = true.
Proof.
  intros Hs Hstop. apply forallb_forall. intros p Hp. apply list_elem_of_In, list_elem_of_lookup in Hp as [i Hi].
  destruct (finished p) eqn:Hf; [done|]. destruct (safe_progress _ Hs i p Hi Hf) as [c' Hc'].
  by destruct (Hstop c').
Qed.

End Interleaving.

(** ** Running one process while it holds semaphores *)

Section Alone.
Context `{M : SharedMem} {ML : SharedMemLaws M}.

(** The semaphore values [sm] with those of [L] taken. *)
Definition taken (L : list sem) (sm : gmap sem nat) : gmap sem nat :=
  foldr (fun s m => <[s := 0%nat]> m) sm L.

Lemma taken_lookup L sm s : s ∉ L -> taken L sm !! s = sm !! s.
Proof.
  induction L as [|s' L IH]; cbn; intros Hs; [done|].
  apply not_elem_of_cons in Hs as [Hne Hs]. rewrite lookup_insert_ne by done. by apply IH.
Qed.

Lemma taken_lookup_in L sm s : s ∈ L -> taken L sm !! s = Some 0%nat.
Proof.
  induction L as [|s' L IH]; cbn; intros Hs; [by apply not_elem_of_nil in Hs|].
  destruct (decide (s' = s)) as [->|Hne]; [by rewrite lookup_insert_eq|].
  rewrite lookup_insert_ne by done. apply IH. apply elem_of_cons in Hs as [->|]; done.
Qed.

Lemma taken_post L sm s :
  sm !! s = Some 1%nat -> <[s := 1%nat]> (taken L sm) = taken (filter (fun s' => s' ≠ s) L) sm.
Proof.
  intros Hs. apply map_eq. intros x. destruct (decide (x = s)) as [->|Hne].
  - rewrite lookup_insert_eq, taken_lookup, Hs; [done|].
    intros Hin. by apply list_elem_of_filter in Hin as [? _].
  - rewrite lookup_insert_ne by done. destruct (decide (x ∈ L)) as [Hin|Hout].
    + rewrite !taken_lookup_in; [done | by apply list_elem_of_filter | done].
    + rewrite !taken_lookup; [done | | done]. intros Hin. by apply list_elem_of_filter in Hin as [_ ?].
Qed.

Lemma run_ret {A} (a : A) st : run (mret a) st = Done (a, st).
Proof. done. Qed.

Lemma run_wait {A} (k : unit -> prog A) L m sm s :
  sm !! s = Some 1%nat -> s ∉ L ->
  run (wait s ≫= k) (Sys m (taken L sm)) = run (k tt) (Sys m (taken (s :: L) sm)).
Proof. intros Hs HL. cbn. by rewrite taken_lookup, Hs by done. Qed.

Lemma run_post {A} (k : unit -> prog A) L L' m sm s :
  sm !! s = Some 1%nat -> s ∈ L -> filter (fun s' => s' ≠ s) L = L' ->
  run (post s ≫= k) (Sys m (taken L sm)) = run (k tt) (Sys m (taken L' sm)).
Proof. intros Hs HL <-. cbn. by rewrite taken_lookup_in, taken_post by done. Qed.

Lemma run_post_last L L' m sm s :
  sm !! s = Some 1%nat -> s ∈ L -> filter (fun s' => s' ≠ s) L = L' ->
  run (post s) (Sys m (taken L sm)) = Done (tt, Sys m (taken L' sm)).
Proof. intros Hs HL <-. cbn. by rewrite taken_lookup_in, taken_post by done. Qed.

Lemma run_get {A} {B : Set} (k : B -> prog A) r (f : region_ty r -> outcome B) b m sm :
  f (load r m) = Done b -> run (get r f ≫= k) (Sys m sm) = run (k b) (Sys m sm).
Proof. intros Hf. cbn. rewrite Hf. cbn. by rewrite store_load. Qed.

Lemma run_get_last {B : Set} r (f : region_ty r -> outcome B) b m sm :
  f (load r m) = Done b -> run (get r f) (Sys m sm) = Done (b, Sys m sm).
Proof. intros Hf. cbn. rewrite Hf. cbn. by rewrite store_load. Qed.

Lemma run_upd {A} (k : unit -> prog A) r f v m sm :
  f (load r m) = Done v -> run (upd r f ≫= k) (Sys m sm) = run (k tt) (Sys (store r v m) sm).
Proof. intros Hf. cbn. by rewrite Hf. Qed.

Lemma run_then {A B} (p : prog A) (k : A -> prog B) a st st' :
  run p st = Done (a, st') -> run (p ≫= k) st = run (k a) st'.
Proof. intros Hp. by rewrite run_bind, Hp. Qed.

(** A program that keeps the discipline, alone on well-formed memory with the semaphores it
    holds taken and all others free, runs to its end: it never faults or waits for a
    semaphore, and its final semaphores are the ones [disc] says; it may exit or wait for input. *)
Lemma disc_run {A} (p : prog A) sm : (forall s, sem_ok s -> sm !! s = Some 1%nat) ->
  forall L L' Q m, Forall sem_ok L -> disc L p L' Q -> mem_wf m ->
  (exists a m', run p (Sys m (taken L sm)) = Done (a, Sys m' (taken L' sm)) /\ Q a /\ mem_wf m') \/
  run p (Sys m (taken L sm)) = Exited 1 \/ (run p (Sys m (taken L sm)) = Blocked /\ ~ calm p).
Proof.
  intros Hsm. induction p as [a|s p IH|s p IH|r C f p IH|c| |e]; intros L L' Q m HL Hd Hm; cbn in Hd.
  - destruct Hd as [<- HQ]. left. eauto.
  - destruct Hd as (Hok & Hr & Hd).
    assert (Hnin : s ∉ L).
    { intros Hin. rewrite Forall_forall in Hr. specialize (Hr s). apply list_elem_of_In in Hin.
      specialize (Hr Hin). lia. }
    cbn. rewrite taken_lookup, Hsm by done. apply (IH (s :: L) L' Q m); [|done..].
    by constructor.
  - destruct Hd as (Hin & Hd). assert (Hok : sem_ok s).
    { rewrite Forall_forall in HL. apply HL. by apply list_elem_of_In. }
    cbn. rewrite taken_lookup_in, taken_post by auto. apply (IH _ L' Q m); [|done..].
    rewrite Forall_forall in HL |- *. intros x Hx.
    apply list_elem_of_In, list_elem_of_filter in Hx as [_ Hx]. apply HL. by apply list_elem_of_In.
  - destruct Hd as (_ & Hd). destruct (Hd (load r m) (Hm r)) as (b & v & Hf & Hw & Hk).
    cbn. rewrite Hf. cbn.
    destruct (IH b L L' Q (store r v m)) as [?|[?|[? Hc]]]; [done | done | by apply store_wf | by left | auto |].
    right. right. split; [done|]. intros Hcalm. by apply Hc.
  - destruct Hd as [-> _]. right. by left.
  - right. right. split; [done | by intros []].
  - done.
Qed.

Lemma keeps_run {A} (p : prog A) r0 : EqDecision region -> keeps r0 p -> forall st a st',
  run p st = Done (a, st') -> load r0 (mem st') = load r0 (mem st).
Proof.
  intros Hdec. induction p as [a0|s p IH|s p IH|r C f p IH|c| |e]; intros Hk st a st' Hr; cbn in *; try done.
  - by injection Hr as _ <-.
  - destruct (sems st !! s) as [[|n]|]; try done. by apply IH in Hr.
  - destruct (sems st !! s) as [n|]; try done. by apply IH in Hr.
  - destruct Hk as [Hw Hk]. destruct (f (load r (mem st))) as [[b v]| | | |] eqn:Hf; try done.
    cbn in Hr. apply IH in Hr; [|done]. rewrite Hr. cbn.
    destruct (decide (r = r0)) as [->|Hne]; [|by apply load_store_ne].
    destruct Hw as [?|Hw]; [done|]. rewrite (Hw _ _ _ Hf). by rewrite store_load.
Qed.

Lemma keeps_bind {A B} r0 (p : prog A) (k : A -> prog B) :
  keeps r0 p -> (forall a, keeps r0 (k a)) -> keeps r0 (p ≫= k).
Proof.
  induction p as [a0|s p IH|s p IH|r C f p IH|c| |e]; intros Hp Hk; cbn in *; auto.
  destruct Hp as [Hw Hp]. split; [done|]. intros b. by apply IH.
Qed.

Lemma disc_run_calm {A} (p : prog A) sm : (forall s, sem_ok s -> sm !! s = Some 1%nat) -> calm p ->
  forall L L' Q m, Forall sem_ok L -> disc L p L' Q -> mem_wf m ->
  (exists a m', run p (Sys m (taken L sm)) = Done (a, Sys m' (taken L' sm)) /\ Q a /\ mem_wf m') \/
  run p (Sys m (taken L sm)) = Exited 1.
Proof.
  intros Hsm Hc L L' Q m HL Hd Hm.
  destruct (disc_run p sm Hsm L L' Q m HL Hd Hm) as [?|[?|[_ Hn]]]; [by left | by right | by destruct Hn].
Qed.

Lemma calm_bind {A B} (p : prog A) (k : A -> prog B) : calm p -> (forall a, calm (k a)) -> calm (p ≫= k).
Proof. induction p as [a0|s p IH|s p IH|r C f p IH|c| |e]; intros Hp Hk; [apply Hk | by apply IH | by apply IH | intros b; by apply IH | done..]. Qed.

Lemma keeps_wait r0 s : keeps r0 (wait s).
Proof. done. Qed.

Lemma keeps_post r0 s : keeps r0 (post s).
Proof. done. Qed.

Lemma keeps_ret {A} r0 (a : A) : keeps r0 (mret a).
Proof. done. Qed.

Lemma keeps_get {B : Set} r0 r (f : region_ty r -> outcome B) : keeps r0 (get r f).
Proof.
  split; [|done]. right. intros v b v' Hf. destruct (f v); [|done..]. cbn in Hf. by injection Hf as _ ->.
Qed.

Lemma keeps_upd r0 r f : r ≠ r0 -> keeps r0 (upd r f).
Proof. intros Hne. split; [by left | done]. Qed.

Lemma run_schedule_steps sched : forall c c', run_schedule sched c = Some c' -> rtc step c c'.
Proof.
  induction sched as [|i sched IH]; intros c c' Hr; cbn in Hr; [injection Hr as <-; apply rtc_refl|].
  destruct (c_threads c !! i) as [p|] eqn:Hi; [|done]. cbn in Hr.
  destruct (advance p (c_sys c)) as [[p' st']|] eqn:Ha; [|done]. cbn in Hr.
  eapply rtc_l; [|by apply IH]. destruct c as [st ts]. by eapply step_thread.
Qed.

End Alone.

Create HintDb keeps.
#[export] Hint Resolve keeps_bind keeps_wait keeps_post keeps_ret keeps_get keeps_upd : keeps.

Ltac keeps_tac :=
  repeat lazymatch goal with
  | |- keeps _ (wait _) => apply keeps_wait
  | |- keeps _ (post _) => apply keeps_post
  | |- keeps _ (mret _) => apply keeps_ret
  | |- keeps _ (get _ _) => apply keeps_get
  | |- keeps _ (upd _ _) => apply keeps_upd; discriminate
  | |- keeps _ (_ ≫= _) => apply keeps_bind; [|intros ?]
  | |- keeps _ (Exit _) => exact I
  | |- keeps _ (if ?b then _ else _) => destruct b
  | |- keeps _ (match ?x with _ => _ end) => destruct x
  end.

Ltac calm_tac :=
  repeat lazymatch goal with
  | |- calm (_ ≫= _) => apply calm_bind; [|intros ?]
  | |- calm (if ?b then _ else _) => destruct b
  | |- calm (match ?x with _ => _ end) => destruct x
  | |- calm (_ _) => first [progress eauto with calm | exact I | intros ?; exact I]
  end.

Create HintDb calm.
