(* ===== verification/ConcSum.v ===== *)
(** * Two memories side by side.

    A process that works on two shared memories (the blocks shared between processes, and the
    globals its own threads share) is a program over their sum. A program over one of them
    embeds into the sum and keeps its discipline there, so the theorems of [Conc] on
    interleavings apply to processes and threads together. *)

From stdpp Require Import gmap relations.
From S2P Require Export Conc.

Section Sum.
Context (M1 M2 : SharedMem).

Definition sum_region_ty (r : region (SharedMem := M1) + region (SharedMem := M2)) : Set :=
  match r with inl r => region_ty r | inr r => region_ty r end.

Definition sum_load (r : region (SharedMem := M1) + region (SharedMem := M2))
  (m : memory (SharedMem := M1) * memory (SharedMem := M2)) : sum_region_ty r :=
  match r return sum_region_ty r with inl r => load r (fst m) | inr r => load r (snd m) end.

Definition sum_store (r : region (SharedMem := M1) + region (SharedMem := M2)) :
  sum_region_ty r -> memory (SharedMem := M1) * memory (SharedMem := M2) ->
  memory (SharedMem := M1) * memory (SharedMem := M2) :=
  match r return sum_region_ty r -> _ with
  | inl r => fun v m => (store r v (fst m), snd m)
  | inr r => fun v m => (fst m, store r v (snd m))
  end.

Definition sum_region_wf (r : region (SharedMem := M1) + region (SharedMem := M2)) : sum_region_ty r -> Prop :=
  match r return sum_region_ty r -> Prop with inl r => region_wf r | inr r => region_wf r end.

(** The semaphores of the second memory come after those of the first. *)
Definition sum_mem : SharedMem := {|
  sem := (sem (SharedMem := M1) + sem (SharedMem := M2))%type;
  sem_eq_dec := sum_eq_dec; sem_countable := sum_countable;
  sem_ok := fun s => match s with inl s => sem_ok s | inr s => sem_ok s end;
  rank := fun s => match s with inl s => rank s | inr s => (max_rank (SharedMem := M1) + rank s)%nat end;
  max_rank := (max_rank (SharedMem := M1) + max_rank (SharedMem := M2))%nat;
  memory := (memory (SharedMem := M1) * memory (SharedMem := M2))%type;
  region := (region (SharedMem := M1) + region (SharedMem := M2))%type;
  region_ty := sum_region_ty; load := sum_load; store := sum_store;
  owner := fun r => match r with inl r => inl (owner r) | inr r => inr (owner r) end;
  peekable := fun r => match r with inl r => peekable r | inr r => peekable r end;
  region_wf := sum_region_wf
|}.

#[export] Instance sum_mem_laws {L1 : SharedMemLaws M1} {L2 : SharedMemLaws M2} : SharedMemLaws sum_mem.
Proof.
  split.
  - intros [s|s]; cbn; pose proof (rank_bound s); lia.
  - intros [r|r] [m1 m2]; cbn; by rewrite store_load.
  - intros [r|r] [r'|r'] v [m1 m2] Hne; cbn; try done; apply load_store_ne; congruence.
  - intros [r|r] v [m1 m2] Hm Hv [r'|r']; cbn.
    + apply (store_wf r v m1); [|done]. intros r0. apply (Hm (inl r0)).
    + apply (Hm (inr r')).
    + apply (Hm (inl r')).
    + apply (store_wf r v m2); [|done]. intros r0. apply (Hm (inr r0)).
Qed.

(** ** Embeddings *)

Fixpoint inl_prog {A : Type} (p : prog (M := M1) A) : prog (M := sum_mem) A :=
  match p with
  | Ret a => Ret a
  | Wait s k => Wait (M := sum_mem) (inl s) (inl_prog k)
  | Post s k => Post (M := sum_mem) (inl s) (inl_prog k)
  | Access r B f k => Access (M := sum_mem) (inl r) B f (fun b => inl_prog (k b))
  | Exit c => Exit c
  | Starve => Starve
  | Fail e => Fail e
  end.

Fixpoint inr_prog {A : Type} (p : prog (M := M2) A) : prog (M := sum_mem) A :=
  match p with
  | Ret a => Ret a
  | Wait s k => Wait (M := sum_mem) (inr s) (inr_prog k)
  | Post s k => Post (M := sum_mem) (inr s) (inr_prog k)
  | Access r B f k => Access (M := sum_mem) (inr r) B f (fun b => inr_prog (k b))
  | Exit c => Exit c
  | Starve => Starve
  | Fail e => Fail e
  end.

Lemma filter_fmap_inj {A B} `{EqDecision A} `{EqDecision B} (g : A -> B) `{!Inj (=) (=) g} s (l : list A) :
  filter (fun s' => s' ≠ g s) (g <$> l) = g <$> filter (fun s' => s' ≠ s) l.
Proof.
  induction l as [|x l IH]; [done|]. rewrite fmap_cons, !filter_cons, IH.
  case_decide as H1; case_decide as H2; try done; exfalso; naive_solver.
Qed.

Lemma Forall_inl_rank (s : sem (SharedMem := M1)) L : Forall (fun s' => (rank s' < rank s)%nat) L ->
  Forall (fun s' : sem (SharedMem := sum_mem) => (rank s' < rank (SharedMem := sum_mem) (inl s))%nat) (inl <$> L).
Proof. intros Hr. apply Forall_fmap. eapply Forall_impl; [|exact Hr]. done. Qed.

Lemma Forall_inr_rank (s : sem (SharedMem := M2)) L : Forall (fun s' => (rank s' < rank s)%nat) L ->
  Forall (fun s' : sem (SharedMem := sum_mem) => (rank s' < rank (SharedMem := sum_mem) (inr s))%nat) (inr <$> L).
Proof. intros Hr. apply Forall_fmap. eapply Forall_impl; [|exact Hr]. intros x Hx. cbn in *. lia. Qed.

Lemma disc_inl {A} (p : prog (M := M1) A) : forall L L' Q,
  disc L p L' Q -> disc (M := sum_mem) (inl <$> L) (inl_prog p) (inl <$> L') Q.
Proof.
  induction p as [a|s p IH|s p IH|r C f p IH|c| |e]; intros L L' Q Hd; cbn in Hd |- *.
  - by destruct Hd as [-> HQ].
  - destruct Hd as (Hok & Hr & Hd). split; [done|]. split; [by apply Forall_inl_rank|].
    by apply (IH (s :: L)).
  - destruct Hd as (Hin & Hd). split; [by apply list_elem_of_fmap_2|].
    rewrite (filter_fmap_inj (@inl (sem (SharedMem := M1)) (sem (SharedMem := M2)))). by apply IH.
  - destruct Hd as (Hp & Hd). split.
    + destruct Hp as [Hp|Hp]; [left; by apply list_elem_of_fmap_2 | by right].
    + intros v Hv. destruct (Hd v Hv) as (b & v' & Hf & Hw & Hk). exists b, v'. auto.
  - by destruct Hd as [-> ->].
  - by rewrite Hd.
  - done.
Qed.

Lemma disc_inr {A} (p : prog (M := M2) A) : forall L L' Q,
  disc L p L' Q -> disc (M := sum_mem) (inr <$> L) (inr_prog p) (inr <$> L') Q.
Proof.
  induction p as [a|s p IH|s p IH|r C f p IH|c| |e]; intros L L' Q Hd; cbn in Hd |- *.
  - by destruct Hd as [-> HQ].
  - destruct Hd as (Hok & Hr & Hd). split; [done|]. split; [by apply Forall_inr_rank|].
    by apply (IH (s :: L)).
  - destruct Hd as (Hin & Hd). split; [by apply list_elem_of_fmap_2|].
    rewrite (filter_fmap_inj (@inr (sem (SharedMem := M1)) (sem (SharedMem := M2)))). by apply IH.
  - destruct Hd as (Hp & Hd). split.
    + destruct Hp as [Hp|Hp]; [left; by apply list_elem_of_fmap_2 | by right].
    + intros v Hv. destruct (Hd v Hv) as (b & v' & Hf & Hw & Hk). exists b, v'. auto.
  - by destruct Hd as [-> ->].
  - by rewrite Hd.
  - done.
Qed.

(** Both kinds of program start and end holding nothing. *)
Lemma disc_inl_nil {A} (p : prog (M := M1) A) Q :
  disc [] p [] Q -> disc (M := sum_mem) [] (inl_prog p) [] Q.
Proof. apply (disc_inl p [] []). Qed.

Lemma disc_inr_nil {A} (p : prog (M := M2) A) Q :
  disc [] p [] Q -> disc (M := sum_mem) [] (inr_prog p) [] Q.
Proof. apply (disc_inr p [] []). Qed.

(** The semaphores of the sum. *)
Definition sum_sems (s1 : gmap (sem (SharedMem := M1)) nat) (s2 : gmap (sem (SharedMem := M2)) nat) :
  gmap (sem (SharedMem := sum_mem)) nat :=
  kmap (M1 := gmap _) (M2 := gmap _) inl s1 ∪ kmap (M1 := gmap _) (M2 := gmap _) inr s2.

Lemma sum_sems_inl s1 s2 s : sum_sems s1 s2 !! inl s = s1 !! s.
Proof.
  unfold sum_sems. rewrite lookup_union, lookup_kmap by (by intros ? ? [=]).
  rewrite (proj2 (lookup_kmap_None inr s2 (inl s))) by done. by destruct (s1 !! s).
Qed.

Lemma sum_sems_inr s1 s2 s : sum_sems s1 s2 !! inr s = s2 !! s.
Proof.
  unfold sum_sems. rewrite lookup_union.
  rewrite (proj2 (lookup_kmap_None inl s1 (inr s))) by done.
  rewrite lookup_kmap by (by intros ? ? [=]). by destruct (s2 !! s).
Qed.

End Sum.
