(* ===== verification/Message.v ===== *)
(** * Messages between the device handler and the devices
    (src/dev_handler/message.h and message.c).

    A [message_t] owns an allocation of bytes; the constructors, the serialiser and the
    parsers check every access to an allocation. The contents of fresh memory come from the
    allocator ([Heap]), which is the environment. *)

From stdpp Require Import strings.
From S2P Require Export RuntimeUtil Cobs.

(** ** Constants *)

Definition DELIMITER_SIZE : nat := 1.
Definition COBS_LENGTH_SIZE : nat := 1.
Definition MESSAGE_ID_SIZE : nat := 1.
Definition PAYLOAD_LENGTH_SIZE : nat := 1.
Definition BITMAP_SIZE : nat := 4.
Definition INTERVAL_SIZE : nat := 2.
Definition DEVICE_ID_SIZE : nat := 10.
Definition CHECKSUM_SIZE : nat := 1.
Definition MAX_PAYLOAD_SIZE : nat := 132.

(** [message_id_t] values; a received identifier can be any byte. *)
Definition NOP : Z := 0.
Definition DEVICE_PING : Z := 1.
Definition ACKNOWLEDGEMENT : Z := 2.
Definition SUBSCRIPTION_REQUEST : Z := 3.
Definition DEVICE_WRITE : Z := 4.
Definition DEVICE_DATA : Z := 5.
Definition LOG : Z := 6.

Record message_t : Set := Message {
  message_id : Z;
  payload : bytes;            (* the allocation; empty for NULL *)
  payload_length : nat;
  max_payload_length : nat
}.

#[export] Instance message_eq_dec : EqDecision message_t.
Proof. solve_decision. Defined.

(** [sizeof(message_t)] on a 64-bit machine; it only matters to [malloc]. *)
Definition sizeof_message_t : nat := 32.

Section Messages.
Context {H : Heap}.

(** ** Helpers *)

Definition device_write_payload_size (device_type : Z) (param_bitmap : Z) : outcome nat :=
  let dev := get_device device_type in
  for_bits MAX_PARAMS 0 (fun _ => param_bitmap) (fun i result =>
    if bit_on param_bitmap i then
      match dev with
      | None => Faulty NullDeref
      | Some dev =>
          p ← buf_get (params dev) i;
          match pd_type p with
          | INT => mret (result + 4)%nat
          | FLOAT => mret (result + 4)%nat
          | BOOL => mret (result + 1)%nat
          end
      end
    else mret result) BITMAP_SIZE.

(** Returns the status and the message; [data] are the [len] bytes copied. *)
Definition append_payload (msg : message_t) (data : bytes) : outcome (Z * message_t) :=
  p ← buf_write (payload msg) (payload_length msg) data;
  let len' := (payload_length msg + length data)%nat in
  let msg' := Message (message_id msg) p len' (max_payload_length msg) in
  mret (if (max_payload_length msg <? len')%nat then -1 else 0, msg').

Definition checksum (data : bytes) (len : nat) : outcome Z :=
  chk ← buf_get data 0;
  for_range (len - 1) 1 (fun i chk => b ← buf_get data i; mret (Z.lxor chk b)) chk.

(** ** Constructors *)

Definition make_empty (payload_size : nat) : outcome message_t :=
  _ ← alloc sizeof_message_t;
  p ← alloc payload_size;
  mret (Message NOP p 0 payload_size).

Definition make_ping : outcome message_t :=
  _ ← alloc sizeof_message_t;
  mret (Message DEVICE_PING [] 0 0).

(** [((uint32_t) -1) >> (MAX_PARAMS - dev->num_params)], the bits of existing parameters. *)
Definition existing_params (dev : device_t) : Z :=
  Z.shiftr (2 ^ 32 - 1) (Z.of_nat (MAX_PARAMS - num_params dev)).

Definition make_subscription_request (dev_type pmap interval : Z) : outcome (option message_t) :=
  match get_device dev_type with
  | None => Faulty NullDeref
  | Some dev =>
      let pmap := Z.land pmap (existing_params dev) in
      pmap ← for_range MAX_PARAMS 0 (fun i pmap =>
        p ← buf_get (params dev) i;
        mret (if pd_read p =? 0 then bit_clear pmap i else pmap)) pmap;
      _ ← alloc sizeof_message_t;
      p ← alloc (BITMAP_SIZE + INTERVAL_SIZE);
      let sub_request := Message SUBSCRIPTION_REQUEST p 0 (BITMAP_SIZE + INTERVAL_SIZE) in
      '(st1, sub_request) ← append_payload sub_request (le_bytes BITMAP_SIZE pmap);
      '(st2, sub_request) ← append_payload sub_request (le_bytes INTERVAL_SIZE interval);
      mret (if st1 + st2 =? 0 then Some sub_request else None)
  end.

(** The loop that turns off the bits of parameters that cannot be written. *)
Definition drop_unwritable (dev : device_t) (pmap : Z) : outcome Z :=
  for_bits MAX_PARAMS 0 (fun pmap => pmap) (fun i pmap =>
    p ← buf_get (params dev) i;
    mret (if pd_write p =? 0 then bit_clear pmap i else pmap)) pmap.

(** The [switch] on the type of the parameter [p] with value [v]. *)
Definition append_value (p : param_desc_t) (v : param_val_t) (msg : message_t)
  : outcome (Z * message_t) :=
  match pd_type p with
  | INT => append_payload msg (le_bytes 4 v)
  | FLOAT => append_payload msg (le_bytes 4 v)
  | BOOL => append_payload msg (le_bytes 1 v)
  end.

(** The loop that appends the value of every parameter that is on. *)
Definition append_params (dev : device_t) (pmap : Z) (param_values : list param_val_t)
  (st : Z * message_t) : outcome (Z * message_t) :=
  for_bits MAX_PARAMS 0 (fun _ => pmap) (fun i '(status, msg) =>
    if bit_on pmap i then
      p ← buf_get (params dev) i;
      v ← buf_get param_values i;
      '(st, msg) ← append_value p v msg;
      mret (status + st, msg)
    else mret (status, msg)) st.

Definition make_device_write (dev_type pmap : Z) (param_values : list param_val_t)
  : outcome (option message_t) :=
  match get_device dev_type with
  | None => Faulty NullDeref
  | Some dev =>
      pmap ← drop_unwritable dev (Z.land pmap (existing_params dev));
      _ ← alloc sizeof_message_t;
      size ← device_write_payload_size dev_type pmap;
      p ← alloc size;
      '(status, dev_write) ← append_payload (Message DEVICE_WRITE p 0 size) (le_bytes BITMAP_SIZE pmap);
      '(status, dev_write) ← append_params dev pmap param_values (status, dev_write);
      mret (if status =? 0 then Some dev_write else None)
  end.

(** ** Serialising *)

Definition calc_max_cobs_msg_length (msg : message_t) : nat :=
  let required_packet_length :=
    (MESSAGE_ID_SIZE + PAYLOAD_LENGTH_SIZE + payload_length msg + CHECKSUM_SIZE)%nat in
  let cobs_length := (required_packet_length + required_packet_length / 254 + 1)%nat in
  (DELIMITER_SIZE + COBS_LENGTH_SIZE + cobs_length)%nat.

(** The serialised message with its checksum, before encoding. *)
Definition serialize (msg : message_t) : outcome bytes :=
  let body := (MESSAGE_ID_SIZE + PAYLOAD_LENGTH_SIZE + payload_length msg)%nat in
  data ← alloc (body + CHECKSUM_SIZE);
  data ← buf_set data 0 (u8 (message_id msg));
  data ← buf_set data 1 (u8 (Z.of_nat (payload_length msg)));
  data ← for_range (payload_length msg) 0 (fun i data =>
    b ← buf_get (payload msg) i;
    buf_set data (i + MESSAGE_ID_SIZE + PAYLOAD_LENGTH_SIZE) b) data;
  chk ← checksum data body;
  buf_set data body chk.

(** [cobs_encoded] is the caller's allocation, [len] the size it claims. Returns the number
    of bytes written or -1, and the allocation. *)
Definition message_to_bytes (msg : message_t) (cobs_encoded : bytes) (len : nat)
  : outcome (Z * bytes) :=
  if (len <? calc_max_cobs_msg_length msg)%nat then mret (-1, cobs_encoded)
  else
    data ← serialize msg;
    cobs_encoded ← buf_set cobs_encoded 0 0;
    '(cobs_len, tail) ← cobs_encode (drop 2 cobs_encoded) data;
    let cobs_encoded := take 2 cobs_encoded ++ tail in
    cobs_encoded ← buf_set cobs_encoded 1 (u8 (Z.of_nat cobs_len));
    mret (Z.of_nat (DELIMITER_SIZE + COBS_LENGTH_SIZE + cobs_len), cobs_encoded).

(** ** Parsing *)

(** [data] is the caller's allocation; returns the status and the message. *)
Definition parse_message (data : bytes) (msg_to_fill : message_t) : outcome (Z * message_t) :=
  cobs_len ← buf_get data 1;
  decoded ← alloc (Z.to_nat cobs_len);
  '(ret, decoded) ← cobs_decode decoded (drop 2 data) (Z.to_nat cobs_len);
  if (ret <? MESSAGE_ID_SIZE + PAYLOAD_LENGTH_SIZE + CHECKSUM_SIZE)%nat then mret (3, msg_to_fill)
  else if (MESSAGE_ID_SIZE + PAYLOAD_LENGTH_SIZE + MAX_PAYLOAD_SIZE + CHECKSUM_SIZE <? ret)%nat
  then mret (3, msg_to_fill)
  else
    id ← buf_get decoded 0;
    max ← buf_get decoded MESSAGE_ID_SIZE;
    src ← buf_read decoded (MESSAGE_ID_SIZE + PAYLOAD_LENGTH_SIZE) (Z.to_nat max);
    '(ret, msg) ← append_payload (Message id (payload msg_to_fill) 0 (Z.to_nat max)) src;
    if negb (ret =? 0) then mret (2, msg)
    else
      let body := (MESSAGE_ID_SIZE + PAYLOAD_LENGTH_SIZE + payload_length msg)%nat in
      expected_checksum ← checksum decoded body;
      received_checksum ← buf_get decoded body;
      mret (if expected_checksum =? received_checksum then 0 else 1, msg).

(** The [switch] of [parse_device_data]: reads the value of the parameter [p] at [ptr] into
    the element [i] of [vals]. *)
Definition parse_value (pay : bytes) (p : param_desc_t) (i : nat) (vals : list param_val_t) (ptr : nat)
  : outcome (list param_val_t * nat) :=
  old ← buf_get vals i;
  match pd_type p with
  | INT => x ← buf_read pay ptr 4;
           vals ← buf_set vals i (set_p_i old (le_word x)); mret (vals, (ptr + 4)%nat)
  | FLOAT => x ← buf_read pay ptr 4;
             vals ← buf_set vals i (set_p_f old (le_word x)); mret (vals, (ptr + 4)%nat)
  | BOOL => x ← buf_get pay ptr;
            vals ← buf_set vals i (set_p_b old x); mret (vals, (ptr + 1)%nat)
  end.

(** Fills [vals] from a DEVICE_DATA message; the state of the loop is [vals] and the offset
    of [payload_ptr]. *)
Definition parse_device_data (dev_type : Z) (dev_data : message_t) (vals : list param_val_t)
  : outcome (list param_val_t) :=
  let dev := get_device dev_type in
  bm ← buf_read (payload dev_data) 0 BITMAP_SIZE;
  let bitmap := le_word bm in
  '(vals, _) ← for_bits MAX_PARAMS 0 (fun _ => bitmap) (fun i '(vals, ptr) =>
    if bit_on bitmap i then
      match dev with
      | None => Faulty NullDeref
      | Some dev =>
          p ← buf_get (params dev) i;
          parse_value (payload dev_data) p i vals ptr
      end
    else mret (vals, ptr)) (vals, BITMAP_SIZE);
  mret vals.

End Messages.

(** ** Specifications *)

(** The exclusive or of all bytes. *)
Definition xor_all (bs : bytes) : Z := foldl Z.lxor 0 bs.

(** The packet of a message before it is encoded. *)
Definition packet (msg : message_t) : bytes :=
  let body := u8 (message_id msg) :: u8 (Z.of_nat (payload_length msg)) ::
              take (payload_length msg) (payload msg) in
  body ++ [xor_all body].

Definition readable (dev : device_t) (i : nat) : bool :=
  match params dev !! i with Some p => negb (pd_read p =? 0) | None => false end.

Definition writable (dev : device_t) (i : nat) : bool :=
  match params dev !! i with Some p => negb (pd_write p =? 0) | None => false end.

(** The image of one parameter, and of the parameters from [first] on that are in [pmap]. *)
Definition value_image (dev : device_t) (vals : list param_val_t) (i : nat) : bytes :=
  match params dev !! i with
  | Some p => le_bytes (param_size (pd_type p)) (default 0 (vals !! i))
  | None => []
  end.

Fixpoint values_image (dev : device_t) (pmap : Z) (vals : list param_val_t) (k first : nat) : bytes :=
  match k with
  | O => []
  | S k' => (if bit_on pmap first then value_image dev vals first else []) ++
            values_image dev pmap vals k' (S first)
  end.

(** What a parameter becomes when [v] is received over [old]. *)
Definition received (ty : param_type_t) (old v : param_val_t) : param_val_t :=
  match ty with INT => v | FLOAT => v | BOOL => set_p_b old (u8 v) end.

(** A message whose lengths and bytes are those of C objects. *)
Definition message_ok (msg : message_t) : Prop :=
  byte_ok (message_id msg) /\ Forall byte_ok (payload msg) /\
  (payload_length msg <= length (payload msg))%nat.

(** ** Checksums and bytes *)

Lemma foldl_lxor bs a : foldl Z.lxor a bs = Z.lxor a (xor_all bs).
Proof.
  unfold xor_all. revert a. induction bs as [|b bs IH]; intros a; cbn [foldl].
  - by rewrite Z.lxor_0_r.
  - rewrite IH, (IH (Z.lxor 0 b)), Z.lxor_0_l. by rewrite Z.lxor_assoc.
Qed.

Lemma lxor_byte a b : byte_ok a -> byte_ok b -> byte_ok (Z.lxor a b).
Proof.
  unfold byte_ok. intros Ha Hb.
  assert (H0 : 0 <= Z.lxor a b) by (apply Z.lxor_nonneg; lia).
  split; [done|]. apply (word_from_bits 8); [lia| |done].
  intros i Hi. rewrite Z.lxor_spec, (testbit_high 8 a), (testbit_high 8 b) by lia. done.
Qed.

Lemma xor_all_byte bs : Forall byte_ok bs -> byte_ok (xor_all bs).
Proof.
  unfold xor_all. cut (forall a, byte_ok a -> Forall byte_ok bs -> byte_ok (foldl Z.lxor a bs)).
  { intros H. apply H. unfold byte_ok. lia. }
  induction bs as [|b bs IH]; intros a Ha Hbs; cbn [foldl]; [done|].
  apply Forall_cons_1 in Hbs as [Hb Hbs]. apply IH; [by apply lxor_byte | done].
Qed.

Lemma checksum_loop bs : forall pre chk post,
  for_range (length bs) (length pre)
    (fun i chk => b ← buf_get (pre ++ bs ++ post) i; mret (Z.lxor chk b)) chk =
  Done (foldl Z.lxor chk bs).
Proof.
  induction bs as [|b bs IH]; intros pre chk post; cbn [length for_range foldl]; [done|].
  cbn [app]. rewrite buf_get_app by done. cbn [mbind outcome_bind mret outcome_ret].
  specialize (IH (pre ++ [b]) (Z.lxor chk b) post).
  rewrite length_app, Nat.add_1_r in IH. rewrite <- IH.
  apply for_range_ext. intros i s _. by simplify_list_eq.
Qed.

Lemma checksum_spec data post : (0 < length data)%nat ->
  checksum (data ++ post) (length data) = Done (xor_all data).
Proof.
  intros Hl. destruct data as [|b data]; [simpl in Hl; lia|].
  unfold checksum. change (buf_get ((b :: data) ++ post) 0) with (Done b). rewrite bind_done.
  replace (length (b :: data) - 1)%nat with (length data) by (simpl; lia).
  pose proof (checksum_loop data [b] b post) as Hc. cbn [length app] in Hc |- *. rewrite Hc.
  unfold xor_all. cbn [foldl]. by rewrite Z.lxor_0_l.
Qed.

(** ** Serialising *)

Section Serialising.
Context {H : Heap} {HR : ReliableHeap H}.

Lemma copy_loop (bs : bytes) : forall k (pre hole post : bytes) from base,
  length hole = length bs -> k = length bs -> base = length pre ->
  (forall j, (j < length bs)%nat -> buf_get from (base - 2 + j)%nat = buf_get bs j) -> (2 <= base)%nat ->
  for_range k (base - 2) (fun i data =>
    b ← buf_get from i; buf_set data (i + MESSAGE_ID_SIZE + PAYLOAD_LENGTH_SIZE) b)
    (pre ++ hole ++ post) = Done (pre ++ bs ++ post).
Proof.
  unfold MESSAGE_ID_SIZE, PAYLOAD_LENGTH_SIZE.
  induction bs as [|b bs IH]; intros k pre hole post from base Hh -> -> Hf Hb; cbn [for_range length].
  - by destruct hole.
  - destruct hole as [|h hole]; [done|]. cbn [length] in *. cbn [app].
    rewrite <- (Nat.add_0_r (length pre - 2)), Hf by lia. cbn [buf_get lookup list_lookup].
    cbn [mbind outcome_bind mret outcome_ret]. rewrite buf_set_app by lia.
    cbn [mbind outcome_bind mret outcome_ret].
    specialize (IH (length bs) (pre ++ [b]) hole post from (S (length pre))).
    replace (pre ++ b :: hole ++ post) with ((pre ++ [b]) ++ hole ++ post) by (by simplify_list_eq).
    replace (S (length pre - 2 + 0)) with (S (length pre) - 2)%nat by lia.
    rewrite IH; [by simplify_list_eq | lia | done | list_lia | | lia].
    intros j Hj. specialize (Hf (S j)). cbn [buf_get lookup list_lookup] in Hf.
    replace (S (length pre) - 2 + j)%nat with (length pre - 2 + S j)%nat by lia.
    rewrite Hf by lia. done.
Qed.

Lemma serialize_spec msg :
  (payload_length msg <= length (payload msg))%nat -> serialize msg = Done (packet msg).
Proof.
  intros Hl. unfold serialize. set (n := payload_length msg) in *.
  destruct (alloc_done (MESSAGE_ID_SIZE + PAYLOAD_LENGTH_SIZE + n + CHECKSUM_SIZE)) as (b & -> & Hb).
  unfold MESSAGE_ID_SIZE, PAYLOAD_LENGTH_SIZE, CHECKSUM_SIZE in *. rewrite bind_done.
  destruct b as [|b0 [|b1 b]]; [simpl in Hb; lia..|]. cbn [length] in Hb.
  change (buf_set (b0 :: b1 :: b) 0 (u8 (message_id msg)))
    with (Done (u8 (message_id msg) :: b1 :: b)). rewrite bind_done.
  rewrite (buf_set_app [u8 (message_id msg)] b b1), bind_done by done. cbn [app].
  set (x := u8 (message_id msg)). set (y := u8 (Z.of_nat n)).
  assert (Hpl : length (take n (payload msg)) = n) by (rewrite length_take; lia).
  replace (x :: y :: b) with ([x; y] ++ take n b ++ drop n b) by (by rewrite take_drop).
  rewrite (copy_loop (take n (payload msg)) n [x; y] (take n b) (drop n b) _ 2);
    [| rewrite Hpl, length_take; lia | done | done | | lia].
  2: { intros j Hj. unfold buf_get. rewrite Hpl in Hj. by rewrite lookup_take_lt by lia. }
  rewrite bind_done, (app_assoc [x; y]).
  assert (Hd : exists z, drop n b = [z]).
  { pose proof (length_drop b n) as Hd. rewrite Nat.add_1_r in Hb.
    destruct (drop n b) as [|z [|]]; simpl in Hd; try lia. eauto. }
  destruct Hd as [z ->]. set (body := [x; y] ++ take n (payload msg)).
  assert (Hbody : length body = (1 + 1 + n)%nat) by (unfold body; list_lia).
  rewrite <- Hbody, checksum_spec, bind_done, buf_set_app by lia.
  by subst body.
Qed.

Lemma packet_length msg : (payload_length msg <= length (payload msg))%nat ->
  length (packet msg) = (payload_length msg + 3)%nat.
Proof. intros. unfold packet. list_lia. Qed.

Lemma packet_bytes msg : message_ok msg -> Forall byte_ok (packet msg).
Proof.
  intros (_ & Hp & _). unfold packet.
  match goal with |- Forall _ (?l ++ _) => assert (Forall byte_ok l) end.
  { repeat constructor; try apply u8_range. by apply Forall_take. }
  apply Forall_app_2; [done|]. constructor; [by apply xor_all_byte | done].
Qed.

(** What the wire carries for a message. *)
Definition frame (msg : message_t) : bytes :=
  let c := cobs_ref [] (packet msg) in 0 :: Z.of_nat (length c) :: c.

Lemma packet_encoded_length msg :
  (payload_length msg <= length (payload msg))%nat -> (payload_length msg <= MAX_PAYLOAD_SIZE)%nat ->
  (length (cobs_ref [] (packet msg)) <= payload_length msg + 4)%nat.
Proof.
  unfold MAX_PAYLOAD_SIZE. intros Hl Hm.
  destruct (cobs_ref_length [] (packet msg)) as [Hle _]; [simpl; lia|].
  rewrite packet_length in Hle by done. cbn [length] in Hle. lia.
Qed.

Lemma message_to_bytes_frame msg buf len :
  (payload_length msg <= length (payload msg))%nat -> (payload_length msg <= MAX_PAYLOAD_SIZE)%nat ->
  (calc_max_cobs_msg_length msg <= len)%nat -> (len <= length buf)%nat ->
  message_to_bytes msg buf len =
  Done (Z.of_nat (length (frame msg)), frame msg ++ drop (length (frame msg)) buf).
Proof.
  intros Hl Hm Hlen Hbuf. pose proof (packet_encoded_length msg Hl Hm) as Hc.
  unfold message_to_bytes. rewrite (proj2 (Nat.ltb_ge _ _)) by done.
  rewrite serialize_spec, bind_done by done.
  assert (Hmin : (payload_length msg + 6 <= length buf)%nat).
  { revert Hlen. unfold calc_max_cobs_msg_length, MESSAGE_ID_SIZE, PAYLOAD_LENGTH_SIZE, CHECKSUM_SIZE,
      DELIMITER_SIZE, COBS_LENGTH_SIZE. lia. }
  destruct buf as [|b0 [|b1 buf]]; [simpl in Hmin; lia..|]. cbn [length] in Hmin.
  change (buf_set (b0 :: b1 :: buf) 0 0) with (Done (0 :: b1 :: buf)). rewrite bind_done.
  change (drop 2 (0 :: b1 :: buf)) with buf.
  rewrite cobs_encode_ref, bind_done by lia. cbn [take app].
  match goal with |- context [buf_set (?a :: ?b :: ?t) 1 ?v] =>
    change (buf_set (a :: b :: t) 1 v) with (Done (a :: v :: t)) end.
  rewrite bind_done. unfold MAX_PAYLOAD_SIZE in Hm.
  rewrite u8_small by lia. unfold frame, mret, outcome_ret. cbn [length drop app].
  unfold DELIMITER_SIZE, COBS_LENGTH_SIZE. do 2 f_equal.
Qed.

(** The part of [parse_message] behind the length tests, on the decoded bytes. *)
Lemma parse_tail dec msg :
  (2 <= length dec)%nat ->
  let max := Z.to_nat (nth 1 dec 0) in
  (id ← buf_get dec 0;
   max ← buf_get dec MESSAGE_ID_SIZE;
   src ← buf_read dec (MESSAGE_ID_SIZE + PAYLOAD_LENGTH_SIZE) (Z.to_nat max);
   '(ret, msg) ← append_payload (Message id (payload msg) 0 (Z.to_nat max)) src;
   if negb (ret =? 0) then mret (2, msg)
   else
     let body := (MESSAGE_ID_SIZE + PAYLOAD_LENGTH_SIZE + payload_length msg)%nat in
     expected_checksum ← checksum dec body;
     received_checksum ← buf_get dec body;
     mret (if expected_checksum =? received_checksum then 0 else 1, msg)) =
  if (max + 3 <=? length dec)%nat && (max <=? length (payload msg))%nat
  then Done (if xor_all (take (max + 2) dec) =? nth (max + 2) dec 0 then 0 else 1,
             Message (nth 0 dec 0) (take max (drop 2 dec) ++ drop max (payload msg)) max max)
  else Faulty OutOfBounds.
Proof.
  intros Hl max. destruct dec as [|id [|m body]]; [simpl in Hl; lia..|]. cbn [nth] in max.
  change (buf_get (id :: m :: body) 0) with (Done id).
  change (buf_get (id :: m :: body) MESSAGE_ID_SIZE) with (Done m). rewrite !bind_done.
  fold max. change (MESSAGE_ID_SIZE + PAYLOAD_LENGTH_SIZE)%nat with 2%nat.
  unfold buf_read. cbn [length drop]. rewrite !drop_0. destruct (Nat.leb_spec (2 + max) (S (S (length body)))) as [Hr|Hr].
  2: { by rewrite (proj2 (Nat.leb_gt _ _)) by lia. }
  rewrite bind_ret. unfold append_payload, buf_write.
  cbn [payload payload_length max_payload_length message_id]. rewrite length_take, Nat.min_l by lia.
  destruct (Nat.leb_spec (0 + max) (length (payload msg))) as [Hw|Hw].
  2: { rewrite (proj2 (Nat.leb_gt max _)) by lia. by rewrite andb_false_r. }
  rewrite bind_ret. cbn [take app Nat.add].
  rewrite Nat.ltb_irrefl. rewrite bind_ret. cbn [negb Z.eqb].
  cbn [payload_length]. rewrite (proj2 (Nat.leb_le max _)) by lia. rewrite andb_true_r.
  set (pre := take (S (S max)) (id :: m :: body)).
  assert (Hpre : length pre = S (S max)) by (unfold pre; rewrite length_take; cbn [length]; lia).
  assert (Hchk : checksum (id :: m :: body) (S (S max)) = Done (xor_all pre)).
  { rewrite <- (take_drop (S (S max)) (id :: m :: body)). fold pre. rewrite <- Hpre.
    apply checksum_spec. lia. }
  rewrite Hchk, bind_done.
  replace (max + 2)%nat with (S (S max)) by lia. fold pre. cbn [nth].
  destruct (Nat.leb_spec (max + 3) (S (S (length body)))) as [Hc|Hc].
  - destruct (lookup_lt_is_Some_2 body max ltac:(lia)) as [c Hbc].
    rewrite (buf_get_done _ _ c) by done. rewrite bind_done.
    by rewrite (nth_lookup_Some _ _ _ _ Hbc).
  - unfold buf_get. by rewrite (lookup_ge_None_2 (id :: m :: body)) by (cbn [length]; lia).
Qed.

Lemma frame_length msg :
  (payload_length msg <= length (payload msg))%nat -> (payload_length msg <= MAX_PAYLOAD_SIZE)%nat ->
  forall len, (calc_max_cobs_msg_length msg <= len)%nat -> (length (frame msg) <= len)%nat.
Proof.
  intros Hl Hm len. pose proof (packet_encoded_length msg Hl Hm).
  unfold frame, calc_max_cobs_msg_length, MESSAGE_ID_SIZE, PAYLOAD_LENGTH_SIZE, CHECKSUM_SIZE,
    DELIMITER_SIZE, COBS_LENGTH_SIZE. cbn [length]. lia.
Qed.

Lemma parse_frame msg target post :
  message_ok msg -> (payload_length msg <= MAX_PAYLOAD_SIZE)%nat ->
  (payload_length msg <= length (payload target))%nat ->
  parse_message (frame msg ++ post) target =
  Done (0, Message (message_id msg)
             (take (payload_length msg) (payload msg) ++ drop (payload_length msg) (payload target))
             (payload_length msg) (payload_length msg)).
Proof.
  intros (Hid & Hb & Hl) Hm Ht. set (n := payload_length msg) in *. unfold MAX_PAYLOAD_SIZE in Hm.
  pose proof (packet_length msg Hl) as Hpk. fold n in Hpk.
  destruct (cobs_ref_length [] (packet msg)) as [_ Hlt]; [simpl; lia|].
  cbn [length] in Hlt. unfold frame. cbn [app]. unfold parse_message.
  set (c := cobs_ref [] (packet msg)) in *.
  change (buf_get (0 :: Z.of_nat (length c) :: c ++ post) 1) with (Done (Z.of_nat (length c))).
  rewrite bind_done, Nat2Z.id. destruct (alloc_done (length c)) as (mem & -> & Hmem).
  rewrite bind_done. change (drop 2 (0 :: Z.of_nat (length c) :: c ++ post)) with (drop 0 (c ++ post)).
  rewrite drop_0. unfold c.
  assert (Hst : stuffed 0 (packet msg) = packet msg)
    by (apply stuffed_short, short_runs_length; lia).
  rewrite cobs_decode_ref, bind_done by (rewrite Hst; fold c; lia). fold c. rewrite Hst.
  unfold MESSAGE_ID_SIZE at 1 2, PAYLOAD_LENGTH_SIZE at 1 2, CHECKSUM_SIZE, MAX_PAYLOAD_SIZE.
  rewrite !(proj2 (Nat.ltb_ge _ _)) by lia.
  rewrite parse_tail by (rewrite length_app; lia). cbv zeta.
  rewrite length_app, Hpk. set (t := drop _ mem).
  assert (Hn : nth 1 (packet msg ++ t) 0 = Z.of_nat n) by (cbn; apply u8_small; lia).
  assert (Hid0 : nth 0 (packet msg ++ t) 0 = message_id msg) by (cbn; by apply u8_small).
  rewrite Hn, Hid0, Nat2Z.id. rewrite !(proj2 (Nat.leb_le _ _)) by lia. cbn [andb].
  set (body := u8 (message_id msg) :: u8 (Z.of_nat n) :: take n (payload msg)).
  assert (Hbody : length body = (n + 2)%nat) by (unfold body; list_lia).
  assert (Heq : packet msg ++ t = body ++ xor_all body :: t).
  { unfold packet. fold n body. by rewrite <- app_assoc. }
  rewrite Heq, take_app_length', nth_middle' by done. rewrite Z.eqb_refl.
  do 3 f_equal. subst body. cbn [drop app]. rewrite drop_0.
  by rewrite take_app_length' by (rewrite length_take; lia).
Qed.

End Serialising.

(** The functional behaviour of [parse_message] on every branch. For a frame at least one
    byte longer than its length byte says, it decodes that many bytes into a fresh block of
    that size; fewer than 3 or more than 135 decoded bytes give 3 and leave the message
    alone; otherwise the message gets the identifier, and the payload length the second
    decoded byte claims, and the result is 0 or 1 by the checksum. The claimed payload length
    is checked against neither the decoded length nor the room the message has: when it
    exceeds either block the code leaves it. The documented result 2 never occurs. *)
Theorem parse_message_spec {H : Heap} {HR : ReliableHeap H} d0 L rest msg :
  byte_ok L -> (Z.to_nat L < length rest)%nat ->
  exists mem ret dec, length mem = Z.to_nat L /\ length dec = Z.to_nat L /\
    cobs_decode mem rest (Z.to_nat L) = Done (ret, dec) /\
    let max := Z.to_nat (nth 1 dec 0) in
    parse_message (d0 :: L :: rest) msg =
      (if (ret <? 3)%nat || (135 <? ret)%nat then Done (3, msg)
       else if (max + 3 <=? length dec)%nat && (max <=? length (payload msg))%nat
       then Done (if xor_all (take (max + 2) dec) =? nth (max + 2) dec 0 then 0 else 1,
                  Message (nth 0 dec 0) (take max (drop 2 dec) ++ drop max (payload msg)) max max)
       else Faulty OutOfBounds) /\
    (forall code msg', parse_message (d0 :: L :: rest) msg = Done (code, msg') -> code ≠ 2).
Proof.
  intros HL Hrest. destruct (alloc_done (Z.to_nat L)) as (mem & Hal & Hmem).
  destruct (cobs_decode_bounded mem rest (Z.to_nat L)) as (ret & dec & Hdec & Hret & Hlen);
    [done | lia |].
  exists mem, ret, dec. rewrite Hmem in Hlen. do 3 (split; [done|]). intros max.
  match goal with |- ?P /\ _ => assert (Heq : P) end.
  { unfold parse_message. change (buf_get (d0 :: L :: rest) 1) with (Done L). rewrite bind_done.
    rewrite Hal, bind_done. change (drop 2 (d0 :: L :: rest)) with (drop 0 rest).
    rewrite drop_0, Hdec, bind_done.
    change (MESSAGE_ID_SIZE + PAYLOAD_LENGTH_SIZE + CHECKSUM_SIZE)%nat with 3%nat.
    change (MESSAGE_ID_SIZE + PAYLOAD_LENGTH_SIZE + MAX_PAYLOAD_SIZE + CHECKSUM_SIZE)%nat with 135%nat.
    destruct (Nat.ltb_spec ret 3), (Nat.ltb_spec 135 ret); try done. apply parse_tail. lia. }
  split; [exact Heq|]. intros code msg'. rewrite Heq. repeat case_match; by intros [= <- <-].
Qed.

Lemma parse_message_spec_witness :
  exists mem ret dec, length mem = 7%nat /\ length dec = 7%nat /\
    cobs_decode mem [7; 5; 255; 9; 9; 9; 9; 0] 7 = Done (ret, dec) /\
    let max := Z.to_nat (nth 1 dec 0) in
    let msg := Message 0 (replicate 132 0) 0 132 in
    @parse_message zero_heap (0 :: 7 :: [7; 5; 255; 9; 9; 9; 9; 0]) msg =
      (if (ret <? 3)%nat || (135 <? ret)%nat then Done (3, msg)
       else if (max + 3 <=? length dec)%nat && (max <=? length (payload msg))%nat
       then Done (if xor_all (take (max + 2) dec) =? nth (max + 2) dec 0 then 0 else 1,
                  Message (nth 0 dec 0) (take max (drop 2 dec) ++ drop max (payload msg)) max max)
       else Faulty OutOfBounds) /\
    (forall code msg', @parse_message zero_heap (0 :: 7 :: [7; 5; 255; 9; 9; 9; 9; 0]) msg =
       Done (code, msg') -> code ≠ 2).
Proof.
  apply (parse_message_spec (H := zero_heap) 0 7 [7; 5; 255; 9; 9; 9; 9; 0]
           (Message 0 (replicate 132 0) 0 132)).
  - unfold byte_ok. lia.
  - vm_compute. lia.
Defined.

(** C2: a message survives the wire. A message whose payload is at most 132 bytes, serialised
    into a buffer of the size [calc_max_cobs_msg_length] asks for, is written as the delimiter,
    the length and the encoding, without leaving the buffer; parsing those bytes, whatever
    follows them, gives 0 and a message of the same identifier, length and payload. With a
    smaller size the serialiser gives -1 and writes nothing. *)
Theorem message_roundtrip {H : Heap} {HR : ReliableHeap H} msg target buf len post :
  message_ok msg -> (payload_length msg <= MAX_PAYLOAD_SIZE)%nat ->
  (payload_length msg <= length (payload target))%nat -> (len <= length buf)%nat ->
  if (len <? calc_max_cobs_msg_length msg)%nat
  then message_to_bytes msg buf len = Done (-1, buf)
  else exists buf',
    message_to_bytes msg buf len = Done (Z.of_nat (length (frame msg)), buf') /\
    take (length (frame msg)) buf' = frame msg /\ length buf' = length buf /\
    drop (length (frame msg)) buf' = drop (length (frame msg)) buf /\
    parse_message (frame msg ++ post) target =
      Done (0, Message (message_id msg)
                 (take (payload_length msg) (payload msg) ++ drop (payload_length msg) (payload target))
                 (payload_length msg) (payload_length msg)).
Proof.
  intros Hok Hm Ht Hbuf. destruct (Nat.ltb_spec len (calc_max_cobs_msg_length msg)) as [Hlt|Hge].
  { unfold message_to_bytes. by rewrite (proj2 (Nat.ltb_lt _ _)). }
  pose proof Hok as (Hid & Hb & Hl). eexists.
  split; [by apply message_to_bytes_frame|]. pose proof (frame_length msg Hl Hm len Hge) as Hf.
  split; [by rewrite take_app_length|]. split; [list_lia|].
  split; [by rewrite drop_app_length|]. by apply parse_frame.
Qed.

Lemma message_roundtrip_witness :
  let msg := Message DEVICE_DATA [1; 0; 0; 0; 9; 255] 5 6 in
  let target := Message 0 (replicate 132 0) 0 132 in
  let buf := replicate 20 7 in
  if (20 <? calc_max_cobs_msg_length msg)%nat
  then @message_to_bytes zero_heap msg buf 20 = Done (-1, buf)
  else exists buf',
    @message_to_bytes zero_heap msg buf 20 = Done (Z.of_nat (length (frame msg)), buf') /\
    take (length (frame msg)) buf' = frame msg /\ length buf' = length buf /\
    drop (length (frame msg)) buf' = drop (length (frame msg)) buf /\
    @parse_message zero_heap (frame msg ++ [3; 4]) target =
      Done (0, Message (message_id msg)
                 (take (payload_length msg) (payload msg) ++ drop (payload_length msg) (payload target))
                 (payload_length msg) (payload_length msg)).
Proof.
  apply (message_roundtrip (H := zero_heap)).
  - unfold message_ok, byte_ok, DEVICE_DATA. simpl. repeat (constructor || lia).
  - vm_compute. lia.
  - vm_compute. lia.
  - vm_compute. lia.
Defined.

(** ** Constructors and parameter values *)

Section Values.
Context {H : Heap} {HR : ReliableHeap H}.

Lemma existing_bits t d i : device_wf t d ->
  word32 (existing_params d) /\ bit_on (existing_params d) i = (i <? num_params d)%nat.
Proof.
  intros (_ & H1 & H2 & _). unfold existing_params, MAX_PARAMS in *.
  replace (2 ^ 32 - 1) with (Z.ones 32) by done. set (s := Z.of_nat (32 - num_params d)).
  assert (Hb : forall i, bit_on (Z.shiftr (Z.ones 32) s) i = (i <? num_params d)%nat).
  { intros j. rewrite bit_on_testbit, Z.shiftr_spec by lia. apply eq_true_iff_eq.
    rewrite Nat.ltb_lt. destruct (Z.ltb_spec (Z.of_nat j + s) 32).
    - rewrite Z.ones_spec_low by lia. split; [lia | done].
    - rewrite Z.ones_spec_high by lia. split; [done | lia]. }
  split; [|apply Hb]. apply word32_bits; [by apply Z.shiftr_nonneg|].
  intros j Hj. rewrite Hb. apply Nat.ltb_ge. lia.
Qed.

Lemma append_payload_at id done hole rest max bs :
  length hole = length bs -> (length done + length bs <= max)%nat ->
  append_payload (Message id (done ++ hole ++ rest) (length done) max) bs =
  Done (0, Message id (done ++ bs ++ rest) (length (done ++ bs)) max).
Proof.
  intros Hh Hm. unfold append_payload. cbn [payload payload_length max_payload_length message_id].
  rewrite buf_write_app, bind_done by done. rewrite (proj2 (Nat.ltb_ge _ _)) by done.
  by rewrite length_app.
Qed.

(** The non-existing parameters are neither readable nor writable. *)
Lemma readable_exists t d i : device_wf t d -> readable d i = true -> (i < num_params d)%nat.
Proof.
  intros Hwf. unfold readable. destruct (Nat.lt_ge_cases i (num_params d)) as [|Hge]; [done|].
  destruct (params d !! i) as [p|] eqn:Hp; [|done].
  by rewrite (device_wf_high _ _ _ _ Hwf Hge Hp).
Qed.

Lemma writable_exists t d i : device_wf t d -> writable d i = true -> (i < num_params d)%nat.
Proof.
  intros Hwf. unfold writable. destruct (Nat.lt_ge_cases i (num_params d)) as [|Hge]; [done|].
  destruct (params d !! i) as [p|] eqn:Hp; [|done].
  by rewrite (device_wf_high _ _ _ _ Hwf Hge Hp).
Qed.

(** Masking by the existing parameters and then by a property only those have. *)
Lemma mask_bits t d pmap keep m :
  device_wf t d -> word32 pmap -> (forall i, keep i = true -> (i < num_params d)%nat) ->
  filtered keep 32 0 (Z.land pmap (existing_params d)) m ->
  word32 m /\ forall i, bit_on m i = bit_on pmap i && keep i.
Proof.
  intros Hwf Hp Hk Hf. apply filtered_word32 in Hf as [Hm Hb]; [|by apply word32_land].
  split; [done|]. intros i. rewrite Hb, bit_on_land.
  rewrite (proj2 (existing_bits _ d i Hwf)). destruct (keep i) eqn:E; [|by rewrite !andb_false_r].
  rewrite (proj2 (Nat.ltb_lt _ _)) by (by apply Hk). by rewrite !andb_true_r.
Qed.

Lemma value_image_eq t d i p vals v :
  device_wf t d -> params d !! i = Some p -> vals !! i = Some v ->
  value_image d vals i = le_bytes (param_size (pd_type p)) v.
Proof. intros _ Hp Hv. unfold value_image. by rewrite Hp, Hv. Qed.

Lemma append_params_image t d m vals :
  device_wf t d -> word32 m -> length vals = MAX_PARAMS ->
  forall k first id done hole max,
  (first + k <= MAX_PARAMS)%nat ->
  length hole = length (values_image d m vals k first) ->
  (length done + length hole <= max)%nat ->
  for_range k first (fun i '(status, msg) =>
    if bit_on m i then
      p ← buf_get (params d) i;
      v ← buf_get vals i;
      '(st, msg) ← append_value p v msg;
      mret (status + st, msg)
    else mret (status, msg)) (0, Message id (done ++ hole) (length done) max) =
  Done (0, Message id (done ++ values_image d m vals k first)
             (length done + length hole) max).
Proof.
  intros Hwf Hm Hv. induction k as [|k IH]; intros first id done hole max Hk Hh Hmax;
    cbn [for_range values_image] in *.
  { destruct hole; [|done]. cbn [length]. by rewrite Nat.add_0_r. }
  destruct (bit_on m first) eqn:Hon.
  2: { rewrite bind_ret. apply IH; [lia | done | done]. }
  destruct (device_wf_param _ d first Hwf ltac:(lia)) as [p Hp].
  destruct (lookup_lt_is_Some_2 vals first) as [v Hvi]; [lia|].
  rewrite (buf_get_done _ _ _ Hp), bind_done, (buf_get_done _ _ _ Hvi), bind_done.
  rewrite (value_image_eq _ _ _ _ _ _ Hwf Hp Hvi) in *. set (img := le_bytes _ v) in *.
  rewrite length_app in Hh.
  assert (Hdst : forall msg, append_value p v msg = append_payload msg img)
    by (intros msg; unfold append_value, img; by destruct (pd_type p)).
  rewrite Hdst. clear Hdst.
  rewrite <- (take_drop (length img) hole), append_payload_at by (rewrite ?length_take; lia).
  rewrite bind_done, bind_ret, app_assoc.
  rewrite IH by (lia || list_lia). rewrite take_drop. do 3 f_equal; [by simplify_list_eq | list_lia].
Qed.

Lemma payload_size_image t d m vals :
  get_device t = Some d -> word32 m -> length vals = MAX_PARAMS ->
  device_write_payload_size t m = Done (4 + length (values_image d m vals MAX_PARAMS 0))%nat.
Proof.
  intros Hd Hm Hv. pose proof (get_device_wf _ _ Hd) as Hwf. unfold device_write_payload_size.
  rewrite Hd. rewrite for_bits_range; [| apply Hm | intros i s _ Hi; by rewrite Hi].
  change BITMAP_SIZE with 4%nat.
  match goal with |- for_range _ _ ?body _ = _ => cut (forall k first acc, (first + k <= MAX_PARAMS)%nat ->
    for_range k first body acc = Done (acc + length (values_image d m vals k first))%nat) end.
  { intros Hc. apply Hc. lia. }
  induction k as [|k IH]; intros first acc Hk; cbn [for_range values_image].
  { cbn [length]. by rewrite Nat.add_0_r. }
  destruct (bit_on m first); [|rewrite bind_ret; apply IH; lia].
  destruct (device_wf_param _ d first Hwf ltac:(lia)) as [p Hp].
  destruct (lookup_lt_is_Some_2 vals first) as [v Hvi]; [lia|].
  rewrite (buf_get_done _ _ _ Hp), bind_done, length_app, (value_image_eq _ _ _ _ _ _ Hwf Hp Hvi).
  rewrite length_le_bytes. destruct (pd_type p); rewrite bind_ret, IH by lia; f_equal; cbn [param_size]; lia.
Qed.

Lemma values_image_length d m vals k first :
  (length (values_image d m vals k first) <= 4 * k)%nat.
Proof.
  revert first. induction k as [|k IH]; intros first; cbn [values_image]; [done|].
  rewrite length_app. specialize (IH (S first)).
  assert (length (value_image d vals first) <= 4)%nat.
  { unfold value_image. case_match; [|simpl; lia]. rewrite length_le_bytes.
    by destruct (pd_type _); cbn; lia. }
  case_match; cbn [length]; lia.
Qed.

Lemma values_image_bytes d m vals k first : Forall byte_ok (values_image d m vals k first).
Proof.
  revert first. induction k as [|k IH]; intros first; cbn [values_image]; [done|].
  apply Forall_app_2; [|apply IH]. case_match; [|done]. unfold value_image. case_match; [|done].
  apply le_bytes_ok.
Qed.

Lemma parse_value_at p i vals old v (done post : bytes) :
  vals !! i = Some old -> word32 v ->
  parse_value (done ++ le_bytes (param_size (pd_type p)) v ++ post) p i vals (length done) =
  Done (<[i:=received (pd_type p) old v]> vals, (length done + param_size (pd_type p))%nat).
Proof.
  intros Hi Hv. unfold parse_value. rewrite (buf_get_done _ _ _ Hi), bind_done.
  assert (Hset : forall x, buf_set vals i x = Done (<[i:=x]> vals)).
  { intros x. apply buf_set_done. by apply lookup_lt_Some in Hi. }
  destruct (pd_type p); cbn [param_size received].
  - rewrite buf_read_app, bind_done, le_word32, Hset, bind_done by done.
    unfold set_p_i. by rewrite u32_small.
  - rewrite buf_read_app, bind_done, le_word32, Hset, bind_done by done.
    unfold set_p_f. by rewrite u32_small.
  - cbn [le_bytes app]. rewrite buf_get_app, bind_done, Hset, bind_done by done. done.
Qed.

(** What the parser's loop leaves of [vals]. *)
Lemma parse_values_image t d m (sent : list param_val_t) :
  device_wf t d -> length sent = MAX_PARAMS -> Forall word32 sent ->
  forall k first done post vals pay,
  (first + k <= MAX_PARAMS)%nat -> length vals = MAX_PARAMS ->
  pay = done ++ values_image d m sent k first ++ post ->
  exists vals' ptr,
    for_range k first (fun i '(vals, ptr) =>
      if bit_on m i then p ← buf_get (params d) i; parse_value pay p i vals ptr
      else mret (vals, ptr)) (vals, length done) = Done (vals', ptr) /\
    length vals' = MAX_PARAMS /\
    forall i, vals' !! i =
      if bit_on m i && between first k i then
        p ← params d !! i; old ← vals !! i; v ← sent !! i; Some (received (pd_type p) old v)
      else vals !! i.
Proof.
  intros Hwf Hs Hw. induction k as [|k IH]; intros first done post vals pay Hk Hv Hpay;
    cbn [for_range values_image] in *.
  { exists vals, (length done). split; [reflexivity|]. split; [exact Hv|]. intros i.
    by rewrite between_0, andb_false_r. }
  destruct (bit_on m first) eqn:Hon.
  2: { rewrite bind_ret. destruct (IH (S first) done post vals pay) as (v' & q & -> & Hl & Hb);
         [lia | done..|]. exists v', q. do 2 (split; [reflexivity || done|]).
       intros i. rewrite Hb. destruct (decide (i = first)) as [->|Hi]; [by rewrite Hon | by rewrite between_S]. }
  destruct (device_wf_param _ d first Hwf ltac:(lia)) as [p Hp].
  destruct (lookup_lt_is_Some_2 sent first) as [v Hvi]; [lia|].
  destruct (lookup_lt_is_Some_2 vals first) as [old Ho]; [lia|].
  rewrite (buf_get_done _ _ _ Hp), bind_done.
  rewrite (value_image_eq _ _ _ _ _ _ Hwf Hp Hvi), <- app_assoc in Hpay.
  assert (Hv32 : word32 v) by (rewrite Forall_lookup in Hw; by apply (Hw first)).
  assert (Hstep := parse_value_at p first vals old v done
    (values_image d m sent k (S first) ++ post) Ho Hv32).
  rewrite <- Hpay in Hstep. rewrite Hstep, bind_done.
  destruct (IH (S first) (done ++ le_bytes (param_size (pd_type p)) v) post
              (<[first:=received (pd_type p) old v]> vals) pay) as (v' & q & Hr & Hl & Hb);
    [lia | by rewrite length_insert | by rewrite <- app_assoc |].
  rewrite length_app, length_le_bytes in Hr. rewrite Hr. exists v', q.
  do 2 (split; [reflexivity || done|]). intros i. rewrite Hb. destruct (decide (i = first)) as [->|Hi].
  - rewrite between_past, between_here, andb_false_r, Hon.
    rewrite Hp. cbn [mbind option_bind andb]. rewrite Ho. cbn [mbind option_bind].
    rewrite Hvi. cbn [mbind option_bind].
    apply list_lookup_insert_eq. lia.
  - by rewrite between_S, list_lookup_insert_ne.
Qed.

End Values.

Section Constructed.
Context {H : Heap} {HR : ReliableHeap H}.

Lemma drop_unwritable_spec t d pmap :
  device_wf t d -> word32 pmap ->
  exists m, drop_unwritable d (Z.land pmap (existing_params d)) = Done m /\
    word32 m /\ forall i, bit_on m i = bit_on pmap i && writable d i.
Proof.
  intros Hwf Hp. unfold drop_unwritable.
  match goal with |- context [for_bits _ 0 (fun m => m) ?body ?m0] =>
    destruct (for_bits_filter (writable d) MAX_PARAMS 0 m0 body) as (m' & -> & Hf) end.
  - apply Z.land_nonneg. left. apply Hp.
  - intros i m Hi. destruct (device_wf_param _ d i Hwf ltac:(lia)) as [p Hpi].
    unfold writable. rewrite (buf_get_done _ _ _ Hpi), Hpi, bind_done. by destruct (pd_write p =? 0).
  - exists m'. split; [done|]. apply (mask_bits _ _ _ _ _ Hwf Hp); [|exact Hf].
    intros i. by apply writable_exists with (t := t).
Qed.

Lemma make_device_write_image t d pmap vals :
  get_device t = Some d -> word32 pmap -> length vals = MAX_PARAMS ->
  exists m, word32 m /\ (forall i, bit_on m i = bit_on pmap i && writable d i) /\
    let pay := le_bytes 4 m ++ values_image d m vals MAX_PARAMS 0 in
    make_device_write t pmap vals = Done (Some (Message DEVICE_WRITE pay (length pay) (length pay))).
Proof.
  intros Hd Hp Hv. pose proof (get_device_wf _ _ Hd) as Hwf.
  destruct (drop_unwritable_spec _ _ _ Hwf Hp) as (m & Hm & Hm32 & Hb).
  exists m. do 2 (split; [done|]). cbv zeta. unfold make_device_write. rewrite Hd, Hm, bind_done.
  destruct (alloc_done sizeof_message_t) as (b0 & -> & _). rewrite bind_done.
  rewrite (payload_size_image _ _ _ vals Hd Hm32 Hv), bind_done.
  set (img := values_image d m vals MAX_PARAMS 0). set (n := length img).
  destruct (alloc_done (4 + n)) as (b & -> & Hl). rewrite bind_done.
  rewrite <- (take_drop 4 b) at 1. rewrite <- (app_nil_l (take 4 b ++ drop 4 b)).
  change BITMAP_SIZE with 4%nat.
  rewrite (append_payload_at DEVICE_WRITE [] (take 4 b) (drop 4 b)) by (list_lia).
  rewrite bind_done. cbn [app]. unfold append_params.
  rewrite for_bits_range; [| apply Hm32 | intros i [st msg] _ Hi; by rewrite Hi].
  rewrite (append_params_image _ _ _ _ Hwf Hm32 Hv); [| lia | | list_lia].
  2: { fold img n. list_lia. }
  rewrite bind_done. cbn [Z.eqb]. fold img. rewrite !length_app, length_le_bytes, length_drop, Hl.
  fold n. unfold mret, outcome_ret. do 3 f_equal. lia.
Qed.

(** The values the message carries reach the receiver's array. *)
Lemma parse_device_data_image t d m sent vals id rest max :
  get_device t = Some d -> word32 m -> length sent = MAX_PARAMS -> Forall word32 sent ->
  length vals = MAX_PARAMS ->
  let pay := le_bytes 4 m ++ values_image d m sent MAX_PARAMS 0 ++ rest in
  exists vals', parse_device_data t (Message id pay (length pay) max) vals = Done vals' /\
    length vals' = MAX_PARAMS /\
    forall i, (i < MAX_PARAMS)%nat -> vals' !! i =
      if bit_on m i then
        p ← params d !! i; old ← vals !! i; v ← sent !! i; Some (received (pd_type p) old v)
      else vals !! i.
Proof.
  intros Hd Hm Hs Hw Hv pay. pose proof (get_device_wf _ _ Hd) as Hwf.
  unfold parse_device_data. rewrite Hd. cbn [payload].
  change BITMAP_SIZE with 4%nat.
  assert (Hbm : buf_read pay 0 4 = Done (le_bytes 4 m)).
  { unfold pay. rewrite buf_read_prefix by list_lia.
    by rewrite take_app_length' by (by rewrite length_le_bytes). }
  rewrite Hbm, bind_done, le_word32 by done.
  rewrite for_bits_range; [| apply Hm | intros i [vs ptr] _ Hi; by rewrite Hi].
  destruct (parse_values_image _ d m sent Hwf Hs Hw MAX_PARAMS 0 (le_bytes 4 m) rest vals pay)
    as (vals' & q & Hr & Hl & Hb); [lia | done | done |].
  rewrite length_le_bytes in Hr. rewrite Hr, bind_done. exists vals'. split; [done|]. split; [done|].
  intros i Hi. rewrite Hb.
  by rewrite between_all, andb_true_r.
Qed.

(** The subscription request for a registered type. *)
Lemma make_subscription_image t d pmap interval : get_device t = Some d -> word32 pmap ->
  exists m, word32 m /\ (forall i, bit_on m i = bit_on pmap i && readable d i) /\
    make_subscription_request t pmap interval =
      Done (Some (Message SUBSCRIPTION_REQUEST (le_bytes 4 m ++ le_bytes 2 interval) 6 6)).
Proof.
  intros Hd Hp. unfold make_subscription_request. rewrite Hd.
  pose proof (get_device_wf _ _ Hd) as Hwf.
  match goal with |- context [for_range _ 0 ?body ?m] =>
    destruct (for_range_filter (readable d) MAX_PARAMS 0 m body) as (m' & Hm' & Hf) end.
  - apply Z.land_nonneg. left. apply Hp.
  - intros i m Hi. destruct (device_wf_param _ d i Hwf ltac:(lia)) as [p Hpi].
    unfold readable. rewrite (buf_get_done _ _ _ Hpi), Hpi, bind_done. by destruct (pd_read p =? 0).
  - apply (mask_bits _ _ _ _ _ Hwf Hp) in Hf as [H32 Hb].
    2: { intros i. by apply readable_exists with (t := Z.to_nat t). }
    exists m'. do 2 (split; [done|]). rewrite Hm', bind_done.
    destruct (alloc_done sizeof_message_t) as (b0 & -> & _). rewrite bind_done.
    change (BITMAP_SIZE + INTERVAL_SIZE)%nat with 6%nat.
    destruct (alloc_done 6) as (b & -> & Hl). rewrite bind_done.
    rewrite <- (take_drop 4 b) at 1. rewrite <- (app_nil_l (take 4 b ++ drop 4 b)).
    change BITMAP_SIZE with 4%nat. change INTERVAL_SIZE with 2%nat.
    rewrite (append_payload_at _ [] (take 4 b) (drop 4 b)), bind_done by list_lia.
    cbn [app]. rewrite <- (app_nil_r (drop 4 b)).
    by rewrite append_payload_at, bind_done, app_nil_r by list_lia.
Qed.

End Constructed.

(** The subscription request for a registered device type asks exactly for the requested
    parameters that exist and can be read, with the bitmap and the interval in little endian
    in a 6-byte payload; it is never NULL. For a type without a device the code follows a NULL
    pointer. *)
Theorem make_subscription_request_spec {H : Heap} {HR : ReliableHeap H} t pmap interval :
  word32 pmap -> 
  match get_device t with
  | None => make_subscription_request t pmap interval = Faulty NullDeref
  | Some d => exists m, word32 m /\ (forall i, bit_on m i = bit_on pmap i && readable d i) /\
      make_subscription_request t pmap interval =
        Done (Some (Message SUBSCRIPTION_REQUEST (le_bytes 4 m ++ le_bytes 2 interval) 6 6))
  end.
Proof.
  intros Hp. destruct (get_device t) as [d|] eqn:Hd; [by apply make_subscription_image|].
  unfold make_subscription_request. by rewrite Hd.
Qed.

Lemma make_subscription_request_spec_witness :
  match get_device 6 with
  | None => @make_subscription_request zero_heap 6 4294967295 40 = Faulty NullDeref
  | Some d => exists m, word32 m /\ (forall i, bit_on m i = bit_on 4294967295 i && readable d i) /\
      @make_subscription_request zero_heap 6 4294967295 40 =
        Done (Some (Message SUBSCRIPTION_REQUEST (le_bytes 4 m ++ le_bytes 2 40) 6 6))
  end.
Proof. apply (make_subscription_request_spec (H := zero_heap) 6 4294967295 40). unfold word32. lia. Defined.

(** Parameter values survive the trip to a device and back into a value array. For a
    registered type, [make_device_write] builds (never NULL) a message that carries exactly
    the requested parameters that exist and can be written, within the 132 bytes a payload may
    have; and [parse_device_data], which reads the same layout, run on that message sets
    every carried parameter of the array to the value sent (the low byte of the union alone
    for a BOOL) and leaves all others as they were. *)
Theorem device_values_roundtrip {H : Heap} {HR : ReliableHeap H} t d pmap sent vals :
  get_device t = Some d -> word32 pmap ->
  length sent = MAX_PARAMS -> Forall word32 sent -> length vals = MAX_PARAMS ->
  exists m msg vals',
    make_device_write t pmap sent = Done (Some msg) /\
    message_ok msg /\ (payload_length msg <= MAX_PAYLOAD_SIZE)%nat /\
    (forall i, bit_on m i = bit_on pmap i && writable d i) /\
    le_word (take 4 (payload msg)) = m /\
    parse_device_data t msg vals = Done vals' /\
    forall i, (i < MAX_PARAMS)%nat -> vals' !! i =
      if bit_on m i then
        p ← params d !! i; old ← vals !! i; v ← sent !! i; Some (received (pd_type p) old v)
      else vals !! i.
Proof.
  intros Hd Hp Hs Hw Hv.
  destruct (make_device_write_image _ _ _ _ Hd Hp Hs) as (m & Hm & Hb & Hmk). cbv zeta in Hmk.
  destruct (parse_device_data_image _ _ _ _ vals DEVICE_WRITE []
    (length (le_bytes 4 m ++ values_image d m sent MAX_PARAMS 0)) Hd Hm Hs Hw Hv) as (vals' & Hpd & _ & Hvi).
  rewrite app_nil_r in Hpd. eexists m, _, vals'. split; [exact Hmk|].
  pose proof (values_image_length d m sent MAX_PARAMS 0) as Hlen. unfold MAX_PARAMS in Hlen at 2.
  split; [|split; [|split; [exact Hb|split; [|split; [exact Hpd | exact Hvi]]]]].
  - split; [done|]. split; [|done]. apply Forall_app_2; [apply le_bytes_ok | apply values_image_bytes].
  - unfold MAX_PAYLOAD_SIZE. cbn [payload_length]. list_lia.
  - cbn [payload]. rewrite take_app_length' by (by rewrite length_le_bytes). by apply le_word32.
Qed.

Lemma device_values_roundtrip_witness :
  exists m msg vals',
    @make_device_write zero_heap 6 4294967295 (replicate 32 1065353216) = Done (Some msg) /\
    message_ok msg /\ (payload_length msg <= MAX_PAYLOAD_SIZE)%nat /\
    (forall i, bit_on m i = bit_on 4294967295 i && writable KoalaBear i) /\
    le_word (take 4 (payload msg)) = m /\
    parse_device_data 6 msg (replicate 32 7) = Done vals' /\
    forall i, (i < MAX_PARAMS)%nat -> vals' !! i =
      if bit_on m i then
        p ← params KoalaBear !! i; old ← replicate 32 7 !! i; v ← replicate 32 1065353216 !! i;
        Some (received (pd_type p) old v)
      else replicate 32 7 !! i.
Proof.
  apply (device_values_roundtrip (H := zero_heap) 6 KoalaBear); try reflexivity.
  - unfold word32. lia.
  - apply Forall_replicate. unfold word32. lia.
Defined.
