(* ===== verification/Shm.v ===== *)
(** * The shared memory wrapper
    (src/shm_wrapper/shm_wrapper.h, shm_wrapper.c and shm_start.c).

    The four blocks of shared memory, the semaphores that protect them, and every function
    of the wrapper as a program over the interface of [Conc]. Each statement of the code that
    touches a block is one access; a loop that runs under the semaphore of its block is one
    access. [sem_wait] and [sem_post] succeed (the code only logs their errors). *)

From stdpp Require Import gmap strings pretty.
From S2P Require Export RuntimeUtil Conc.

(** ** The blocks *)

Inductive stream_t : Set := DATA | COMMAND.

#[export] Instance stream_eq_dec : EqDecision stream_t.
Proof. solve_decision. Defined.

Record dev_shm_t : Set := DevShm {
  catalog : Z;
  cmd_map : list Z;                             (* MAX_DEVICES + 1 *)
  net_sub_map : list Z;                         (* MAX_DEVICES + 1 *)
  exec_sub_map : list Z;                        (* MAX_DEVICES + 1 *)
  data_params : list (list param_val_t);        (* params[DATA], MAX_DEVICES by MAX_PARAMS *)
  command_params : list (list param_val_t);     (* params[COMMAND] *)
  dev_ids : list dev_id_t                       (* MAX_DEVICES *)
}.

Definition shm_params (d : dev_shm_t) (stream : stream_t) : list (list param_val_t) :=
  match stream with DATA => data_params d | COMMAND => command_params d end.

(** The four joysticks are kept as the bit patterns of the floats. *)
Record input_t : Set := Input { buttons : Z; joysticks : list Z; input_source : robot_desc_field_t }.

Record log_data_shm_t : Set := LogData {
  log_num_params : Z;
  log_names : list string;                      (* UCHAR_MAX *)
  log_params : list param_val_t;                (* UCHAR_MAX *)
  log_types : list param_type_t                 (* UCHAR_MAX *)
}.

Record shm_t : Set := Shm {
  dev_shm : dev_shm_t;
  inputs : list input_t;                        (* 2 *)
  fields : list Z;                              (* NUM_DESC_FIELDS *)
  log_data : log_data_shm_t
}.

(** The number an enumerator of [robot_desc_val_t] stands for. *)
Definition val_index (v : robot_desc_val_t) : Z :=
  match v with
  | IDLE => 0 | AUTO => 1 | TELEOP => 2 | CHALLENGE => 3 | CONNECTED => 4 | DISCONNECTED => 5
  | LEFT => 6 | RIGHT => 7 | ACTIVE => 8 | INACTIVE => 9
  end.

(** ** Semaphores and regions *)

Inductive shm_sem : Set :=
| CatalogSem | CmdMapSem | SubMapSem | RdSem | InputSem | LogDataSem
| DataSem (i : nat) | CommandSem (i : nat).

#[export] Instance shm_sem_eq_dec : EqDecision shm_sem.
Proof. solve_decision. Defined.

Definition shm_sem_code (s : shm_sem) : nat + nat + nat :=
  match s with
  | CatalogSem => inl (inl 0%nat) | CmdMapSem => inl (inl 1%nat) | SubMapSem => inl (inl 2%nat)
  | RdSem => inl (inl 3%nat) | InputSem => inl (inl 4%nat) | LogDataSem => inl (inl 5%nat)
  | DataSem i => inl (inr i) | CommandSem i => inr i
  end.

Definition shm_sem_decode (c : nat + nat + nat) : option shm_sem :=
  match c with
  | inl (inl 0%nat) => Some CatalogSem | inl (inl 1%nat) => Some CmdMapSem
  | inl (inl 2%nat) => Some SubMapSem | inl (inl 3%nat) => Some RdSem
  | inl (inl 4%nat) => Some InputSem | inl (inl 5%nat) => Some LogDataSem
  | inl (inl _) => None
  | inl (inr i) => Some (DataSem i) | inr i => Some (CommandSem i)
  end.

#[export] Instance shm_sem_countable : Countable shm_sem.
Proof. apply (inj_countable shm_sem_code shm_sem_decode). by intros []. Defined.

Inductive shm_region : Set :=
| RCatalog | RDevIds | RCmdMap | RSubMap | RFields | RInputs | RLog
| RParams (st : stream_t) (i : nat).

#[export] Instance shm_region_eq_dec : EqDecision shm_region.
Proof. solve_decision. Defined.

(** The two subscription maps are one region: the code protects them together. *)
Definition shm_region_ty (r : shm_region) : Set :=
  match r with
  | RCatalog => Z
  | RDevIds => list dev_id_t
  | RCmdMap => list Z
  | RSubMap => (list Z * list Z)%type    (* net_sub_map, exec_sub_map *)
  | RFields => list Z
  | RInputs => list input_t
  | RLog => log_data_shm_t
  | RParams _ _ => list param_val_t
  end.

Definition shm_load (r : shm_region) (m : shm_t) : shm_region_ty r :=
  match r return shm_region_ty r with
  | RCatalog => catalog (dev_shm m)
  | RDevIds => dev_ids (dev_shm m)
  | RCmdMap => cmd_map (dev_shm m)
  | RSubMap => (net_sub_map (dev_shm m), exec_sub_map (dev_shm m))
  | RFields => fields m
  | RInputs => inputs m
  | RLog => log_data m
  | RParams st i => nth i (shm_params (dev_shm m) st) []
  end.

Definition set_dev_shm (d : dev_shm_t) (m : shm_t) : shm_t := Shm d (inputs m) (fields m) (log_data m).

Definition shm_store (r : shm_region) : shm_region_ty r -> shm_t -> shm_t :=
  match r return shm_region_ty r -> shm_t -> shm_t with
  | RCatalog => fun v m => let d := dev_shm m in
      set_dev_shm (DevShm v (cmd_map d) (net_sub_map d) (exec_sub_map d) (data_params d) (command_params d) (dev_ids d)) m
  | RDevIds => fun v m => let d := dev_shm m in
      set_dev_shm (DevShm (catalog d) (cmd_map d) (net_sub_map d) (exec_sub_map d) (data_params d) (command_params d) v) m
  | RCmdMap => fun v m => let d := dev_shm m in
      set_dev_shm (DevShm (catalog d) v (net_sub_map d) (exec_sub_map d) (data_params d) (command_params d) (dev_ids d)) m
  | RSubMap => fun '(net, exec) m => let d := dev_shm m in
      set_dev_shm (DevShm (catalog d) (cmd_map d) net exec (data_params d) (command_params d) (dev_ids d)) m
  | RFields => fun v m => Shm (dev_shm m) (inputs m) v (log_data m)
  | RInputs => fun v m => Shm (dev_shm m) v (fields m) (log_data m)
  | RLog => fun v m => Shm (dev_shm m) (inputs m) (fields m) v
  | RParams DATA i => fun v m => let d := dev_shm m in
      set_dev_shm (DevShm (catalog d) (cmd_map d) (net_sub_map d) (exec_sub_map d)
        (<[i := v]> (data_params d)) (command_params d) (dev_ids d)) m
  | RParams COMMAND i => fun v m => let d := dev_shm m in
      set_dev_shm (DevShm (catalog d) (cmd_map d) (net_sub_map d) (exec_sub_map d)
        (data_params d) (<[i := v]> (command_params d)) (dev_ids d)) m
  end.

Definition shm_owner (r : shm_region) : shm_sem :=
  match r with
  | RCatalog => CatalogSem
  | RDevIds => CatalogSem
  | RCmdMap => CmdMapSem
  | RSubMap => SubMapSem
  | RFields => RdSem
  | RInputs => InputSem
  | RLog => LogDataSem
  | RParams DATA i => DataSem i
  | RParams COMMAND i => CommandSem i
  end.

(** The order in which the functions take semaphores. *)
Definition shm_rank (s : shm_sem) : nat :=
  match s with
  | CatalogSem => 0 | DataSem _ => 1 | CommandSem _ => 2 | CmdMapSem => 3 | SubMapSem => 4
  | RdSem => 5 | InputSem => 6 | LogDataSem => 7
  end.

Definition shm_sem_ok (s : shm_sem) : Prop :=
  match s with
  | DataSem i => (i < MAX_DEVICES)%nat
  | CommandSem i => (i < MAX_DEVICES)%nat
  | _ => True
  end.

Definition map_wf (l : list Z) : Prop := length l = S MAX_DEVICES /\ Forall word32 l.

Definition shm_region_wf (r : shm_region) : shm_region_ty r -> Prop :=
  match r return shm_region_ty r -> Prop with
  | RCatalog => fun v => word32 v
  | RDevIds => fun v => length v = MAX_DEVICES
  | RCmdMap => fun v => map_wf v
  | RSubMap => fun '(net, exec) => map_wf net /\ map_wf exec
  | RFields => fun v => length v = NUM_DESC_FIELDS /\ Forall byte_ok v
  | RInputs => fun v => length v = 2%nat /\ Forall (fun i => length (joysticks i) = 4%nat) v
  | RLog => fun d => 0 <= log_num_params d <= 255 /\ length (log_names d) = UCHAR_MAX /\
      Forall (fun n => (String.length n < LOG_KEY_LENGTH)%nat) (log_names d) /\
      length (log_params d) = UCHAR_MAX /\ length (log_types d) = UCHAR_MAX
  | RParams _ i => fun v => (i < MAX_DEVICES)%nat -> length v = MAX_PARAMS /\ Forall word32 v
  end.

#[export] Instance shm_mem : SharedMem := {|
  sem := shm_sem; sem_eq_dec := shm_sem_eq_dec; sem_countable := shm_sem_countable;
  sem_ok := shm_sem_ok; rank := shm_rank; max_rank := 8;
  memory := shm_t; region := shm_region; region_ty := shm_region_ty;
  load := shm_load; store := shm_store; owner := shm_owner;
  peekable := fun r => match r with RCatalog => true | RDevIds => true | _ => false end;
  region_wf := shm_region_wf
|}.

(** ** Helpers *)

(** [1 << dev_ix] for a device index that comes from outside. *)
Definition shift_index {A} (dev_ix : Z) (k : nat -> prog A) : prog A :=
  if (0 <=? dev_ix) && (dev_ix <? Z.of_nat MAX_DEVICES) then k (Z.to_nat dev_ix) else Fail ShiftRange.
(** [sems[dev_ix]] for such an index. *)
Definition sems_index {A} (dev_ix : Z) (k : nat -> prog A) : prog A :=
  if (0 <=? dev_ix) && (dev_ix <? Z.of_nat MAX_DEVICES) then k (Z.to_nat dev_ix) else Fail OutOfBounds.

(** [a[i] = f(a[i])]. *)
Definition modify {A} (l : list A) (i : nat) (f : A -> A) : outcome (list A) :=
  v ← buf_get l i; buf_set l i (f v).

Definition stream_sem (stream : stream_t) (dev_ix : nat) : shm_sem :=
  match stream with DATA => DataSem dev_ix | COMMAND => CommandSem dev_ix end.

Definition test_catalog (dev_ix : nat) : prog bool := get RCatalog (fun c => mret (bit_on c dev_ix)).

Definition clear_bits (mask : Z) (v : Z) : Z := Z.land v (Z.lnot mask).

(** [to[i] = from[i]] for the bits of [mask], over all parameters. *)
Definition copy_params (mask : Z) (from to : list param_val_t) : outcome (list param_val_t) :=
  for_range MAX_PARAMS 0 (fun i to =>
    if bit_on mask i then v ← buf_get from i; buf_set to i v else mret to) to.

Definition device_read_helper (dev_ix : nat) (process : process_t) (stream : stream_t)
  (params_to_read : Z) (params : list param_val_t) : prog (list param_val_t) :=
  wait (stream_sem stream dev_ix) ;;
  params ← get (RParams stream dev_ix) (fun shared => copy_params params_to_read shared params);
  (if decide (process = DEV_HANDLER /\ stream = COMMAND) then
     wait CmdMapSem ;;
     upd RCmdMap (fun m => modify m 0 (fun v => bit_clear v dev_ix)) ;;
     upd RCmdMap (fun m => modify m (S dev_ix) (clear_bits params_to_read)) ;;
     post CmdMapSem
   else mret tt) ;;
  post (stream_sem stream dev_ix) ;;
  mret params.

Definition device_write_helper (dev_ix : nat) (process : process_t) (stream : stream_t)
  (params_to_write : Z) (params : list param_val_t) : prog unit :=
  wait (stream_sem stream dev_ix) ;;
  upd (RParams stream dev_ix) (fun shared => copy_params params_to_write params shared) ;;
  (if decide (process = EXECUTOR /\ stream = COMMAND) then
     wait CmdMapSem ;;
     upd RCmdMap (fun m => modify m 0 (fun v => bit_set v dev_ix)) ;;
     upd RCmdMap (fun m => modify m (S dev_ix) (fun v => Z.lor v params_to_write)) ;;
     post CmdMapSem
   else mret tt) ;;
  post (stream_sem stream dev_ix).

Definition generate_sem_name (stream : stream_t) (dev_ix : nat) : string :=
  match stream with
  | DATA => "/data_sem_" +:+ pretty dev_ix
  | COMMAND => "/command_sem_" +:+ pretty dev_ix
  end.

(** The loop of [get_dev_ix_from_uid] from [i] on; [None] is -1. *)
Fixpoint find_uid (k i : nat) (dev_uid : Z) : prog (option nat) :=
  match k with
  | O => mret None
  | S k' =>
      on ← test_catalog i;
      if (on : bool) then
        uid ← get RDevIds (fun ids => d ← buf_get ids i; mret (id_uid d));
        if uid =? dev_uid then mret (Some i) else find_uid k' (S i) dev_uid
      else find_uid k' (S i) dev_uid
  end.

Definition get_dev_ix_from_uid (dev_uid : Z) : prog (option nat) := find_uid MAX_DEVICES 0 dev_uid.

(** ** Devices *)

Fixpoint find_free (k i : nat) (c : Z) : option nat :=
  match k with
  | O => None
  | S k' => if bit_on c i then find_free k' (S i) c else Some i
  end.

(** The loop that resets the parameter values, [k] iterations from [i] on. *)
Fixpoint reset_params (k i dev_ix : nat) : prog unit :=
  match k with
  | O => mret tt
  | S k' =>
      upd (RParams DATA dev_ix) (fun v => buf_set v i 0) ;;
      upd (RParams COMMAND dev_ix) (fun v => buf_set v i 0) ;;
      reset_params k' (S i) dev_ix
  end.

(** Returns the device index; [None] is -1. *)
Definition device_connect (dev_id : dev_id_t) : prog (option nat) :=
  wait CatalogSem ;;
  free ← get RCatalog (fun c => mret (find_free MAX_DEVICES 0 c));
  match free with
  | None => post CatalogSem ;; mret None
  | Some dev_ix =>
      wait (DataSem dev_ix) ;;
      wait (CommandSem dev_ix) ;;
      wait SubMapSem ;;
      upd RDevIds (fun ids => modify ids dev_ix (fun d => DevId (id_type dev_id) (id_year d) (id_uid d))) ;;
      upd RDevIds (fun ids => modify ids dev_ix (fun d => DevId (id_type d) (id_year dev_id) (id_uid d))) ;;
      upd RDevIds (fun ids => modify ids dev_ix (fun d => DevId (id_type d) (id_year d) (id_uid dev_id))) ;;
      upd RCatalog (fun c => mret (bit_set c dev_ix)) ;;
      reset_params MAX_PARAMS 0 dev_ix ;;
      upd RSubMap (fun '(net, exec) => exec ← modify exec 0 (fun v => bit_clear v dev_ix); mret (net, exec)) ;;
      upd RSubMap (fun '(net, exec) => exec ← buf_set exec (S dev_ix) 0; mret (net, exec)) ;;
      upd RSubMap (fun '(net, exec) => net ← modify net 0 (fun v => bit_set v dev_ix); mret (net, exec)) ;;
      upd RSubMap (fun '(net, exec) => net ← buf_set net (S dev_ix) (u32 (-1)); mret (net, exec)) ;;
      post SubMapSem ;;
      post (DataSem dev_ix) ;;
      post (CommandSem dev_ix) ;;
      post CatalogSem ;;
      mret (Some dev_ix)
  end.

Definition device_disconnect (dev_ix : Z) : prog unit :=
  wait CatalogSem ;;
  sems_index dev_ix (fun dev_ix =>
    wait (DataSem dev_ix) ;;
    wait (CommandSem dev_ix) ;;
    wait CmdMapSem ;;
    upd RCatalog (fun c => mret (bit_clear c dev_ix)) ;;
    upd RCmdMap (fun m => modify m 0 (fun v => bit_clear v dev_ix)) ;;
    upd RCmdMap (fun m => buf_set m (S dev_ix) 0) ;;
    post CmdMapSem ;;
    post (DataSem dev_ix) ;;
    post (CommandSem dev_ix) ;;
    post CatalogSem).

(** The four readers and writers return the status and, when reading, the caller's array. *)
Definition device_read (dev_ix : Z) (process : process_t) (stream : stream_t)
  (params_to_read : Z) (params : list param_val_t) : prog (Z * list param_val_t) :=
  shift_index dev_ix (fun dev_ix =>
    on ← test_catalog dev_ix;
    if (on : bool) then
      params ← device_read_helper dev_ix process stream params_to_read params;
      mret (0, params)
    else mret (-1, params)).

Definition device_read_uid (dev_uid : Z) (process : process_t) (stream : stream_t)
  (params_to_read : Z) (params : list param_val_t) : prog (Z * list param_val_t) :=
  dev_ix ← get_dev_ix_from_uid dev_uid;
  match dev_ix with
  | None => mret (-1, params)
  | Some dev_ix =>
      params ← device_read_helper dev_ix process stream params_to_read params;
      mret (0, params)
  end.

Definition device_write (dev_ix : Z) (process : process_t) (stream : stream_t)
  (params_to_write : Z) (params : list param_val_t) : prog Z :=
  shift_index dev_ix (fun dev_ix =>
    on ← test_catalog dev_ix;
    if (on : bool) then
      device_write_helper dev_ix process stream params_to_write params ;; mret 0
    else mret (-1)).

Definition device_write_uid (dev_uid : Z) (process : process_t) (stream : stream_t)
  (params_to_write : Z) (params : list param_val_t) : prog Z :=
  dev_ix ← get_dev_ix_from_uid dev_uid;
  match dev_ix with
  | None => mret (-1)
  | Some dev_ix => device_write_helper dev_ix process stream params_to_write params ;; mret 0
  end.

(** ** Subscriptions and maps *)

Definition place_sub_request (dev_uid : Z) (process : process_t) (params_to_sub : Z) : prog Z :=
  if negb (bool_decide (process = NET_HANDLER) || bool_decide (process = EXECUTOR)) then mret (-1)
  else
    dev_ix ← get_dev_ix_from_uid dev_uid;
    match dev_ix with
    | None => mret (-1)
    | Some dev_ix =>
        wait SubMapSem ;;
        upd RSubMap (fun '(net, exec) =>
          let curr_sub_map := if decide (process = NET_HANDLER) then net else exec in
          v ← buf_get curr_sub_map (S dev_ix);
          if v =? params_to_sub then mret (net, exec)
          else
            m ← buf_set curr_sub_map (S dev_ix) params_to_sub;
            m ← modify m 0 (fun v => bit_set v dev_ix);
            mret (if decide (process = NET_HANDLER) then (m, exec) else (net, m))) ;;
        post SubMapSem ;;
        mret 0
    end.

(** What [process] sees of element [i] of the two maps. *)
Definition sub_entry (process : process_t) (i : nat) (maps : list Z * list Z) : outcome Z :=
  net ← buf_get (fst maps) i;
  exec ← buf_get (snd maps) i;
  match process with
  | NET_HANDLER => mret net
  | EXECUTOR => mret exec
  | _ => mret (Z.lor net exec)
  end.

(** The loop over the devices, [k] iterations from [i] on. *)
Fixpoint fill_sub_map (k i : nat) (process : process_t) (sub_map : list Z) : prog (list Z) :=
  match k with
  | O => mret sub_map
  | S k' =>
      on ← test_catalog (i - 1);
      sub_map ← (if (on : bool) then
                   get RSubMap (fun maps => v ← sub_entry process i maps; buf_set sub_map i v)
                 else
                   get RSubMap (fun _ =>
                     sub_map ← modify sub_map 0 (fun v => bit_clear v (i - 1)); buf_set sub_map i 0));
      fill_sub_map k' (S i) process sub_map
  end.

Definition get_sub_requests (sub_map : list Z) (process : process_t) : prog (list Z) :=
  wait SubMapSem ;;
  sub_map ← get RSubMap (fun maps => v ← sub_entry process 0 maps; buf_set sub_map 0 v);
  if bool_decide (sub_map !! 0%nat = Some 0) && bool_decide (process = DEV_HANDLER) then
    post SubMapSem ;; mret sub_map
  else
    sub_map ← fill_sub_map MAX_DEVICES 1 process sub_map;
    (if decide (process = DEV_HANDLER) then
       upd RSubMap (fun '(net, exec) =>
         exec ← buf_set exec 0 0; net ← buf_set net 0 0; mret (net, exec))
     else mret tt) ;;
    post SubMapSem ;;
    mret sub_map.

Definition get_cmd_map (bitmap : list Z) : prog (list Z) :=
  wait CmdMapSem ;;
  bitmap ← get RCmdMap (fun m => for_range (S MAX_DEVICES) 0 (fun i bitmap =>
    v ← buf_get m i; buf_set bitmap i v) bitmap);
  post CmdMapSem ;;
  mret bitmap.

Definition get_device_identifiers (ids : list dev_id_t) : prog (list dev_id_t) :=
  wait CatalogSem ;;
  ids ← get RDevIds (fun m => for_range MAX_DEVICES 0 (fun i ids =>
    v ← buf_get m i; buf_set ids i v) ids);
  post CatalogSem ;;
  mret ids.

Definition get_catalog : prog Z :=
  wait CatalogSem ;;
  c ← get RCatalog (fun c => mret c);
  post CatalogSem ;;
  mret c.

(** ** The robot description, the inputs and the log data *)

Definition robot_desc_read (field : robot_desc_field_t) : prog Z :=
  wait RdSem ;;
  ret ← get RFields (fun f => buf_get f (field_index field));
  post RdSem ;;
  mret ret.

Definition robot_desc_write (field : robot_desc_field_t) (val : Z) : prog unit :=
  wait RdSem ;;
  upd RFields (fun f => buf_set f (field_index field) (u8 val)) ;;
  post RdSem.

Definition is_input (source : robot_desc_field_t) : bool :=
  bool_decide (source = GAMEPAD) || bool_decide (source = KEYBOARD).

Definition input_index (source : robot_desc_field_t) : nat :=
  if decide (source = GAMEPAD) then 0 else 1.

(** [to[i] = from[i]] for the four joysticks. *)
Definition copy_joysticks (from to : list Z) : outcome (list Z) :=
  for_range 4 0 (fun i to => v ← buf_get from i; buf_set to i v) to.

(** Returns the status, the buttons and the caller's joysticks. *)
Definition input_read (pressed_buttons : Z) (joystick_vals : list Z) (source : robot_desc_field_t)
  : prog (Z * Z * list Z) :=
  if negb (is_input source) then Exit 1
  else
    wait RdSem ;;
    connected ← get RFields (fun f =>
      v ← buf_get f (field_index source); mret (negb (v =? val_index DISCONNECTED)));
    if negb connected then post RdSem ;; mret (-1, pressed_buttons, joystick_vals)
    else
      post RdSem ;;
      wait InputSem ;;
      '(pressed_buttons, joystick_vals) ← get RInputs (fun ins =>
        inp ← buf_get ins (input_index source);
        joystick_vals ← (if decide (source = GAMEPAD) then copy_joysticks (joysticks inp) joystick_vals
                         else mret joystick_vals);
        mret (buttons inp, joystick_vals));
      post InputSem ;;
      mret (0, pressed_buttons, joystick_vals).

Definition input_write (pressed_buttons : Z) (joystick_vals : list Z) (source : robot_desc_field_t)
  : prog Z :=
  if negb (is_input source) then Exit 1
  else
    wait RdSem ;;
    connected ← get RFields (fun f =>
      v ← buf_get f (field_index source); mret (negb (v =? val_index DISCONNECTED)));
    if negb connected then post RdSem ;; mret (-1)
    else
      post RdSem ;;
      wait InputSem ;;
      upd RInputs (fun ins =>
        inp ← buf_get ins (input_index source);
        js ← (if decide (source = GAMEPAD) then copy_joysticks joystick_vals (joysticks inp)
              else mret (joysticks inp));
        buf_set ins (input_index source) (Input pressed_buttons js (input_source inp))) ;;
      post InputSem ;;
      mret 0.

(** The index of [key], or the number of parameters. *)
Definition log_key_index (key : string) (d : log_data_shm_t) : nat :=
  let n := Z.to_nat (log_num_params d) in
  match list_find (fun name => key = name) (take n (log_names d)) with
  | Some (i, _) => i
  | None => n
  end.

Definition log_data_write (key : string) (type : param_type_t) (value : param_val_t) : prog Z :=
  wait LogDataSem ;;
  idx ← get RLog (fun d => mret (log_key_index key d));
  if (idx =? UCHAR_MAX)%nat then mret (-1)
  else if (LOG_KEY_LENGTH <=? String.length key)%nat then mret (-2)
  else
    upd RLog (fun d => names ← buf_set (log_names d) idx key;
                       mret (LogData (log_num_params d) names (log_params d) (log_types d))) ;;
    upd RLog (fun d => types ← buf_set (log_types d) idx type;
                       mret (LogData (log_num_params d) (log_names d) (log_params d) types)) ;;
    upd RLog (fun d => params ← buf_set (log_params d) idx value;
                       mret (LogData (log_num_params d) (log_names d) params (log_types d))) ;;
    upd RLog (fun d =>
      mret (if Z.of_nat idx =? log_num_params d
            then LogData (u8 (log_num_params d + 1)) (log_names d) (log_params d) (log_types d)
            else d)) ;;
    post LogDataSem ;;
    mret 0.

(** Returns [num_params] and the caller's arrays of names, types and values. *)
Definition log_data_read (names : list string) (types : list param_type_t) (values : list param_val_t)
  : prog (Z * (list string * list param_type_t * list param_val_t)) :=
  wait LogDataSem ;;
  r ← get RLog (fun d =>
    out ← for_range (Z.to_nat (log_num_params d)) 0 (fun i '(names, types, values) =>
      n ← buf_get (log_names d) i; names ← buf_set names i n;
      t ← buf_get (log_types d) i; types ← buf_set types i t;
      v ← buf_get (log_params d) i; values ← buf_set values i v;
      mret (names, types, values)) (names, types, values);
    mret (log_num_params d, out));
  post LogDataSem ;;
  mret r.

(** ** Creation *)

(** What [shm_start] makes of the blocks it has mapped: zeroes when they are new, whatever
    an earlier run left otherwise. *)
Definition shm_start (old : shm_t) : shm_t :=
  let d := dev_shm old in
  Shm (DevShm 0 (replicate (S MAX_DEVICES) 0) (replicate (S MAX_DEVICES) (u32 (-1)))
         (replicate (S MAX_DEVICES) 0) (data_params d) (command_params d) (dev_ids d))
      [Input 0 [0; 0; 0; 0] GAMEPAD; Input 0 [0; 0; 0; 0] KEYBOARD]
      (<[field_index RUN_MODE := val_index IDLE]>
       (<[field_index DAWN := val_index DISCONNECTED]>
        (<[field_index SHEPHERD := val_index DISCONNECTED]>
         (<[field_index GAMEPAD := val_index DISCONNECTED]>
          (<[field_index KEYBOARD := val_index DISCONNECTED]>
           (<[field_index START_POS := val_index LEFT]> (fields old)))))))
      (LogData 0 (replicate UCHAR_MAX EmptyString) (replicate UCHAR_MAX 0) (replicate UCHAR_MAX INT)).

(** Every semaphore is created with the value 1. *)
Definition all_sems : list shm_sem :=
  [CatalogSem; CmdMapSem; SubMapSem; InputSem; RdSem; LogDataSem] ++
  (DataSem <$> seq 0 MAX_DEVICES) ++ (CommandSem <$> seq 0 MAX_DEVICES).

Definition sems_start : gmap shm_sem nat := list_to_map ((fun s => (s, 1%nat)) <$> all_sems).

(** Freshly mapped blocks. *)
Definition zero_shm : shm_t :=
  Shm (DevShm 0 (replicate (S MAX_DEVICES) 0) (replicate (S MAX_DEVICES) 0) (replicate (S MAX_DEVICES) 0)
         (replicate MAX_DEVICES (replicate MAX_PARAMS 0)) (replicate MAX_DEVICES (replicate MAX_PARAMS 0))
         (replicate MAX_DEVICES (DevId 0 0 0)))
      (replicate 2 (Input 0 [0; 0; 0; 0] RUN_MODE)) (replicate NUM_DESC_FIELDS 0)
      (LogData 0 (replicate UCHAR_MAX EmptyString) (replicate UCHAR_MAX 0) (replicate UCHAR_MAX INT)).

Definition sys_start : sys := Sys (shm_start zero_shm) sems_start.

(** The loops of the wrapper are unfolded only when nothing else is left: their trees of
    accesses branch at every iteration. *)
Strategy 1000 [find_uid fill_sub_map reset_params find_free for_range].

(** ** The memory interface's laws *)

Lemma nth_insert {A} (l : list A) i j v d :
  nth i (<[j:=v]> l) d = if decide (i = j /\ (j < length l)%nat) then v else nth i l d.
Proof.
  rewrite !nth_lookup. case_decide as Hd.
  - destruct Hd as [-> Hl]. by rewrite list_lookup_insert_eq.
  - destruct (decide (i = j)) as [->|]; [|by rewrite list_lookup_insert_ne].
    rewrite list_insert_ge by (destruct (Nat.lt_ge_cases j (length l)); [by destruct Hd | done]). done.
Qed.

Lemma insert_nth_same {A} (l : list A) i d : <[i := nth i l d]> l = l.
Proof.
  destruct (l !! i) as [x|] eqn:E.
  - rewrite (nth_lookup_Some _ _ _ _ E). by apply list_insert_id.
  - apply list_insert_ge. by apply lookup_ge_None_1.
Qed.

#[export] Instance shm_mem_laws : SharedMemLaws shm_mem.
Proof.
  split.
  - intros []; cbn; lia.
  - intros r [[c cm ns es dp cp ids] ins fs ld]. destruct r as [| | | | | | |st i]; try reflexivity.
    destruct st; cbn -[nth insert]; unfold set_dev_shm; cbn -[nth insert]; by rewrite insert_nth_same.
  - intros r r' v m Hne. destruct r, r'; try done; cbn in *; try (by destruct v);
      repeat match goal with st : stream_t |- _ => destruct st end; cbn -[insert nth] in *; try done;
      rewrite nth_insert; case_decide as Hd; try done; destruct Hd as [-> _]; done.
  - intros r v m Hm Hv r'. pose proof (Hm r') as Hr'.
    destruct r, r'; cbn in *; try done; try (by destruct v);
      repeat match goal with st : stream_t |- _ => destruct st end; cbn in *; try done;
      rewrite nth_insert; case_decide as Hd; try done; destruct Hd as [-> _]; done.
Qed.

(** ** What the accesses do to well-formed regions *)

Lemma Forall_insert_word (l : list Z) i x : Forall word32 l -> word32 x -> Forall word32 (<[i:=x]> l).
Proof. intros Hl Hx. by apply Forall_insert. Qed.

Lemma modify_done {A} (l : list A) i f v : l !! i = Some v -> modify l i f = Done (<[i:=f v]> l).
Proof.
  intros Hv. unfold modify. rewrite (buf_get_done _ _ _ Hv), bind_done. apply buf_set_done.
  by apply lookup_lt_Some in Hv.
Qed.

Lemma map_wf_lookup m i : map_wf m -> (i <= MAX_DEVICES)%nat -> exists v, m !! i = Some v /\ word32 v.
Proof.
  intros [Hl Hw] Hi. destruct (lookup_lt_is_Some_2 m i) as [v Hv]; [lia|].
  exists v. split; [done|]. by eapply Forall_lookup_1.
Qed.

Lemma map_wf_insert m i x : map_wf m -> word32 x -> map_wf (<[i:=x]> m).
Proof. intros [Hl Hw] Hx. split; [by rewrite length_insert | by apply Forall_insert_word]. Qed.

Lemma map_wf_modify m i f : map_wf m -> (i <= MAX_DEVICES)%nat -> (forall v, word32 v -> word32 (f v)) ->
  exists m', modify m i f = Done m' /\ map_wf m'.
Proof.
  intros Hm Hi Hf. destruct (map_wf_lookup m i Hm Hi) as (v & Hv & Hw).
  exists (<[i:=f v]> m). split; [by apply modify_done|]. apply map_wf_insert; auto.
Qed.

Lemma map_wf_set m i x : map_wf m -> (i <= MAX_DEVICES)%nat -> word32 x ->
  exists m', buf_set m i x = Done m' /\ map_wf m'.
Proof.
  intros Hm Hi Hx. exists (<[i:=x]> m). split; [|by apply map_wf_insert].
  apply buf_set_done. destruct Hm as [Hl _]. lia.
Qed.

(** Loops that assign elements of one array from another. *)
Lemma copy_loop_spec {A} (sel : nat -> bool) (from : list A) k : forall first to,
  (first + k <= length from)%nat -> length to = length from ->
  exists to', for_range k first (fun i to =>
      if sel i then v ← buf_get from i; buf_set to i v else mret to) to = Done to' /\
    length to' = length from /\
    forall i, to' !! i = if sel i && between first k i then from !! i else to !! i.
Proof.
  induction k as [|k IH]; intros first to Hk Hl; cbn [for_range].
  - exists to. split; [done|]. split; [done|]. intros i.
    by rewrite between_0, andb_false_r.
  - destruct (lookup_lt_is_Some_2 from first) as [v Hv]; [lia|].
    assert (Hst : (if sel first then v0 ← buf_get from first; buf_set to first v0 else mret to) =
      Done (if sel first then <[first:=v]> to else to)).
    { destruct (sel first); [|done]. rewrite (buf_get_done _ _ _ Hv), bind_done. apply buf_set_done. lia. }
    rewrite Hst, bind_done.
    destruct (IH (S first) (if sel first then <[first:=v]> to else to)) as (to' & -> & Hl' & Hto); [lia| |].
    { destruct (sel first); by rewrite ?length_insert. }
    exists to'. split; [done|]. split; [done|]. intros i. rewrite Hto.
    destruct (decide (i = first)) as [->|Hi].
    + rewrite between_past, between_here, andb_false_r, andb_true_r.
      destruct (sel first); [|done]. by rewrite list_lookup_insert_eq by lia.
    + rewrite between_S by done. destruct (sel i && _); [done|].
      destruct (sel first); [by rewrite list_lookup_insert_ne | done].
Qed.

Lemma copy_params_spec mask from to :
  length from = MAX_PARAMS -> length to = MAX_PARAMS ->
  exists to', copy_params mask from to = Done to' /\ length to' = MAX_PARAMS /\
    forall i, (i < MAX_PARAMS)%nat -> to' !! i = if bit_on mask i then from !! i else to !! i.
Proof.
  intros Hf Ht. destruct (copy_loop_spec (bit_on mask) from MAX_PARAMS 0 to) as (to' & Hc & Hl & Hto);
    [lia | lia |].
  exists to'. split; [exact Hc|]. split; [lia|]. intros i Hi. rewrite Hto.
  by rewrite between_all, andb_true_r.
Qed.

Definition params_wf (ps : list param_val_t) : Prop := length ps = MAX_PARAMS /\ Forall word32 ps.

Lemma copy_params_wf mask from to :
  params_wf from -> params_wf to -> exists to', copy_params mask from to = Done to' /\ params_wf to'.
Proof.
  intros [Hf Hwf] [Ht Hwt]. destruct (copy_params_spec mask from to Hf Ht) as (to' & Hc & Hl & Hto).
  exists to'. split; [done|]. split; [done|]. apply Forall_lookup. intros i x Hx.
  assert (Hi : (i < MAX_PARAMS)%nat) by (apply lookup_lt_Some in Hx; lia).
  rewrite Hto in Hx by done. destruct (bit_on mask i);
    [by eapply (Forall_lookup_1 _ from) | by eapply (Forall_lookup_1 _ to)].
Qed.

Lemma buf_set_params ps i x : params_wf ps -> (i < MAX_PARAMS)%nat -> word32 x ->
  exists ps', buf_set ps i x = Done ps' /\ params_wf ps'.
Proof.
  intros [Hl Hw] Hi Hx. exists (<[i:=x]> ps). split; [apply buf_set_done; lia|].
  split; [by rewrite length_insert | by apply Forall_insert_word].
Qed.

Lemma word32_clear_bits mask v : word32 v -> word32 (clear_bits mask v).
Proof. apply word32_land. Qed.

#[export] Hint Resolve word32_clear_bits map_wf_insert : words.

(** ** The initial state *)

Lemma map_wf_replicate x : word32 x -> map_wf (replicate (S MAX_DEVICES) x).
Proof. intros Hx. split; [done | by apply Forall_replicate]. Qed.

Lemma log_start_wf :
  shm_region_wf RLog (LogData 0 (replicate UCHAR_MAX EmptyString) (replicate UCHAR_MAX 0) (replicate UCHAR_MAX INT)).
Proof.
  split; [cbn; lia|]. split; [done|]. split; [|done]. apply Forall_replicate. cbn. unfold LOG_KEY_LENGTH. lia.
Qed.

Lemma shm_start_wf m : mem_wf (M := shm_mem) m -> mem_wf (M := shm_mem) (shm_start m).
Proof.
  intros Hm r. pose proof (Hm r) as Hr.
  destruct r; try done.
  - by apply map_wf_replicate.
  - split; by apply map_wf_replicate.
  - destruct Hr as [Hl Hb]. cbn in Hl, Hb. cbn -[val_index]. rewrite !length_insert. split; [done|].
    repeat (apply Forall_insert; [|unfold byte_ok; cbn; lia]). done.
  - split; [done|]. repeat constructor.
  - apply log_start_wf.
Qed.

Lemma zero_shm_wf : mem_wf (M := shm_mem) zero_shm.
Proof.
  intros r. destruct r as [| | | | | | |st i]; try done.
  - by apply map_wf_replicate.
  - split; by apply map_wf_replicate.
  - split; [done|]. apply (Forall_replicate byte_ok 9 0). unfold byte_ok. lia.
  - split; [done|]. repeat constructor.
  - apply log_start_wf.
  - intros Hi. assert (Hnth : shm_load (RParams st i) zero_shm = replicate MAX_PARAMS 0).
    { destruct st; apply nth_lookup_Some; by apply lookup_replicate. }
    cbn [load shm_mem]. rewrite Hnth. split; [done|]. apply Forall_replicate. auto with words.
Qed.

Lemma sems_start_ok s : shm_sem_ok s -> sems_start !! s = Some 1%nat.
Proof.
  intros Hs. unfold sems_start. apply elem_of_list_to_map.
  - match goal with |- ?P => apply (bool_decide_eq_true_1 P) end. vm_compute. reflexivity.
  - apply list_elem_of_fmap. exists s. split; [done|]. unfold all_sems.
    rewrite !elem_of_app. destruct s as [| | | | | |i|i]; cbn in Hs;
      try (left; solve [repeat first [apply list_elem_of_here | apply list_elem_of_further]]).
    + right. left. apply list_elem_of_fmap. exists i. split; [done|]. apply elem_of_seq. lia.
    + right. right. apply list_elem_of_fmap. exists i. split; [done|]. apply elem_of_seq. lia.
Qed.
