(* ===== verification/F32.v ===== *)
(** * Single precision floats, as their bit patterns.

    The code of the devices computes with [float], and its [double] is the same type on their
    processors. A value is its 32 bits; arithmetic is IEEE 754 with rounding to nearest, by the
    specification floats of the standard library. *)

From Stdlib Require Import SpecFloat.
From S2P Require Export Prelude.

(** ** Comparisons *)

Definition f32_sign (v : Z) : bool := 2 ^ 31 <=? v.
Definition f32_mag (v : Z) : Z := v mod 2 ^ 31.
Definition f32_nan (v : Z) : bool := 0x7F800000 <? f32_mag v.
(** The order of the numbers, as integers. *)
Definition f32_key (v : Z) : Z := if f32_sign v then - f32_mag v else f32_mag v.
Definition f32_lt (a b : Z) : bool := negb (f32_nan a) && negb (f32_nan b) && (f32_key a <? f32_key b).
Definition f32_le (a b : Z) : bool := negb (f32_nan a) && negb (f32_nan b) && (f32_key a <=? f32_key b).
Definition f32_neg (v : Z) : Z := if f32_sign v then v - 2 ^ 31 else v + 2 ^ 31.

(** ** Constants *)

Definition F_0 : Z := 0.
Definition F_1 : Z := 0x3F800000.
Definition F_minus_1 : Z := 0xBF800000.
Definition F_0_05 : Z := 0x3D4CCCCD.
Definition F_0_1 : Z := 0x3DCCCCCD.
Definition F_minus_0_1 : Z := 0xBDCCCCCD.

Definition F_0_2 : Z := 0x3E4CCCCD.
Definition F_0_7 : Z := 0x3F333333.
Definition F_0_75 : Z := 0x3F400000.
Definition F_0_9 : Z := 0x3F666666.
Definition F_1_9 : Z := 0x3FF33333.
Definition F_2 : Z := 0x40000000.
Definition F_255 : Z := 0x437F0000.
Definition F_500 : Z := 0x43FA0000.
Definition F_1000 : Z := 0x447A0000.
Definition F_2700 : Z := 0x4528C000.
Definition F_1000000 : Z := 0x49742400.
Definition F_0_0024 : Z := 0x3B1D4952.
Definition F_0_045 : Z := 0x3D3851EC.
Definition F_0_35 : Z := 0x3EB33333.
Definition F_0_001 : Z := 0x3A83126F.

(** ** Arithmetic *)

Definition f32_eq (a b : Z) : bool := negb (f32_nan a) && negb (f32_nan b) && (f32_key a =? f32_key b).

(** The number that a pattern stands for. *)
Definition f32_decode (v : Z) : spec_float :=
  let s := f32_sign v in
  let e := f32_mag v / 2 ^ 23 in
  let m := v mod 2 ^ 23 in
  if e =? 255 then if m =? 0 then S754_infinity s else S754_nan
  else if e =? 0 then match m with Zpos p => S754_finite s p (-149) | _ => S754_zero s end
  else match m + 2 ^ 23 with Zpos p => S754_finite s p (e - 150) | _ => S754_nan end.

Definition f32_encode (f : spec_float) : Z :=
  let bits (s : bool) (x : Z) := if s then x + 2 ^ 31 else x in
  match f with
  | S754_zero s => bits s 0
  | S754_infinity s => bits s 0x7F800000
  | S754_nan => 0x7FC00000
  | S754_finite s p e =>
      if Zpos p <? 2 ^ 23 then bits s (Zpos p) else bits s ((e + 150) * 2 ^ 23 + (Zpos p - 2 ^ 23))
  end.

Definition f32_op (op : spec_float -> spec_float -> spec_float) (a b : Z) : Z :=
  f32_encode (op (f32_decode a) (f32_decode b)).
Definition f32_add : Z -> Z -> Z := f32_op (SFadd 24 128).
Definition f32_sub : Z -> Z -> Z := f32_op (SFsub 24 128).
Definition f32_mul : Z -> Z -> Z := f32_op (SFmul 24 128).
Definition f32_div : Z -> Z -> Z := f32_op (SFdiv 24 128).

(** The float nearest to an integer, and the integer part of a finite float, 0 for the others. *)
Definition f32_of_Z (z : Z) : Z := f32_encode (binary_normalize 24 128 z 0 false).
Definition f32_to_Z (v : Z) : Z :=
  match f32_decode v with
  | S754_finite s p e =>
      let n := if 0 <=? e then Z.shiftl (Zpos p) e else Z.shiftr (Zpos p) (- e) in
      if s then - n else n
  | _ => 0
  end.

(** The conversion to an [int] of 16 bits; what it gives for a float beyond its range or no
    number, which C leaves undefined, is a parameter. *)
Definition f32_to_int (undefined : Z -> Z) (v : Z) : Z :=
  match f32_decode v with
  | S754_nan => undefined v
  | S754_infinity _ => undefined v
  | _ => if (- 2 ^ 15 <=? f32_to_Z v) && (f32_to_Z v <? 2 ^ 15) then f32_to_Z v else undefined v
  end.

(** ** Facts *)

(** The constants are the nearest floats to what their names say. *)
Example f32_constants :
  (f32_of_Z 255, f32_of_Z 1000, f32_of_Z 2700, f32_of_Z 1000000, f32_to_Z F_255, f32_to_Z (f32_mul F_255 F_minus_1)) =
  (F_255, F_1000, F_2700, F_1000000, 255, -255).
Proof. vm_compute. reflexivity. Qed.

Example f32_decimals :
  (f32_div (f32_of_Z 2) (f32_of_Z 10), f32_div (f32_of_Z 7) (f32_of_Z 10), f32_div (f32_of_Z 3) (f32_of_Z 4), f32_div (f32_of_Z 9) (f32_of_Z 10),
   f32_div (f32_of_Z 19) (f32_of_Z 10), f32_div (f32_of_Z 24) (f32_of_Z 10000), f32_div (f32_of_Z 45) (f32_of_Z 1000),
   f32_div (f32_of_Z 35) (f32_of_Z 100), f32_div (f32_of_Z 1) (f32_of_Z 1000), f32_of_Z 2, f32_of_Z 500,
   f32_div (f32_of_Z 5) (f32_of_Z 100), f32_div (f32_of_Z 1) (f32_of_Z 10)) =
  (F_0_2, F_0_7, F_0_75, F_0_9, F_1_9, F_0_0024, F_0_045, F_0_35, F_0_001, F_2, F_500, F_0_05, F_0_1).
Proof. vm_compute. reflexivity. Qed.

(** *** Products do not overflow *)

(** Not infinite, a number, and below [2 ^ (24 + k)]. *)
Definition sf_small (k : Z) (f : spec_float) : Prop :=
  match f with
  | S754_zero _ => True
  | S754_finite _ p e => Zpos p < 2 ^ 24 /\ -149 <= e <= k
  | _ => False
  end.

Definition f32_small (k v : Z) : Prop := sf_small k (f32_decode v).

Lemma digits_bounds p : 2 ^ (Zpos (digits2_pos p) - 1) <= Zpos p < 2 ^ Zpos (digits2_pos p).
Proof.
  induction p as [p IH|p IH|]; cbn [digits2_pos]; [| |done];
    rewrite Pos2Z.inj_succ; remember (Zpos (digits2_pos p)) as d eqn:Hd; assert (0 <= d - 1) by lia;
    replace (Z.succ d - 1) with (Z.succ (d - 1)) by lia;
    rewrite !Z.pow_succ_r by lia; lia.
Qed.

Lemma digits_le p n : 0 <= n -> Zpos p < 2 ^ n -> Zpos (digits2_pos p) <= n.
Proof.
  intros Hn Hp. pose proof (digits_bounds p) as [Hlo _].
  destruct (Z.le_gt_cases (Zpos (digits2_pos p)) n) as [|Hgt]; [done|]. exfalso.
  assert (2 ^ n <= 2 ^ (Zpos (digits2_pos p) - 1)) by (apply Z.pow_le_mono_r; lia). lia.
Qed.

Lemma shr_1_half mrs : 0 <= shr_m mrs -> shr_m (shr_1 mrs) = shr_m mrs / 2.
Proof.
  destruct mrs as [m r s]. cbn [shr_m]. destruct m as [|[p|p|]|]; cbn [shr_1 shr_m]; intros Hm; try done.
  - change (Zpos p~1) with (2 * Zpos p + 1). rewrite Z.mul_comm, Z.div_add_l by lia. change (1 / 2) with 0. lia.
  - change (Zpos p~0) with (2 * Zpos p). by rewrite Z.mul_comm, Z.div_mul by lia.
Qed.

Lemma pow2_double p : 2 ^ Zpos p~0 = 2 ^ Zpos p * 2 ^ Zpos p.
Proof. rewrite <- Z.pow_add_r by lia. f_equal. lia. Qed.

Lemma pow2_double_succ p : 2 ^ Zpos p~1 = 2 * (2 ^ Zpos p * 2 ^ Zpos p).
Proof. rewrite <- Z.pow_add_r, <- Z.pow_succ_r by lia. f_equal. lia. Qed.

Lemma iter_shr p : forall mrs, 0 <= shr_m mrs -> shr_m (SpecFloat.iter_pos shr_1 p mrs) = shr_m mrs / 2 ^ Zpos p.
Proof.
  assert (Hpos : forall q, 0 < 2 ^ Zpos q) by (intros; apply Z.pow_pos_nonneg; lia).
  induction p as [p IH|p IH|]; intros mrs Hm; cbn [SpecFloat.iter_pos].
  - pose proof (Hpos p). assert (H0 : 0 <= shr_m (shr_1 mrs)) by (rewrite shr_1_half by done; apply Z.div_pos; lia).
    rewrite !IH, shr_1_half; [| done | done | by rewrite IH by done; apply Z.div_pos].
    by rewrite !Z.div_div, pow2_double_succ by lia.
  - pose proof (Hpos p). rewrite !IH; [| done | by rewrite IH by done; apply Z.div_pos].
    by rewrite Z.div_div, pow2_double by lia.
  - by apply shr_1_half.
Qed.

(** Shifting to the precision. *)
Lemma shr_fexp_small m e l n k : 0 <= m -> 24 <= n -> m < 2 ^ n -> e <= k ->
  let '(mrs, e') := shr_fexp 24 128 m e l in
  0 <= shr_m mrs < 2 ^ 24 /\ -149 <= e' /\ e' <= Z.max (k + (n - 24)) (-149) /\ e <= e'.
Proof.
  intros Hm0 Hn Hm Hk. unfold shr_fexp. unfold fexp, emin.
  assert (Hrec : shr_m (shr_record_of_loc m l) = m) by (by destruct l as [|[]]).
  set (d := Zdigits2 m). assert (Hd : 0 <= d <= n /\ m < 2 ^ d).
  { unfold d. destruct m as [|p|p]; [cbn; lia | | lia]. cbn [Zdigits2]. pose proof (digits_bounds p). pose proof (digits_le p n ltac:(lia) Hm). lia. }
  set (sh := Z.max (d + e - 24) (3 - 128 - 24) - e). destruct sh as [|p|p] eqn:Hsh; cbn [shr]; rewrite ?Hrec.
  - split; [|lia]. split; [done|]. apply (Z.lt_le_trans _ (2 ^ d)); [apply Hd | apply Z.pow_le_mono_r; lia].
  - rewrite iter_shr, Hrec by (by rewrite Hrec). split; [|lia]. split; [apply Z.div_pos; lia|].
    apply Z.div_lt_upper_bound; [lia|]. rewrite <- Z.pow_add_r by lia.
    apply (Z.lt_le_trans _ (2 ^ d)); [apply Hd | apply Z.pow_le_mono_r; lia].
  - split; [|lia]. split; [done|]. apply (Z.lt_le_trans _ (2 ^ d)); [apply Hd | apply Z.pow_le_mono_r; lia].
Qed.

Lemma round_near m l : 0 <= m -> m <= round_nearest_even m l <= m + 1.
Proof. intros Hm. unfold round_nearest_even. repeat case_match; lia. Qed.

Lemma binary_round_small s p e k : Zpos p < 2 ^ 48 -> e + 24 <= k -> -149 <= k -> k < 104 ->
  sf_small (k + 1) (binary_round_aux 24 128 s (Zpos p) e loc_Exact).
Proof.
  intros Hp Hk Hk0 Hk1. unfold binary_round_aux.
  pose proof (shr_fexp_small (Zpos p) e loc_Exact 48 (k - 24) ltac:(lia) ltac:(lia) Hp ltac:(lia)) as H1.
  destruct (shr_fexp _ _ (Zpos p) _ _) as [mrs e1]. destruct H1 as ([H1 H2] & H3 & H4 & _).
  pose proof (round_near (shr_m mrs) (loc_of_shr_record mrs) H1) as Hr. set (m := round_nearest_even _ _) in *.
  pose proof (shr_fexp_small m e1 loc_Exact 25 k ltac:(lia) ltac:(lia) ltac:(lia) ltac:(lia)) as H5.
  destruct (shr_fexp _ _ m _ _) as [mrs' e2]. destruct H5 as ([H5 H6] & H7 & H8 & _).
  destruct (shr_m mrs') as [|q|q]; [done | | lia]. rewrite (proj2 (Z.leb_le _ _)) by lia. cbn [sf_small]. lia.
Qed.

Lemma SFmul_small a b k x y : a + b + 24 <= k -> -149 <= k -> k < 104 -> sf_small a x -> sf_small b y ->
  sf_small (k + 1) (SFmul 24 128 x y).
Proof.
  intros Hab Hk0 Hk1 Hx Hy. destruct x as [?|?| |sx p e], y as [?|?| |sy q e']; cbn [sf_small] in *; try done.
  unfold SFmul. destruct Hx as [Hp He], Hy as [Hq He']. apply binary_round_small; [|lia..].
  rewrite Pos2Z.inj_mul. change (2 ^ 48) with (2 ^ 24 * 2 ^ 24). apply Z.mul_lt_mono_nonneg; lia.
Qed.

(** The pattern of such a number stands for it, or for one that is smaller still. *)
Lemma encode_small k f : -149 <= k -> k <= 104 -> sf_small k f -> f32_small k (f32_encode f).
Proof.
  intros Hk0 Hk1 Hf. unfold f32_small, f32_encode. destruct f as [s| | |s p e]; cbn [sf_small] in Hf; try done.
  { destruct s; vm_compute; done. }
  destruct Hf as [Hp He].
  assert (Hdec : forall x, 0 <= x < 0x7F800000 -> sf_small k (f32_decode x) ->
    sf_small k (f32_decode (if s then x + 2 ^ 31 else x))).
  { intros x Hx Hsm. destruct s; [|done]. unfold f32_decode, f32_mag, f32_sign in *.
    assert (H1 : (x + 2 ^ 31) mod 2 ^ 31 = x mod 2 ^ 31) by (rewrite <- (Z.mul_1_l (2 ^ 31)) at 1; apply Z.mod_add; lia).
    assert (H2 : (x + 2 ^ 31) mod 2 ^ 23 = x mod 2 ^ 23) by (change (2 ^ 31) with (256 * 2 ^ 23); apply Z.mod_add; lia).
    rewrite H1, H2, (proj2 (Z.leb_le (2 ^ 31) (x + 2 ^ 31))) by lia. rewrite (proj2 (Z.leb_gt (2 ^ 31) x)) in Hsm by lia.
    by repeat case_match. }
  destruct (Z.ltb_spec (Zpos p) (2 ^ 23)) as [Hs|Hs]; apply Hdec.
  - lia.
  - unfold f32_decode, f32_mag. rewrite (Z.mod_small (Zpos p) (2 ^ 31)), (Z.mod_small (Zpos p) (2 ^ 23)), Z.div_small by lia.
    cbn -[Z.pow]. lia.
  - lia.
  - unfold f32_decode, f32_mag. set (x := (e + 150) * 2 ^ 23 + (Zpos p - 2 ^ 23)).
    assert (H1 : x mod 2 ^ 31 = x) by (apply Z.mod_small; lia).
    assert (H2 : x mod 2 ^ 23 = Zpos p - 2 ^ 23) by (unfold x; rewrite Z.add_comm, Z.mod_add by lia; apply Z.mod_small; lia).
    assert (H3 : x / 2 ^ 23 = e + 150) by (unfold x; rewrite Z.div_add_l by lia; rewrite Z.div_small by lia; lia).
    rewrite H1, H2, H3, (proj2 (Z.eqb_neq (e + 150) 255)), (proj2 (Z.eqb_neq (e + 150) 0)) by lia.
    replace (Zpos p - 2 ^ 23 + 2 ^ 23) with (Zpos p) by lia. cbn [sf_small]. lia.
Qed.

Lemma f32_mul_small a b k x y : a + b + 24 <= k -> -149 <= k -> k < 104 -> f32_small a x -> f32_small b y ->
  f32_small (k + 1) (f32_mul x y).
Proof. intros. apply encode_small; [lia | lia |]. by eapply SFmul_small. Qed.

(** Nothing is left of a number that is multiplied by zero. *)
Lemma f32_mul_zero k x : f32_small k x -> f32_eq (f32_mul x F_0) F_0 = true.
Proof.
  unfold f32_small, f32_mul, f32_op. change (f32_decode F_0) with (S754_zero false).
  destruct (f32_decode x) as [s|s| |s p e]; cbn [sf_small SFmul]; intros Hx; try done; by destruct s.
Qed.

(** A number between -1.0 and 1.0. *)
Lemma unit_small v : 0 <= v < 2 ^ 32 -> f32_le F_minus_1 v = true -> f32_le v F_1 = true -> f32_small (-23) v.
Proof.
  intros Hv [_ Hl]%andb_prop [_ Hu]%andb_prop. apply Z.leb_le in Hl, Hu.
  change (f32_key F_minus_1) with (-0x3F800000) in Hl. change (f32_key F_1) with 0x3F800000 in Hu.
  assert (Hm : 0 <= f32_mag v <= 0x3F800000).
  { unfold f32_key, f32_mag in *. pose proof (Z.mod_pos_bound v (2 ^ 31) ltac:(lia)). destruct (f32_sign v); lia. }
  unfold f32_small, f32_decode.
  assert (He : 0 <= f32_mag v / 2 ^ 23 <= 127).
  { split; [apply Z.div_pos; lia|]. change 127 with (0x3F800000 / 2 ^ 23). apply Z.div_le_mono; lia. }
  pose proof (Z.mod_pos_bound v (2 ^ 23) ltac:(lia)) as Hmod. set (x := f32_mag v / 2 ^ 23) in *. set (y := v mod 2 ^ 23) in *.
  rewrite (proj2 (Z.eqb_neq x 255)) by lia. destruct (Z.eqb_spec x 0) as [H0|H0].
  - destruct y as [|p|p]; cbn [sf_small]; [done | lia | lia].
  - destruct (y + 2 ^ 23) as [|p|p] eqn:E; cbn [sf_small]; lia.
Qed.

(** *** Products are floats *)

Definition sf_ok (f : spec_float) : Prop :=
  match f with S754_finite _ p e => Zpos p < 2 ^ 24 /\ -149 <= e <= 104 | _ => True end.

Lemma binary_round_ok s p e : Zpos p < 2 ^ 48 -> sf_ok (binary_round_aux 24 128 s (Zpos p) e loc_Exact).
Proof.
  intros Hp. unfold binary_round_aux.
  pose proof (shr_fexp_small (Zpos p) e loc_Exact 48 e ltac:(lia) ltac:(lia) Hp ltac:(lia)) as H1.
  destruct (shr_fexp _ _ (Zpos p) _ _) as [mrs e1]. destruct H1 as ([H1 H2] & _).
  pose proof (round_near (shr_m mrs) (loc_of_shr_record mrs) H1) as Hr. set (m := round_nearest_even _ _) in *.
  pose proof (shr_fexp_small m e1 loc_Exact 25 e1 ltac:(lia) ltac:(lia) ltac:(lia) ltac:(lia)) as H5.
  destruct (shr_fexp _ _ m _ _) as [mrs' e2]. destruct H5 as ([H5 H6] & H7 & _).
  destruct (shr_m mrs') as [|q|q]; [done | | done]. destruct (Z.leb_spec e2 (128 - 24)); [cbn [sf_ok]; lia | done].
Qed.

Lemma decode_mantissa v : match f32_decode v with S754_finite _ p _ => Zpos p < 2 ^ 24 | _ => True end.
Proof.
  unfold f32_decode. pose proof (Z.mod_pos_bound v (2 ^ 23) ltac:(lia)). set (m := v mod 2 ^ 23) in *.
  destruct (_ =? 255); [by destruct (m =? 0)|]. destruct (_ =? 0); [destruct m; (done || lia)|].
  destruct (m + 2 ^ 23) eqn:E; (done || lia).
Qed.

Lemma encode_word f : sf_ok f -> word32 (f32_encode f).
Proof.
  unfold word32, f32_encode. destruct f as [s|s| |s p e]; cbn [sf_ok]; intros Hf; try (destruct s; lia); [lia|].
  destruct (Z.ltb_spec (Zpos p) (2 ^ 23)); destruct s; lia.
Qed.

Lemma f32_mul_word x y : word32 (f32_mul x y).
Proof.
  apply encode_word. pose proof (decode_mantissa x). pose proof (decode_mantissa y).
  destruct (f32_decode x) as [?|?| |sx p e], (f32_decode y) as [?|?| |sy q e']; try done.
  unfold SFmul. apply binary_round_ok. rewrite Pos2Z.inj_mul. change (2 ^ 48) with (2 ^ 24 * 2 ^ 24).
  apply Z.mul_lt_mono_nonneg; lia.
Qed.
