(* ===== verification/ShmLocks.v ===== *)
(** * The locking of the shared memory wrapper.

    Every function of the wrapper but [log_data_write] keeps the discipline of [Conc]; so
    processes that make any sequences of calls, interleaved in any way, never touch memory
    they should not, race only on the catalog and the identifiers, and never deadlock. *)

From stdpp Require Import gmap strings.
From S2P Require Export Shm.

(** ** The processes of the runtime as clients of the wrapper *)

(** A map of the caller, to be filled. *)
Definition map_sized (l : list Z) : Prop := length l = S MAX_DEVICES.

(** A call of the wrapper, with the caller's arrays. *)
Inductive shm_call : Set :=
| CallConnect (id : dev_id_t)
| CallDisconnect (ix : Z)
| CallRead (ix : Z) (p : process_t) (s : stream_t) (mask : Z) (ps : list param_val_t)
| CallReadUid (uid : Z) (p : process_t) (s : stream_t) (mask : Z) (ps : list param_val_t)
| CallWrite (ix : Z) (p : process_t) (s : stream_t) (mask : Z) (ps : list param_val_t)
| CallWriteUid (uid : Z) (p : process_t) (s : stream_t) (mask : Z) (ps : list param_val_t)
| CallPlaceSub (uid : Z) (p : process_t) (mask : Z)
| CallGetSub (sm : list Z) (p : process_t)
| CallGetCmdMap (bm : list Z)
| CallGetIds (ids : list dev_id_t)
| CallGetCatalog
| CallDescRead (f : robot_desc_field_t)
| CallDescWrite (f : robot_desc_field_t) (v : Z)
| CallInputRead (b : Z) (js : list Z) (f : robot_desc_field_t)
| CallInputWrite (b : Z) (js : list Z) (f : robot_desc_field_t)
| CallLogRead (names : list string) (types : list param_type_t) (values : list param_val_t).

Definition exec_call (c : shm_call) : prog unit :=
  match c with
  | CallConnect id => device_connect id ;; mret tt
  | CallDisconnect ix => device_disconnect ix
  | CallRead ix p s mask ps => device_read ix p s mask ps ;; mret tt
  | CallReadUid uid p s mask ps => device_read_uid uid p s mask ps ;; mret tt
  | CallWrite ix p s mask ps => device_write ix p s mask ps ;; mret tt
  | CallWriteUid uid p s mask ps => device_write_uid uid p s mask ps ;; mret tt
  | CallPlaceSub uid p mask => place_sub_request uid p mask ;; mret tt
  | CallGetSub sm p => get_sub_requests sm p ;; mret tt
  | CallGetCmdMap bm => get_cmd_map bm ;; mret tt
  | CallGetIds ids => get_device_identifiers ids ;; mret tt
  | CallGetCatalog => get_catalog ;; mret tt
  | CallDescRead f => robot_desc_read f ;; mret tt
  | CallDescWrite f v => robot_desc_write f v
  | CallInputRead b js f => input_read b js f ;; mret tt
  | CallInputWrite b js f => input_write b js f ;; mret tt
  | CallLogRead n t v => log_data_read n t v ;; mret tt
  end.

(** The arguments the functions document: a device index in range, arrays of the declared
    sizes, bitmaps of 32 bits. *)
Definition call_ok (c : shm_call) : Prop :=
  match c with
  | CallConnect _ => True
  | CallDisconnect ix => 0 <= ix < 32
  | CallRead ix _ _ _ ps => 0 <= ix < 32 /\ params_wf ps
  | CallReadUid _ _ _ _ ps => params_wf ps
  | CallWrite ix _ _ mask ps => 0 <= ix < 32 /\ params_wf ps /\ word32 mask
  | CallWriteUid _ _ _ mask ps => params_wf ps /\ word32 mask
  | CallPlaceSub _ _ mask => word32 mask
  | CallGetSub sm _ => map_wf sm
  | CallGetCmdMap bm => map_sized bm
  | CallGetIds ids => length ids = MAX_DEVICES
  | CallGetCatalog => True
  | CallDescRead _ => True
  | CallDescWrite _ _ => True
  | CallInputRead _ js _ => length js = 4%nat
  | CallInputWrite _ js _ => length js = 4%nat
  | CallLogRead n t v => length n = UCHAR_MAX /\ length t = UCHAR_MAX /\ length v = UCHAR_MAX
  end.

#[export] Instance call_ok_dec c : Decision (call_ok c).
Proof. destruct c; cbn; unfold params_wf, map_sized, map_wf, word32; apply _. Defined.

(** A process: the sequence of the calls it makes. *)
Fixpoint client (calls : list shm_call) : prog unit :=
  match calls with
  | [] => mret tt
  | c :: calls' => exec_call c ;; client calls'
  end.

(** ** Every operation keeps the discipline *)

(** Solves [s ∈ L], computes [filter (≠ s) L], and compares ranks. *)
Ltac held := cbn; repeat first [apply list_elem_of_here | apply list_elem_of_further].
Ltac drop_held :=
  repeat first
    [ rewrite filter_nil
    | rewrite filter_cons_True by (intros ?; discriminate)
    | rewrite filter_cons_False by (intros Hne; by apply Hne) ];
  reflexivity.
Ltac ranks := repeat first [apply Forall_nil_2 | apply Forall_cons_2]; cbn; lia.

Ltac disc_sem :=
  lazymatch goal with
  | |- disc _ (wait _) _ _ => apply disc_wait; [cbn; (done || lia) | ranks]
  | |- disc _ (post _) _ _ => apply disc_post_eq; [held | drop_held]
  | |- disc _ (mret _) _ _ => apply disc_ret
  end.
Ltac disc_bind_sem := eapply disc_bind; [disc_sem | intros ? _].

Lemma disc_params_modify L ix st f (Hix : (ix < MAX_DEVICES)%nat) :
  stream_sem st ix ∈ L ->
  (forall v, params_wf v -> exists v', f v = Done v' /\ params_wf v') ->
  disc (M := shm_mem) L (upd (RParams st ix) f) L (fun _ => True).
Proof.
  intros Hs Hf. apply disc_upd; [by destruct st|]. cbn. intros v Hv.
  destruct (Hf v (Hv Hix)) as (v' & ? & ?). eauto.
Qed.

Lemma disc_map_modify L i f :
  CmdMapSem ∈ L -> (i <= MAX_DEVICES)%nat -> (forall v, word32 v -> word32 (f v)) ->
  disc (M := shm_mem) L (upd RCmdMap (fun m => modify m i f)) L (fun _ => True).
Proof. intros Hs Hi Hf. apply disc_upd; [done|]. intros m Hm. by apply map_wf_modify. Qed.

Lemma disc_test_catalog L ix : disc (M := shm_mem) L (test_catalog ix) L (fun _ => True).
Proof. apply disc_get; [by right|]. intros c _. by eexists. Qed.

Lemma disc_find_uid L uid k : forall i, (i + k <= MAX_DEVICES)%nat ->
  disc (M := shm_mem) L (find_uid k i uid) L (fun r => forall ix, r = Some ix -> (ix < MAX_DEVICES)%nat).
Proof.
  induction k as [|k IH]; intros i Hk; cbn [find_uid]; [by apply disc_ret|].
  eapply disc_bind; [apply disc_test_catalog|]. intros [] _; [|apply IH; lia].
  eapply disc_bind.
  - apply (disc_get _ _ _ (fun _ => True)); [by right|]. cbn. intros ids Hids.
    destruct (lookup_lt_is_Some_2 ids i) as [d Hd]; [lia|].
    exists (id_uid d). by rewrite (buf_get_done _ _ _ Hd).
  - intros u _. destruct (u =? uid); [|apply IH; lia].
    apply disc_ret. intros ix [= <-]. lia.
Qed.

Lemma disc_device_read_helper ix process stream mask ps :
  (ix < MAX_DEVICES)%nat -> params_wf ps ->
  disc (M := shm_mem) [] (device_read_helper ix process stream mask ps) [] params_wf.
Proof.
  intros Hix Hps. unfold device_read_helper.
  assert (Hok : shm_sem_ok (stream_sem stream ix)) by (by destruct stream).
  eapply disc_bind; [apply disc_wait; [done | ranks] | intros _ _].
  eapply disc_bind.
  { apply (disc_get _ _ _ params_wf); [left; destruct stream; held|]. cbn. intros sh Hsh.
    destruct (copy_params_wf mask sh ps (Hsh Hix) Hps) as (to & ? & ?). eauto. }
  intros r Hr. apply (disc_bind (M := shm_mem) _ _ _ [stream_sem stream ix] _ (fun _ => True)).
  { case_decide as Hd.
    - destruct Hd as [_ ->]. cbn [stream_sem]. disc_bind_sem.
      eapply disc_bind; [apply disc_map_modify; [held | lia | auto with words] | intros ? _].
      eapply disc_bind; [apply disc_map_modify; [held | lia | auto with words] | intros ? _].
      disc_sem.
    - by apply disc_ret. }
  intros _ _. destruct stream; cbn [stream_sem]; disc_bind_sem; by apply disc_ret.
Qed.

Lemma disc_device_write_helper ix process stream mask ps :
  (ix < MAX_DEVICES)%nat -> params_wf ps -> word32 mask ->
  disc (M := shm_mem) [] (device_write_helper ix process stream mask ps) [] (fun _ => True).
Proof.
  intros Hix Hps Hm. unfold device_write_helper.
  assert (Hok : shm_sem_ok (stream_sem stream ix)) by (by destruct stream).
  eapply disc_bind; [apply disc_wait; [done | ranks] | intros _ _].
  eapply disc_bind.
  { apply disc_params_modify; [done | destruct stream; held|]. intros sh Hsh.
    by apply copy_params_wf. }
  intros r _. apply (disc_bind (M := shm_mem) _ _ _ [stream_sem stream ix] _ (fun _ => True)).
  { case_decide as Hd.
    - destruct Hd as [_ ->]. cbn [stream_sem]. disc_bind_sem.
      eapply disc_bind; [apply disc_map_modify; [held | lia | auto with words] | intros ? _].
      eapply disc_bind; [apply disc_map_modify; [held | lia | auto with words] | intros ? _].
      disc_sem.
    - by apply disc_ret. }
  intros _ _. destruct stream; cbn [stream_sem]; disc_sem.
Qed.

Lemma disc_reset_params L ix k : forall i,
  (ix < MAX_DEVICES)%nat -> (i + k <= MAX_PARAMS)%nat -> DataSem ix ∈ L -> CommandSem ix ∈ L ->
  disc (M := shm_mem) L (reset_params k i ix) L (fun _ => True).
Proof.
  induction k as [|k IH]; intros i Hix Hk Hd Hc; cbn [reset_params]; [by apply disc_ret|].
  do 2 (eapply disc_bind;
    [apply disc_params_modify; [done | done |]; intros v Hv; apply buf_set_params; (done || lia || auto with words)
    | intros _ _]).
  apply IH; (done || lia).
Qed.

Lemma disc_dev_ids L ix f :
  CatalogSem ∈ L -> (ix < MAX_DEVICES)%nat ->
  disc (M := shm_mem) L (upd RDevIds (fun ids => modify ids ix f)) L (fun _ => True).
Proof.
  intros Hs Hix. apply disc_upd; [done|]. cbn. intros ids Hids.
  destruct (lookup_lt_is_Some_2 ids ix) as [d Hd]; [lia|].
  exists (<[ix := f d]> ids). split; [by apply modify_done | by rewrite length_insert].
Qed.

(** An update of one of the two subscription maps. *)
Lemma disc_sub_map L (f : list Z * list Z -> outcome (list Z * list Z)) :
  SubMapSem ∈ L ->
  (forall net exec, map_wf net -> map_wf exec ->
     exists net' exec', f (net, exec) = Done (net', exec') /\ map_wf net' /\ map_wf exec') ->
  disc (M := shm_mem) L (upd RSubMap f) L (fun _ => True).
Proof.
  intros Hs Hf. apply disc_upd; [done|]. cbn. intros [net exec] [Hn He].
  destruct (Hf net exec Hn He) as (net' & exec' & Heq & ? & ?). exists (net', exec'). done.
Qed.

Lemma find_free_spec k c : forall i,
  match find_free k i c with
  | Some ix => (i <= ix < i + k)%nat /\ bit_on c ix = false /\
      forall j, (i <= j < ix)%nat -> bit_on c j = true
  | None => forall j, (i <= j < i + k)%nat -> bit_on c j = true
  end.
Proof.
  induction k as [|k IH]; intros i; cbn [find_free]; [intros j; lia|].
  destruct (bit_on c i) eqn:E.
  - specialize (IH (S i)). destruct (find_free k (S i) c) as [ix|].
    + destruct IH as (H1 & H2 & H3). split; [lia|]. split; [done|]. intros j Hj.
      destruct (decide (j = i)) as [->|]; [done | apply H3; lia].
    + intros j Hj. destruct (decide (j = i)) as [->|]; [done | apply IH; lia].
  - split; [lia|]. split; [done|]. intros j Hj. lia.
Qed.

Lemma disc_exec_map L (f : list Z -> outcome (list Z)) :
  SubMapSem ∈ L -> (forall m, map_wf m -> exists m', f m = Done m' /\ map_wf m') ->
  disc (M := shm_mem) L (upd RSubMap (fun '(net, exec) => exec ← f exec; mret (net, exec))) L (fun _ => True).
Proof.
  intros Hs Hf. apply disc_sub_map; [done|]. intros net exec Hn He.
  destruct (Hf exec He) as (m & Hm & ?). rewrite Hm. by exists net, m.
Qed.

Lemma disc_net_map L (f : list Z -> outcome (list Z)) :
  SubMapSem ∈ L -> (forall m, map_wf m -> exists m', f m = Done m' /\ map_wf m') ->
  disc (M := shm_mem) L (upd RSubMap (fun '(net, exec) => net ← f net; mret (net, exec))) L (fun _ => True).
Proof.
  intros Hs Hf. apply disc_sub_map; [done|]. intros net exec Hn He.
  destruct (Hf net Hn) as (m & Hm & ?). rewrite Hm. by exists m, exec.
Qed.

Lemma disc_device_connect id :
  disc (M := shm_mem) [] (device_connect id) [] (fun r => forall ix, r = Some ix -> (ix < MAX_DEVICES)%nat).
Proof.
  unfold device_connect. disc_bind_sem.
  eapply disc_bind.
  { apply (disc_get _ _ _ (fun r => forall ix, r = Some ix -> (ix < MAX_DEVICES)%nat)); [left; held|].
    intros c _. eexists. split; [done|]. intros ix Hix.
    pose proof (find_free_spec MAX_DEVICES c 0) as Hf. rewrite Hix in Hf. lia. }
  intros [ix|] Hr; [|disc_bind_sem; by apply disc_ret].
  pose proof (Hr ix eq_refl) as Hix. do 3 disc_bind_sem.
  do 3 (eapply disc_bind; [apply disc_dev_ids; [held | done] | intros _ _]).
  eapply disc_bind.
  { apply disc_upd; [held|]. intros c Hc. eexists. split; [done|]. by apply word32_set. }
  intros _ _. eapply disc_bind; [apply disc_reset_params; [done | lia | held | held] | intros _ _].
  eapply disc_bind; [apply (disc_exec_map _ (fun m => modify m 0 _)); [held|] | intros _ _].
  { intros m Hm. apply map_wf_modify; auto with words; lia. }
  eapply disc_bind; [apply (disc_exec_map _ (fun m => buf_set m (S ix) 0)); [held|] | intros _ _].
  { intros m Hm. apply map_wf_set; auto with words; lia. }
  eapply disc_bind; [apply (disc_net_map _ (fun m => modify m 0 _)); [held|] | intros _ _].
  { intros m Hm. apply map_wf_modify; auto with words; lia. }
  eapply disc_bind; [apply (disc_net_map _ (fun m => buf_set m (S ix) (u32 (-1)))); [held|] | intros _ _].
  { intros m Hm. apply map_wf_set; [done | lia | done]. }
  do 4 disc_bind_sem. apply disc_ret. by intros ? [= <-].
Qed.

Lemma disc_device_disconnect ix : 0 <= ix < 32 ->
  disc (M := shm_mem) [] (device_disconnect ix) [] (fun _ => True).
Proof.
  intros Hix. unfold device_disconnect, sems_index. disc_bind_sem.
  change (Z.of_nat MAX_DEVICES) with 32.
  rewrite (proj2 (Z.leb_le 0 ix)), (proj2 (Z.ltb_lt ix 32)) by lia. cbn [andb].
  set (i := Z.to_nat ix). assert (Hi : (i < MAX_DEVICES)%nat) by (unfold i, MAX_DEVICES; lia).
  do 3 disc_bind_sem.
  eapply disc_bind.
  { apply disc_upd; [held|]. intros c Hc. eexists. split; [done|]. by apply word32_clear. }
  intros _ _.
  eapply disc_bind; [apply disc_map_modify; [held | lia | auto with words] | intros ? _].
  eapply disc_bind.
  { apply disc_upd; [held|]. intros m Hm. apply map_wf_set; [done | lia | auto with words]. }
  intros _ _. do 3 disc_bind_sem. disc_sem.
Qed.

Lemma disc_shift_index {A} ix (k : nat -> prog A) Q : 0 <= ix < 32 ->
  (forall i, (i < MAX_DEVICES)%nat -> disc (M := shm_mem) [] (k i) [] Q) ->
  disc (M := shm_mem) [] (shift_index ix k) [] Q.
Proof.
  intros Hix Hk. unfold shift_index. change (Z.of_nat MAX_DEVICES) with 32.
  rewrite (proj2 (Z.leb_le 0 ix)), (proj2 (Z.ltb_lt ix 32)) by lia. apply Hk. unfold MAX_DEVICES. lia.
Qed.

Lemma disc_device_read ix process stream mask ps : 0 <= ix < 32 -> params_wf ps ->
  disc (M := shm_mem) [] (device_read ix process stream mask ps) [] (fun r => params_wf (snd r)).
Proof.
  intros Hix Hps. apply disc_shift_index; [done|]. intros i Hi.
  eapply disc_bind; [apply disc_test_catalog|]. intros [] _; [|by apply disc_ret].
  eapply disc_bind; [by apply disc_device_read_helper|]. intros r Hr. by apply disc_ret.
Qed.

Lemma disc_device_write ix process stream mask ps : 0 <= ix < 32 -> params_wf ps -> word32 mask ->
  disc (M := shm_mem) [] (device_write ix process stream mask ps) [] (fun _ => True).
Proof.
  intros Hix Hps Hm. apply disc_shift_index; [done|]. intros i Hi.
  eapply disc_bind; [apply disc_test_catalog|]. intros [] _; [|by apply disc_ret].
  eapply disc_bind; [by apply disc_device_write_helper|]. intros r _. by apply disc_ret.
Qed.

Lemma disc_device_read_uid uid process stream mask ps : params_wf ps ->
  disc (M := shm_mem) [] (device_read_uid uid process stream mask ps) [] (fun r => params_wf (snd r)).
Proof.
  intros Hps. eapply disc_bind; [by apply disc_find_uid|].
  intros [ix|] Hix; [|by apply disc_ret].
  eapply disc_bind; [apply disc_device_read_helper; auto|]. intros r Hr. by apply disc_ret.
Qed.

Lemma disc_device_write_uid uid process stream mask ps : params_wf ps -> word32 mask ->
  disc (M := shm_mem) [] (device_write_uid uid process stream mask ps) [] (fun _ => True).
Proof.
  intros Hps Hm. eapply disc_bind; [by apply disc_find_uid|].
  intros [ix|] Hix; [|by apply disc_ret].
  eapply disc_bind; [apply disc_device_write_helper; auto|]. intros r _. by apply disc_ret.
Qed.

Lemma disc_place_sub_request uid process mask : word32 mask ->
  disc (M := shm_mem) [] (place_sub_request uid process mask) [] (fun _ => True).
Proof.
  intros Hm. unfold place_sub_request. destruct (negb _); [by apply disc_ret|].
  eapply disc_bind; [by apply disc_find_uid|]. intros [ix|] Hix; [|by apply disc_ret].
  specialize (Hix ix eq_refl). disc_bind_sem. eapply disc_bind.
  { apply disc_sub_map; [held|]. intros net exec Hn He. cbv zeta.
    set (cur := if decide (process = NET_HANDLER) then net else exec).
    assert (Hc : map_wf cur) by (unfold cur; by case_decide).
    destruct (map_wf_lookup cur (S ix) Hc) as (v & Hv & _); [lia|].
    rewrite (buf_get_done _ _ _ Hv), bind_done. destruct (v =? mask); [by exists net, exec|].
    destruct (map_wf_set cur (S ix) mask Hc) as (m1 & -> & Hm1); [lia | done |]. rewrite bind_done.
    destruct (map_wf_modify m1 0 (fun v => bit_set v ix) Hm1) as (m2 & -> & Hm2);
      [lia | auto with words |]. rewrite bind_done. case_decide; by eexists _, _. }
  intros _ _. disc_bind_sem. by apply disc_ret.
Qed.

Lemma sub_entry_done process i net exec : map_wf net -> map_wf exec -> (i <= MAX_DEVICES)%nat ->
  exists v, sub_entry process i (net, exec) = Done v /\ word32 v.
Proof.
  intros Hn He Hi. destruct (map_wf_lookup net i Hn Hi) as (a & Ha & Hwa).
  destruct (map_wf_lookup exec i He Hi) as (b & Hb & Hwb). unfold sub_entry. cbn [fst snd].
  rewrite (buf_get_done _ _ _ Ha), (buf_get_done _ _ _ Hb), !bind_done.
  destruct process; eexists; (split; [reflexivity|]); auto with words.
Qed.

Lemma disc_fill_sub_map L process k : forall i sm,
  SubMapSem ∈ L -> (1 <= i)%nat -> (i + k <= S MAX_DEVICES)%nat -> map_wf sm ->
  disc (M := shm_mem) L (fill_sub_map k i process sm) L map_wf.
Proof.
  induction k as [|k IH]; intros i sm Hs Hi Hk Hsm; cbn [fill_sub_map]; [by apply disc_ret|].
  eapply disc_bind; [apply disc_test_catalog|]. intros on _.
  eapply (disc_bind _ _ _ _ _ map_wf); [|intros r Hr; apply IH; (done || lia)].
  destruct on.
  - apply disc_get; [by left|]. cbn. intros [net exec] [Hn He].
    destruct (sub_entry_done process i net exec Hn He) as (v & -> & Hv); [lia|]. rewrite bind_done.
    apply map_wf_set; [done | lia | done].
  - apply disc_get; [by left|]. intros _ _.
    destruct (map_wf_modify sm 0 (fun v => bit_clear v (i - 1)) Hsm) as (m & Hm & Hw); [lia | auto with words|].
    rewrite Hm, bind_done. apply map_wf_set; [done | lia | auto with words].
Qed.

Lemma disc_get_sub_requests sm process : map_wf sm ->
  disc (M := shm_mem) [] (get_sub_requests sm process) [] map_wf.
Proof.
  intros Hsm. unfold get_sub_requests. disc_bind_sem.
  eapply (disc_bind _ _ _ _ _ map_wf).
  { apply disc_get; [left; held|]. cbn. intros [net exec] [Hn He].
    destruct (sub_entry_done process 0 net exec Hn He) as (v & -> & Hv); [lia|]. rewrite bind_done.
    apply map_wf_set; [done | lia | done]. }
  intros r Hr. destruct (_ && _); [disc_bind_sem; by apply disc_ret|].
  eapply disc_bind; [apply disc_fill_sub_map; [held | lia | lia | done]|]. intros r' Hr'.
  apply (disc_bind (M := shm_mem) _ _ _ [SubMapSem] _ (fun _ => True)).
  - case_decide; [|by apply disc_ret]. apply disc_sub_map; [held|]. intros net exec Hn He.
    destruct (map_wf_set exec 0 0 He) as (e' & -> & ?); [lia | auto with words |]. rewrite bind_done.
    destruct (map_wf_set net 0 0 Hn) as (n' & -> & ?); [lia | auto with words |]. by exists n', e'.
  - intros _ _. disc_bind_sem. by apply disc_ret.
Qed.

(** A loop that copies all of an array. *)
Lemma copy_all_done {A} (from to : list A) k :
  length from = k -> length to = k ->
  for_range k 0 (fun i to => v ← buf_get from i; buf_set to i v) to = Done from.
Proof.
  intros Hf Ht. destruct (copy_loop_spec (fun _ => true) from k 0 to) as (to' & Hc & Hl & Hto); [lia | lia |].
  cbn [andb] in *. rewrite Hc. f_equal. apply list_eq. intros i. rewrite Hto.
  destruct (Nat.lt_ge_cases i k).
  - by rewrite between_all.
  - rewrite between_out by done. by rewrite !lookup_ge_None_2 by lia.
Qed.

Lemma disc_get_cmd_map bm : map_sized bm ->
  disc (M := shm_mem) [] (get_cmd_map bm) [] map_wf.
Proof.
  intros Hb. unfold get_cmd_map. disc_bind_sem. eapply disc_bind.
  { apply (disc_get _ _ _ map_wf); [left; held|]. intros m [Hm Hw]. exists m.
    by rewrite copy_all_done. }
  intros r Hr. disc_bind_sem. by apply disc_ret.
Qed.

Lemma disc_get_device_identifiers ids : length ids = MAX_DEVICES ->
  disc (M := shm_mem) [] (get_device_identifiers ids) [] (fun r => length r = MAX_DEVICES).
Proof.
  intros Hb. unfold get_device_identifiers. disc_bind_sem. eapply disc_bind.
  { apply (disc_get _ _ _ (fun r => length r = MAX_DEVICES)); [left; held|]. intros m Hm. exists m. by rewrite copy_all_done. }
  intros r Hr. disc_bind_sem. by apply disc_ret.
Qed.

Lemma disc_get_catalog : disc (M := shm_mem) [] get_catalog [] (fun _ => True).
Proof.
  unfold get_catalog. disc_bind_sem. eapply disc_bind.
  { apply (disc_get _ _ _ (fun _ => True)); [left; held|]. intros m Hm. by exists m. }
  intros r _. disc_bind_sem. by apply disc_ret.
Qed.

Lemma fields_lookup (f : list Z) field : length f = NUM_DESC_FIELDS -> exists v, f !! field_index field = Some v.
Proof. intros Hl. apply lookup_lt_is_Some. rewrite Hl. unfold NUM_DESC_FIELDS, NUM_DESC_FIELDS_PERM, NUM_DESC_FIELDS_TEMP. destruct field; cbn; lia. Qed.

Lemma disc_robot_desc_read field : disc (M := shm_mem) [] (robot_desc_read field) [] (fun _ => True).
Proof.
  unfold robot_desc_read. disc_bind_sem. eapply disc_bind.
  { apply (disc_get _ _ _ (fun _ => True)); [left; held|]. intros f [Hf _].
    destruct (fields_lookup f field Hf) as [v Hv]. exists v. by rewrite (buf_get_done _ _ _ Hv). }
  intros r _. disc_bind_sem. by apply disc_ret.
Qed.

Lemma disc_robot_desc_write field val : disc (M := shm_mem) [] (robot_desc_write field val) [] (fun _ => True).
Proof.
  unfold robot_desc_write. disc_bind_sem. eapply disc_bind.
  { apply disc_upd; [held|]. intros f [Hf Hb]. destruct (fields_lookup f field Hf) as [v Hv].
    exists (<[field_index field := u8 val]> f). split; [apply buf_set_done; by apply lookup_lt_Some in Hv|].
    cbn; split; [by rewrite length_insert | apply Forall_insert; [done | apply u8_range]]. }
  intros _ _. disc_sem.
Qed.

(** The test of the connection that both input functions begin with. *)
Lemma disc_connected L source : RdSem ∈ L ->
  disc (M := shm_mem) L (get RFields (fun f =>
    v ← buf_get f (field_index source); mret (negb (v =? val_index DISCONNECTED)))) L (fun _ => True).
Proof.
  intros Hs. apply disc_get; [by left|]. intros f [Hf _]. destruct (fields_lookup f source Hf) as [v Hv].
  rewrite (buf_get_done _ _ _ Hv), bind_done. by eexists.
Qed.

Lemma disc_input_read b js source : length js = 4%nat ->
  disc (M := shm_mem) [] (input_read b js source) [] (fun r => length (snd r) = 4%nat).
Proof.
  intros Hj. unfold input_read. destruct (negb (is_input source)); [done|]. disc_bind_sem.
  eapply disc_bind; [apply disc_connected; held|]. intros c _.
  destruct (negb c); disc_bind_sem; [by apply disc_ret|]. disc_bind_sem. eapply disc_bind.
  { apply (disc_get _ _ _ (fun r => length (snd r) = 4%nat)); [left; held|]. intros ins [Hl Hjs].
    destruct (lookup_lt_is_Some_2 ins (input_index source)) as [inp Hi].
    { rewrite Hl. unfold input_index. case_decide; lia. }
    rewrite (buf_get_done _ _ _ Hi), bind_done. pose proof (Forall_lookup_1 _ _ _ _ Hjs Hi) as H4. cbn in H4.
    case_decide; [|by eexists]. unfold copy_joysticks. rewrite copy_all_done by done. by eexists. }
  intros [b' js'] Hjs. disc_bind_sem. by apply disc_ret.
Qed.

Lemma disc_input_write b js source : length js = 4%nat ->
  disc (M := shm_mem) [] (input_write b js source) [] (fun _ => True).
Proof.
  intros Hj. unfold input_write. destruct (negb (is_input source)); [done|]. disc_bind_sem.
  eapply disc_bind; [apply disc_connected; held|]. intros c _.
  destruct (negb c); disc_bind_sem; [by apply disc_ret|]. disc_bind_sem. eapply disc_bind.
  { apply disc_upd; [held|]. intros ins [Hl Hjs].
    destruct (lookup_lt_is_Some_2 ins (input_index source)) as [inp Hi].
    { rewrite Hl. unfold input_index. case_decide; lia. }
    rewrite (buf_get_done _ _ _ Hi), bind_done. pose proof (Forall_lookup_1 _ _ _ _ Hjs Hi) as H4. cbn in H4.
    assert (Hset : forall x, buf_set ins (input_index source) x = Done (<[input_index source := x]> ins))
      by (intros x; apply buf_set_done; by apply lookup_lt_Some in Hi).
    case_decide; [unfold copy_joysticks; rewrite copy_all_done by done|]; rewrite bind_done, Hset;
      (eexists; split; [done|]; cbn; split; [by rewrite length_insert | by apply Forall_insert]). }
  intros _ _. disc_bind_sem. by apply disc_ret.
Qed.

Lemma disc_log_data_read names types values :
  length names = UCHAR_MAX -> length types = UCHAR_MAX -> length values = UCHAR_MAX ->
  disc (M := shm_mem) [] (log_data_read names types values) [] (fun _ => True).
Proof.
  intros Hn Ht Hv. unfold log_data_read. disc_bind_sem. eapply disc_bind.
  { apply (disc_get _ _ _ (fun _ => True)); [left; held|]. intros d (Hr & Hln & _ & Hlp & Hlt).
    match goal with |- context [for_range ?k 0 ?body ?s] =>
      destruct (for_range_inv (fun _ '(n, t, v) =>
        length n = UCHAR_MAX /\ length t = UCHAR_MAX /\ length v = UCHAR_MAX) k 0 body s) as (s' & -> & _) end.
    - done.
    - intros i [[n t] v] Hi (H1 & H2 & H3). unfold UCHAR_MAX in *.
      destruct (lookup_lt_is_Some_2 (log_names d) i) as [x Ha]; [lia|].
      destruct (lookup_lt_is_Some_2 (log_types d) i) as [y Hb]; [lia|].
      destruct (lookup_lt_is_Some_2 (log_params d) i) as [z Hc]; [lia|].
      rewrite (buf_get_done _ _ _ Ha), bind_done, buf_set_done, bind_done by lia.
      rewrite (buf_get_done _ _ _ Hb), bind_done, buf_set_done, bind_done by lia.
      rewrite (buf_get_done _ _ _ Hc), bind_done, buf_set_done, bind_done by lia.
      eexists. split; [done|]. cbv beta iota. by rewrite !length_insert.
    - by eexists. }
  intros r _. disc_bind_sem. by apply disc_ret.
Qed.

Lemma disc_then_tt {A} (p : prog A) Q :
  disc (M := shm_mem) [] p [] Q -> disc (M := shm_mem) [] (p ;; mret tt) [] (fun _ => True).
Proof. intros Hp. eapply disc_bind; [exact Hp|]. intros a _. by apply disc_ret. Qed.

Lemma exec_call_disc c : call_ok c -> disc (M := shm_mem) [] (exec_call c) [] (fun _ => True).
Proof.
  destruct c; cbn [call_ok exec_call]; intros Hok;
    repeat match goal with H : _ /\ _ |- _ => destruct H end;
    try (eapply disc_then_tt);
    eauto using disc_device_connect, disc_device_disconnect, disc_device_read, disc_device_read_uid,
      disc_device_write, disc_device_write_uid, disc_place_sub_request, disc_get_sub_requests,
      disc_get_cmd_map, disc_get_device_identifiers, disc_get_catalog, disc_robot_desc_read,
      disc_robot_desc_write, disc_input_read, disc_input_write, disc_log_data_read.
Qed.

Lemma client_disc calls : Forall call_ok calls -> thread_ok (M := shm_mem) [] (client calls).
Proof.
  unfold thread_ok. induction 1 as [|c calls Hc _ IH]; cbn [client]; [by apply disc_ret|].
  eapply disc_bind; [by apply exec_call_disc|]. intros _ _. exact IH.
Qed.

(** ** No call of the wrapper waits for input *)

Lemma calm_find_uid uid k : forall i, calm (M := shm_mem) (find_uid k i uid).
Proof. induction k as [|k IH]; intros i; cbn [find_uid]; unfold test_catalog; calm_tac; apply IH. Qed.

Lemma calm_reset_params ix k : forall i, calm (M := shm_mem) (reset_params k i ix).
Proof. induction k as [|k IH]; intros i; cbn [reset_params]; calm_tac; apply IH. Qed.

Lemma calm_fill_sub_map process k : forall i sub, calm (M := shm_mem) (fill_sub_map k i process sub).
Proof. induction k as [|k IH]; intros i sub; cbn [fill_sub_map]; unfold test_catalog; calm_tac; apply IH. Qed.

#[export] Hint Resolve calm_find_uid calm_reset_params calm_fill_sub_map : calm.

Lemma calm_device_connect id : calm (M := shm_mem) (device_connect id).
Proof. unfold device_connect. calm_tac. Qed.

Lemma calm_device_disconnect ix : calm (M := shm_mem) (device_disconnect ix).
Proof. unfold device_disconnect, sems_index. calm_tac. Qed.

Lemma calm_device_read_helper ix p s mask ps : calm (M := shm_mem) (device_read_helper ix p s mask ps).
Proof. unfold device_read_helper. calm_tac. Qed.

Lemma calm_device_write_helper ix p s mask ps : calm (M := shm_mem) (device_write_helper ix p s mask ps).
Proof. unfold device_write_helper. calm_tac. Qed.

#[export] Hint Resolve calm_device_connect calm_device_disconnect calm_device_read_helper
  calm_device_write_helper : calm.

Lemma calm_device_read ix p s mask ps : calm (M := shm_mem) (device_read ix p s mask ps).
Proof. unfold device_read, shift_index, test_catalog. calm_tac. Qed.

Lemma calm_device_read_uid uid p s mask ps : calm (M := shm_mem) (device_read_uid uid p s mask ps).
Proof. unfold device_read_uid, get_dev_ix_from_uid. calm_tac. Qed.

Lemma calm_device_write ix p s mask ps : calm (M := shm_mem) (device_write ix p s mask ps).
Proof. unfold device_write, shift_index, test_catalog. calm_tac. Qed.

Lemma calm_device_write_uid uid p s mask ps : calm (M := shm_mem) (device_write_uid uid p s mask ps).
Proof. unfold device_write_uid, get_dev_ix_from_uid. calm_tac. Qed.

Lemma calm_place_sub_request uid p mask : calm (M := shm_mem) (place_sub_request uid p mask).
Proof. unfold place_sub_request, get_dev_ix_from_uid. calm_tac. Qed.

Lemma calm_robot_desc_read field : calm (M := shm_mem) (robot_desc_read field).
Proof. unfold robot_desc_read. calm_tac. Qed.

Lemma calm_robot_desc_write field val : calm (M := shm_mem) (robot_desc_write field val).
Proof. unfold robot_desc_write. calm_tac. Qed.

#[export] Hint Resolve calm_device_read calm_device_read_uid calm_device_write calm_device_write_uid
  calm_place_sub_request calm_robot_desc_read calm_robot_desc_write : calm.

Lemma calm_exec_call c : calm (M := shm_mem) (exec_call c).
Proof.
  destruct c; cbn [exec_call]; unfold get_sub_requests, get_cmd_map, get_device_identifiers, get_catalog,
    input_read, input_write, log_data_read; calm_tac.
Qed.

(** ** The theorems *)

(** The processes of the runtime are safe together. Take any number of processes, each
    making any sequence of calls of the wrapper (other than [log_data_write]) with arguments
    of the documented sizes, on memory that [shm_start] has set up. Whatever the interleaving,
    in every state they reach: each block is well-formed (sizes, 32-bit bitmaps, bytes), no
    process is about to fault, two processes access one region at the same time only where
    the code reads the catalog or the identifiers without a semaphore, and if some process
    has not finished, one can move: there is no deadlock. *)
Theorem shm_system_safe old (calls : list (list shm_call)) c :
  mem_wf (M := shm_mem) old -> Forall (Forall call_ok) calls ->
  rtc step (Config (M := shm_mem) (Sys (shm_start old) sems_start) (client <$> calls)) c ->
  safe c.
Proof.
  intros Hold Hcalls. apply disciplined_safe.
  - by apply shm_start_wf.
  - apply sems_start_ok.
  - apply Forall_fmap. eapply Forall_impl; [|exact Hcalls]. intros cs. apply client_disc.
Qed.

Lemma shm_system_safe_witness :
  safe (Config (M := shm_mem) (Sys (shm_start zero_shm) sems_start)
    (client <$> [[CallConnect (DevId 6 1 77); CallGetCmdMap (replicate 33 0)];
                 [CallWriteUid 77 EXECUTOR COMMAND 5 (replicate 32 9)]])).
Proof.
  apply (shm_system_safe zero_shm [[CallConnect (DevId 6 1 77); CallGetCmdMap (replicate 33 0)];
                 [CallWriteUid 77 EXECUTOR COMMAND 5 (replicate 32 9)]]).
  - apply zero_shm_wf.
  - match goal with |- ?P => apply (bool_decide_eq_true_1 P) end. vm_compute. reflexivity.
  - apply rtc_refl.
Defined.

(** No schedule keeps the processes from finishing. For the processes of the theorem
    above: no execution goes on for ever, and one that cannot go on has brought every process
    to its end, so whatever the interleaving all calls complete. *)
Theorem shm_system_finishes old (calls : list (list shm_call)) :
  mem_wf (M := shm_mem) old -> Forall (Forall call_ok) calls ->
  let start := Config (M := shm_mem) (Sys (shm_start old) sems_start) (client <$> calls) in
  Acc (fun c' c => step c c') start /\
  forall c, rtc step start c -> (forall c', ~ step c c') -> forallb finished (c_threads c) = true.
Proof.
  intros Hold Hcalls start. split; [apply step_acc|]. intros c Hc. apply safe_stopped.
  apply (disciplined_safe (M := shm_mem) (Sys (M := shm_mem) (shm_start old) sems_start) (client <$> calls));
    [by apply shm_start_wf | apply sems_start_ok | | exact Hc].
  apply Forall_fmap. eapply Forall_impl; [|exact Hcalls]. intros cs. apply client_disc.
Qed.

Lemma shm_system_finishes_witness :
  let start := Config (M := shm_mem) (Sys (shm_start zero_shm) sems_start)
    (client <$> [[CallConnect (DevId 6 1 77); CallGetCmdMap (replicate 33 0)];
                 [CallWriteUid 77 EXECUTOR COMMAND 5 (replicate 32 9)]]) in
  Acc (fun c' c => step c c') start /\
  forall c, rtc step start c -> (forall c', ~ step c c') -> forallb finished (c_threads c) = true.
Proof.
  apply (shm_system_finishes zero_shm [[CallConnect (DevId 6 1 77); CallGetCmdMap (replicate 33 0)];
                 [CallWriteUid 77 EXECUTOR COMMAND 5 (replicate 32 9)]]).
  - apply zero_shm_wf.
  - match goal with |- ?P => apply (bool_decide_eq_true_1 P) end. vm_compute. reflexivity.
Defined.
