(* ===== verification/ShmSpec.v ===== *)
(** * What the operations of the shared memory wrapper do.

    Each operation run alone, on well-formed blocks with all semaphores free: its result, its
    effect on each block on every branch, and that it gives every semaphore back. On top of
    these: the two hand-offs (commands from the executor to the device handler, subscriptions
    to the device handler), the invariant that only connected devices have pending commands,
    and the behaviours that break under interleaving. *)

From stdpp Require Import gmap strings.
From S2P Require Export ShmLocks.

(** ** The effects *)

(** The command map when the device handler has read [mask] of the device [ix]. *)
Definition cmd_acked (ix : nat) (mask : Z) (l : list Z) : list Z :=
  alter (clear_bits mask) (S ix) (alter (fun v => bit_clear v ix) 0%nat l).

(** The command map when the executor has written [mask] of the device [ix]. *)
Definition cmd_pended (ix : nat) (mask : Z) (l : list Z) : list Z :=
  alter (fun v => Z.lor v mask) (S ix) (alter (fun v => bit_set v ix) 0%nat l).

(** The blocks of memory seen by a specification. *)
Definition cmds (m : shm_t) : list Z := cmd_map (dev_shm m).
Definition cat (m : shm_t) : Z := catalog (dev_shm m).
Definition pars (m : shm_t) (stream : stream_t) (ix : nat) : list param_val_t := shm_load (RParams stream ix) m.
Definition subs (m : shm_t) : list Z * list Z := (net_sub_map (dev_shm m), exec_sub_map (dev_shm m)).
Definition ids (m : shm_t) : list dev_id_t := dev_ids (dev_shm m).

(** The blocks outside the devices' one are as they were. *)
Definition same_rest (m m' : shm_t) : Prop :=
  inputs m' = inputs m /\ fields m' = fields m /\ log_data m' = log_data m.

(** The first connected device with the identifier. *)
Fixpoint uid_index (k i : nat) (c : Z) (l : list dev_id_t) (uid : Z) : option nat :=
  match k with
  | O => None
  | S k' =>
      if bit_on c i && bool_decide (id_uid <$> l !! i = Some uid) then Some i
      else uid_index k' (S i) c l uid
  end.

(** The memory when [id] has been connected at [ix]. *)
Definition connected (ix : nat) (id : dev_id_t) (m : shm_t) : shm_t :=
  let d := dev_shm m in
  set_dev_shm (DevShm (bit_set (catalog d) ix) (cmd_map d)
    (<[S ix := u32 (-1)]> (alter (fun v => bit_set v ix) 0%nat (net_sub_map d)))
    (<[S ix := 0]> (alter (fun v => bit_clear v ix) 0%nat (exec_sub_map d)))
    (<[ix := replicate MAX_PARAMS 0]> (data_params d))
    (<[ix := replicate MAX_PARAMS 0]> (command_params d))
    (<[ix := id]> (dev_ids d))) m.

(** The memory when the device at [ix] has been disconnected. *)
Definition disconnected (ix : nat) (m : shm_t) : shm_t :=
  let d := dev_shm m in
  set_dev_shm (DevShm (bit_clear (catalog d) ix)
    (<[S ix := 0]> (alter (fun v => bit_clear v ix) 0%nat (cmd_map d)))
    (net_sub_map d) (exec_sub_map d) (data_params d) (command_params d) (dev_ids d)) m.

(** What a process sees of element [i] of the subscription maps. *)
Definition sub_val (process : process_t) (i : nat) (maps : list Z * list Z) : Z :=
  let net := default 0 (fst maps !! i) in
  let exec := default 0 (snd maps !! i) in
  match process with NET_HANDLER => net | EXECUTOR => exec | _ => Z.lor net exec end.

(** The subscription maps when [process] has asked for [mask] of the device [ix]. *)
Definition subscribed (process : process_t) (ix : nat) (mask : Z) (maps : list Z * list Z) : list Z * list Z :=
  let cur := if decide (process = NET_HANDLER) then fst maps else snd maps in
  let new := if default 0 (cur !! S ix) =? mask then cur
             else alter (fun v => bit_set v ix) 0%nat (<[S ix := mask]> cur) in
  if decide (process = NET_HANDLER) then (new, snd maps) else (fst maps, new).

(** All semaphores are free. *)
Definition all_free (sm : gmap shm_sem nat) : Prop := forall s, shm_sem_ok s -> sm !! s = Some 1%nat.

(** ** Lists *)

Lemma modify_alter {A} (l : list A) i f : (i < length l)%nat -> modify l i f = Done (alter f i l).
Proof.
  intros Hi. destruct (lookup_lt_is_Some_2 l i Hi) as [v Hv].
  rewrite (modify_done _ _ _ _ Hv). f_equal. symmetry. apply list_eq. intros j.
  destruct (decide (j = i)) as [->|].
  - rewrite list_lookup_alter_eq, Hv, list_lookup_insert_eq by done. done.
  - by rewrite list_lookup_alter_ne, list_lookup_insert_ne.
Qed.

Section Sequential.
Context (sm : gmap shm_sem nat) (Hfree : all_free sm).

Ltac sem_free := apply Hfree; cbn; (done || lia).
Ltac not_held := repeat (apply not_elem_of_cons; split; [discriminate|]); apply not_elem_of_nil.
Ltac run_wait := rewrite (run_wait (M := shm_mem)); [|sem_free | not_held].
Ltac run_post := erewrite (run_post (M := shm_mem)); [|sem_free | held | drop_held].
Ltac run_post_last := erewrite (run_post_last (M := shm_mem)); [|sem_free | held | drop_held].

Ltac cmds_len := unfold cmds in *; cbn; rewrite ?length_alter; lia.

Lemma run_modify_cmds {A} (k : unit -> prog A) m i f s :
  (i < length (cmds m))%nat ->
  run (upd RCmdMap (fun l => modify l i f) ≫= k) (Sys m s) =
  run (k tt) (Sys (shm_store RCmdMap (alter f i (cmds m)) m) s).
Proof. intros Hi. apply (run_upd (M := shm_mem)). by apply modify_alter. Qed.

Lemma read_helper_run m ix process stream mask ps to :
  (ix < MAX_DEVICES)%nat -> length (cmds m) = S MAX_DEVICES ->
  copy_params mask (pars m stream ix) ps = Done to ->
  run (device_read_helper ix process stream mask ps) (Sys m (taken [] sm)) =
  Done (to, Sys (if decide (process = DEV_HANDLER /\ stream = COMMAND)
                 then shm_store RCmdMap (cmd_acked ix mask (cmds m)) m else m) (taken [] sm)).
Proof.
  intros Hix Hl Hc. unfold device_read_helper.
  assert (Hs : sm !! stream_sem stream ix = Some 1%nat) by (apply Hfree; by destruct stream).
  rewrite (run_wait (M := shm_mem)) by (done || apply not_elem_of_nil).
  rewrite (run_get (M := shm_mem) _ _ _ to) by exact Hc.
  case_decide as Hd.
  - destruct Hd as [-> ->]. cbn [stream_sem] in *. rewrite run_bind. run_wait.
    rewrite run_modify_cmds by cmds_len. rewrite run_modify_cmds by cmds_len.
    run_post_last. rewrite bind_done. by run_post.
  - rewrite run_bind, run_ret, bind_done. destruct stream; cbn [stream_sem] in *; by run_post.
Qed.

Lemma write_helper_run m ix process stream mask ps to :
  (ix < MAX_DEVICES)%nat -> length (cmds m) = S MAX_DEVICES ->
  copy_params mask ps (pars m stream ix) = Done to ->
  run (device_write_helper ix process stream mask ps) (Sys m (taken [] sm)) =
  Done (tt, Sys (let m' := shm_store (RParams stream ix) to m in
                 if decide (process = EXECUTOR /\ stream = COMMAND)
                 then shm_store RCmdMap (cmd_pended ix mask (cmds m)) m' else m') (taken [] sm)).
Proof.
  intros Hix Hl Hc. unfold device_write_helper.
  assert (Hs : sm !! stream_sem stream ix = Some 1%nat) by (apply Hfree; by destruct stream).
  rewrite (run_wait (M := shm_mem)) by (done || apply not_elem_of_nil).
  rewrite (run_upd (M := shm_mem) _ (RParams stream ix) _ to) by exact Hc.
  case_decide as Hd.
  - destruct Hd as [-> ->]. cbn [stream_sem] in *. rewrite run_bind. run_wait.
    rewrite run_modify_cmds by cmds_len. rewrite run_modify_cmds by cmds_len.
    run_post_last. rewrite bind_done. by run_post_last.
  - rewrite run_bind, run_ret, bind_done. destruct stream; cbn [stream_sem] in *; by run_post_last.
Qed.

Lemma test_catalog_run {A} (k : bool -> prog A) m ix s :
  run (test_catalog ix ≫= k) (Sys m s) = run (k (bit_on (cat m) ix)) (Sys m s).
Proof. by apply (run_get (M := shm_mem)). Qed.

Lemma find_uid_run m uid s k : forall i,
  (i + k <= length (ids m))%nat ->
  run (find_uid k i uid) (Sys m s) = Done (uid_index k i (cat m) (ids m) uid, Sys m s).
Proof.
  induction k as [|k IH]; intros i Hk; cbn [find_uid uid_index]; [done|].
  rewrite test_catalog_run. destruct (bit_on (cat m) i); [|apply IH; lia].
  destruct (lookup_lt_is_Some_2 (ids m) i) as [d Hd]; [lia|].
  rewrite (run_get (M := shm_mem) _ _ _ (id_uid d)).
  2: { cbn. unfold ids in Hd. by rewrite (buf_get_done _ _ _ Hd). }
  rewrite Hd. cbn [andb fmap option_fmap option_map].
  destruct (Z.eqb_spec (id_uid d) uid) as [->|Hne].
  - by rewrite bool_decide_true.
  - rewrite bool_decide_false by congruence. apply IH. lia.
Qed.

Lemma store_params_twice stream ix v w m :
  shm_store (RParams stream ix) v (shm_store (RParams stream ix) w m) = shm_store (RParams stream ix) v m.
Proof. destruct stream; cbn -[insert]; unfold set_dev_shm; cbn -[insert]; by rewrite list_insert_insert_eq. Qed.

Lemma store_params_comm ix v w m :
  shm_store (RParams DATA ix) v (shm_store (RParams COMMAND ix) w m) =
  shm_store (RParams COMMAND ix) w (shm_store (RParams DATA ix) v m).
Proof. done. Qed.

Lemma shm_store_load r m : shm_store r (shm_load r m) m = m.
Proof. exact (store_load (M := shm_mem) r m). Qed.

Lemma pars_wf m stream ix : mem_wf (M := shm_mem) m -> (ix < MAX_DEVICES)%nat -> params_wf (pars m stream ix).
Proof. intros Hm Hix. exact (Hm (RParams stream ix) Hix). Qed.

Lemma store_params_wf m stream ix v : mem_wf (M := shm_mem) m -> params_wf v ->
  mem_wf (M := shm_mem) (shm_store (RParams stream ix) v m).
Proof. intros Hm Hv. apply (store_wf (M := shm_mem)); [done|]. intros _. exact Hv. Qed.

Lemma pars_store_other ix v m : pars (shm_store (RParams DATA ix) v m) COMMAND ix = pars m COMMAND ix.
Proof. done. Qed.

Lemma pars_store stream ix v m : mem_wf (M := shm_mem) m -> (ix < MAX_DEVICES)%nat ->
  pars (shm_store (RParams stream ix) v m) stream ix = v.
Proof.
  intros Hm Hix. destruct (Hm (RParams stream ix) Hix) as [Hl _]. cbn in Hl.
  assert (Hlt : (ix < length (shm_params (dev_shm m) stream))%nat).
  { destruct (Nat.lt_ge_cases ix (length (shm_params (dev_shm m) stream))) as [|Hge]; [done|].
    by rewrite nth_overflow in Hl. }
  unfold pars. destruct stream; cbn -[insert nth] in *; rewrite nth_insert, decide_True by done; done.
Qed.

(** The loop that zeroes the parameters, from the element [i] on. *)
Lemma reset_params_run ix k : forall i m dr cr s,
  mem_wf (M := shm_mem) m -> (ix < MAX_DEVICES)%nat -> (i + k = MAX_PARAMS)%nat ->
  pars m DATA ix = replicate i 0 ++ dr -> pars m COMMAND ix = replicate i 0 ++ cr ->
  run (reset_params k i ix) (Sys m s) =
  Done (tt, Sys (shm_store (RParams DATA ix) (replicate MAX_PARAMS 0)
              (shm_store (RParams COMMAND ix) (replicate MAX_PARAMS 0) m)) s).
Proof.
  induction k as [|k IH]; intros i m dr cr s Hm Hix Hik Hd Hc; cbn [reset_params];
    destruct (pars_wf m DATA ix Hm Hix) as [Hdl _], (pars_wf m COMMAND ix Hm Hix) as [Hcl _];
    rewrite Hd in Hdl; rewrite Hc in Hcl; rewrite length_app, length_replicate in Hdl, Hcl.
  - destruct dr, cr; try (cbn in *; lia). rewrite app_nil_r, Nat.add_0_r in *. subst i.
    rewrite <- Hd at 1. rewrite <- Hc at 1. rewrite run_ret. do 3 f_equal.
    unfold pars. by rewrite !shm_store_load.
  - destruct dr as [|x dr], cr as [|y cr]; try (cbn in *; lia).
    assert (Happ : forall (l : list Z), (replicate i 0 ++ 0 :: l) = replicate (S i) 0 ++ l)
      by (intros l; by rewrite replicate_S_end, <- app_assoc).
    rewrite (run_upd (M := shm_mem) _ (RParams DATA ix) _ (replicate (S i) 0 ++ dr)).
    2: { cbn [load shm_mem]. fold (pars m DATA ix). by rewrite Hd, buf_set_app, Happ by (by rewrite length_replicate). }
    rewrite (run_upd (M := shm_mem) _ (RParams COMMAND ix) _ (replicate (S i) 0 ++ cr)).
    2: { transitivity (buf_set (pars m COMMAND ix) i 0); [done|].
         by rewrite Hc, buf_set_app, Happ by (by rewrite length_replicate). }
    assert (Hw0 : forall l (z : Z), params_wf (replicate i 0 ++ z :: l) -> params_wf (replicate (S i) 0 ++ l)).
    { intros l z [Hl Hw]. rewrite <- Happ. split; [list_lia|].
      apply Forall_app in Hw as [Hw1 Hw2]. apply Forall_app_2; [done|].
      apply Forall_cons_1 in Hw2 as [_ Hw2]. constructor; [apply word32_0 | done]. }
    pose proof (pars_wf m DATA ix Hm Hix) as Hpd. rewrite Hd in Hpd. apply Hw0 in Hpd.
    pose proof (pars_wf m COMMAND ix Hm Hix) as Hpc. rewrite Hc in Hpc. apply Hw0 in Hpc.
    pose proof (store_params_wf m DATA ix _ Hm Hpd) as Hm1.
    cbn [store shm_mem]. rewrite <- store_params_comm.
    rewrite (IH (S i) _ dr cr); [| | done | lia | |].
    + rewrite (store_params_comm ix (replicate (S i) 0 ++ dr)), store_params_twice.
      by rewrite !store_params_comm, store_params_twice.
    + rewrite store_params_comm. by apply store_params_wf.
    + rewrite pars_store; [done | by apply store_params_wf | done].
    + rewrite store_params_comm, pars_store; done.
Qed.

(** Updates of the two subscription maps, one element at a time. *)
Lemma run_exec_map {A} (k : unit -> prog A) m f e' s :
  f (snd (subs m)) = Done e' ->
  run (upd RSubMap (fun '(net, exec) => exec ← f exec; mret (net, exec)) ≫= k) (Sys m s) =
  run (k tt) (Sys (shm_store RSubMap (fst (subs m), e') m) s).
Proof. intros Hf. apply (run_upd (M := shm_mem)). cbn in *. by rewrite Hf. Qed.

Lemma run_net_map {A} (k : unit -> prog A) m f n' s :
  f (fst (subs m)) = Done n' ->
  run (upd RSubMap (fun '(net, exec) => net ← f net; mret (net, exec)) ≫= k) (Sys m s) =
  run (k tt) (Sys (shm_store RSubMap (n', snd (subs m)) m) s).
Proof. intros Hf. apply (run_upd (M := shm_mem)). cbn in *. by rewrite Hf. Qed.

Lemma run_ids {A} (k : unit -> prog A) m ix f s :
  (ix < length (ids m))%nat ->
  run (upd RDevIds (fun l => modify l ix f) ≫= k) (Sys m s) =
  run (k tt) (Sys (shm_store RDevIds (alter f ix (ids m)) m) s).
Proof. intros Hl. apply (run_upd (M := shm_mem)). by apply modify_alter. Qed.

(** The three assignments that fill in an identifier. *)
Lemma alter_ids (l : list dev_id_t) ix id : (ix < length l)%nat ->
  alter (fun d => DevId (id_type d) (id_year d) (id_uid id)) ix
    (alter (fun d => DevId (id_type d) (id_year id) (id_uid d)) ix
      (alter (fun d => DevId (id_type id) (id_year d) (id_uid d)) ix l)) = <[ix := id]> l.
Proof.
  intros Hl. destruct (lookup_lt_is_Some_2 l ix Hl) as [d Hd]. apply list_eq. intros j.
  destruct (decide (j = ix)) as [->|Hj].
  - rewrite !list_lookup_alter_eq, Hd, list_lookup_insert_eq by done. by destruct id.
  - by rewrite !list_lookup_alter_ne, list_lookup_insert_ne.
Qed.

Lemma device_connect_run id m :
  mem_wf (M := shm_mem) m ->
  run (device_connect id) (Sys m (taken [] sm)) =
  match find_free MAX_DEVICES 0 (cat m) with
  | None => Done (None, Sys m (taken [] sm))
  | Some ix => Done (Some ix, Sys (connected ix id m) (taken [] sm))
  end.
Proof.
  intros Hm. unfold device_connect. run_wait.
  rewrite (run_get (M := shm_mem) _ _ _ (find_free MAX_DEVICES 0 (cat m))) by done.
  pose proof (find_free_spec MAX_DEVICES (cat m) 0) as Hf.
  destruct (find_free MAX_DEVICES 0 (cat m)) as [ix|]; [|by run_post].
  destruct Hf as (Hix & _). assert (Hlt : (ix < MAX_DEVICES)%nat) by lia.
  pose proof (Hm RDevIds) as Hids. cbn in Hids. pose proof (Hm RSubMap) as [[Hnl _] [Hel _]]. cbn in Hnl, Hel.
  do 3 run_wait. do 3 (rewrite run_ids; [|unfold ids; cbn; rewrite ?length_alter; lia]).
  rewrite (run_upd (M := shm_mem) _ RCatalog _ (bit_set (cat m) ix)) by done.
  match goal with |- run (_ ≫= ?k) (Sys ?m0 ?s0) = _ => set (m1 := m0); set (k1 := k) end.
  assert (Hm1 : mem_wf (M := shm_mem) m1).
  { subst m1. repeat apply (store_wf (M := shm_mem)); try done; cbn; unfold ids; cbn;
      rewrite ?length_alter; try lia. apply word32_set; [apply (Hm RCatalog) | exact Hlt]. }
  rewrite (run_then (M := shm_mem) _ _ _ _ _
    (reset_params_run ix MAX_PARAMS 0 m1 (pars m DATA ix) (pars m COMMAND ix) _ Hm1 Hlt eq_refl eq_refl eq_refl)).
  subst k1 m1. cbv beta.
  erewrite (run_exec_map _ _ (fun l => modify l 0 _)); [|apply modify_alter; unfold subs; cbn; lia].
  erewrite (run_exec_map _ _ (fun l => buf_set l (S ix) 0)); [|apply buf_set_done; unfold subs; cbn; rewrite length_alter; lia].
  erewrite (run_net_map _ _ (fun l => modify l 0 _)); [|apply modify_alter; unfold subs; cbn; lia].
  erewrite (run_net_map _ _ (fun l => buf_set l (S ix) _)); [|apply buf_set_done; unfold subs; cbn; rewrite length_alter; lia].
  do 4 run_post. rewrite run_ret. do 3 f_equal. unfold connected, ids, subs, cat.
  cbn -[alter insert u32 replicate]. unfold set_dev_shm. cbn -[alter insert u32 replicate].
  rewrite alter_ids by lia. reflexivity.
Qed.

Lemma device_disconnect_run ix m :
  mem_wf (M := shm_mem) m -> 0 <= ix < 32 ->
  run (device_disconnect ix) (Sys m (taken [] sm)) =
  Done (tt, Sys (disconnected (Z.to_nat ix) m) (taken [] sm)).
Proof.
  intros Hm Hix. unfold device_disconnect, sems_index. run_wait. change (Z.of_nat MAX_DEVICES) with 32.
  rewrite (proj2 (Z.leb_le 0 ix)), (proj2 (Z.ltb_lt ix 32)) by lia. cbn [andb].
  set (i := Z.to_nat ix). assert (Hi : (i < MAX_DEVICES)%nat) by (unfold i, MAX_DEVICES; lia).
  pose proof (Hm RCmdMap) as [Hl _]. cbn in Hl. do 3 run_wait.
  rewrite (run_upd (M := shm_mem) _ RCatalog _ (bit_clear (cat m) i)) by done.
  rewrite run_modify_cmds by cmds_len.
  rewrite (run_upd (M := shm_mem) _ RCmdMap _ (<[S i := 0]> (alter (fun v => bit_clear v i) 0%nat (cmds m)))).
  2: { apply buf_set_done. cmds_len. }
  do 3 run_post. run_post_last. reflexivity.
Qed.

Lemma sub_entry_val process i net exec :
  map_wf net -> map_wf exec -> (i <= MAX_DEVICES)%nat ->
  sub_entry process i (net, exec) = Done (sub_val process i (net, exec)).
Proof.
  intros Hn He Hi. destruct (map_wf_lookup net i Hn Hi) as (a & Ha & _).
  destruct (map_wf_lookup exec i He Hi) as (b & Hb & _). unfold sub_entry, sub_val. cbn [fst snd].
  rewrite (buf_get_done _ _ _ Ha), (buf_get_done _ _ _ Hb), !bind_done, Ha, Hb. by destruct process.
Qed.

Lemma fill_sub_map_run process k : forall i sub z m s,
  mem_wf (M := shm_mem) m -> map_sized sub -> (1 <= i)%nat -> (i + k <= S MAX_DEVICES)%nat ->
  sub !! 0%nat = Some z ->
  exists sub' z', run (fill_sub_map k i process sub) (Sys m s) = Done (sub', Sys m s) /\
    map_sized sub' /\ sub' !! 0%nat = Some z' /\
    (forall b, bit_on z' b = bit_on z b && (bit_on (cat m) b || negb (between i k (S b)))) /\
    (forall j, (1 <= j)%nat -> sub' !! j = if between i k j
       then Some (if bit_on (cat m) (j - 1) then sub_val process j (subs m) else 0) else sub !! j).
Proof.
  induction k as [|k IH]; intros i sub z m s Hm Hs Hi Hk Hz; cbn [fill_sub_map].
  { exists sub, z. split; [done|]. split; [done|]. split; [done|].
    split; [intros b | intros j _]; rewrite between_0; [|done]. cbn. by rewrite orb_true_r, andb_true_r. }
  rewrite test_catalog_run. unfold map_sized in *.
  pose proof (Hm RSubMap) as [Hn He]. cbn in Hn, He.
  set (z1 := if bit_on (cat m) (i - 1) then z else bit_clear z (i - 1)).
  set (sub1 := <[i := if bit_on (cat m) (i - 1) then sub_val process i (subs m) else 0]> (<[0%nat := z1]> sub)).
  assert (Hs1 : length sub1 = S MAX_DEVICES) by (unfold sub1; by rewrite !length_insert).
  assert (Hz1 : sub1 !! 0%nat = Some z1).
  { unfold sub1. rewrite list_lookup_insert_ne by lia. apply list_lookup_insert_eq. lia. }
  assert (Hrest : forall j, (1 <= j)%nat -> j ≠ i -> sub1 !! j = sub !! j).
  { intros j Hj Hne. unfold sub1. by rewrite !list_lookup_insert_ne by lia. }
  assert (Hat : sub1 !! i = Some (if bit_on (cat m) (i - 1) then sub_val process i (subs m) else 0)).
  { unfold sub1. apply list_lookup_insert_eq. rewrite length_insert. lia. }
  match goal with |- exists a b, run (?p ≫= ?k1) _ = _ /\ _ =>
    assert (Hp : run p (Sys m s) = Done (sub1, Sys m s)) end.
  { unfold sub1, z1. destruct (bit_on (cat m) (i - 1)); apply (run_get_last (M := shm_mem)).
    - cbn [load shm_mem shm_load]. rewrite sub_entry_val, bind_done by (done || lia).
      rewrite (list_insert_id sub 0 z) by done. apply buf_set_done. lia.
    - rewrite (modify_done _ _ _ _ Hz), bind_done. apply buf_set_done. rewrite length_insert. lia. }
  rewrite (run_then (M := shm_mem) _ _ _ _ _ Hp).
  destruct (IH (S i) sub1 z1 m s Hm Hs1) as (sub' & z' & Hr & Hl & Hz' & Hb & Hj); [lia | lia | done |].
  exists sub', z'. split; [exact Hr|]. split; [done|]. split; [done|].
  split.
  - intros b. rewrite Hb. unfold z1. destruct (decide (S b = i)) as [Hbi|Hbi].
    + rewrite Hbi, between_past, between_here. replace (i - 1)%nat with b by lia. cbn [negb]. rewrite orb_true_r, orb_false_r, andb_true_r.
      destruct (bit_on (cat m) b); [by rewrite andb_true_r | by rewrite bit_on_clear_eq, andb_false_r].
    + rewrite between_S by done. destruct (bit_on (cat m) (i - 1)); [done|]. by rewrite bit_on_clear_ne by lia.
  - intros j Hj1. rewrite Hj by done. destruct (decide (j = i)) as [->|Hne].
    + by rewrite between_past, between_here.
    + rewrite between_S by done. by rewrite Hrest.
Qed.

Lemma get_cmd_map_run m bm :
  mem_wf (M := shm_mem) m -> map_sized bm ->
  run (get_cmd_map bm) (Sys m (taken [] sm)) = Done (cmds m, Sys m (taken [] sm)).
Proof.
  intros Hm Hb. pose proof (Hm RCmdMap) as [Hl _]. cbn in Hl. unfold get_cmd_map. run_wait.
  rewrite (run_get (M := shm_mem) _ _ _ (cmds m)) by (by apply copy_all_done). by run_post.
Qed.

(** A request from the network handler or the executor for the connected device [ix]. *)
Lemma place_sub_request_run m uid process mask ix :
  mem_wf (M := shm_mem) m -> process = NET_HANDLER \/ process = EXECUTOR -> (ix < MAX_DEVICES)%nat ->
  uid_index MAX_DEVICES 0 (cat m) (ids m) uid = Some ix ->
  run (place_sub_request uid process mask) (Sys m (taken [] sm)) =
  Done (0, Sys (shm_store RSubMap (subscribed process ix mask (subs m)) m) (taken [] sm)).
Proof.
  intros Hm Hp Hix Hu. unfold place_sub_request.
  replace (bool_decide (process = NET_HANDLER) || bool_decide (process = EXECUTOR)) with true
    by (by destruct Hp as [-> | ->]).
  cbn [negb]. pose proof (Hm RDevIds) as Hids. cbn in Hids.
  rewrite (run_then (M := shm_mem) _ _ _ _ _ (find_uid_run m uid _ MAX_DEVICES 0 ltac:(unfold ids; lia))), Hu.
  run_wait. pose proof (Hm RSubMap) as [[Hnl _] [Hel _]]. cbn in Hnl, Hel.
  rewrite (run_upd (M := shm_mem) _ RSubMap _ (subscribed process ix mask (subs m))); [by run_post|].
  cbn [load shm_mem shm_load]. unfold subscribed, subs. cbn [fst snd].
  set (cur := if decide (process = NET_HANDLER) then _ else _).
  assert (Hl : length cur = S MAX_DEVICES) by (unfold cur; by case_decide).
  destruct (lookup_lt_is_Some_2 cur (S ix)) as [v Hv]; [lia|].
  rewrite (buf_get_done _ _ _ Hv), bind_done, Hv.
  change (default 0 (Some v)) with v. destruct (v =? mask).
  - unfold cur. destruct Hp as [-> | ->]; reflexivity.
  - rewrite buf_set_done, bind_done by lia. rewrite modify_alter, bind_done by (rewrite length_insert; lia).
    unfold cur. destruct Hp as [-> | ->]; reflexivity.
Qed.

(** What the device handler collects, and that it resets the indicators. *)
Lemma get_sub_requests_run m sub :
  mem_wf (M := shm_mem) m -> map_sized sub ->
  let changed := sub_val DEV_HANDLER 0 (subs m) in
  exists sub' m', run (get_sub_requests sub DEV_HANDLER) (Sys m (taken [] sm)) =
      Done (sub', Sys m' (taken [] sm)) /\
    (if changed =? 0 then sub' = <[0%nat := 0]> sub /\ m' = m
     else m' = shm_store RSubMap (<[0%nat := 0]> (fst (subs m)), <[0%nat := 0]> (snd (subs m))) m /\
       (exists z, sub' !! 0%nat = Some z /\ forall b, (b < 32)%nat -> bit_on z b = bit_on changed b && bit_on (cat m) b) /\
       forall i, (i < MAX_DEVICES)%nat -> sub' !! S i =
         Some (if bit_on (cat m) i then sub_val DEV_HANDLER (S i) (subs m) else 0)).
Proof.
  intros Hm Hs changed. pose proof (Hm RSubMap) as [Hn He]. cbn in Hn, He. unfold map_sized in Hs.
  unfold get_sub_requests. run_wait.
  rewrite (run_get (M := shm_mem) _ _ _ (<[0%nat := changed]> sub)).
  2: { cbn [load shm_mem shm_load]. rewrite sub_entry_val, bind_done by (done || lia).
       apply buf_set_done. lia. }
  rewrite list_lookup_insert_eq by lia. rewrite (bool_decide_eq_true_2 (DEV_HANDLER = DEV_HANDLER)) by done.
  rewrite andb_true_r. destruct (Z.eqb_spec changed 0) as [Hz|Hz].
  { rewrite bool_decide_true by congruence. run_post. rewrite run_ret. rewrite Hz. by eexists _, _. }
  rewrite bool_decide_false by congruence.
  destruct (fill_sub_map_run DEV_HANDLER MAX_DEVICES 1 (<[0%nat := changed]> sub) changed m
    (taken (M := shm_mem) [SubMapSem] sm) Hm) as (sub' & z & Hr & Hl & Hz0 & Hb & Hj).
  { unfold map_sized. by rewrite length_insert. } { lia. } { lia. } { apply list_lookup_insert_eq. lia. }
  rewrite (run_then (M := shm_mem) _ _ _ _ _ Hr), decide_True by done.
  rewrite (run_upd (M := shm_mem) _ RSubMap _ (<[0%nat := 0]> (fst (subs m)), <[0%nat := 0]> (snd (subs m)))).
  2: { destruct Hn as [Hnl _], He as [Hel _]. cbn [load shm_mem shm_load].
       by rewrite !buf_set_done, !bind_done by lia. }
  run_post. rewrite run_ret. eexists _, _. split; [done|]. split; [done|]. split.
  - exists z. split; [done|]. intros b Hb32. rewrite Hb.
    rewrite (proj2 (between_true 1 MAX_DEVICES (S b))) by (unfold MAX_DEVICES; lia).
    cbn [negb]. by rewrite orb_false_r.
  - intros i Hi. rewrite Hj by lia.
    rewrite (proj2 (between_true 1 MAX_DEVICES (S i))) by (unfold MAX_DEVICES in *; lia).
    by rewrite Nat.sub_1_r, Nat.pred_succ.
Qed.

End Sequential.

(** A concrete state for the witnesses: one device connected. *)
Definition demo : shm_t := connected 0 (DevId 6 1 77) (shm_start zero_shm).

Lemma demo_start_wf : mem_wf (M := shm_mem) (shm_start zero_shm).
Proof. apply shm_start_wf, zero_shm_wf. Qed.

Lemma first_connected_wf id : mem_wf (M := shm_mem) (connected 0 id (shm_start zero_shm)).
Proof.
  destruct (disc_run_calm (M := shm_mem) (device_connect id) sems_start sems_start_ok (calm_device_connect _) [] [] _
    (shm_start zero_shm) (Forall_nil_2 _) (disc_device_connect _) demo_start_wf) as [(a & m' & Hr & _ & Hm)|Hr];
    rewrite (device_connect_run sems_start sems_start_ok _ _ demo_start_wf) in Hr; [|done].
  apply done_pair in Hr as [_ Hr]. apply (f_equal mem) in Hr. cbn [mem] in Hr. rewrite <- Hr in Hm. exact Hm.
Qed.

Lemma demo_wf : mem_wf (M := shm_mem) demo.
Proof. apply first_connected_wf. Qed.

(** ** Connecting *)

(** [device_connect] takes the lowest free index, or refuses when all 32 are taken and
    then changes nothing. On success it turns on exactly that bit of the catalog, stores the
    identifier, zeroes the data and commands of the device alone, subscribes the network
    handler to everything and the executor to nothing, leaves the pending commands as they
    were, and gives every semaphore back. *)
Theorem device_connect_spec sm id m :
  all_free sm -> mem_wf (M := shm_mem) m ->
  (run (device_connect id) (Sys m sm) = Done (None, Sys m sm) /\
   forall i, (i < 32)%nat -> bit_on (cat m) i = true) \/
  exists ix m', run (device_connect id) (Sys m sm) = Done (Some ix, Sys m' sm) /\
    (ix < 32)%nat /\ bit_on (cat m) ix = false /\ (forall j, (j < ix)%nat -> bit_on (cat m) j = true) /\
    cat m' = bit_set (cat m) ix /\
    (forall j, ids m' !! j = if decide (j = ix) then Some id else ids m !! j) /\
    (forall stream j, (j < 32)%nat ->
       pars m' stream j = if decide (j = ix) then replicate MAX_PARAMS 0 else pars m stream j) /\
    fst (subs m') !! S ix = Some (2 ^ 32 - 1) /\ snd (subs m') !! S ix = Some 0 /\
    bit_on (default 0 (fst (subs m') !! 0%nat)) ix = true /\
    bit_on (default 0 (snd (subs m') !! 0%nat)) ix = false /\
    cmds m' = cmds m /\ same_rest m m'.
Proof.
  intros Hf Hm. pose proof (device_connect_run sm Hf id m Hm) as Hr. cbn [taken foldr] in Hr.
  pose proof (find_free_spec MAX_DEVICES (cat m) 0) as Hff.
  destruct (find_free MAX_DEVICES 0 (cat m)) as [ix|]; unfold MAX_DEVICES in Hff.
  2: { left. split; [done|]. intros i Hi. apply Hff. lia. }
  destruct Hff as (Hix & Hoff & Hlow). right. exists ix, (connected ix id m).
  assert (Hlt : (ix < MAX_DEVICES)%nat) by (unfold MAX_DEVICES; lia).
  pose proof (Hm RDevIds) as Hids. cbn in Hids. pose proof (Hm RSubMap) as [[Hnl _] [Hel _]]. cbn in Hnl, Hel.
  split; [exact Hr|]. split; [lia|]. split; [done|]. split; [intros; apply Hlow; lia|].
  split; [done|]. split; [|split; [|repeat split]].
  - intros j. unfold connected, ids. cbn [dev_ids dev_shm set_dev_shm]. case_decide as Hj.
    + subst. apply list_lookup_insert_eq. lia.
    + by apply list_lookup_insert_ne.
  - intros stream j Hj. assert (Hjlt : (j < MAX_DEVICES)%nat) by (unfold MAX_DEVICES; lia).
    destruct (pars_wf m stream ix Hm Hlt) as [Hrow _].
    assert (Hlen : (ix < length (shm_params (dev_shm m) stream))%nat).
    { destruct (Nat.lt_ge_cases ix (length (shm_params (dev_shm m) stream))) as [|Hge]; [done|].
      unfold pars in Hrow. cbn in Hrow. by rewrite nth_overflow in Hrow. }
    unfold pars, connected. destruct stream; cbn -[insert nth replicate] in *; rewrite nth_insert;
      (destruct (decide (j = ix)) as [->|Hne]; [by rewrite decide_True | by rewrite decide_False by tauto]).
  - cbn -[alter insert]. by rewrite list_lookup_insert_eq by (rewrite length_alter; lia).
  - cbn -[alter insert]. by rewrite list_lookup_insert_eq by (rewrite length_alter; lia).
  - cbn -[alter insert]. rewrite list_lookup_insert_ne, list_lookup_alter_eq by lia.
    destruct (lookup_lt_is_Some_2 (net_sub_map (dev_shm m)) 0) as [v ->]; [lia|]. cbn. apply bit_on_set_eq.
  - cbn -[alter insert]. rewrite list_lookup_insert_ne, list_lookup_alter_eq by lia.
    destruct (lookup_lt_is_Some_2 (exec_sub_map (dev_shm m)) 0) as [v ->]; [lia|]. cbn. apply bit_on_clear_eq.
Qed.

Lemma device_connect_spec_witness :
  (run (device_connect (DevId 5 1 78)) (Sys demo sems_start) = Done (None, Sys demo sems_start) /\
   forall i, (i < 32)%nat -> bit_on (cat demo) i = true) \/
  exists ix m', run (device_connect (DevId 5 1 78)) (Sys demo sems_start) = Done (Some ix, Sys m' sems_start) /\
    (ix < 32)%nat /\ bit_on (cat demo) ix = false /\ (forall j, (j < ix)%nat -> bit_on (cat demo) j = true) /\
    cat m' = bit_set (cat demo) ix /\
    (forall j, ids m' !! j = if decide (j = ix) then Some (DevId 5 1 78) else ids demo !! j) /\
    (forall stream j, (j < 32)%nat ->
       pars m' stream j = if decide (j = ix) then replicate MAX_PARAMS 0 else pars demo stream j) /\
    fst (subs m') !! S ix = Some (2 ^ 32 - 1) /\ snd (subs m') !! S ix = Some 0 /\
    bit_on (default 0 (fst (subs m') !! 0%nat)) ix = true /\
    bit_on (default 0 (snd (subs m') !! 0%nat)) ix = false /\
    cmds m' = cmds demo /\ same_rest demo m'.
Proof. apply (device_connect_spec sems_start (DevId 5 1 78) demo sems_start_ok demo_wf). Defined.

(** ** Commands *)

(** The executor writes a command, the device handler looks at the command map and reads
    what the map says has changed. *)
Definition command_handoff (ix : nat) (mask : Z) (vals out : list param_val_t)
  : prog (Z * list Z * (Z * list param_val_t)) :=
  r ← device_write (Z.of_nat ix) EXECUTOR COMMAND mask vals;
  bm ← get_cmd_map (replicate (S MAX_DEVICES) 0);
  got ← device_read (Z.of_nat ix) DEV_HANDLER COMMAND (nth (S ix) bm 0) out;
  mret (r, bm, got).

Lemma shift_index_nat {A} ix (k : nat -> prog A) : (ix < MAX_DEVICES)%nat -> shift_index (Z.of_nat ix) k = k ix.
Proof.
  intros Hix. unfold shift_index. rewrite (proj2 (Z.leb_le 0 _)), (proj2 (Z.ltb_lt _ _)) by lia.
  cbn [andb]. by rewrite Nat2Z.id.
Qed.

(** A write of an executor's command, on a connected device. *)
Lemma device_write_command_run sm ix mask vals m :
  all_free sm -> mem_wf (M := shm_mem) m -> (ix < MAX_DEVICES)%nat -> params_wf vals ->
  bit_on (cat m) ix = true ->
  exists to, copy_params mask vals (pars m COMMAND ix) = Done to /\ params_wf to /\
    (forall i, (i < MAX_PARAMS)%nat -> to !! i = if bit_on mask i then vals !! i else pars m COMMAND ix !! i) /\
    run (device_write (Z.of_nat ix) EXECUTOR COMMAND mask vals) (Sys m sm) =
    Done (0, Sys (shm_store RCmdMap (cmd_pended ix mask (cmds m)) (shm_store (RParams COMMAND ix) to m)) sm).
Proof.
  intros Hf Hm Hix Hv Hon. pose proof (Hm RCmdMap) as [Hl _]. cbn in Hl.
  pose proof (pars_wf m COMMAND ix Hm Hix) as Hp.
  destruct (copy_params_wf mask vals _ Hv Hp) as (to & Hc & Hto).
  destruct Hv as [Hvl _], Hp as [Hpl _].
  destruct (copy_params_spec mask vals _ Hvl Hpl) as (to' & Hc' & _ & Hspec).
  rewrite Hc in Hc'. injection Hc' as <-. exists to. split; [done|]. split; [done|]. split; [exact Hspec|].
  unfold device_write. rewrite shift_index_nat by done. rewrite test_catalog_run, Hon.
  change sm with (taken (M := shm_mem) [] sm) at 1.
  by rewrite (run_then (M := shm_mem) _ _ _ _ _
    (write_helper_run sm Hf m ix EXECUTOR COMMAND mask vals to Hix Hl Hc)).
Qed.

Lemma device_read_command_run sm ix mask out m :
  all_free sm -> mem_wf (M := shm_mem) m -> (ix < MAX_DEVICES)%nat -> params_wf out ->
  bit_on (cat m) ix = true ->
  exists to, params_wf to /\
    (forall i, (i < MAX_PARAMS)%nat -> to !! i = if bit_on mask i then pars m COMMAND ix !! i else out !! i) /\
    run (device_read (Z.of_nat ix) DEV_HANDLER COMMAND mask out) (Sys m sm) =
    Done ((0, to), Sys (shm_store RCmdMap (cmd_acked ix mask (cmds m)) m) sm).
Proof.
  intros Hf Hm Hix Ho Hon. pose proof (Hm RCmdMap) as [Hl _]. cbn in Hl.
  pose proof (pars_wf m COMMAND ix Hm Hix) as Hp.
  destruct (copy_params_wf mask _ _ Hp Ho) as (to & Hc & Hw). destruct Hp as [Hpl _], Ho as [Hvl _].
  destruct (copy_params_spec mask _ _ Hpl Hvl) as (to' & Hc' & _ & Hspec).
  rewrite Hc in Hc'. injection Hc' as <-. exists to. split; [exact Hw|]. split; [exact Hspec|].
  unfold device_read. rewrite shift_index_nat by done. rewrite test_catalog_run, Hon.
  change sm with (taken (M := shm_mem) [] sm) at 1.
  by rewrite (run_then (M := shm_mem) _ _ _ _ _
    (read_helper_run sm Hf m ix DEV_HANDLER COMMAND mask out to Hix Hl Hc)).
Qed.

Lemma cmd_pended_wf ix mask l : word32 mask -> (ix < MAX_DEVICES)%nat -> map_wf l -> map_wf (cmd_pended ix mask l).
Proof.
  intros Hm Hix [Hl Hw]. unfold cmd_pended. split; [by rewrite !length_alter|].
  apply Forall_alter; [apply Forall_alter; [done|] |]; auto with words.
Qed.

Lemma cmd_pended_lookup ix mask l : (S ix < length l)%nat -> exists v, l !! S ix = Some v /\
  cmd_pended ix mask l !! S ix = Some (Z.lor v mask).
Proof.
  intros Hl. destruct (lookup_lt_is_Some_2 l (S ix) Hl) as [v Hv]. exists v. split; [done|].
  unfold cmd_pended. rewrite list_lookup_alter_eq, list_lookup_alter_ne, Hv by lia. done.
Qed.

Lemma cmd_pended_flag ix mask l : (0 < length l)%nat ->
  exists v, l !! 0%nat = Some v /\ cmd_pended ix mask l !! 0%nat = Some (bit_set v ix).
Proof.
  intros Hl. destruct (lookup_lt_is_Some_2 l 0 Hl) as [v Hv]. exists v. split; [done|].
  unfold cmd_pended. by rewrite list_lookup_alter_ne, list_lookup_alter_eq, Hv by lia.
Qed.

Lemma clear_bits_all v mask : word32 v -> (forall i, bit_on v i = true -> bit_on mask i = true) -> clear_bits mask v = 0.
Proof.
  intros Hv Hsub. apply word32_ext; [by apply word32_clear_bits | apply word32_0 |].
  intros i _. unfold clear_bits. rewrite bit_on_andnot, bit_on_0.
  destruct (bit_on v i) eqn:E; [|done]. by rewrite (Hsub i E).
Qed.

Lemma nth_alter_eq {A} (l : list A) i f d : (i < length l)%nat -> nth i (alter f i l) d = f (nth i l d).
Proof.
  intros Hi. destruct (lookup_lt_is_Some_2 l i Hi) as [v Hv].
  by rewrite !nth_lookup, list_lookup_alter_eq, Hv.
Qed.

Lemma nth_alter_ne {A} (l : list A) i j f d : i ≠ j -> nth j (alter f i l) d = nth j l d.
Proof. intros Hne. by rewrite !nth_lookup, list_lookup_alter_ne. Qed.

Lemma map_wf_nth l i : map_wf l -> word32 (nth i l 0).
Proof.
  intros [_ Hw]. rewrite nth_lookup. destruct (l !! i) as [v|] eqn:E; cbn; [|apply word32_0].
  by eapply Forall_lookup_1.
Qed.

(** The two maps of commands, element by element. *)
Lemma nth_pended ix mask l : (S ix < length l)%nat ->
  nth 0 (cmd_pended ix mask l) 0 = bit_set (nth 0 l 0) ix /\
  nth (S ix) (cmd_pended ix mask l) 0 = Z.lor (nth (S ix) l 0) mask /\
  forall j, j ≠ ix -> nth (S j) (cmd_pended ix mask l) 0 = nth (S j) l 0.
Proof.
  intros Hl. unfold cmd_pended. split; [|split].
  - by rewrite nth_alter_ne, nth_alter_eq by lia.
  - by rewrite nth_alter_eq, nth_alter_ne by (rewrite ?length_alter; lia).
  - intros j Hj. by rewrite !nth_alter_ne by lia.
Qed.

Lemma nth_acked ix mask l : (S ix < length l)%nat ->
  nth 0 (cmd_acked ix mask l) 0 = bit_clear (nth 0 l 0) ix /\
  nth (S ix) (cmd_acked ix mask l) 0 = clear_bits mask (nth (S ix) l 0) /\
  forall j, j ≠ ix -> nth (S j) (cmd_acked ix mask l) 0 = nth (S j) l 0.
Proof.
  intros Hl. unfold cmd_acked. split; [|split].
  - by rewrite nth_alter_ne, nth_alter_eq by lia.
  - by rewrite nth_alter_eq, nth_alter_ne by (rewrite ?length_alter; lia).
  - intros j Hj. by rewrite !nth_alter_ne by lia.
Qed.

(** A store of a command and of the command map keeps the blocks well-formed. *)
Lemma command_stored_wf m ix to l :
  mem_wf (M := shm_mem) m -> params_wf to -> map_wf l ->
  mem_wf (M := shm_mem) (shm_store RCmdMap l (shm_store (RParams COMMAND ix) to m)).
Proof.
  intros Hm Hto Hl. apply (store_wf (M := shm_mem)); [|exact Hl]. by apply store_params_wf.
Qed.

(** A command reaches the device handler. On a connected device, after the executor's
    [device_write], [get_cmd_map] shows the device as changed with the written parameters
    added to those still pending; reading what the map shows gives the handler the values
    written, and nothing else of its array changes; afterwards nothing is pending for the
    device and the other devices' entries are as before. *)
Theorem command_delivery sm ix mask vals out m :
  all_free sm -> mem_wf (M := shm_mem) m -> (ix < MAX_DEVICES)%nat -> bit_on (cat m) ix = true ->
  word32 mask -> params_wf vals -> params_wf out ->
  exists bm got m', run (command_handoff ix mask vals out) (Sys m sm) =
      Done (0, bm, (0, got), Sys m' sm) /\
    bit_on (nth 0 bm 0) ix = true /\ nth (S ix) bm 0 = Z.lor (nth (S ix) (cmds m) 0) mask /\
    (forall i, (i < MAX_PARAMS)%nat -> bit_on mask i = true -> got !! i = vals !! i) /\
    (forall i, (i < MAX_PARAMS)%nat -> bit_on (nth (S ix) bm 0) i = false -> got !! i = out !! i) /\
    bit_on (nth 0 (cmds m') 0) ix = false /\ nth (S ix) (cmds m') 0 = 0 /\
    (forall j, j ≠ ix -> nth (S j) (cmds m') 0 = nth (S j) (cmds m) 0).
Proof.
  intros Hf Hm Hix Hon Hmask Hv Ho. unfold command_handoff.
  pose proof (Hm RCmdMap) as Hcm. cbn in Hcm. fold (cmds m) in Hcm. pose proof Hcm as [Hl _].
  destruct (device_write_command_run sm ix mask vals m Hf Hm Hix Hv Hon) as (to & _ & Hto & Hspec & Hw).
  rewrite (run_then (M := shm_mem) _ _ _ _ _ Hw). clear Hw.
  set (bm := cmd_pended ix mask (cmds m)). set (m1 := shm_store RCmdMap bm _).
  assert (Hbm : map_wf bm) by (by apply cmd_pended_wf).
  assert (Hm1 : mem_wf (M := shm_mem) m1) by (by apply command_stored_wf).
  change sm with (taken (M := shm_mem) [] sm) at 1.
  rewrite (run_then (M := shm_mem) _ _ _ _ _ (get_cmd_map_run sm Hf m1 (replicate (S MAX_DEVICES) 0) Hm1 eq_refl)).
  change (cmds m1) with bm. change (taken (M := shm_mem) [] sm) with sm.
  destruct (device_read_command_run sm ix (nth (S ix) bm 0) out m1 Hf Hm1 Hix Ho Hon) as (got & _ & Hgot & Hr).
  rewrite (run_then (M := shm_mem) _ _ _ _ _ Hr), run_ret. clear Hr. change (cmds m1) with bm.
  destruct (nth_pended ix mask (cmds m)) as (H0 & H1 & H2); [lia|]. fold bm in H0, H1, H2.
  destruct (nth_acked ix (nth (S ix) bm 0) bm) as (A0 & A1 & A2); [destruct Hbm; lia|].
  assert (Hp : pars m1 COMMAND ix = to) by (unfold m1; by apply (pars_store COMMAND)).
  eexists bm, got, _. split; [reflexivity|]. split; [rewrite H0; apply bit_on_set_eq|]. split; [done|].
  split; [|split; [|split; [|split]]].
  - intros i Hi Hbit. rewrite Hgot by done. rewrite H1, bit_on_lor, Hbit, orb_true_r, Hp.
    by rewrite Hspec, Hbit by done.
  - intros i Hi Hbit. by rewrite Hgot, Hbit by done.
  - cbn [cmds cmd_map dev_shm shm_store set_dev_shm]. rewrite A0. apply bit_on_clear_eq.
  - cbn [cmds cmd_map dev_shm shm_store set_dev_shm]. rewrite A1.
    apply clear_bits_all; [by apply map_wf_nth | done].
  - intros j Hj. cbn [cmds cmd_map dev_shm shm_store set_dev_shm]. rewrite A2 by done. by apply H2.
Qed.

Lemma command_delivery_witness :
  exists bm got m', run (command_handoff 0 5 (replicate 32 9) (replicate 32 0)) (Sys demo sems_start) =
      Done (0, bm, (0, got), Sys m' sems_start) /\
    bit_on (nth 0 bm 0) 0 = true /\ nth 1 bm 0 = Z.lor (nth 1 (cmds demo) 0) 5 /\
    (forall i, (i < MAX_PARAMS)%nat -> bit_on 5 i = true -> got !! i = replicate 32 9 !! i) /\
    (forall i, (i < MAX_PARAMS)%nat -> bit_on (nth 1 bm 0) i = false -> got !! i = replicate 32 0 !! i) /\
    bit_on (nth 0 (cmds m') 0) 0 = false /\ nth 1 (cmds m') 0 = 0 /\
    (forall j, j ≠ 0%nat -> nth (S j) (cmds m') 0 = nth (S j) (cmds demo) 0).
Proof.
  apply (command_delivery sems_start 0 5 (replicate 32 9) (replicate 32 0) demo sems_start_ok demo_wf);
    [unfold MAX_DEVICES; lia | reflexivity | unfold word32; lia | |];
    (split; [reflexivity | apply Forall_replicate; unfold word32; lia]).
Defined.

(** A command can be overlooked. When the executor writes [mask2] after the device handler
    has looked at the map and before it reads, the read clears the device's changed flag
    although the parameters of [mask2] that the handler did not know of are still pending:
    the next look at the map does not show the device. *)
Theorem command_overlooked sm ix mask2 vals out m :
  all_free sm -> mem_wf (M := shm_mem) m -> (ix < MAX_DEVICES)%nat -> bit_on (cat m) ix = true ->
  word32 mask2 -> params_wf vals -> params_wf out ->
  exists got m', run (
      bm ← get_cmd_map (replicate (S MAX_DEVICES) 0);
      _ ← device_write (Z.of_nat ix) EXECUTOR COMMAND mask2 vals;
      _ ← device_read (Z.of_nat ix) DEV_HANDLER COMMAND (nth (S ix) bm 0) out;
      get_cmd_map (replicate (S MAX_DEVICES) 0)) (Sys m sm) = Done (got, Sys m' sm) /\
    bit_on (nth 0 got 0) ix = false /\
    forall i, bit_on (nth (S ix) got 0) i = bit_on mask2 i && negb (bit_on (nth (S ix) (cmds m) 0) i).
Proof.
  intros Hf Hm Hix Hon Hmask Hv Ho.
  pose proof (Hm RCmdMap) as Hcm. cbn in Hcm. fold (cmds m) in Hcm. pose proof Hcm as [Hl _].
  change sm with (taken (M := shm_mem) [] sm) at 1.
  rewrite (run_then (M := shm_mem) _ _ _ _ _ (get_cmd_map_run sm Hf m (replicate (S MAX_DEVICES) 0) Hm eq_refl)).
  change (taken (M := shm_mem) [] sm) with sm. set (snap := nth (S ix) (cmds m) 0).
  destruct (device_write_command_run sm ix mask2 vals m Hf Hm Hix Hv Hon) as (to & _ & Hto & _ & Hw).
  rewrite (run_then (M := shm_mem) _ _ _ _ _ Hw). clear Hw.
  set (bm := cmd_pended ix mask2 (cmds m)). set (m1 := shm_store RCmdMap bm _).
  assert (Hbm : map_wf bm) by (by apply cmd_pended_wf).
  assert (Hm1 : mem_wf (M := shm_mem) m1) by (by apply command_stored_wf).
  destruct (device_read_command_run sm ix snap out m1 Hf Hm1 Hix Ho Hon) as (got & _ & _ & Hr).
  rewrite (run_then (M := shm_mem) _ _ _ _ _ Hr). clear Hr. change (cmds m1) with bm.
  set (m2 := shm_store RCmdMap (cmd_acked ix snap bm) m1).
  assert (Hm2 : mem_wf (M := shm_mem) m2).
  { apply (store_wf (M := shm_mem)); [done|]. destruct Hbm as [Hbl Hbw]. unfold cmd_acked.
    split; [by rewrite !length_alter|]. apply Forall_alter; [apply Forall_alter; [done|]|]; auto with words. }
  pose proof (get_cmd_map_run sm Hf m2 (replicate (S MAX_DEVICES) 0) Hm2 eq_refl) as Hg.
  eexists _, m2. split; [exact Hg|]. change (cmds m2) with (cmd_acked ix snap bm).
  destruct (nth_acked ix snap bm) as (A0 & A1 & _); [destruct Hbm; lia|]. rewrite A0, A1.
  destruct (nth_pended ix mask2 (cmds m)) as (_ & H1 & _); [lia|]. fold bm in H1. rewrite H1. fold snap.
  split; [apply bit_on_clear_eq|]. intros i. unfold clear_bits.
  rewrite bit_on_andnot, bit_on_lor. destruct (bit_on snap i); cbn; [by rewrite andb_false_r | done].
Qed.

Lemma command_overlooked_witness :
  exists got m', run (
      bm ← get_cmd_map (replicate (S MAX_DEVICES) 0);
      _ ← device_write (Z.of_nat 0) EXECUTOR COMMAND 5 (replicate 32 9);
      _ ← device_read (Z.of_nat 0) DEV_HANDLER COMMAND (nth 1 bm 0) (replicate 32 0);
      get_cmd_map (replicate (S MAX_DEVICES) 0)) (Sys demo sems_start) = Done (got, Sys m' sems_start) /\
    bit_on (nth 0 got 0) 0 = false /\
    forall i, bit_on (nth 1 got 0) i = bit_on 5 i && negb (bit_on (nth 1 (cmds demo) 0) i).
Proof.
  apply (command_overlooked sems_start 0 5 (replicate 32 9) (replicate 32 0) demo sems_start_ok demo_wf);
    [unfold MAX_DEVICES; lia | reflexivity | unfold word32; lia | |];
    (split; [reflexivity | apply Forall_replicate; unfold word32; lia]).
Defined.

(** ** Subscriptions *)

Definition other_client (process : process_t) : process_t :=
  match process with NET_HANDLER => EXECUTOR | _ => NET_HANDLER end.

(** A client subscribes; the device handler looks twice. *)
Definition subscription_handoff (uid : Z) (process : process_t) (mask : Z) : prog (Z * list Z * list Z) :=
  r ← place_sub_request uid process mask;
  s1 ← get_sub_requests (replicate (S MAX_DEVICES) 0) DEV_HANDLER;
  s2 ← get_sub_requests (replicate (S MAX_DEVICES) 0) DEV_HANDLER;
  mret (r, s1, s2).

Lemma uid_index_Some k c l uid ix : forall i, uid_index k i c l uid = Some ix ->
  (i <= ix < i + k)%nat /\ bit_on c ix = true /\ id_uid <$> l !! ix = Some uid.
Proof.
  induction k as [|k IH]; intros i Hu; cbn in Hu; [done|].
  destruct (bit_on c i && bool_decide (id_uid <$> l !! i = Some uid)) eqn:E.
  - injection Hu as <-. apply andb_true_iff in E as [E1 E2]. apply bool_decide_eq_true in E2. split; [lia | done].
  - apply IH in Hu as (H1 & H2). split; [lia | done].
Qed.

Lemma subscribed_wf process ix mask net exec : word32 mask -> (ix < MAX_DEVICES)%nat -> map_wf net -> map_wf exec ->
  let maps := subscribed process ix mask (net, exec) in map_wf (fst maps) /\ map_wf (snd maps).
Proof.
  intros Hm Hix Hn He. unfold subscribed. cbn [fst snd].
  assert (Hnew : forall cur, map_wf cur -> map_wf (if default 0 (cur !! S ix) =? mask then cur
             else alter (fun v => bit_set v ix) 0%nat (<[S ix := mask]> cur))).
  { intros cur Hc. destruct (_ =? _); [done|]. destruct (map_wf_insert cur (S ix) mask Hc Hm) as [Hl Hw].
    split; [by rewrite length_alter|]. apply Forall_alter; auto with words. }
  case_decide; cbn [fst snd]; auto.
Qed.

(** What the request has changed in the maps. *)
Lemma subscribed_vals process ix mask net exec :
  (ix < MAX_DEVICES)%nat -> map_wf net -> map_wf exec -> process = NET_HANDLER \/ process = EXECUTOR ->
  let maps := (net, exec) in let maps' := subscribed process ix mask maps in
  sub_val process (S ix) maps' = mask /\
  sub_val (other_client process) (S ix) maps' = sub_val (other_client process) (S ix) maps /\
  (sub_val process (S ix) maps ≠ mask -> bit_on (sub_val process 0 maps') ix = true).
Proof.
  intros Hix [Hnl _] [Hel _] Hp. unfold subscribed, sub_val. cbn [fst snd].
  assert (Hnew : forall cur, length cur = S MAX_DEVICES ->
    let new := if default 0 (cur !! S ix) =? mask then cur
               else alter (fun v => bit_set v ix) 0%nat (<[S ix := mask]> cur) in
    default 0 (new !! S ix) = mask /\
    (default 0 (cur !! S ix) ≠ mask -> bit_on (default 0 (new !! 0%nat)) ix = true)).
  { intros cur Hc. destruct (Z.eqb_spec (default 0 (cur !! S ix)) mask) as [He|Hne]; [done|]. cbv zeta.
    rewrite list_lookup_alter_ne, list_lookup_insert_eq by lia. split; [done|]. intros _.
    rewrite list_lookup_alter_eq, list_lookup_insert_ne by lia.
    destruct (lookup_lt_is_Some_2 cur 0) as [v ->]; [lia|]. cbn. apply bit_on_set_eq. }
  destruct Hp as [-> | ->]; cbn -[alter insert lookup]; [destruct (Hnew net Hnl) | destruct (Hnew exec Hel)]; done.
Qed.

Lemma sub_val_handler i net exec :
  sub_val DEV_HANDLER i (net, exec) = Z.lor (sub_val NET_HANDLER i (net, exec)) (sub_val EXECUTOR i (net, exec)).
Proof. done. Qed.

(** What the device handler then sees. *)
Lemma subscribed_union process ix mask maps :
  (ix < MAX_DEVICES)%nat -> map_wf (fst maps) -> map_wf (snd maps) -> process = NET_HANDLER \/ process = EXECUTOR ->
  let maps' := subscribed process ix mask maps in
  sub_val process (S ix) maps' = mask /\
  sub_val DEV_HANDLER (S ix) maps' = Z.lor mask (sub_val (other_client process) (S ix) maps) /\
  (sub_val process (S ix) maps ≠ mask -> bit_on (sub_val DEV_HANDLER 0 maps') ix = true).
Proof.
  intros Hix Hn He Hp maps'. destruct maps as [net exec]. cbn [fst snd] in *.
  destruct (subscribed_vals process ix mask net exec Hix Hn He Hp) as (V1 & V2 & V3).
  fold maps' in V1, V2, V3. split; [done|]. destruct maps' as [n e]. rewrite !sub_val_handler. split.
  - destruct Hp as [-> | ->]; cbn [other_client] in *; rewrite V1, V2; [done | apply Z.lor_comm].
  - intros Hne. specialize (V3 Hne). rewrite bit_on_lor.
    destruct Hp as [-> | ->]; rewrite V3; [done | by rewrite orb_true_r].
Qed.

Lemma sub_val_reset process i net exec :
  sub_val process (S i) (<[0%nat := 0]> net, <[0%nat := 0]> exec) = sub_val process (S i) (net, exec).
Proof. unfold sub_val. cbn [fst snd]. by rewrite !list_lookup_insert_ne by done. Qed.

(** The second look, after the indicators were reset, sees no change. *)
Lemma get_sub_requests_quiet sm m :
  all_free sm -> mem_wf (M := shm_mem) m -> sub_val DEV_HANDLER 0 (subs m) = 0 ->
  run (get_sub_requests (replicate (S MAX_DEVICES) 0) DEV_HANDLER) (Sys m sm) =
  Done (replicate (S MAX_DEVICES) 0, Sys m sm).
Proof.
  intros Hf Hm Hz.
  destruct (get_sub_requests_run sm Hf m (replicate (S MAX_DEVICES) 0) Hm eq_refl) as (s & m' & Hr & Hs).
  rewrite Hz in Hs. destruct Hs as [-> ->]. exact Hr.
Qed.

Lemma reset_flags net exec : map_wf net -> map_wf exec ->
  sub_val DEV_HANDLER 0 (<[0%nat := 0]> net, <[0%nat := 0]> exec) = 0.
Proof.
  intros [Hn _] [He _]. unfold sub_val. cbn [fst snd].
  by rewrite !list_lookup_insert_eq by lia.
Qed.

(** A subscription reaches the device handler. When the network handler or the executor asks
    for [mask] of a connected device and this differs from what it had, the handler's next
    look flags the device and gives the union of [mask] and what the other client wants;
    the look after that flags nothing; and the client's subscription stays stored. *)
Theorem subscription_delivery sm uid process mask ix m :
  all_free sm -> mem_wf (M := shm_mem) m -> process = NET_HANDLER \/ process = EXECUTOR -> word32 mask ->
  uid_index MAX_DEVICES 0 (cat m) (ids m) uid = Some ix ->
  exists s1 s2 m', run (subscription_handoff uid process mask) (Sys m sm) = Done (0, s1, s2, Sys m' sm) /\
    (sub_val process (S ix) (subs m) ≠ mask ->
       bit_on (nth 0 s1 0) ix = true /\
       nth (S ix) s1 0 = Z.lor mask (sub_val (other_client process) (S ix) (subs m))) /\
    s2 = replicate (S MAX_DEVICES) 0 /\ sub_val process (S ix) (subs m') = mask.
Proof.
  intros Hf Hm Hp Hmask Hu. destruct (uid_index_Some _ _ _ _ _ _ Hu) as (Hix & Hon & _).
  assert (Hlt : (ix < MAX_DEVICES)%nat) by lia. unfold subscription_handoff.
  pose proof (Hm RSubMap) as [Hn He]. cbn in Hn, He.
  pose proof (place_sub_request_run sm Hf m uid process mask ix Hm Hp Hlt Hu) as Hr1. cbn [taken foldr] in Hr1.
  rewrite (run_then (M := shm_mem) _ _ _ _ _ Hr1). clear Hr1.
  set (maps := subscribed process ix mask (subs m)). set (m1 := shm_store RSubMap maps m).
  destruct (subscribed_wf process ix mask _ _ Hmask Hlt Hn He) as [Hn1 He1]. fold (subs m) in Hn1, He1.
  destruct (subscribed_union process ix mask (subs m) Hlt Hn He Hp) as (V1 & V2 & V3).
  fold maps in Hn1, He1, V1, V2, V3.
  assert (Hsub1 : subs m1 = maps /\ cat m1 = cat m) by (unfold m1; by destruct maps).
  destruct Hsub1 as [Hsub1 Hcat1].
  assert (Hm1 : mem_wf (M := shm_mem) m1).
  { apply (store_wf (M := shm_mem)); [done|]. cbn. by destruct maps. }
  destruct (get_sub_requests_run sm Hf m1 (replicate (S MAX_DEVICES) 0) Hm1 eq_refl) as (s1 & m2 & Hr2 & Hs).
  cbn [taken foldr] in Hr2. rewrite (run_then (M := shm_mem) _ _ _ _ _ Hr2), Hsub1, Hcat1 in *. clear Hr2.
  destruct (Z.eqb_spec (sub_val DEV_HANDLER 0 maps) 0) as [Hz|Hz].
  - destruct Hs as [-> ->]. rewrite <- Hsub1 in Hz.
    rewrite (run_then (M := shm_mem) _ _ _ _ _ (get_sub_requests_quiet sm m1 Hf Hm1 Hz)), run_ret.
    eexists _, _, m1. split; [reflexivity|]. rewrite Hsub1 in *. split; [|done].
    intros Hne. specialize (V3 Hne). by rewrite Hz, bit_on_0 in V3.
  - destruct Hs as (-> & (z & Hz0 & Hzb) & Hent). destruct maps as [n e]. cbn [fst snd] in *.
    set (m2 := shm_store RSubMap (<[0%nat := 0]> n, <[0%nat := 0]> e) m1).
    assert (Hm2 : mem_wf (M := shm_mem) m2).
    { apply (store_wf (M := shm_mem)); [done|]. cbn. auto using map_wf_insert with words. }
    rewrite (run_then (M := shm_mem) _ _ _ _ _
      (get_sub_requests_quiet sm m2 Hf Hm2 (reset_flags n e Hn1 He1))), run_ret.
    eexists _, _, m2. split; [reflexivity|]. split; [|split; [done|]].
    + intros Hne. rewrite !nth_lookup, Hz0, (Hent ix Hlt), Hon. cbn [default].
      split; [|exact V2]. change (bit_on z ix = true). rewrite Hzb by (unfold MAX_DEVICES in Hlt; lia).
      by rewrite V3, Hon.
    + rewrite <- V1. apply sub_val_reset.
Qed.

Lemma subscription_delivery_witness :
  exists s1 s2 m', run (subscription_handoff 77 EXECUTOR 5) (Sys demo sems_start) = Done (0, s1, s2, Sys m' sems_start) /\
    (sub_val EXECUTOR 1 (subs demo) ≠ 5 ->
       bit_on (nth 0 s1 0) 0 = true /\
       nth 1 s1 0 = Z.lor 5 (sub_val (other_client EXECUTOR) 1 (subs demo))) /\
    s2 = replicate (S MAX_DEVICES) 0 /\ sub_val EXECUTOR 1 (subs m') = 5.
Proof.
  apply (subscription_delivery sems_start 77 EXECUTOR 5 0 demo sems_start_ok demo_wf);
    [by right | unfold word32; lia | vm_compute; reflexivity].
Defined.

(** ** Pending commands and connected devices *)

(** Only connected devices have a pending command. *)
Definition pending_ok (m : shm_t) : Prop := forall ix, (ix < MAX_DEVICES)%nat -> bit_on (cat m) ix = false ->
  bit_on (nth 0 (cmds m) 0) ix = false /\ nth (S ix) (cmds m) 0 = 0.

Lemma pending_same m m' : cat m' = cat m -> cmds m' = cmds m -> pending_ok m -> pending_ok m'.
Proof. unfold pending_ok. by intros -> ->. Qed.

Lemma pending_acked m ix mask : mem_wf (M := shm_mem) m -> (ix < MAX_DEVICES)%nat -> pending_ok m ->
  pending_ok (shm_store RCmdMap (cmd_acked ix mask (cmds m)) m).
Proof.
  intros Hm Hix Hp j Hj Hoff. pose proof (Hm RCmdMap) as [Hl _]. cbn in Hl.
  change (cmds (shm_store RCmdMap (cmd_acked ix mask (cmds m)) m)) with (cmd_acked ix mask (cmds m)).
  destruct (nth_acked ix mask (cmds m)) as (A0 & A1 & A2); [unfold cmds; lia|].
  destruct (Hp j Hj Hoff) as [P0 P1]. rewrite A0. split.
  - by rewrite bit_on_clear, P0, andb_false_r.
  - destruct (decide (j = ix)) as [->|]; [|by rewrite A2]. by rewrite A1, P1.
Qed.

Lemma pending_pended m ix mask : mem_wf (M := shm_mem) m -> (ix < MAX_DEVICES)%nat -> bit_on (cat m) ix = true ->
  pending_ok m -> pending_ok (shm_store RCmdMap (cmd_pended ix mask (cmds m)) m).
Proof.
  intros Hm Hix Hon Hp j Hj Hoff. pose proof (Hm RCmdMap) as [Hl _]. cbn in Hl.
  change (cat (shm_store RCmdMap (cmd_pended ix mask (cmds m)) m)) with (cat m) in Hoff.
  change (cmds (shm_store RCmdMap (cmd_pended ix mask (cmds m)) m)) with (cmd_pended ix mask (cmds m)).
  destruct (nth_pended ix mask (cmds m)) as (A0 & A1 & A2); [unfold cmds; lia|].
  assert (Hne : j ≠ ix) by congruence. destruct (Hp j Hj Hoff) as [P0 P1]. rewrite A0, A2 by done.
  split; [by rewrite bit_on_set_ne | done].
Qed.

Lemma pending_connected m ix id : pending_ok m -> pending_ok (connected ix id m).
Proof.
  intros Hp j Hj Hoff. change (cat (connected ix id m)) with (bit_set (cat m) ix) in Hoff.
  change (cmds (connected ix id m)) with (cmds m). apply Hp; [done|].
  rewrite bit_on_set in Hoff. by apply orb_false_iff in Hoff as [_ ?].
Qed.

Lemma pending_disconnected m ix : mem_wf (M := shm_mem) m -> (ix < MAX_DEVICES)%nat -> pending_ok m ->
  pending_ok (disconnected ix m).
Proof.
  intros Hm Hix Hp j Hj Hoff. pose proof (Hm RCmdMap) as [Hl _]. cbn in Hl.
  change (cat (disconnected ix m)) with (bit_clear (cat m) ix) in Hoff.
  change (cmds (disconnected ix m)) with (<[S ix := 0]> (alter (fun v => bit_clear v ix) 0%nat (cmds m))).
  rewrite !nth_insert, length_alter. rewrite decide_False by lia.
  rewrite nth_alter_eq by (unfold cmds; lia). rewrite nth_alter_ne by lia.
  rewrite bit_on_clear in Hoff |- *. destruct (decide (j = ix)) as [->|Hne].
  - rewrite decide_True by (unfold cmds; lia). rewrite bool_decide_false by naive_solver. done.
  - rewrite decide_False by lia. rewrite bool_decide_true in Hoff |- * by done. by apply Hp.
Qed.

Section Pending.
Context (sm : gmap shm_sem nat) (Hfree : all_free sm).

(** The program ends with the semaphores free and the invariant kept, or exits with 1. *)
Definition keeps_pending {A} (p : prog A) : Prop := forall m,
  mem_wf (M := shm_mem) m -> pending_ok m ->
  (exists a m', run p (Sys m sm) = Done (a, Sys m' sm) /\ mem_wf (M := shm_mem) m' /\ pending_ok m') \/
  run p (Sys m sm) = Exited 1.

(** A program of the discipline whose runs keep the invariant. *)
Lemma keeps_pending_run {A} (p : prog A) Q :
  disc (M := shm_mem) [] p [] Q -> calm (M := shm_mem) p ->
  (forall m a st, mem_wf (M := shm_mem) m -> pending_ok m -> run p (Sys m sm) = Done (a, st) -> pending_ok (mem st)) ->
  keeps_pending p.
Proof.
  intros Hd Hcalm Hrun m Hm Hp.
  destruct (disc_run_calm (M := shm_mem) p sm Hfree Hcalm [] [] Q m (Forall_nil_2 _) Hd Hm)
    as [(a & m' & Hr & _ & Hm')|Hr]; [left | by right].
  exists a, m'. split; [exact Hr|]. split; [done|]. by apply (Hrun m a _ Hm Hp Hr).
Qed.

Lemma keeps_pending_frame {A} (p : prog A) Q :
  disc (M := shm_mem) [] p [] Q -> calm (M := shm_mem) p -> keeps (M := shm_mem) RCatalog p -> keeps (M := shm_mem) RCmdMap p ->
  keeps_pending p.
Proof.
  intros Hd Hcalm Hc Hmap. eapply keeps_pending_run; [exact Hd | exact Hcalm |]. intros m a st Hm Hp Hr.
  eapply pending_same; [| |exact Hp].
  - exact (keeps_run (M := shm_mem) p RCatalog _ Hc _ _ _ Hr).
  - exact (keeps_run (M := shm_mem) p RCmdMap _ Hmap _ _ _ Hr).
Qed.

Lemma keeps_pending_then {A B} (p : prog A) (q : prog B) :
  keeps_pending p -> keeps_pending q -> keeps_pending (p ;; q).
Proof.
  intros Hp Hq m Hm Hpend. destruct (Hp m Hm Hpend) as [(a & m' & Hr & Hm' & Hp')|Hr].
  - rewrite (run_then (M := shm_mem) _ _ _ _ _ Hr). by apply Hq.
  - right. by rewrite run_bind, Hr.
Qed.

Lemma keeps_find_uid r0 uid k : forall i, keeps (M := shm_mem) r0 (find_uid k i uid).
Proof. induction k as [|k IH]; intros i; cbn [find_uid]; unfold test_catalog; keeps_tac; apply IH. Qed.

Lemma keeps_fill_sub_map r0 process k : forall i sub, keeps (M := shm_mem) r0 (fill_sub_map k i process sub).
Proof. induction k as [|k IH]; intros i sub; cbn [fill_sub_map]; unfold test_catalog; keeps_tac; apply IH. Qed.

(** The calls that do not touch the catalog or the command map. *)
Definition framed (c : shm_call) : bool :=
  match c with
  | CallConnect _ | CallDisconnect _ | CallRead _ _ _ _ _ | CallReadUid _ _ _ _ _
  | CallWrite _ _ _ _ _ | CallWriteUid _ _ _ _ _ => false
  | _ => true
  end.

Lemma framed_keeps c r0 : framed c = true -> r0 = RCatalog \/ r0 = RCmdMap -> keeps (M := shm_mem) r0 (exec_call c).
Proof.
  intros Hc [-> | ->]; destruct c; try done; cbn [exec_call];
    unfold place_sub_request, get_dev_ix_from_uid, get_sub_requests, get_cmd_map, get_device_identifiers,
      get_catalog, robot_desc_read, robot_desc_write, input_read, input_write, log_data_read;
    keeps_tac; first [apply keeps_find_uid | apply keeps_fill_sub_map | keeps_tac].
Qed.

(** A read or a write of a connected device, by index. *)
Lemma read_helper_pending m ix p s mask ps r : mem_wf (M := shm_mem) m -> (ix < MAX_DEVICES)%nat -> params_wf ps ->
  pending_ok m -> run (device_read_helper ix p s mask ps) (Sys m sm) = Done r -> pending_ok (mem (snd r)).
Proof.
  intros Hm Hix [Hps _] Hp Hr. pose proof (Hm RCmdMap) as [Hl _]. cbn in Hl.
  destruct (pars_wf m s ix Hm Hix) as [Hpl _].
  destruct (copy_params_spec mask _ _ Hpl Hps) as (to & Hc & _).
  pose proof (read_helper_run sm Hfree m ix p s mask ps to Hix Hl Hc) as Hrun. cbn [taken foldr] in Hrun.
  rewrite Hrun in Hr. apply done_inj in Hr. subst r. cbn [snd mem]. case_decide; [by apply pending_acked | done].
Qed.

Lemma write_helper_pending m ix p s mask ps r : mem_wf (M := shm_mem) m -> (ix < MAX_DEVICES)%nat -> params_wf ps ->
  bit_on (cat m) ix = true -> pending_ok m ->
  run (device_write_helper ix p s mask ps) (Sys m sm) = Done r -> pending_ok (mem (snd r)).
Proof.
  intros Hm Hix Hps Hon Hp Hr. pose proof (Hm RCmdMap) as [Hl _]. cbn in Hl.
  pose proof (pars_wf m s ix Hm Hix) as Hpw.
  destruct (copy_params_wf mask ps _ Hps Hpw) as (to & Hc & Hto).
  pose proof (write_helper_run sm Hfree m ix p s mask ps to Hix Hl Hc) as Hrun. cbn [taken foldr] in Hrun.
  rewrite Hrun in Hr. apply done_inj in Hr. subst r. cbn [snd mem].
  set (m1 := shm_store (RParams s ix) to m).
  assert (Hm1 : mem_wf (M := shm_mem) m1) by (by apply store_params_wf).
  assert (Hsame : cmds m1 = cmds m /\ cat m1 = cat m) by (unfold m1; by destruct s).
  destruct Hsame as [Hcm Hcat]. assert (Hp1 : pending_ok m1) by (by apply (pending_same m)).
  case_decide; [|done]. rewrite <- Hcm. apply pending_pended; [done | done | by rewrite Hcat | done].
Qed.

Lemma run_inv_bind {A B} (p : prog A) (k : A -> prog B) st r :
  run (p ≫= k) st = Done r -> exists a st1, run p st = Done (a, st1) /\ run (k a) st1 = Done r.
Proof. rewrite run_bind. intros H. apply bind_done_inv in H as ([a st1] & H1 & H2). eauto. Qed.

Lemma find_run m uid : mem_wf (M := shm_mem) m ->
  run (get_dev_ix_from_uid uid) (Sys m sm) = Done (uid_index MAX_DEVICES 0 (cat m) (ids m) uid, Sys m sm).
Proof.
  intros Hm. pose proof (Hm RDevIds) as Hids. cbn in Hids. unfold get_dev_ix_from_uid.
  apply find_uid_run. unfold ids. lia.
Qed.

Lemma read_pending ix p s mask ps : 0 <= ix < 32 -> params_wf ps ->
  keeps_pending (device_read ix p s mask ps).
Proof.
  intros Hix Hps. eapply keeps_pending_run; [by apply disc_device_read | auto with calm |]. intros m a st Hm Hp Hr.
  unfold device_read in Hr. rewrite <- (Z2Nat.id ix), shift_index_nat, test_catalog_run in Hr
    by (unfold MAX_DEVICES; lia).
  destruct (bit_on (cat m) (Z.to_nat ix)); [|by apply done_pair in Hr as [_ <-]].
  apply run_inv_bind in Hr as (r' & st2 & H1 & H3). rewrite run_ret in H3. apply done_pair in H3 as [_ <-].
  apply read_helper_pending in H1; (done || unfold MAX_DEVICES; lia).
Qed.

Lemma write_pending ix p s mask ps : 0 <= ix < 32 -> params_wf ps -> word32 mask ->
  keeps_pending (device_write ix p s mask ps).
Proof.
  intros Hix Hps Hmask. eapply keeps_pending_run; [by apply disc_device_write | auto with calm |]. intros m a st Hm Hp Hr.
  unfold device_write in Hr. rewrite <- (Z2Nat.id ix), shift_index_nat, test_catalog_run in Hr
    by (unfold MAX_DEVICES; lia).
  destruct (bit_on (cat m) (Z.to_nat ix)) eqn:Hon; [|by apply done_pair in Hr as [_ <-]].
  apply run_inv_bind in Hr as (r' & st2 & H1 & H3). rewrite run_ret in H3. apply done_pair in H3 as [_ <-].
  apply write_helper_pending in H1; (done || unfold MAX_DEVICES; lia).
Qed.

Lemma read_uid_pending uid p s mask ps : params_wf ps -> keeps_pending (device_read_uid uid p s mask ps).
Proof.
  intros Hps. eapply keeps_pending_run; [by apply disc_device_read_uid | auto with calm |]. intros m a st Hm Hp Hr.
  apply run_inv_bind in Hr as (o & st1 & H1 & Hr). rewrite find_run in H1 by done.
  apply done_pair in H1 as [Hu <-]. destruct o as [i|]; [|by apply done_pair in Hr as [_ <-]].
  apply uid_index_Some in Hu as (Hi & _).
  apply run_inv_bind in Hr as (r' & st2 & H1 & H3). rewrite run_ret in H3. apply done_pair in H3 as [_ <-].
  apply read_helper_pending in H1; (done || lia).
Qed.

Lemma write_uid_pending uid p s mask ps : params_wf ps -> word32 mask ->
  keeps_pending (device_write_uid uid p s mask ps).
Proof.
  intros Hps Hmask. eapply keeps_pending_run; [by apply disc_device_write_uid | auto with calm |]. intros m a st Hm Hp Hr.
  apply run_inv_bind in Hr as (o & st1 & H1 & Hr). rewrite find_run in H1 by done.
  apply done_pair in H1 as [Hu <-]. destruct o as [i|]; [|by apply done_pair in Hr as [_ <-]].
  apply uid_index_Some in Hu as (Hi & Hon & _).
  apply run_inv_bind in Hr as (r' & st2 & H1 & H3). rewrite run_ret in H3. apply done_pair in H3 as [_ <-].
  apply write_helper_pending in H1; (done || lia).
Qed.

Lemma connect_pending id : keeps_pending (device_connect id).
Proof.
  eapply keeps_pending_run; [apply disc_device_connect | auto with calm |]. intros m a st Hm Hp Hr.
  pose proof (device_connect_run sm Hfree id m Hm) as Hc. cbn [taken foldr] in Hc. rewrite Hc in Hr.
  destruct (find_free _ _ _); apply done_pair in Hr as [_ <-]; [by apply pending_connected | done].
Qed.

Lemma disconnect_pending ix : 0 <= ix < 32 -> keeps_pending (device_disconnect ix).
Proof.
  intros Hix. eapply keeps_pending_run; [by apply disc_device_disconnect | auto with calm |]. intros m a st Hm Hp Hr.
  pose proof (device_disconnect_run sm Hfree ix m Hm Hix) as Hc. cbn [taken foldr] in Hc. rewrite Hc in Hr.
  apply done_pair in Hr as [_ <-]. apply pending_disconnected; [done | unfold MAX_DEVICES; lia | done].
Qed.

Lemma keeps_pending_ret {A} (a : A) : keeps_pending (mret a).
Proof. intros m Hm Hp. left. by exists a, m. Qed.

Lemma exec_call_pending c : call_ok c -> keeps_pending (exec_call c).
Proof.
  intros Hok. destruct (framed c) eqn:Hfr.
  { eapply keeps_pending_frame; [by apply exec_call_disc | apply calm_exec_call | | ]; apply framed_keeps; auto. }
  destruct c; try discriminate; cbn [exec_call call_ok] in *;
    repeat match goal with H : _ /\ _ |- _ => destruct H end;
    first [apply keeps_pending_then; [|apply keeps_pending_ret] | idtac];
    auto using connect_pending, disconnect_pending, read_pending, read_uid_pending, write_pending,
      write_uid_pending.
Qed.

Lemma client_pending calls : Forall call_ok calls -> keeps_pending (client calls).
Proof.
  induction 1 as [|c calls Hc _ IH]; cbn [client].
  - intros m Hm Hp. left. by exists tt, m.
  - apply keeps_pending_then; [by apply exec_call_pending | exact IH].
Qed.

End Pending.

(** As long as calls run one after the other, only connected devices have pending commands.
    Any sequence of calls from the state [shm_start] makes ends with every semaphore free and
    well-formed blocks (or with exit(1), for an input of a wrong source), and the command map
    has neither the flag nor a parameter bit on for an index that the catalog does not have. *)
Theorem pending_only_connected old calls :
  mem_wf (M := shm_mem) old -> Forall call_ok calls ->
  match run (client calls) (Sys (shm_start old) sems_start) with
  | Done (_, st) => sems st = sems_start /\ mem_wf (M := shm_mem) (mem st) /\
      forall ix, (ix < 32)%nat -> bit_on (cat (mem st)) ix = false ->
        bit_on (nth 0 (cmds (mem st)) 0) ix = false /\ nth (S ix) (cmds (mem st)) 0 = 0
  | Exited code => code = 1
  | _ => False
  end.
Proof.
  intros Hold Hcalls.
  assert (Hp : pending_ok (shm_start old)).
  { intros ix Hix _. unfold cmds. cbn [cmd_map dev_shm shm_start]. rewrite !nth_replicate.
    by rewrite bit_on_0. }
  destruct (client_pending sems_start sems_start_ok calls Hcalls (shm_start old) (shm_start_wf old Hold) Hp)
    as [(a & m' & -> & Hm' & Hp')|Hr]; [|by rewrite Hr].
  split; [done|]. split; [done|]. intros ix Hix. by apply Hp'.
Qed.

Lemma pending_only_connected_witness :
  match run (client [CallConnect (DevId 6 1 77); CallWriteUid 77 EXECUTOR COMMAND 5 (replicate 32 9);
                     CallDisconnect 0]) (Sys (shm_start zero_shm) sems_start) with
  | Done (_, st) => sems st = sems_start /\ mem_wf (M := shm_mem) (mem st) /\
      forall ix, (ix < 32)%nat -> bit_on (cat (mem st)) ix = false ->
        bit_on (nth 0 (cmds (mem st)) 0) ix = false /\ nth (S ix) (cmds (mem st)) 0 = 0
  | Exited code => code = 1
  | _ => False
  end.
Proof.
  apply (pending_only_connected zero_shm [CallConnect (DevId 6 1 77);
    CallWriteUid 77 EXECUTOR COMMAND 5 (replicate 32 9); CallDisconnect 0]).
  - apply zero_shm_wf.
  - match goal with |- ?P => apply (bool_decide_eq_true_1 P) end. vm_compute. reflexivity.
Defined.

(** ** What goes wrong between processes *)

(** The executor writes to the device 77 while the device handler disconnects it and connects
    another device at the same index. *)
Definition race_clients : list (prog unit) := client <$>
  [[CallWriteUid 77 EXECUTOR COMMAND 1 (replicate MAX_PARAMS 9)];
   [CallConnect (DevId 6 1 77); CallDisconnect 0; CallConnect (DevId 5 1 78)]].

(** The handler connects 77; the executor finds its index; the handler disconnects 77 and
    connects 78; the executor writes. *)
Definition race_schedule : list nat :=
  replicate 81 1%nat ++ replicate 2 0%nat ++ replicate 11 1%nat ++ replicate 81 1%nat ++ replicate 7 0%nat.

Definition misdelivered (c : config (M := shm_mem)) : bool :=
  let m := mem (c_sys c) in
  forallb finished (c_threads c) && bool_decide (ids m !! 0%nat = Some (DevId 5 1 78)) &&
  bit_on (cat m) 0 && bit_on (nth 0 (cmds m) 0) 0 && (nth 1 (cmds m) 0 =? 1) &&
  (nth 0 (pars m COMMAND 0) 0 =? 9).

(** The writers look the device up before they take its semaphore, so a command can reach
    another device. Some interleaving of an executor that writes to the device 77 with a
    handler that replaces 77 by 78 ends, with all calls done, in a state where the device 78
    is connected at the index, the command map says that it has a pending command, and its
    command block holds the value that was meant for 77. *)
Theorem command_misdelivered :
  exists c, rtc step (Config sys_start race_clients) c /\ misdelivered c = true.
Proof.
  assert (H : match run_schedule race_schedule (Config sys_start race_clients) with
              | Some c => misdelivered c | None => false end = true) by (vm_compute; reflexivity).
  destruct (run_schedule race_schedule (Config sys_start race_clients)) as [c|] eqn:E; [|done].
  exists c. split; [by eapply run_schedule_steps | exact H].
Qed.

(** ** The log data *)

Lemma log_key_index_spec key d : 
  let idx := log_key_index key d in let n := Z.to_nat (log_num_params d) in
  (n <= length (log_names d))%nat ->
  (idx <= n)%nat /\ (idx = n \/ log_names d !! idx = Some key) /\
  forall j, (j < idx)%nat -> log_names d !! j ≠ Some key.
Proof.
  intros idx n Hn. unfold idx, log_key_index. fold n.
  destruct (list_find (fun name => key = name) (take n (log_names d))) as [[i x]|] eqn:E.
  - apply list_find_Some in E as (Hi & -> & Hlow). apply lookup_take_Some in Hi as [Hi Hlt].
    split; [lia|]. split; [by right|]. intros j Hj Hjk.
    apply (Hlow j x); [|done|done]. apply lookup_take_Some. split; [done | lia].
  - apply list_find_None in E. split; [done|]. split; [by left|]. intros j Hj Hjk.
    rewrite Forall_lookup in E. apply (E j key); [|done]. apply lookup_take_Some. done.
Qed.

Lemma log_write_error_run sm key type value m :
  all_free sm -> let idx := log_key_index key (log_data m) in
  (idx =? 255)%nat || (64 <=? String.length key)%nat = true ->
  run (log_data_write key type value) (Sys m (taken (M := shm_mem) [] sm)) =
  Done (if (idx =? 255)%nat then -1 else -2, Sys m (<[LogDataSem := 0%nat]> sm)).
Proof.
  intros Hf idx Hor. unfold log_data_write.
  rewrite (run_wait (M := shm_mem)) by (by apply Hf || apply not_elem_of_nil).
  rewrite (run_get (M := shm_mem) _ _ _ idx) by done. unfold UCHAR_MAX, LOG_KEY_LENGTH.
  destruct (idx =? 255)%nat; [done|]. cbn [orb] in Hor. by rewrite Hor.
Qed.

(** The log data with the entry [idx] written. *)
Definition log_written (idx : nat) (key : string) (type : param_type_t) (value : param_val_t)
  (d : log_data_shm_t) : log_data_shm_t :=
  LogData (if Z.of_nat idx =? log_num_params d then u8 (log_num_params d + 1) else log_num_params d)
    (<[idx := key]> (log_names d)) (<[idx := value]> (log_params d)) (<[idx := type]> (log_types d)).

Lemma log_write_ok_run sm key type value m :
  all_free sm -> let d := log_data m in let idx := log_key_index key d in
  (idx < 255)%nat -> (String.length key < 64)%nat ->
  length (log_names d) = 255%nat -> length (log_params d) = 255%nat -> length (log_types d) = 255%nat ->
  run (log_data_write key type value) (Sys m (taken (M := shm_mem) [] sm)) =
  Done (0, Sys (shm_store RLog (log_written idx key type value d) m) sm).
Proof.
  intros Hf d idx Hidx Hkey Hln Hlp Hlt. unfold log_data_write.
  rewrite (run_wait (M := shm_mem)) by (by apply Hf || apply not_elem_of_nil).
  rewrite (run_get (M := shm_mem) _ _ _ idx) by done. unfold UCHAR_MAX, LOG_KEY_LENGTH.
  rewrite (proj2 (Nat.eqb_neq idx 255)), (proj2 (Nat.leb_gt 64 _)) by lia.
  rewrite (run_upd (M := shm_mem) _ RLog _ (LogData (log_num_params d) (<[idx := key]> (log_names d)) (log_params d) (log_types d))).
  2: { cbn -[insert]. fold d. by rewrite buf_set_done by lia. }
  rewrite (run_upd (M := shm_mem) _ RLog _ (LogData (log_num_params d) (<[idx := key]> (log_names d)) (log_params d)
    (<[idx := type]> (log_types d)))).
  2: { cbn -[insert]. by rewrite buf_set_done by lia. }
  rewrite (run_upd (M := shm_mem) _ RLog _ (LogData (log_num_params d) (<[idx := key]> (log_names d))
    (<[idx := value]> (log_params d)) (<[idx := type]> (log_types d)))).
  2: { cbn -[insert]. by rewrite buf_set_done by lia. }
  rewrite (run_upd (M := shm_mem) _ RLog _ (log_written idx key type value d)).
  2: { cbn -[insert]. unfold log_written. by destruct (_ =? _). }
  by erewrite (run_post (M := shm_mem)); [|by apply Hf | held | drop_held].
Qed.

(** [log_data_write] on every branch. With a key of fewer than 64 characters, known or with
    fewer than 255 known, it stores the value and the type at the key's index (the first
    free one for a new key, and then counts it), leaves all other entries as they were, and
    releases the semaphore. When 255 keys are taken or the key is too long it returns -1 or
    -2 without releasing the semaphore: from then on every call on the log data blocks. *)
Theorem log_data_write_spec sm key type value m :
  all_free sm -> mem_wf (M := shm_mem) m ->
  let d := log_data m in
  let idx := log_key_index key d in
  if (idx =? 255)%nat || (64 <=? String.length key)%nat then
    let st := Sys (M := shm_mem) m (<[LogDataSem := 0%nat]> sm) in
    run (log_data_write key type value) (Sys m sm) = Done (if (idx =? 255)%nat then -1 else -2, st) /\
    (forall k t v, run (log_data_write k t v) st = Blocked) /\
    (forall n t v, run (log_data_read n t v) st = Blocked)
  else exists d',
    run (log_data_write key type value) (Sys m sm) = Done (0, Sys (Shm (dev_shm m) (inputs m) (fields m) d') sm) /\
    mem_wf (M := shm_mem) (Shm (dev_shm m) (inputs m) (fields m) d') /\
    log_num_params d' = (if Z.of_nat idx =? log_num_params d then log_num_params d + 1 else log_num_params d) /\
    (forall i, log_names d' !! i = if decide (i = idx) then Some key else log_names d !! i) /\
    (forall i, log_types d' !! i = if decide (i = idx) then Some type else log_types d !! i) /\
    (forall i, log_params d' !! i = if decide (i = idx) then Some value else log_params d !! i).
Proof.
  intros Hf Hm d idx. pose proof (Hm RLog) as Hlog. cbn in Hlog. fold d in Hlog.
  destruct Hlog as (Hn & Hln & Hkeys & Hlp & Hlt). unfold UCHAR_MAX in *.
  destruct (log_key_index_spec key d) as (Hidx & _ & _); [lia|]. fold idx in Hidx.
  destruct ((idx =? 255)%nat || (64 <=? String.length key)%nat) eqn:Herr.
  { split; [by apply (log_write_error_run sm)|]. by split; intros; cbn; rewrite lookup_insert_eq. }
  apply orb_false_iff in Herr as [H1 H2]. apply Nat.eqb_neq in H1. apply Nat.leb_gt in H2.
  set (d1 := log_written idx key type value d).
  assert (Hnum : 0 <= log_num_params d1 <= 255 /\ log_num_params d1 =
    if Z.of_nat idx =? log_num_params d then log_num_params d + 1 else log_num_params d).
  { cbn. destruct (Z.eqb_spec (Z.of_nat idx) (log_num_params d)); [rewrite u8_small|]; lia. }
  destruct Hnum as [Hr Hnum]. assert (Hlt255 : (idx < 255)%nat) by lia.
  exists d1. split; [by apply (log_write_ok_run sm)|].
  split; [|split; [exact Hnum|]].
  - apply (store_wf (M := shm_mem) RLog d1 m); [done|]. split; [exact Hr|]. cbn -[insert].
    rewrite !length_insert. repeat split; try done. apply Forall_insert; [done|]. unfold LOG_KEY_LENGTH. lia.
  - unfold d1, log_written. cbn [log_names log_types log_params].
    repeat split; intros i; (case_decide as Hi; [rewrite Hi; apply list_lookup_insert_eq; lia | by apply list_lookup_insert_ne]).
Qed.

Lemma log_data_write_spec_witness :
  let m := demo in let sm := sems_start in let key := "speed"%string in let type := FLOAT in let value := 7 in
  let d := log_data m in
  let idx := log_key_index key d in
  if (idx =? 255)%nat || (64 <=? String.length key)%nat then
    let st := Sys (M := shm_mem) m (<[LogDataSem := 0%nat]> sm) in
    run (log_data_write key type value) (Sys m sm) = Done (if (idx =? 255)%nat then -1 else -2, st) /\
    (forall k t v, run (log_data_write k t v) st = Blocked) /\
    (forall n t v, run (log_data_read n t v) st = Blocked)
  else exists d',
    run (log_data_write key type value) (Sys m sm) = Done (0, Sys (Shm (dev_shm m) (inputs m) (fields m) d') sm) /\
    mem_wf (M := shm_mem) (Shm (dev_shm m) (inputs m) (fields m) d') /\
    log_num_params d' = (if Z.of_nat idx =? log_num_params d then log_num_params d + 1 else log_num_params d) /\
    (forall i, log_names d' !! i = if decide (i = idx) then Some key else log_names d !! i) /\
    (forall i, log_types d' !! i = if decide (i = idx) then Some type else log_types d !! i) /\
    (forall i, log_params d' !! i = if decide (i = idx) then Some value else log_params d !! i).
Proof. apply (log_data_write_spec sems_start "speed" FLOAT 7 demo sems_start_ok demo_wf). Defined.

(** ** Looking at the devices *)

(** The identifiers of the connected devices differ. *)
Definition unique_uids (m : shm_t) : Prop := forall ix, (ix < MAX_DEVICES)%nat -> bit_on (cat m) ix = true ->
  forall id, ids m !! ix = Some id -> uid_index MAX_DEVICES 0 (cat m) (ids m) (id_uid id) = Some ix.

Lemma first_unique id : unique_uids (connected 0 id (shm_start zero_shm)).
Proof.
  intros ix Hix Hon id' Hid. destruct ix as [|ix].
  - assert (id' = id) as -> by (destruct id; vm_compute in Hid; by injection Hid).
    change MAX_DEVICES with (S 31). cbn [uid_index]. by rewrite Hid, Hon, bool_decide_true.
  - exfalso. change (cat (connected 0 id (shm_start zero_shm))) with 1 in Hon.
    rewrite bit_on_testbit, Z.bits_above_log2 in Hon; (done || cbn; lia).
Qed.

Lemma demo_unique : unique_uids demo.
Proof. apply first_unique. Qed.

Section Readers.
Context (sm : gmap shm_sem nat) (Hfree : all_free sm).

Lemma get_catalog_run m : run get_catalog (Sys m sm) = Done (cat m, Sys m sm).
Proof.
  unfold get_catalog. rewrite (run_wait (M := shm_mem) _ [] m sm CatalogSem);
    [| exact (Hfree CatalogSem I) | apply not_elem_of_nil].
  rewrite (run_get (M := shm_mem) _ RCatalog _ (cat m)) by done.
  by erewrite (run_post (M := shm_mem)); [| exact (Hfree CatalogSem I) | held | drop_held].
Qed.

Lemma get_ids_run m stack : mem_wf (M := shm_mem) m -> length stack = MAX_DEVICES ->
  run (get_device_identifiers stack) (Sys m sm) = Done (ids m, Sys m sm).
Proof.
  intros Hm Hs. pose proof (Hm RDevIds) as Hids. cbn in Hids. unfold get_device_identifiers.
  rewrite (run_wait (M := shm_mem) _ [] m sm CatalogSem); [| exact (Hfree CatalogSem I) | apply not_elem_of_nil].
  rewrite (run_get (M := shm_mem) _ RDevIds _ (ids m)) by (by apply copy_all_done).
  by erewrite (run_post (M := shm_mem)); [| exact (Hfree CatalogSem I) | held | drop_held].
Qed.

(** What a client gets of the subscriptions of connected devices. *)
Lemma get_sub_requests_client_run m sub process :
  mem_wf (M := shm_mem) m -> length sub = S MAX_DEVICES -> process ≠ DEV_HANDLER ->
  exists sub', run (get_sub_requests sub process) (Sys m sm) = Done (sub', Sys m sm) /\ length sub' = S MAX_DEVICES /\
    forall ix, (ix < MAX_DEVICES)%nat -> bit_on (cat m) ix = true -> sub' !! S ix = Some (sub_val process (S ix) (subs m)).
Proof.
  intros Hm Hs Hp. pose proof (Hm RSubMap) as [Hn He]. cbn in Hn, He. unfold get_sub_requests.
  rewrite (run_wait (M := shm_mem) _ [] m sm SubMapSem); [| exact (Hfree SubMapSem I) | apply not_elem_of_nil].
  rewrite (run_get (M := shm_mem) _ _ _ (<[0%nat := sub_val process 0 (subs m)]> sub)).
  2: { cbn [load shm_mem shm_load]. rewrite sub_entry_val, bind_done by (done || lia). apply buf_set_done. lia. }
  rewrite (bool_decide_false (process = DEV_HANDLER)), andb_false_r by done. rewrite (decide_False (P := process = DEV_HANDLER)) by done.
  destruct (fill_sub_map_run process MAX_DEVICES 1 (<[0%nat := sub_val process 0 (subs m)]> sub)
    (sub_val process 0 (subs m)) m (taken (M := shm_mem) [SubMapSem] sm)) as (sub' & z' & Hr & Hl & _ & _ & Hj);
    [done | unfold map_sized; by rewrite length_insert | lia | lia | apply list_lookup_insert_eq; lia |].
  rewrite (run_then (M := shm_mem) _ _ _ _ _ Hr), run_bind, run_ret, bind_done.
  exists sub'. split; [|split; [exact Hl|]].
  - by erewrite (run_post (M := shm_mem)); [| exact (Hfree SubMapSem I) | held | drop_held].
  - intros ix Hix Hon. rewrite Hj by lia. rewrite (proj2 (between_true 1 MAX_DEVICES (S ix))) by lia.
    by rewrite Nat.sub_succ, Nat.sub_0_r, Hon.
Qed.

End Readers.
