(* ===== verification/ShmLife.v ===== *)
(** * The life of the shared memory
    (src/shm_wrapper/shm_start.c, shm_stop.c, and shm_init of shm_wrapper.c).

    The kernel's named objects: semaphores and blocks live in tables, and names lead to them.
    Removing a name leaves the object to the processes that have it open. The programs that
    create, attach and remove the objects are functions on this state; an exit keeps what has
    been done so far. Which calls the kernel refuses (besides opening what does not exist) is a
    parameter. What the processes do in between is a step relation on the objects they have
    open. *)

From stdpp Require Import gmap strings pretty relations.
From S2P Require Export ShmLocks.

(** ** Names *)

Definition DEV_SHM_NAME : string := "/dev-shm".
Definition CATALOG_MUTEX_NAME : string := "/cat-sem".
Definition CMDMAP_MUTEX_NAME : string := "/cmap-sem".
Definition SUBMAP_MUTEX_NAME : string := "/smap-sem".
Definition INPUTS_SHM_NAME : string := "/inputs-shm".
Definition INPUTS_MUTEX_NAME : string := "/inputs-sem".
Definition ROBOT_DESC_SHM_NAME : string := "/rd-shm".
Definition RD_MUTEX_NAME : string := "/rd-sem".
Definition LOG_DATA_SHM : string := "/log-data-shm".
Definition LOG_DATA_MUTEX : string := "/log-data-sem".
Definition SNAME_SIZE : nat := 32.

(** The name under which the code opens a semaphore. *)
Definition sem_name (s : shm_sem) : string :=
  match s with
  | CatalogSem => CATALOG_MUTEX_NAME | CmdMapSem => CMDMAP_MUTEX_NAME | SubMapSem => SUBMAP_MUTEX_NAME
  | InputSem => INPUTS_MUTEX_NAME | RdSem => RD_MUTEX_NAME | LogDataSem => LOG_DATA_MUTEX
  | DataSem i => generate_sem_name DATA i | CommandSem i => generate_sem_name COMMAND i
  end.

(** ** The kernel *)

(** What a block holds; [Unsized] until it is given its size. *)
Inductive content : Set :=
| Unsized
| DevBlock (d : dev_shm_t)
| InputsBlock (l : list input_t)
| DescBlock (l : list Z)
| LogBlock (l : log_data_shm_t).

Record os : Set := OS {
  sem_files : gmap string nat;
  sem_table : list nat;              (* the values *)
  shm_files : gmap string nat;
  shm_table : list content
}.

Inductive syscall : Set :=
| SemOpen (name : string) | ShmOpen (name : string) | Ftruncate (fd : nat) | Mmap (fd : nat)
| SemUnlink (name : string) | ShmUnlink (name : string).

(** A program that has ended by [exit], or by touching memory it does not have. *)
Inductive result (A : Type) : Type := Returned (a : A) | Exiting (code : Z) | Crashed.
Arguments Returned {A} a.
Arguments Exiting {A} code.
Arguments Crashed {A}.

Definition sysm (A : Type) : Type := os -> result A * os.
#[export] Instance sysm_ret : MRet sysm := fun A a st => (Returned a, st).
#[export] Instance sysm_bind : MBind sysm := fun A B k m st =>
  match m st with
  | (Returned a, st) => k a st
  | (Exiting code, st) => (Exiting code, st)
  | (Crashed, st) => (Crashed, st)
  end.
Definition exit_with {A} (code : Z) : sysm A := fun st => (Exiting code, st).
Definition crash {A} : sysm A := fun st => (Crashed, st).

(** The globals of a process that has the objects open; [None] is SEM_FAILED. *)
Record globals : Set := Globals {
  catalog_sem : nat; cmd_map_sem : nat; sub_map_sem : nat; input_sem : nat; rd_sem : nat; log_data_sem : nat;
  dual_sems : list (option nat * option nat);
  dev_shm_ptr : nat; input_shm_ptr : nat; rd_shm_ptr : nat; log_data_shm_ptr : nat
}.

Definition sem_of (g : globals) (s : shm_sem) : option nat :=
  match s with
  | CatalogSem => Some (catalog_sem g) | CmdMapSem => Some (cmd_map_sem g) | SubMapSem => Some (sub_map_sem g)
  | InputSem => Some (input_sem g) | RdSem => Some (rd_sem g) | LogDataSem => Some (log_data_sem g)
  | DataSem i => d ← dual_sems g !! i; fst d
  | CommandSem i => d ← dual_sems g !! i; snd d
  end.

(** The four blocks that a process sees. *)
Definition view (g : globals) (st : os) : option shm_t :=
  match shm_table st !! dev_shm_ptr g, shm_table st !! input_shm_ptr g,
        shm_table st !! rd_shm_ptr g, shm_table st !! log_data_shm_ptr g with
  | Some (DevBlock d), Some (InputsBlock i), Some (DescBlock f), Some (LogBlock l) => Some (Shm d i f l)
  | _, _, _, _ => None
  end.

Definition put_view (g : globals) (m : shm_t) (st : os) : os :=
  OS (sem_files st) (sem_table st) (shm_files st)
    (<[dev_shm_ptr g := DevBlock (dev_shm m)]> (<[input_shm_ptr g := InputsBlock (inputs m)]>
     (<[rd_shm_ptr g := DescBlock (fields m)]> (<[log_data_shm_ptr g := LogBlock (log_data m)]> (shm_table st))))).

Section Programs.
Context (refuses : syscall -> bool).

(** ** System calls *)

(** With [create], the semaphore gets the value 1 if it is new. *)
Definition sem_open (create : bool) (name : string) : sysm (option nat) := fun st =>
  if refuses (SemOpen name) then (Returned None, st)
  else match sem_files st !! name with
       | Some o => (Returned (Some o), st)
       | None =>
           if create then
             let o := length (sem_table st) in
             (Returned (Some o), OS (<[name := o]> (sem_files st)) (sem_table st ++ [1%nat]) (shm_files st) (shm_table st))
           else (Returned None, st)
       end.

Definition shm_open (create : bool) (name : string) : sysm (option nat) := fun st =>
  if refuses (ShmOpen name) then (Returned None, st)
  else match shm_files st !! name with
       | Some o => (Returned (Some o), st)
       | None =>
           if create then
             let o := length (shm_table st) in
             (Returned (Some o), OS (sem_files st) (sem_table st) (<[name := o]> (shm_files st)) (shm_table st ++ [Unsized]))
           else (Returned None, st)
       end.

(** A new block is filled with zeroes; one that has its size keeps what it holds. *)
Definition ftruncate (fd : nat) (zero : content) : sysm bool := fun st =>
  if refuses (Ftruncate fd) then (Returned false, st)
  else (Returned true, OS (sem_files st) (sem_table st) (shm_files st)
    (alter (fun c => match c with Unsized => zero | _ => c end) fd (shm_table st))).

Definition mmap (fd : nat) : sysm (option nat) := mret (if refuses (Mmap fd) then None else Some fd).

Definition sem_unlink (name : string) : sysm unit := fun st =>
  (Returned tt, if refuses (SemUnlink name) then st
                else OS (delete name (sem_files st)) (sem_table st) (shm_files st) (shm_table st)).
Definition shm_unlink (name : string) : sysm unit := fun st =>
  (Returned tt, if refuses (ShmUnlink name) then st
                else OS (sem_files st) (sem_table st) (delete name (shm_files st)) (shm_table st)).

(** ** Creating *)

Definition or_exit {A} (m : sysm (option A)) : sysm A :=
  r ← m; match r with Some a => mret a | None => exit_with 1 end.

Definition my_sem_open_create (name : string) : sysm nat := or_exit (sem_open true name).

(** The name of a device's semaphore, printed into a buffer of SNAME_SIZE bytes. *)
Definition sname (stream : stream_t) (dev_ix : nat) : sysm string :=
  let name := generate_sem_name stream dev_ix in
  if (String.length name <? SNAME_SIZE)%nat then mret name else crash.

Fixpoint create_sems (k i : nat) : sysm (list (option nat * option nat)) :=
  match k with
  | O => mret []
  | S k' =>
      name ← sname DATA i;
      data ← my_sem_open_create name;
      name ← sname COMMAND i;
      command ← my_sem_open_create name;
      rest ← create_sems k' (S i);
      mret ((Some data, Some command) :: rest)
  end.

(** A block: created, given its size, mapped. *)
Definition create_block (name : string) (zero : content) : sysm nat :=
  fd_shm ← or_exit (shm_open true name);
  ok ← ftruncate fd_shm zero;
  if negb ok then exit_with 1 else or_exit (mmap fd_shm).

Definition initialise (g : globals) : sysm unit := fun st =>
  match view g st with
  | Some old => (Returned tt, put_view g (shm_start old) st)
  | None => (Crashed, st)
  end.

(** [main] of shm_start.c, with the globals it ends with. *)
Definition shm_start_main : sysm globals :=
  catalog_sem ← my_sem_open_create CATALOG_MUTEX_NAME;
  cmd_map_sem ← my_sem_open_create CMDMAP_MUTEX_NAME;
  sub_map_sem ← my_sem_open_create SUBMAP_MUTEX_NAME;
  input_sem ← my_sem_open_create INPUTS_MUTEX_NAME;
  rd_sem ← my_sem_open_create RD_MUTEX_NAME;
  log_data_sem ← my_sem_open_create LOG_DATA_MUTEX;
  sems ← create_sems MAX_DEVICES 0;
  dev ← create_block DEV_SHM_NAME (DevBlock (dev_shm zero_shm));
  input ← create_block INPUTS_SHM_NAME (InputsBlock (inputs zero_shm));
  rd ← create_block ROBOT_DESC_SHM_NAME (DescBlock (fields zero_shm));
  log ← create_block LOG_DATA_SHM (LogBlock (log_data zero_shm));
  let g := Globals catalog_sem cmd_map_sem sub_map_sem input_sem rd_sem log_data_sem sems dev input rd log in
  initialise g ;; mret g.

(** ** Attaching *)

(** [access("/dev/shm/dev-shm", F_OK)]: where the system keeps the block's name. *)
Definition shm_exists : sysm bool := fun st => (Returned (bool_decide (is_Some (shm_files st !! DEV_SHM_NAME))), st).

Definition my_sem_open (name : string) : sysm nat := or_exit (sem_open false name).

(** A device's semaphore that cannot be opened is only logged. *)
Fixpoint open_sems (k i : nat) : sysm (list (option nat * option nat)) :=
  match k with
  | O => mret []
  | S k' =>
      name ← sname DATA i;
      data ← sem_open false name;
      name ← sname COMMAND i;
      command ← sem_open false name;
      rest ← open_sems k' (S i);
      mret ((data, command) :: rest)
  end.

Definition attach_block (create : bool) (name : string) : sysm nat :=
  fd_shm ← or_exit (shm_open create name); or_exit (mmap fd_shm).

Definition shm_init : sysm globals :=
  ex ← shm_exists;
  if negb ex then exit_with 1
  else
    catalog_sem ← my_sem_open CATALOG_MUTEX_NAME;
    cmd_map_sem ← my_sem_open CMDMAP_MUTEX_NAME;
    sub_map_sem ← my_sem_open SUBMAP_MUTEX_NAME;
    input_sem ← my_sem_open INPUTS_MUTEX_NAME;
    rd_sem ← my_sem_open RD_MUTEX_NAME;
    log_data_sem ← my_sem_open LOG_DATA_MUTEX;
    sems ← open_sems MAX_DEVICES 0;
    dev ← attach_block false DEV_SHM_NAME;
    input ← attach_block false INPUTS_SHM_NAME;
    rd ← attach_block false ROBOT_DESC_SHM_NAME;
    log ← attach_block true LOG_DATA_SHM;
    mret (Globals catalog_sem cmd_map_sem sub_map_sem input_sem rd_sem log_data_sem sems dev input rd log).

(** ** Removing *)

Fixpoint unlink_sems (k i : nat) : sysm unit :=
  match k with
  | O => mret tt
  | S k' =>
      name ← sname DATA i;
      sem_unlink name ;;
      name ← sname COMMAND i;
      sem_unlink name ;;
      unlink_sems k' (S i)
  end.

(** [main] of shm_stop.c. *)
Definition shm_stop_main : sysm Z :=
  _ ← shm_init;
  shm_unlink DEV_SHM_NAME ;;
  shm_unlink INPUTS_SHM_NAME ;;
  shm_unlink ROBOT_DESC_SHM_NAME ;;
  shm_unlink LOG_DATA_SHM ;;
  sem_unlink CATALOG_MUTEX_NAME ;;
  sem_unlink CMDMAP_MUTEX_NAME ;;
  sem_unlink SUBMAP_MUTEX_NAME ;;
  sem_unlink INPUTS_MUTEX_NAME ;;
  sem_unlink RD_MUTEX_NAME ;;
  sem_unlink LOG_DATA_MUTEX ;;
  unlink_sems MAX_DEVICES 0 ;;
  mret 1.

End Programs.

(** ** Processes *)

(** What a process does to the objects it has open. One that is killed just stops. *)
Inductive process_step (g : globals) : os -> os -> Prop :=
| waits s o v st : sem_of g s = Some o -> sem_table st !! o = Some (S v) ->
    process_step g st (OS (sem_files st) (<[o := v]> (sem_table st)) (shm_files st) (shm_table st))
| posts s o v st : sem_of g s = Some o -> sem_table st !! o = Some v ->
    process_step g st (OS (sem_files st) (<[o := S v]> (sem_table st)) (shm_files st) (shm_table st))
| stores old m st : view g st = Some old -> process_step g st (put_view g m st).

Definition empty_os : os := OS ∅ [] ∅ [].
Definition grants (c : syscall) : bool := false.
