(* ===== verification/ShmLifeSpec.v ===== *)
(** * What creating, attaching and removing the shared memory guarantees: the theorems on
    [ShmLife]. *)

From stdpp Require Import gmap strings pretty relations.
From S2P Require Export ShmLife.

(** ** Names *)

#[export] Instance sem_name_inj : Inj (=) (=) sem_name.
Proof.
  intros s s' Hs. destruct s, s'; try done; cbn [sem_name] in Hs; try discriminate Hs; f_equal; apply (inj pretty).
  - by apply (inj (String.append "/data_sem_")) in Hs.
  - by apply (inj (String.append "/command_sem_")) in Hs.
Qed.

(** Every name fits its buffer. *)
Lemma sname_run stream i st : (i < MAX_DEVICES)%nat -> sname stream i st = (Returned (generate_sem_name stream i), st).
Proof.
  intros Hi. unfold sname.
  assert (Hall : forallb (fun i => forallb (fun s => (String.length (generate_sem_name s i) <? SNAME_SIZE)%nat) [DATA; COMMAND])
    (seq 0 MAX_DEVICES) = true) by (vm_compute; reflexivity).
  rewrite forallb_forall in Hall. specialize (Hall i). rewrite in_seq in Hall. specialize (Hall ltac:(lia)).
  rewrite forallb_forall in Hall. rewrite (Hall stream) by (destruct stream; cbn; auto). done.
Qed.

Definition block_names : list string := [DEV_SHM_NAME; INPUTS_SHM_NAME; ROBOT_DESC_SHM_NAME; LOG_DATA_SHM].

(** What a new block of this name holds. *)
Definition zero_block (name : string) : content :=
  if decide (name = DEV_SHM_NAME) then DevBlock (dev_shm zero_shm)
  else if decide (name = INPUTS_SHM_NAME) then InputsBlock (inputs zero_shm)
  else if decide (name = ROBOT_DESC_SHM_NAME) then DescBlock (fields zero_shm)
  else LogBlock (log_data zero_shm).

Definition kind (c : content) : option nat :=
  match c with
  | Unsized => None | DevBlock _ => Some 0%nat | InputsBlock _ => Some 1%nat | DescBlock _ => Some 2%nat
  | LogBlock _ => Some 3%nat
  end.

Lemma zero_block_sized n : is_Some (kind (zero_block n)).
Proof. unfold zero_block. repeat case_decide; by eexists. Qed.

(** ** Well-formed kernels, and how they grow *)

(** Names lead to objects, each object has at most one name, and what is under a block's name
    is of its kind. *)
Record os_wf (st : os) : Prop := {
  wf_sem : forall n o, sem_files st !! n = Some o -> (o < length (sem_table st))%nat;
  wf_sem_inj : forall n n' o, sem_files st !! n = Some o -> sem_files st !! n' = Some o -> n = n';
  wf_shm : forall n o, shm_files st !! n = Some o -> (o < length (shm_table st))%nat;
  wf_shm_inj : forall n n' o, shm_files st !! n = Some o -> shm_files st !! n' = Some o -> n = n';
  wf_kind : forall n o c, shm_files st !! n = Some o -> shm_table st !! o = Some c ->
    c = Unsized \/ kind c = kind (zero_block n)
}.

Record grows (a b : os) : Prop := {
  gr_sem : forall n o, sem_files a !! n = Some o -> sem_files b !! n = Some o;
  gr_val : forall o v, sem_table a !! o = Some v -> sem_table b !! o = Some v;
  gr_sem_new : forall n o, sem_files b !! n = Some o -> sem_files a !! n = None ->
    (length (sem_table a) <= o)%nat /\ sem_table b !! o = Some 1%nat;
  gr_shm : forall n o, shm_files a !! n = Some o -> shm_files b !! n = Some o;
  gr_content : forall o c, shm_table a !! o = Some c -> c ≠ Unsized -> shm_table b !! o = Some c;
  gr_shm_new : forall n o, shm_files b !! n = Some o -> shm_files a !! n = None ->
    (length (shm_table a) <= o)%nat /\ shm_table b !! o = Some (zero_block n);
  gr_sem_length : (length (sem_table a) <= length (sem_table b))%nat;
  gr_shm_length : (length (shm_table a) <= length (shm_table b))%nat
}.

#[export] Instance grows_preorder : PreOrder grows.
Proof.
  split.
  - intros st. split; auto; intros n o H1 H2; congruence.
  - intros a b c [A1 A2 A3 A4 A5 A6 A7 A8] [B1 B2 B3 B4 B5 B6 B7 B8]. split; try lia; auto.
    + intros n o Hc Ha. destruct (sem_files b !! n) as [o'|] eqn:Hb.
      * assert (o' = o) as -> by (apply B1 in Hb; congruence). destruct (A3 n o Hb Ha). auto.
      * destruct (B3 n o Hc Hb). split; [lia | done].
    + intros n o Hc Ha. destruct (shm_files b !! n) as [o'|] eqn:Hb.
      * assert (o' = o) as -> by (apply B4 in Hb; congruence). destruct (A6 n o Hb Ha) as [? Hz]. split; [done|].
        apply B5; [done|]. intros E. destruct (zero_block_sized n) as [k Hk]. by rewrite E in Hk.
      * destruct (B6 n o Hc Hb). split; [lia | done].
Qed.

(** What remains true while the kernel grows. *)
Class Stable (R : os -> Prop) : Prop := stable : forall st st', grows st st' -> R st -> R st'.

#[export] Instance stable_and R R' : Stable R -> Stable R' -> Stable (fun st => R st /\ R' st).
Proof. intros H H' st st' Hg [Hr Hr']. split; [by eapply H | by eapply H']. Qed.
#[export] Instance stable_forall {A} (R : A -> os -> Prop) : (forall a, Stable (R a)) -> Stable (fun st => forall a, R a st).
Proof. intros H st st' Hg Hr a. by eapply H. Qed.
#[export] Instance stable_pure (P : Prop) : Stable (fun _ => P).
Proof. by intros st st' _. Qed.
#[export] Instance stable_impl (P : Prop) R : Stable R -> Stable (fun st => P -> R st).
Proof. intros H st st' Hg Hr p. eapply H; [done | by apply Hr]. Qed.
#[export] Instance stable_grows st0 : Stable (grows st0).
Proof. intros st st' Hg Hr. by etrans. Qed.
#[export] Instance stable_sem n o : Stable (fun st => sem_files st !! n = Some o).
Proof. intros st st' Hg. apply (gr_sem _ _ Hg). Qed.

(** A block that has its size, at an object of its name. *)
Definition sized (n : string) (o : nat) (st : os) : Prop :=
  shm_files st !! n = Some o /\ exists c, shm_table st !! o = Some c /\ c ≠ Unsized.
#[export] Instance stable_sized n o : Stable (sized n o).
Proof.
  intros st st' Hg [Hn (c & Hc & Hu)]. split; [by apply (gr_shm _ _ Hg)|]. exists c. split; [by apply (gr_content _ _ Hg) | done].
Qed.

(** [m] ends normally from every well-formed kernel with [R], keeps both and adds [Q]. *)
Definition does {A} (R : os -> Prop) (m : sysm A) (Q : A -> os -> Prop) : Prop :=
  forall st, os_wf st -> R st -> exists a st', m st = (Returned a, st') /\ os_wf st' /\ Q a st'.

Lemma bind_run {A B} (m : sysm A) (k : A -> sysm B) st a st' : m st = (Returned a, st') -> (m ≫= k) st = k a st'.
Proof. intros Hm. unfold mbind, sysm_bind. by rewrite Hm. Qed.

Lemma does_ret {A} R (a : A) : does R (mret a) (fun a' st => a' = a /\ R st).
Proof. intros st Hw Hr. exists a, st. done. Qed.

Lemma does_bind {A B} R (m : sysm A) (k : A -> sysm B) Q Q' :
  does R m Q -> (forall a, does (Q a) (k a) Q') -> does R (m ≫= k) Q'.
Proof.
  intros Hm Hk st Hw Hr. destruct (Hm st Hw Hr) as (a & st' & Hms & Hw' & Hq).
  destruct (Hk a st' Hw' Hq) as (b & st'' & Hks & ?). exists b, st''. split; [|done].
  unfold mbind, sysm_bind. by rewrite Hms.
Qed.

Lemma does_weaken {A} R (m : sysm A) (Q Q' : A -> os -> Prop) :
  does R m Q -> (forall a st, os_wf st -> Q a st -> Q' a st) -> does R m Q'.
Proof. intros Hm Hq st Hw Hr. destruct (Hm st Hw Hr) as (a & st' & ? & ? & ?). eauto 6. Qed.

(** ** Creating *)

Lemma sem_create_grows st n : os_wf st -> sem_files st !! n = None ->
  let st' := OS (<[n := length (sem_table st)]> (sem_files st)) (sem_table st ++ [1%nat]) (shm_files st) (shm_table st) in
  os_wf st' /\ grows st st'.
Proof.
  intros [W1 W2 W3 W4 W5] Hn st'. assert (Hlt : forall m o, sem_files st !! m = Some o -> (o < length (sem_table st))%nat) by apply W1.
  split; split; cbn; try done.
  - intros m o [[-> <-]|[_ Hm]]%lookup_insert_Some; rewrite length_app; cbn; [lia|]. apply Hlt in Hm. lia.
  - intros m m' o [[-> <-]|[_ Hm]]%lookup_insert_Some [[-> E]|[_ Hm']]%lookup_insert_Some; try done.
    + apply Hlt in Hm'. lia.
    + apply Hlt in Hm. lia.
    + by eapply W2.
  - intros m o Hm. rewrite lookup_insert_ne; [done | congruence].
  - intros o v Hv. by apply lookup_app_l_Some.
  - intros m o [[-> <-]|[_ Hm]]%lookup_insert_Some Hm'; [|congruence]. split; [lia|]. by rewrite list_lookup_middle.
  - intros m o H1 H2. congruence.
  - rewrite length_app. lia.
Qed.

Lemma my_sem_open_create_does R n `{!Stable R} :
  does R (my_sem_open_create grants n) (fun o st => R st /\ sem_files st !! n = Some o).
Proof.
  intros st Hw Hr. unfold my_sem_open_create, or_exit, mbind, sysm_bind, sem_open. change (grants _) with false. cbv iota.
  destruct (sem_files st !! n) as [o|] eqn:Hn; [by exists o, st|].
  destruct (sem_create_grows st n Hw Hn) as [Hw' Hg]. eexists _, _. split; [reflexivity|]. split; [exact Hw'|].
  split; [by eapply stable|]. cbn. by rewrite lookup_insert_eq.
Qed.

(** The block of a name, new or of an earlier run, gets its size. *)
Lemma shm_create_grows st n : os_wf st -> shm_files st !! n = None ->
  let st' := OS (sem_files st) (sem_table st) (<[n := length (shm_table st)]> (shm_files st)) (shm_table st ++ [zero_block n]) in
  os_wf st' /\ grows st st'.
Proof.
  intros [W1 W2 W3 W4 W5] Hn st'.
  split; split; cbn; try done.
  - intros m o [[-> <-]|[_ Hm]]%lookup_insert_Some; rewrite length_app; cbn; [lia|]. apply W3 in Hm. lia.
  - intros m m' o [[-> <-]|[_ Hm]]%lookup_insert_Some [[-> E]|[_ Hm']]%lookup_insert_Some; try done.
    + apply W3 in Hm'. lia.
    + apply W3 in Hm. lia.
    + by eapply W4.
  - intros m o c [[-> <-]|[_ Hm]]%lookup_insert_Some Hc.
    + rewrite list_lookup_middle in Hc by done. injection Hc as <-. by right.
    + pose proof (W3 _ _ Hm). rewrite lookup_app_l in Hc by done. by eapply W5.
  - intros m o H1 H2. congruence.
  - intros m o Hm. rewrite lookup_insert_ne; [done | congruence].
  - intros o c Hc _. by apply lookup_app_l_Some.
  - intros m o [[-> <-]|[_ Hm]]%lookup_insert_Some Hm'; [|congruence]. split; [lia|]. by rewrite list_lookup_middle.
  - rewrite length_app. lia.
Qed.

Definition sized_content (zero c : content) : content := match c with Unsized => zero | _ => c end.

Lemma truncate_grows st n o : os_wf st -> shm_files st !! n = Some o ->
  let st' := OS (sem_files st) (sem_table st) (shm_files st) (alter (sized_content (zero_block n)) o (shm_table st)) in
  os_wf st' /\ grows st st'.
Proof.
  intros [W1 W2 W3 W4 W5] Hn st'.
  split; split; cbn; try done; rewrite ?length_alter; try done.
  - intros m p c Hm Hc. destruct (decide (p = o)) as [->|Hne].
    + assert (m = n) as -> by (by eapply W4). rewrite list_lookup_alter_eq in Hc.
      apply fmap_Some in Hc as (c' & Hc' & ->). destruct (W5 _ _ _ Hn Hc') as [->|Hk]; [by right|].
      destruct c'; by (left + right).
    + rewrite list_lookup_alter_ne in Hc by done. by eapply W5.
  - intros m p H1 H2. congruence.
  - intros p c Hc Hu. destruct (decide (p = o)) as [->|Hne]; [|by rewrite list_lookup_alter_ne].
    rewrite list_lookup_alter_eq, Hc. by destruct c.
  - intros m p H1 H2. congruence.
Qed.

Lemma create_block_does R n z `{!Stable R} : z = zero_block n ->
  does R (create_block grants n z) (fun o st => R st /\ sized n o st).
Proof.
  intros -> st Hw Hr. unfold create_block, or_exit, mmap, ftruncate, mbind, sysm_bind, shm_open.
  change (grants _) with false. cbv iota. destruct (shm_files st !! n) as [o|] eqn:Hn.
  - destruct (truncate_grows st n o Hw Hn) as [Hw' Hg]. eexists _, _. split; [reflexivity|]. split; [exact Hw'|].
    split; [by eapply stable|]. split; [exact Hn|]. pose proof (wf_shm _ Hw _ _ Hn) as Hl.
    apply lookup_lt_is_Some_2 in Hl as [c Hc]. cbn. exists (sized_content (zero_block n) c).
    change (alter _ o (shm_table st)) with (alter (sized_content (zero_block n)) o (shm_table st)).
    rewrite list_lookup_alter_eq, Hc. split; [done|]. destruct (zero_block_sized n) as [k Hk].
    destruct c; try done. intros E. cbn in E. by rewrite E in Hk.
  - destruct (shm_create_grows st n Hw Hn) as [Hw' Hg].
    assert (Ha : alter (fun c => match c with Unsized => zero_block n | _ => c end) (length (shm_table st))
      (shm_table st ++ [Unsized]) = shm_table st ++ [zero_block n]).
    { rewrite alter_app_r_alt by lia. by rewrite Nat.sub_diag. }
    eexists _, _. split; [cbn; rewrite Ha; reflexivity|]. split; [exact Hw'|]. split; [by eapply stable|].
    split; cbn; [by rewrite lookup_insert_eq|]. exists (zero_block n). rewrite list_lookup_middle by done. split; [done|].
    intros E. destruct (zero_block_sized n) as [k Hk]. by rewrite E in Hk.
Qed.

Lemma sname_does R stream i : (i < MAX_DEVICES)%nat -> does R (sname stream i) (fun n st => n = generate_sem_name stream i /\ R st).
Proof. intros Hi st Hw Hr. eexists _, st. split; [by apply sname_run|]. done. Qed.

(** The semaphores of the devices from [i] on. *)
Definition device_sems (i : nat) (l : list (option nat * option nat)) (st : os) : Prop := forall j d, l !! j = Some d ->
  exists a b, d = (Some a, Some b) /\ sem_files st !! generate_sem_name DATA (i + j) = Some a /\
    sem_files st !! generate_sem_name COMMAND (i + j) = Some b.

#[export] Instance stable_device_sems i l : Stable (device_sems i l).
Proof.
  intros st st' Hg Hd j d Hj. destruct (Hd j d Hj) as (a & b & -> & Ha & Hb). exists a, b.
  split; [done|]. split; by apply (gr_sem _ _ Hg).
Qed.

Lemma create_sems_does k : forall R i, Stable R -> (i + k <= MAX_DEVICES)%nat ->
  does R (create_sems grants k i) (fun l st => R st /\ length l = k /\ device_sems i l st).
Proof.
  induction k as [|k IH]; intros R i HR Hk; cbn [create_sems].
  { eapply does_weaken; [apply does_ret|]. intros l st _ [-> Hr]. by split; [|split; [|intros j d Hj]]. }
  eapply does_bind; [apply (sname_does R); lia|]. intros n. cbn beta.
  eapply does_bind; [apply my_sem_open_create_does; apply _|]. intros a. cbn beta.
  eapply does_bind; [apply sname_does; lia|]. intros n'. cbn beta.
  eapply does_bind; [apply my_sem_open_create_does; apply _|]. intros b. cbn beta.
  eapply does_bind; [apply IH; [apply _ | lia]|]. intros l. cbn beta.
  eapply does_weaken; [apply does_ret|]. intros l' st _ (-> & (((-> & [-> Hr] & Ha) & Hb) & Hl & Hd)).
  split; [done|]. split; [cbn; lia|]. intros [|j] d Hj; cbn in Hj.
  - injection Hj as <-. exists a, b. by rewrite Nat.add_0_r.
  - rewrite <- Nat.add_succ_comm. by apply Hd.
Qed.

(** ** A process with everything open *)

Definition named_sems (g : globals) (st : os) : Prop :=
  sem_files st !! CATALOG_MUTEX_NAME = Some (catalog_sem g) /\ sem_files st !! CMDMAP_MUTEX_NAME = Some (cmd_map_sem g) /\
  sem_files st !! SUBMAP_MUTEX_NAME = Some (sub_map_sem g) /\ sem_files st !! INPUTS_MUTEX_NAME = Some (input_sem g) /\
  sem_files st !! RD_MUTEX_NAME = Some (rd_sem g) /\ sem_files st !! LOG_DATA_MUTEX = Some (log_data_sem g) /\
  length (dual_sems g) = MAX_DEVICES /\ device_sems 0 (dual_sems g) st.

Definition mapped (g : globals) (st : os) : Prop :=
  sized DEV_SHM_NAME (dev_shm_ptr g) st /\ sized INPUTS_SHM_NAME (input_shm_ptr g) st /\
  sized ROBOT_DESC_SHM_NAME (rd_shm_ptr g) st /\ sized LOG_DATA_SHM (log_data_shm_ptr g) st.

Definition attached (g : globals) (st : os) : Prop := named_sems g st /\ mapped g st.

Lemma all_sems_device s : s ∈ all_sems <-> match s with DataSem i | CommandSem i => (i < MAX_DEVICES)%nat | _ => True end.
Proof.
  unfold all_sems. rewrite !elem_of_app, !list_elem_of_fmap.
  destruct s as [| | | | | |i|i]; split; try done; try (intros _; left; apply list_elem_of_In; cbn; tauto).
  - intros [Hs|[(j & [= ->] & Hj%elem_of_seq)|(j & Hj & _)]]; [apply list_elem_of_In in Hs; cbn in Hs; intuition discriminate | lia | done].
  - intros Hi. right. left. exists i. split; [done|]. apply elem_of_seq. lia.
  - intros [Hs|[(j & Hj & _)|(j & [= ->] & Hj%elem_of_seq)]]; [apply list_elem_of_In in Hs; cbn in Hs; intuition discriminate | done | lia].
  - intros Hi. right. right. exists i. split; [done|]. apply elem_of_seq. lia.
Qed.

(** Every semaphore is the object of its name. *)
Lemma named_sem_of g st s : named_sems g st -> s ∈ all_sems ->
  exists o, sem_of g s = Some o /\ sem_files st !! sem_name s = Some o.
Proof.
  intros (H1 & H2 & H3 & H4 & H5 & H6 & Hl & Hd) Hs%all_sems_device.
  destruct s as [| | | | | |i|i]; try (eexists; split; [reflexivity | assumption]);
    (destruct (lookup_lt_is_Some_2 (dual_sems g) i) as [d Hi]; [lia|]; destruct (Hd i d Hi) as (a & b & -> & Ha & Hb);
     cbn [sem_of sem_name]; rewrite Hi; eauto).
Qed.

(** And only the semaphores of the list exist for it. *)
Lemma sem_of_named g st s o : named_sems g st -> sem_of g s = Some o -> sem_files st !! sem_name s = Some o.
Proof.
  intros Hn Hs. assert (Ha : s ∈ all_sems).
  { apply all_sems_device. pose proof Hn as (_ & _ & _ & _ & _ & _ & Hl & _). rewrite <- Hl.
    destruct s as [| | | | | |i|i]; try done; cbn in Hs; destruct (dual_sems g !! i) eqn:Hi; try done; by apply lookup_lt_Some in Hi. }
  destruct (named_sem_of g st s Hn Ha) as (o' & Ho' & ?). congruence.
Qed.

(** The blocks are four objects, of their kinds. *)
Lemma mapped_view g st : os_wf st -> mapped g st -> is_Some (view g st).
Proof.
  intros Hw ([N1 (c1 & C1 & U1)] & [N2 (c2 & C2 & U2)] & [N3 (c3 & C3 & U3)] & [N4 (c4 & C4 & U4)]).
  pose proof (wf_kind _ Hw _ _ _ N1 C1) as [|K1]; [done|]. pose proof (wf_kind _ Hw _ _ _ N2 C2) as [|K2]; [done|].
  pose proof (wf_kind _ Hw _ _ _ N3 C3) as [|K3]; [done|]. pose proof (wf_kind _ Hw _ _ _ N4 C4) as [|K4]; [done|].
  unfold view. rewrite C1, C2, C3, C4. destruct c1, c2, c3, c4; try discriminate. by eexists.
Qed.

(** Writing the four blocks changes their contents and nothing else. *)
Lemma pointers_differ g st : os_wf st -> mapped g st ->
  let '(p1, p2, p3, p4) := (dev_shm_ptr g, input_shm_ptr g, rd_shm_ptr g, log_data_shm_ptr g) in
  (p1 ≠ p2 /\ p1 ≠ p3 /\ p1 ≠ p4 /\ p2 ≠ p3 /\ p2 ≠ p4 /\ p3 ≠ p4) /\
  let n := length (shm_table st) in (p1 < n /\ p2 < n /\ p3 < n /\ p4 < n)%nat.
Proof.
  intros Hw ([N1 _] & [N2 _] & [N3 _] & [N4 _]). split; [|repeat split; by eapply wf_shm].
  assert (Hne : forall n n' o o', shm_files st !! n = Some o -> shm_files st !! n' = Some o' -> n ≠ n' -> o ≠ o')
    by (intros n n' o o' Hn Hn' Hd ->; by apply Hd, (wf_shm_inj _ Hw n n' o')).
  repeat split; (eapply Hne; [eassumption..|discriminate]).
Qed.

Lemma put_view_lookup g m st : os_wf st -> mapped g st ->
  let t := shm_table (put_view g m st) in
  t !! dev_shm_ptr g = Some (DevBlock (dev_shm m)) /\ t !! input_shm_ptr g = Some (InputsBlock (inputs m)) /\
  t !! rd_shm_ptr g = Some (DescBlock (fields m)) /\ t !! log_data_shm_ptr g = Some (LogBlock (log_data m)) /\
  forall o, o ∉ [dev_shm_ptr g; input_shm_ptr g; rd_shm_ptr g; log_data_shm_ptr g] -> t !! o = shm_table st !! o.
Proof.
  intros Hw Hm t. destruct (pointers_differ g st Hw Hm) as [(? & ? & ? & ? & ? & ?) (? & ? & ? & ?)]. subst t. cbn.
  split; [rewrite list_lookup_insert_eq; [done | by rewrite !length_insert]|].
  split; [rewrite list_lookup_insert_ne, list_lookup_insert_eq by (done || by rewrite !length_insert); done|].
  split; [rewrite !list_lookup_insert_ne, list_lookup_insert_eq by (done || by rewrite !length_insert); done|].
  split; [rewrite !list_lookup_insert_ne, list_lookup_insert_eq by (done || by rewrite !length_insert); done|].
  intros o Ho. rewrite !not_elem_of_cons in Ho. destruct Ho as (? & ? & ? & ? & _). by rewrite !list_lookup_insert_ne.
Qed.

Lemma put_view_view g m st : os_wf st -> mapped g st -> view g (put_view g m st) = Some m.
Proof.
  intros Hw Hm. destruct (put_view_lookup g m st Hw Hm) as (H1 & H2 & H3 & H4 & _). unfold view.
  rewrite H1, H2, H3, H4. by destruct m.
Qed.

Lemma put_view_attached g m st : os_wf st -> attached g st -> os_wf (put_view g m st) /\ attached g (put_view g m st).
Proof.
  intros Hw [Hn Hm]. destruct (put_view_lookup g m st Hw Hm) as (H1 & H2 & H3 & H4 & H5).
  pose proof Hm as ([N1 _] & [N2 _] & [N3 _] & [N4 _]). split; [|split; [exact Hn|]].
  - destruct Hw as [W1 W2 W3 W4 W5]. split; try done.
    + intros n o Ho. cbn. rewrite !length_insert. by eapply W3.
    + intros n o c Ho Hc. change (shm_files (put_view g m st)) with (shm_files st) in Ho.
      destruct (decide (o ∈ [dev_shm_ptr g; input_shm_ptr g; rd_shm_ptr g; log_data_shm_ptr g])) as [Hin|Hin];
        [|rewrite H5 in Hc by done; by eapply W5]. right.
      rewrite !elem_of_cons in Hin. destruct Hin as [->|[->|[->|[->|Hin]]]]; [| | | |by apply not_elem_of_nil in Hin].
      * rewrite H1 in Hc. injection Hc as <-. by rewrite (W4 _ _ _ Ho N1).
      * rewrite H2 in Hc. injection Hc as <-. by rewrite (W4 _ _ _ Ho N2).
      * rewrite H3 in Hc. injection Hc as <-. by rewrite (W4 _ _ _ Ho N3).
      * rewrite H4 in Hc. injection Hc as <-. by rewrite (W4 _ _ _ Ho N4).
  - split; [|split; [|split]]; (split; [assumption|]); eexists; split; try eassumption; done.
Qed.

(** ** The creator *)

(** Everything is open in the end: what existed is as it was, but for the values that
    [initialise] sets, and the rest is new. *)
Lemma shm_start_run st0 : os_wf st0 -> exists g st old, shm_start_main grants st0 = (Returned g, put_view g (shm_start old) st) /\
  os_wf st /\ grows st0 st /\ attached g st /\ view g st = Some old.
Proof.
  intros Hw0.
  assert (Hd : does (grows st0) (shm_start_main grants) (fun g st' => exists st old, st' = put_view g (shm_start old) st /\
    os_wf st /\ grows st0 st /\ attached g st /\ view g st = Some old)).
  { unfold shm_start_main.
    do 6 (eapply does_bind; [apply my_sem_open_create_does; apply _|]; intros ?; cbn beta).
    eapply does_bind; [apply create_sems_does; [apply _ | lia]|]. intros sems. cbn beta.
    do 4 (eapply does_bind; [apply create_block_does; [apply _ | reflexivity]|]; intros ?; cbn beta).
    set (g := Globals _ _ _ _ _ _ _ _ _ _ _).
    intros st Hw Hr. assert (Ha : attached g st /\ grows st0 st) by (unfold attached, named_sems, mapped; cbn; tauto).
    destruct Ha as [Ha Hg]. destruct (mapped_view g st Hw (proj2 Ha)) as [old Hv].
    exists g, (put_view g (shm_start old) st). split; [|split; [by apply put_view_attached | by exists st, old]].
    unfold mbind, sysm_bind, initialise. by rewrite Hv. }
  destruct (Hd st0 Hw0 ltac:(done)) as (g & st' & Hr & _ & st & old & -> & H). exists g, st, old. done.
Qed.

(** ** Attaching *)

Lemma sem_open_run create n o st : sem_files st !! n = Some o -> sem_open grants create n st = (Returned (Some o), st).
Proof. intros Hn. unfold sem_open. change (grants _) with false. cbv iota. by rewrite Hn. Qed.

Lemma open_sems_run k : forall i l st, (i + k <= MAX_DEVICES)%nat -> length l = k -> device_sems i l st ->
  open_sems grants k i st = (Returned l, st).
Proof.
  induction k as [|k IH]; intros i l st Hk Hl Hd; (destruct l as [|d l]; [done || discriminate|]); [discriminate|].
  destruct (Hd 0%nat d eq_refl) as (a & b & -> & Ha & Hb). rewrite Nat.add_0_r in Ha, Hb.
  cbn [open_sems]. erewrite bind_run by (apply sname_run; lia). erewrite bind_run by (by apply sem_open_run).
  erewrite bind_run by (apply sname_run; lia). erewrite bind_run by (by apply sem_open_run).
  erewrite bind_run; [done | apply (IH (S i) l); [lia | by injection Hl|]].
  intros j d Hj. rewrite Nat.add_succ_comm. by apply (Hd (S j)).
Qed.

Lemma my_sem_open_run n o st : sem_files st !! n = Some o -> my_sem_open grants n st = (Returned o, st).
Proof. intros Hn. unfold my_sem_open, or_exit. by erewrite bind_run by (by apply sem_open_run). Qed.

Lemma attach_block_run create n o st : sized n o st -> attach_block grants create n st = (Returned o, st).
Proof. intros [Hn _]. unfold attach_block, or_exit, mbind, sysm_bind, shm_open. change (grants _) with false. cbv iota. by rewrite Hn. Qed.

(** Every process that attaches gets the same objects, and changes nothing. *)
Lemma shm_init_run g st : attached g st -> shm_init grants st = (Returned g, st).
Proof.
  intros [(H1 & H2 & H3 & H4 & H5 & H6 & Hl & Hd) (M1 & M2 & M3 & M4)]. unfold shm_init.
  erewrite bind_run by reflexivity. rewrite (proj1 M1). change (negb (bool_decide (is_Some (Some _)))) with false. cbv iota.
  do 6 (erewrite bind_run by (apply my_sem_open_run; eassumption)).
  erewrite bind_run by (by apply open_sems_run).
  do 4 (erewrite bind_run by (apply attach_block_run; eassumption)). by destruct g.
Qed.

(** ** Removing *)

(** Names have gone; the objects are where they were. *)
Record shrinks (a b : os) : Prop := {
  sh_sem : forall n o, sem_files b !! n = Some o -> sem_files a !! n = Some o;
  sh_shm : forall n o, shm_files b !! n = Some o -> shm_files a !! n = Some o;
  sh_values : sem_table b = sem_table a;
  sh_contents : shm_table b = shm_table a
}.

#[export] Instance shrinks_preorder : PreOrder shrinks.
Proof.
  split; [by split|]. intros a b c [A1 A2 A3 A4] [B1 B2 B3 B4]. split; [auto | auto | congruence | congruence].
Qed.

Lemma shrinks_gone_sem a b n : shrinks a b -> sem_files a !! n = None -> sem_files b !! n = None.
Proof. intros Hs Hn. destruct (sem_files b !! n) as [o|] eqn:Hb; [|done]. apply (sh_sem _ _ Hs) in Hb. congruence. Qed.

Lemma shrinks_gone_shm a b n : shrinks a b -> shm_files a !! n = None -> shm_files b !! n = None.
Proof. intros Hs Hn. destruct (shm_files b !! n) as [o|] eqn:Hb; [|done]. apply (sh_shm _ _ Hs) in Hb. congruence. Qed.

Lemma shrinks_wf a b : shrinks a b -> os_wf a -> os_wf b.
Proof.
  intros [S1 S2 S3 S4] [W1 W2 W3 W4 W5]. split; rewrite ?S3, ?S4; eauto.
Qed.

Lemma sem_unlink_run n st : exists st', sem_unlink grants n st = (Returned tt, st') /\ shrinks st st' /\ sem_files st' !! n = None.
Proof.
  eexists. split; [reflexivity|]. change (grants _) with false. cbv iota.
  split; [split|]; cbn; try done; [|by rewrite lookup_delete_eq]. by intros m o [_ Hm]%lookup_delete_Some.
Qed.

Lemma shm_unlink_run n st : exists st', shm_unlink grants n st = (Returned tt, st') /\ shrinks st st' /\ shm_files st' !! n = None.
Proof.
  eexists. split; [reflexivity|]. change (grants _) with false. cbv iota.
  split; [split|]; cbn; try done; [|by rewrite lookup_delete_eq]. by intros m o [_ Hm]%lookup_delete_Some.
Qed.

Lemma unlink_sems_run k : forall i st, (i + k <= MAX_DEVICES)%nat ->
  exists st', unlink_sems grants k i st = (Returned tt, st') /\ shrinks st st' /\
    forall stream j, (i <= j < i + k)%nat -> sem_files st' !! generate_sem_name stream j = None.
Proof.
  induction k as [|k IH]; intros i st Hk; cbn [unlink_sems].
  { exists st. split; [done|]. split; [done|]. intros stream j Hj. lia. }
  destruct (sem_unlink_run (generate_sem_name DATA i) st) as (st1 & E1 & S1 & G1).
  destruct (sem_unlink_run (generate_sem_name COMMAND i) st1) as (st2 & E2 & S2 & G2).
  destruct (IH (S i) st2) as (st3 & E3 & S3 & G3); [lia|]. exists st3.
  erewrite bind_run by (apply sname_run; lia). erewrite bind_run by exact E1.
  erewrite bind_run by (apply sname_run; lia). erewrite bind_run by exact E2.
  split; [exact E3|]. split; [by do 2 (etrans; [eassumption|])|].
  intros stream j Hj. destruct (decide (j = i)) as [->|Hne]; [|apply G3; lia].
  apply (shrinks_gone_sem _ _ _ S3). destruct stream; [by apply (shrinks_gone_sem _ _ _ S2) | done].
Qed.

(** Of everything the names alone are removed. *)
Definition gone (st : os) : Prop :=
  (forall s, s ∈ all_sems -> sem_files st !! sem_name s = None) /\ Forall (fun n => shm_files st !! n = None) block_names.

Lemma shm_stop_run g st : attached g st -> exists st', shm_stop_main grants st = (Returned 1, st') /\ shrinks st st' /\ gone st'.
Proof.
  intros Ha. unfold shm_stop_main. erewrite bind_run by (by apply shm_init_run).
  destruct (shm_unlink_run DEV_SHM_NAME st) as (s1 & E1 & S1 & G1).
  destruct (shm_unlink_run INPUTS_SHM_NAME s1) as (s2 & E2 & S2 & G2).
  destruct (shm_unlink_run ROBOT_DESC_SHM_NAME s2) as (s3 & E3 & S3 & G3).
  destruct (shm_unlink_run LOG_DATA_SHM s3) as (s4 & E4 & S4 & G4).
  destruct (sem_unlink_run CATALOG_MUTEX_NAME s4) as (s5 & E5 & S5 & G5).
  destruct (sem_unlink_run CMDMAP_MUTEX_NAME s5) as (s6 & E6 & S6 & G6).
  destruct (sem_unlink_run SUBMAP_MUTEX_NAME s6) as (s7 & E7 & S7 & G7).
  destruct (sem_unlink_run INPUTS_MUTEX_NAME s7) as (s8 & E8 & S8 & G8).
  destruct (sem_unlink_run RD_MUTEX_NAME s8) as (s9 & E9 & S9 & G9).
  destruct (sem_unlink_run LOG_DATA_MUTEX s9) as (s10 & E10 & S10 & G10).
  destruct (unlink_sems_run MAX_DEVICES 0 s10 ltac:(done)) as (s11 & E11 & S11 & G11).
  exists s11. do 10 (erewrite bind_run by eassumption). erewrite bind_run by exact E11. split; [done|].
  (* from each of the states to the last *)
  assert (T10 := S11). assert (T9 : shrinks s9 s11) by (by etrans). assert (T8 : shrinks s8 s11) by (by etrans).
  assert (T7 : shrinks s7 s11) by (by etrans). assert (T6 : shrinks s6 s11) by (by etrans).
  assert (T5 : shrinks s5 s11) by (by etrans). assert (T4 : shrinks s4 s11) by (by etrans).
  assert (T3 : shrinks s3 s11) by (by etrans). assert (T2 : shrinks s2 s11) by (by etrans).
  assert (T1 : shrinks s1 s11) by (by etrans). split; [by etrans|]. split.
  - intros s Hs%all_sems_device. destruct s as [| | | | | |i|i]; cbn [sem_name];
      try (eapply shrinks_gone_sem; [|eassumption]; assumption); apply G11; lia.
  - repeat apply Forall_cons_2; try apply Forall_nil_2; (eapply shrinks_gone_shm; [|eassumption]; assumption).
Qed.

(** ** What the processes do in between *)

Definition pointers (g : globals) : list nat := [dev_shm_ptr g; input_shm_ptr g; rd_shm_ptr g; log_data_shm_ptr g].

(** A process touches only what it has open. *)
Lemma step_elsewhere g a b : process_step g a b ->
  (forall o, (forall s, sem_of g s ≠ Some o) -> sem_table b !! o = sem_table a !! o) /\
  (forall o, o ∉ pointers g -> shm_table b !! o = shm_table a !! o).
Proof.
  destruct 1 as [s o v st Hs Hv|s o v st Hs Hv|old m st Hold]; cbn; (split; [|]); try done.
  - intros o' Ho'. rewrite list_lookup_insert_ne; [done|]. intros ->. by apply (Ho' s).
  - intros o' Ho'. rewrite list_lookup_insert_ne; [done|]. intros ->. by apply (Ho' s).
  - intros o Ho. unfold pointers in Ho. rewrite !not_elem_of_cons in Ho. destruct Ho as (? & ? & ? & ? & _).
    by rewrite !list_lookup_insert_ne by done.
Qed.

Lemma step_keeps g a b : process_step g a b -> os_wf a /\ attached g a -> os_wf b /\ attached g b.
Proof.
  intros Hs [Hw Ha].
  assert (Hsem : forall st' n v, os_wf st' -> attached g st' ->
    let st2 := OS (sem_files st') (<[n := v]> (sem_table st')) (shm_files st') (shm_table st') in os_wf st2 /\ attached g st2).
  { intros st' n v [W1 W2 W3 W4 W5] [Hn Hm]. split; [|done]. split; try done. intros m o Ho. cbn. rewrite length_insert. by eapply W1. }
  destruct Hs as [s o v st Ho Hv|s o v st Ho Hv|old m st Hold]; [by apply Hsem | by apply Hsem | by apply put_view_attached].
Qed.

Lemma steps_keep g a b : rtc (process_step g) a b -> os_wf a -> attached g a -> os_wf b /\ attached g b.
Proof.
  induction 1 as [st|a b c Hab _ IH]; [done|]. intros Hw Ha. destruct (step_keeps g a b Hab (conj Hw Ha)). by apply IH.
Qed.

Lemma steps_elsewhere g a b : rtc (process_step g) a b ->
  (forall o, (forall s, sem_of g s ≠ Some o) -> sem_table b !! o = sem_table a !! o) /\
  (forall o, o ∉ pointers g -> shm_table b !! o = shm_table a !! o).
Proof.
  induction 1 as [st|a b c Hab _ [IH1 IH2]]; [done|]. destruct (step_elsewhere g a b Hab) as [H1 H2].
  split; intros o Ho; [by rewrite IH1, H1 | by rewrite IH2, H2].
Qed.

(** A state of the kernel, as one of its processes sees it: a state of [Conc]. *)
Definition value_of (g : globals) (st : os) (s : shm_sem) : nat := default 0%nat (o ← sem_of g s; sem_table st !! o).
Definition sys_of (g : globals) (st : os) : option (sys (M := shm_mem)) :=
  m ← view g st; Some (Sys (M := shm_mem) m (list_to_map ((fun s => (s, value_of g st s)) <$> all_sems))).

Lemma values_ext (f f' : shm_sem -> nat) : (forall s, s ∈ all_sems -> f' s = f s) ->
  ((fun s => (s, f' s)) <$> all_sems) = ((fun s => (s, f s)) <$> all_sems).
Proof. intros Hs. apply list_fmap_ext. intros i s Hi. f_equal. apply Hs. by eapply list_elem_of_lookup_2. Qed.

Lemma sys_of_ext g st st' : view g st' = view g st -> (forall s, s ∈ all_sems -> value_of g st' s = value_of g st s) ->
  sys_of g st' = sys_of g st.
Proof. intros Hv Hs. unfold sys_of. by rewrite Hv, (values_ext (value_of g st) (value_of g st')). Qed.

Lemma sys_of_start g st m : view g st = Some m -> (forall s, s ∈ all_sems -> value_of g st s = 1%nat) ->
  sys_of g st = Some (Sys (M := shm_mem) m sems_start).
Proof. intros Hv Hs. unfold sys_of. by rewrite Hv, (values_ext (fun _ => 1%nat) (value_of g st)). Qed.

(** ** The theorems *)

(** What a running process has open is older than what a creator makes of a bare kernel. *)
Lemma attached_older g st s o : os_wf st -> attached g st -> sem_of g s = Some o -> (o < length (sem_table st))%nat.
Proof. intros Hw [Hn _] Hs. eapply wf_sem; [done|]. by eapply sem_of_named. Qed.

Lemma attached_pointers g st o : os_wf st -> attached g st -> o ∈ pointers g -> (o < length (shm_table st))%nat.
Proof.
  intros Hw [_ Hm] Ho. destruct (pointers_differ g st Hw Hm) as [_ (? & ? & ? & ?)]. unfold pointers in Ho.
  rewrite !elem_of_cons in Ho. destruct Ho as [->|[->|[->|[->|Ho]]]]; try done. by apply not_elem_of_nil in Ho.
Qed.

Lemma fresh_start st0 : os_wf st0 -> gone st0 -> exists g st, shm_start_main grants st0 = (Returned g, st) /\
  os_wf st /\ attached g st /\ sys_of g st = Some sys_start /\
  (forall s o, sem_of g s = Some o -> (length (sem_table st0) <= o)%nat) /\
  Forall (fun o => (length (shm_table st0) <= o)%nat) (pointers g).
Proof.
  intros Hw [Hsem Hshm]. destruct (shm_start_run st0 Hw) as (g & st & old & Hr & Hwf & Hg & Ha & Hv).
  apply Forall_cons_1 in Hshm as [Z1 [Z2 [Z3 [Z4 _]%Forall_cons_1]%Forall_cons_1]%Forall_cons_1]. pose proof Ha as [Hn ([M1 _] & [M2 _] & [M3 _] & [M4 _])].
  destruct (gr_shm_new _ _ Hg _ _ M1 Z1) as [L1 C1], (gr_shm_new _ _ Hg _ _ M2 Z2) as [L2 C2].
  destruct (gr_shm_new _ _ Hg _ _ M3 Z3) as [L3 C3], (gr_shm_new _ _ Hg _ _ M4 Z4) as [L4 C4].
  assert (old = zero_shm) as ->. { unfold view in Hv. rewrite C1, C2, C3, C4 in Hv. by injection Hv as <-. }
  destruct (put_view_attached g (shm_start zero_shm) st Hwf Ha) as [Hwf' Ha']. destruct Ha as [_ Hm].
  exists g, (put_view g (shm_start zero_shm) st). split; [done|]. split; [done|]. split; [done|].
  assert (Hnew : forall s o, sem_of g s = Some o -> (length (sem_table st0) <= o)%nat /\ sem_table st !! o = Some 1%nat).
  { intros s o Hs. pose proof (sem_of_named g st s o Hn Hs) as Hf. apply (gr_sem_new _ _ Hg _ _ Hf), Hsem.
    apply all_sems_device. pose proof Hn as (_ & _ & _ & _ & _ & _ & Hl & _). rewrite <- Hl.
    destruct s as [| | | | | |i|i]; try done; cbn in Hs; destruct (dual_sems g !! i) eqn:Hi; try done; by apply lookup_lt_Some in Hi. }
  split; [|split; [intros s o Hs; by apply (Hnew s)|by repeat apply Forall_cons_2]].
  apply sys_of_start; [by apply put_view_view|]. intros s Hs. destruct (named_sem_of g st s Hn Hs) as (o & Ho & _).
  unfold value_of. rewrite Ho. cbn. by rewrite (proj2 (Hnew s o Ho)).
Qed.

(** C25: a crash of the runtime leaves nothing behind. Start the shared memory on any kernel,
    whatever leftovers it has; let any number of processes attach (each gets the same
    objects, and attaching changes nothing), work on what they have open and be killed
    wherever they are, with semaphores taken. [shm_stop] then succeeds, and a new
    [shm_start] sets up exactly the initial state of the theorems on the wrapper: all
    semaphores 1, all blocks initialised from zeroes; every process that attaches then sees
    it, and nothing that the processes of the earlier run still do can be seen in it. *)
Theorem restart_fresh st0 g0 st1 st2 :
  os_wf st0 -> shm_start_main grants st0 = (Returned g0, st1) -> rtc (process_step g0) st1 st2 ->
  shm_init grants st2 = (Returned g0, st2) /\
  exists st3 g st4, shm_stop_main grants st2 = (Returned 1, st3) /\ shm_start_main grants st3 = (Returned g, st4) /\
  sys_of g st4 = Some sys_start /\ shm_init grants st4 = (Returned g, st4) /\
  forall st5, rtc (process_step g0) st4 st5 -> sys_of g st5 = Some sys_start.
Proof.
  intros Hw0 Hs0 Hr. destruct (shm_start_run st0 Hw0) as (g' & st' & old & Hs & Hw' & _ & Ha' & _).
  rewrite Hs0 in Hs. injection Hs as -> ->. destruct (put_view_attached g' (shm_start old) st' Hw' Ha') as [Hw1 Ha1].
  destruct (steps_keep g' _ st2 Hr Hw1 Ha1) as [Hw2 Ha2].
  split; [by apply shm_init_run|].
  destruct (shm_stop_run g' st2 Ha2) as (st3 & E3 & Hsh & Hgone). pose proof (shrinks_wf _ _ Hsh Hw2) as Hw3.
  destruct (fresh_start st3 Hw3 Hgone) as (g & st4 & E4 & Hw4 & Ha4 & Hsys & Hnew & Hptr).
  exists st3, g, st4. do 3 (split; [done|]). split; [by apply shm_init_run|].
  intros st5 Hr5. rewrite <- Hsys. destruct (steps_elsewhere g' _ _ Hr5) as [Hsem Hshm].
  (* the objects of the earlier run are older than those of the new one *)
  assert (Hold : forall s s' o, sem_of g s = Some o -> sem_of g' s' ≠ Some o).
  { intros s s' o Hs Hs'. apply Hnew in Hs. pose proof (attached_older g' st2 s' o Hw2 Ha2 Hs').
    rewrite (sh_values _ _ Hsh) in Hs. lia. }
  assert (Hptrs : forall o, o ∈ pointers g -> o ∉ pointers g').
  { intros o Ho Ho'. rewrite Forall_forall in Hptr. apply list_elem_of_In, Hptr in Ho. pose proof (attached_pointers g' st2 o Hw2 Ha2 Ho').
    rewrite (sh_contents _ _ Hsh) in Ho. lia. }
  apply sys_of_ext.
  - unfold view, pointers in *. by rewrite !Hshm by (apply Hptrs; rewrite !elem_of_cons; tauto).
  - intros s _. unfold value_of. destruct (sem_of g s) as [o|] eqn:Hs; [|done]. cbn. rewrite Hsem; [done|].
    intros s'. by eapply Hold.
Qed.

Lemma empty_os_wf : os_wf empty_os.
Proof. split; cbn; intros; by simplify_map_eq. Qed.

(** A run on an empty kernel in which a process takes the catalog's semaphore and is killed. *)
Definition demo_os : os := snd (shm_start_main grants empty_os).
Definition killed_os : os := OS (sem_files demo_os) (<[0%nat := 0%nat]> (sem_table demo_os)) (shm_files demo_os) (shm_table demo_os).

Lemma restart_fresh_witness : exists g0,
  shm_init grants killed_os = (Returned g0, killed_os) /\
  exists st3 g st4, shm_stop_main grants killed_os = (Returned 1, st3) /\ shm_start_main grants st3 = (Returned g, st4) /\
    sys_of g st4 = Some sys_start /\ shm_init grants st4 = (Returned g, st4) /\
    forall st5, rtc (process_step g0) st4 st5 -> sys_of g st5 = Some sys_start.
Proof.
  destruct (shm_start_main grants empty_os) as [r st1] eqn:E. assert (Hst : st1 = demo_os) by (unfold demo_os; by rewrite E).
  assert (Hr : match r with Returned g => bool_decide (sem_of g CatalogSem = Some 0%nat) | _ => false end = true).
  { change r with (fst (r, st1)). rewrite <- E. vm_compute. reflexivity. }
  destruct r as [g0| |]; [|discriminate Hr..]. apply bool_decide_eq_true in Hr. exists g0. subst st1.
  apply (restart_fresh empty_os g0 demo_os killed_os empty_os_wf E).
  assert (Hv : sem_table demo_os !! 0%nat = Some 1%nat) by (vm_compute; reflexivity).
  exact (rtc_once _ _ (waits g0 CatalogSem 0 0 demo_os Hr Hv)).
Defined.

(** What is left of semaphores survives. Without the block "/dev-shm" (an earlier
    [shm_start] failed before it, or a [shm_stop] was killed after its first step) [shm_stop]
    ends with 1 and removes nothing, whatever else is there. And [shm_start] does not create
    "all semaphores with initial value 1": one that exists under its name is taken over with
    the value it has, so that one left taken blocks the new run. *)
Theorem leftovers_survive st : os_wf st ->
  (shm_files st !! DEV_SHM_NAME = None -> forall refuses, shm_stop_main refuses st = (Exiting 1, st)) /\
  exists g st', shm_start_main grants st = (Returned g, st') /\
    forall s o v, s ∈ all_sems -> sem_files st !! sem_name s = Some o -> sem_table st !! o = Some v ->
      sem_of g s = Some o /\ value_of g st' s = v.
Proof.
  intros Hw. split.
  - intros Hn refuses. unfold shm_stop_main, shm_init, mbind, sysm_bind, shm_exists. by rewrite Hn.
  - destruct (shm_start_run st Hw) as (g & st1 & old & Hr & _ & Hg & [Hn _] & _). exists g. eexists. split; [exact Hr|].
    intros s o v Hs Hf Hv. apply (gr_sem _ _ Hg) in Hf. apply (gr_val _ _ Hg) in Hv.
    destruct (named_sem_of g st1 s Hn Hs) as (o' & Ho' & Hf'). rewrite Hf in Hf'. injection Hf' as <-.
    split; [done|]. unfold value_of. rewrite Ho'. cbn. by rewrite Hv.
Qed.

(** [shm_stop] was killed after its first step, while the catalog's semaphore was taken. *)
Definition half_stopped : os :=
  OS (sem_files demo_os) (<[0%nat := 0%nat]> (sem_table demo_os)) (delete DEV_SHM_NAME (shm_files demo_os)) (shm_table demo_os).

Lemma delete_block_wf st o v n : os_wf st ->
  os_wf (OS (sem_files st) (<[o := v]> (sem_table st)) (delete n (shm_files st)) (shm_table st)).
Proof.
  intros [W1 W2 W3 W4 W5]. split; cbn.
  - intros m p Hp. rewrite length_insert. by eapply W1.
  - exact W2.
  - intros m p [_ Hp]%lookup_delete_Some. by eapply W3.
  - intros m m' p [_ Hp]%lookup_delete_Some [_ Hp']%lookup_delete_Some. by eapply W4.
  - intros m p c [_ Hp]%lookup_delete_Some. by eapply W5.
Qed.

Lemma start_wf st g st' : os_wf st -> shm_start_main grants st = (Returned g, st') -> os_wf st'.
Proof.
  intros Hw Hr. destruct (shm_start_run st Hw) as (g' & st1 & old & Hr' & Hw' & _ & Ha & _). rewrite Hr in Hr'.
  injection Hr' as -> ->. by apply put_view_attached.
Qed.

Lemma demo_os_wf : os_wf demo_os.
Proof.
  destruct (shm_start_run empty_os empty_os_wf) as (g & st & old & Hr & _).
  assert (Hd : demo_os = put_view g (shm_start old) st) by (unfold demo_os; by rewrite Hr).
  rewrite Hd. by apply (start_wf empty_os g), Hr; apply empty_os_wf.
Qed.

Lemma half_stopped_wf : os_wf half_stopped.
Proof. exact (delete_block_wf demo_os 0 0 DEV_SHM_NAME demo_os_wf). Qed.

Lemma leftovers_survive_witness :
  (shm_files half_stopped !! DEV_SHM_NAME = None -> forall refuses, shm_stop_main refuses half_stopped = (Exiting 1, half_stopped)) /\
  exists g st', shm_start_main grants half_stopped = (Returned g, st') /\
    forall s o v, s ∈ all_sems -> sem_files half_stopped !! sem_name s = Some o -> sem_table half_stopped !! o = Some v ->
      sem_of g s = Some o /\ value_of g st' s = v.
Proof. exact (leftovers_survive half_stopped half_stopped_wf). Defined.
