(* ===== verification/NetUtil.v ===== *)
(** * The framing of the messages on the TCP connections
    (src/net_handler/net_util.c and net_util.h).

    A message is a type byte, the length of the payload in two bytes, the payload. The
    payloads are protobuf messages, which this file does not look into. *)

From S2P Require Export FdIO.

(** ** The message types *)

Inductive net_msg_t : Set :=
| RUN_MODE_MSG | START_POS_MSG | CHALLENGE_DATA_MSG | LOG_MSG | DEVICE_DATA_MSG
| GAME_STATE_MSG | INPUTS_MSG | TIME_STAMP_MSG.

Definition net_msg_num (m : net_msg_t) : Z :=
  match m with
  | RUN_MODE_MSG => 0 | START_POS_MSG => 1 | CHALLENGE_DATA_MSG => 2 | LOG_MSG => 3
  | DEVICE_DATA_MSG => 4 | GAME_STATE_MSG => 5 | INPUTS_MSG => 6 | TIME_STAMP_MSG => 7
  end.

Definition MAX_NUM_LOGS : nat := 16.
Definition BUFFER_OFFSET : nat := 3.

(** ** The two functions *)

(** [len_pb] is a [uint16_t]. *)
Definition make_buf `{Heap} (msg_type : Z) (len_pb : Z) : outcome bytes :=
  send_buf ← alloc (Z.to_nat len_pb + 3);
  send_buf ← buf_set send_buf 0 (u8 msg_type);
  buf_write send_buf 1 (le_bytes 2 len_pb).

(** What [parse_msg] stores through its three pointers. *)
Record parsed_msg : Set := ParsedMsg { pm_type : Z; pm_len : Z; pm_buf : bytes }.

#[export] Instance parsed_msg_eq_dec : EqDecision parsed_msg.
Proof. solve_decision. Defined.

(** The result, what was stored (nothing on the early returns), and the rest of the stream.
    The result of [malloc] is not tested: NULL is a block without bytes. *)
Definition parse_msg `{Heap} (fd : list chunk) : outcome (Z * option parsed_msg * list chunk) :=
  '(result, type, fd) ← readn 1 [0] fd;
  if result <=? 0 then mret (result, None, fd)
  else
    '(result, len_pb, fd) ← readn 2 [0; 0] fd;
    if result <=? 0 then mret (result, None, fd)
    else
      let len := u16 (le_word len_pb) in
      let buf := default [] (malloc (Z.to_nat len)) in
      '(result, buf, fd) ← readn len buf fd;
      if result <? 0 then mret (result, None, fd)
      else mret (1, Some (ParsedMsg (le_word type) len buf), fd).

(** [k] messages, one after the other; stops at the first that is not delivered. *)
Fixpoint parse_msgs `{Heap} (k : nat) (fd : list chunk) : outcome (list parsed_msg * list chunk) :=
  match k with
  | O => mret ([], fd)
  | S k' =>
      '(_, m, fd) ← parse_msg fd;
      match m with
      | None => mret ([], fd)
      | Some m => '(ms, fd) ← parse_msgs k' fd; mret (m :: ms, fd)
      end
  end.

(** ** The specification: the image of a message *)

Definition net_frame (type : Z) (payload : bytes) : bytes :=
  type :: le_bytes 2 (Z.of_nat (length payload)) ++ payload.

Definition net_frames (ms : list (Z * bytes)) : bytes := ms ≫= fun '(t, p) => net_frame t p.

(** A type that fits its byte and a payload whose length fits two. *)
Definition sendable (m : Z * bytes) : Prop :=
  byte_ok (fst m) /\ Z.of_nat (length (snd m)) < 65536.

#[export] Instance sendable_dec m : Decision (sendable m).
Proof. unfold sendable. apply _. Defined.

Definition as_parsed (m : Z * bytes) : parsed_msg :=
  ParsedMsg (fst m) (Z.of_nat (length (snd m))) (snd m).

(** ** Lemmas *)

Section NetUtil.
Context {H : Heap} {HR : ReliableHeap H}.

Lemma make_buf_run type len : 0 <= len < 65536 ->
  exists body, make_buf type len = Done (u8 type :: le_bytes 2 len ++ body) /\
    length body = Z.to_nat len.
Proof.
  intros Hl. unfold make_buf. destruct (alloc_done (Z.to_nat len + 3)) as (b & -> & Hb).
  rewrite bind_done. destruct b as [|b0 [|b1 [|b2 body]]]; [list_lia..|].
  exists body. split; [|list_lia].
  rewrite buf_set_done, bind_done by list_lia. cbn [insert list_insert].
  by apply (buf_write_app [u8 type] [b1; b2] body).
Qed.

(** A message is the buffer of [make_buf] with the payload behind the header. *)
Lemma packed_frame type payload : byte_ok type -> Z.of_nat (length payload) < 65536 ->
  (b ← make_buf type (Z.of_nat (length payload)); buf_write b BUFFER_OFFSET payload) =
  Done (net_frame type payload).
Proof.
  intros Ht Hl. destruct (make_buf_run type (Z.of_nat (length payload))) as (body & -> & Hb); [lia|].
  rewrite bind_done, u8_small by done. rewrite Nat2Z.id in Hb.
  assert (Hw := buf_write_app (type :: le_bytes 2 (Z.of_nat (length payload))) body [] payload 3).
  rewrite !app_nil_r in Hw. apply Hw; [done | by rewrite Hb].
Qed.

(** A read of exactly the bytes [d] of a stream without errors. *)
Lemma readn_exact d rest buf cs tail n :
  Forall is_data cs -> stream cs = d ++ rest -> Z.of_nat (length d) = n -> n < 65536 ->
  length buf = length d ->
  exists cs', Forall is_data cs' /\ stream cs' = rest /\ readn n buf (cs ++ tail) = Done (n, d, cs' ++ tail).
Proof.
  intros Hcs Hs Hd Hn Hb.
  destruct (readn_run n buf cs tail) as (cs' & Hr & Hs' & Hd'); [done | lia | rewrite Hs; list_lia | lia |].
  exists cs'. split; [done|]. rewrite Hs in Hr, Hs'.
  replace (Z.to_nat n) with (length d) in Hr, Hs' by lia.
  rewrite drop_app_length in Hs'. split; [done|].
  by rewrite take_app_length, <- Hb, drop_all, app_nil_r in Hr.
Qed.

Lemma malloc_block n : length (default [] (malloc n)) = n.
Proof. destruct (malloc_ok n) as (b & -> & Hb). done. Qed.

Lemma parse_msg_run t p rest cs tail :
  sendable (t, p) -> Forall is_data cs -> stream cs = net_frame t p ++ rest ->
  exists cs', Forall is_data cs' /\ stream cs' = rest /\
    parse_msg (cs ++ tail) = Done (1, Some (as_parsed (t, p)), cs' ++ tail).
Proof.
  intros [Ht Hp] Hcs Hs. unfold as_parsed; cbn [fst snd] in *. unfold parse_msg.
  destruct (readn_exact [t] (le_bytes 2 (Z.of_nat (length p)) ++ p ++ rest) [0] cs tail 1)
    as (cs1 & Hd1 & Hs1 & ->); [done | by rewrite Hs | done..|].
  rewrite bind_done. change (1 <=? 0) with false. cbv iota.
  destruct (readn_exact (le_bytes 2 (Z.of_nat (length p))) (p ++ rest) [0; 0] cs1 tail 2)
    as (cs2 & Hd2 & Hs2 & ->); [done..|].
  rewrite bind_done. cbv zeta. change (2 <=? 0) with false. cbv iota.
  rewrite le_word_bytes, Z.mod_small, u16_small by lia.
  destruct (readn_exact p rest (default [] (malloc (Z.to_nat (Z.of_nat (length p))))) cs2 tail (Z.of_nat (length p))) as (cs3 & Hd3 & Hs3 & ->);
    [done | done | done | lia | by rewrite malloc_block, Nat2Z.id |].
  rewrite bind_done, (proj2 (Z.ltb_ge _ 0)) by lia. exists cs3.
  split; [done|]. split; [done|]. cbn [le_word]. by rewrite Z.mul_0_r, Z.add_0_r.
Qed.

Lemma parse_msgs_run ms : forall rest cs tail,
  Forall sendable ms -> Forall is_data cs -> stream cs = net_frames ms ++ rest ->
  exists cs', Forall is_data cs' /\ stream cs' = rest /\
    parse_msgs (length ms) (cs ++ tail) = Done (as_parsed <$> ms, cs' ++ tail).
Proof.
  induction ms as [|[t p] ms IH]; intros rest cs tail Hms Hcs Hs; cbn [parse_msgs length].
  { by exists cs. }
  inversion Hms as [|? ? Hm Hms']; subst.
  destruct (parse_msg_run t p (net_frames ms ++ rest) cs tail) as (cs1 & Hd1 & Hs1 & ->);
    [done | done | rewrite Hs; unfold net_frames; cbn; by rewrite <- app_assoc |].
  rewrite bind_done. cbv beta iota.
  destruct (IH rest cs1 tail) as (cs2 & Hd2 & Hs2 & ->); [done..|]. by exists cs2.
Qed.

Lemma parse_msg_result fd r m fd' : parse_msg fd = Done (r, m, fd') ->
  (r = 0 /\ m = None) \/ (r = 1 /\ exists pm, m = Some pm).
Proof.
  unfold parse_msg. intros Hp.
  apply bind_done_inv in Hp as ([[r1 b1] fd1] & H1 & Hp).
  pose proof (readn_result _ _ _ _ _ _ H1) as R1.
  destruct (Z.leb_spec r1 0) as [Hle|Hgt].
  { apply done_inj in Hp. simplify_eq. destruct R1 as [-> | ->]; [by left | by vm_compute in Hle]. }
  apply bind_done_inv in Hp as ([[r2 b2] fd2] & H2 & Hp).
  pose proof (readn_result _ _ _ _ _ _ H2) as R2.
  destruct (Z.leb_spec r2 0) as [Hle|Hgt2].
  { apply done_inj in Hp. simplify_eq. destruct R2 as [-> | ->]; [by left | by vm_compute in Hle]. }
  apply bind_done_inv in Hp as ([[r3 b3] fd3] & H3 & Hp).
  pose proof (readn_result _ _ _ _ _ _ H3) as R3.
  destruct (Z.ltb_spec r3 0) as [Hneg|_].
  { exfalso. destruct R3 as [-> | ->]; [lia|]. pose proof (u16_range (u16 (le_word b2))). lia. }
  apply done_inj in Hp. simplify_eq. right. eauto.
Qed.

(** On a connection without errors, reading a message ends or waits for ever, and a message
    fills its buffer. *)
Lemma parse_msg_clean fd : Forall no_error fd ->
  parse_msg fd = Blocked \/
  exists r m fd', parse_msg fd = Done (r, m, fd') /\ Forall no_error fd' /\
    (forall pm, m = Some pm -> length (pm_buf pm) = Z.to_nat (pm_len pm)).
Proof.
  intros Hc. unfold parse_msg.
  destruct (readn_clean 1 [0] fd Hc) as [->|(r1 & b1 & fd1 & -> & Hc1 & _)]; [lia | cbn; lia | by left |].
  rewrite bind_done. destruct (r1 <=? 0); [by right; eexists _, _, _|].
  destruct (readn_clean 2 [0; 0] fd1 Hc1) as [->|(r2 & b2 & fd2 & -> & Hc2 & _)]; [lia | cbn; lia | by left |].
  rewrite bind_done. destruct (r2 <=? 0); [by right; eexists _, _, _|]. cbv zeta.
  set (len := u16 (le_word b2)). pose proof (u16_range (le_word b2)) as Hl.
  destruct (readn_clean len (default [] (malloc (Z.to_nat len))) fd2 Hc2) as [->|(r3 & b3 & fd3 & -> & Hc3 & Hb)];
    [done | by rewrite malloc_block | by left |].
  rewrite bind_done. right. destruct (r3 <? 0); eexists _, _, _; (split; [done|]); split; try done.
  intros pm [= <-]. cbn [pm_buf pm_len]. by rewrite Hb, malloc_block.
Qed.

(** ** The theorems *)

(** C22: framing. Whatever messages were sent (types of one byte, payloads of fewer than
    65536 bytes), and however the network cuts the stream of their images into pieces,
    reading as many messages gives back exactly these types, lengths and payloads in
    order, and leaves exactly the bytes that follow. *)
Theorem parse_msgs_frames ms rest cs tail :
  Forall sendable ms -> Forall is_data cs -> stream cs = net_frames ms ++ rest ->
  exists cs', parse_msgs (length ms) (cs ++ tail) = Done (as_parsed <$> ms, cs' ++ tail) /\
    stream cs' = rest.
Proof.
  intros Hms Hcs Hs. destruct (parse_msgs_run ms rest cs tail) as (cs' & _ & Hr & Hp); eauto.
Qed.

(** What [parse_msg] returns. The documentation promises 0 for success and -1 for an
    error or the end of the file; the code returns 1 with a message and 0 without one, and
    never -1. When the connection ends inside a payload it still returns 1: the message has
    the announced length, and the bytes that never came are whatever the heap held. *)
Theorem parse_msg_truncated :
  (forall fd r m fd', parse_msg fd = Done (r, m, fd') ->
     (r = 0 /\ m = None) \/ (r = 1 /\ exists pm, m = Some pm)) /\
  (forall t len got cs tail, byte_ok t -> 0 <= len < 65536 -> Forall is_data cs ->
     stream cs = t :: le_bytes 2 len ++ got -> Z.of_nat (length got) < len ->
     exists garbage, parse_msg (cs ++ Eof :: tail) =
       Done (1, Some (ParsedMsg t len (got ++ garbage)), Eof :: tail) /\
       garbage = drop (length got) (default [] (malloc (Z.to_nat len)))).
Proof.
  split; [apply parse_msg_result|].
  intros t len got cs tail Ht Hlen Hcs Hs Hgot. eexists. split; [|done]. unfold parse_msg.
  destruct (readn_exact [t] (le_bytes 2 len ++ got) [0] cs (Eof :: tail) 1)
    as (cs1 & Hd1 & Hs1 & ->); [done..|].
  rewrite bind_done. change (1 <=? 0) with false. cbv iota.
  destruct (readn_exact (le_bytes 2 len) got [0; 0] cs1 (Eof :: tail) 2)
    as (cs2 & Hd2 & Hs2 & ->); [done..|].
  rewrite bind_done. cbv zeta. change (2 <=? 0) with false. cbv iota.
  rewrite le_word_bytes, Z.mod_small, u16_small by lia.
  rewrite readn_eof_run, bind_done, Hs2; [|done|lia|by rewrite Hs2|by rewrite malloc_block].
  change (0 <? 0) with false. cbv iota. cbn [le_word]. by rewrite Z.mul_0_r, Z.add_0_r.
Qed.

End NetUtil.

Lemma parse_msgs_frames_witness :
  exists cs', @parse_msgs zero_heap 2 ([Data [0; 1]; Data [0; 9; 7; 2]; Data [0; 5; 6; 8]] ++ [Eof]) =
    Done (as_parsed <$> [(0, [9]); (7, [5; 6])], cs' ++ [Eof]) /\ stream cs' = [8].
Proof.
  apply (@parse_msgs_frames zero_heap zero_heap_reliable [(0, [9]); (7, [5; 6])] [8]
    [Data [0; 1]; Data [0; 9; 7; 2]; Data [0; 5; 6; 8]] [Eof]).
  - by apply (bool_decide_eq_true_1 _).
  - repeat constructor; eexists _, _; reflexivity.
  - reflexivity.
Defined.

Lemma parse_msg_truncated_witness :
  exists garbage, @parse_msg zero_heap ([Data [0; 4]; Data [0; 9; 7]] ++ Eof :: []) =
    Done (1, Some (ParsedMsg 0 4 ([9; 7] ++ garbage)), Eof :: []) /\
    garbage = drop (length [9; 7]) (default [] (@malloc zero_heap (Z.to_nat 4))).
Proof.
  apply (proj2 (@parse_msg_truncated zero_heap zero_heap_reliable) 0 4 [9; 7] [Data [0; 4]; Data [0; 9; 7]] []).
  - by apply (bool_decide_eq_true_1 _).
  - lia.
  - repeat constructor; eexists _, _; reflexivity.
  - reflexivity.
  - simpl. lia.
Defined.
