(* ===== verification/Logger.v ===== *)
(** * The logger (src/logger/logger.c and logger.h).

    The configuration file is the string of its characters (without NUL characters). The
    globals of the logger are a record; the messages that reach the terminal, the log file
    and the FIFO are its other state. The expansion of a format is the C library's: the
    functions here take the expanded text. *)

From stdpp Require Import strings.
From Stdlib Require Import Ascii.
From S2P Require Export FdIO.

(** ** Constants and state *)

Definition LOG_STDOUT : nat := 0.    (* the bit positions of the three flags *)
Definition LOG_FILE : nat := 1.
Definition LOG_NETWORK : nat := 2.
Definition NUM_CONFIGS : nat := 7.
Definition MAX_CONFIG_LINE_LEN : nat := 256.
Definition PROCESS_STR_SIZE : nat := 32.
Definition MAX_LOG_LEN : nat := 512.

Inductive log_level_t : Set := DEBUG | INFO | WARN | PYTHON | ERROR | FATAL.

#[export] Instance log_level_eq_dec : EqDecision log_level_t.
Proof. solve_decision. Defined.

(** The order of the enumeration. *)
Definition level_num (l : log_level_t) : nat :=
  match l with DEBUG => 0 | INFO => 1 | WARN => 2 | PYTHON => 3 | ERROR => 4 | FATAL => 5 end.

Definition level_lt (l l' : log_level_t) : bool := (level_num l <? level_num l')%nat.
Definition level_ge (l l' : log_level_t) : bool := (level_num l' <=? level_num l)%nat.

Definition log_level_strs (l : log_level_t) : string :=
  match l with
  | DEBUG => "DEBUG" | INFO => "INFO" | WARN => "WARN" | PYTHON => "PYTHON"
  | ERROR => "ERROR" | FATAL => "FATAL"
  end.

Record logger_t : Set := Logger {
  OUTPUTS : Z;
  stdout_level : log_level_t;
  file_level : log_level_t;
  network_level : log_level_t;
  log_file_path : string;
  process_str : string;
  fifo_up : bool
}.

(** The values the globals are initialised with. *)
Definition logger_start : logger_t := Logger 0 DEBUG DEBUG DEBUG "" "" false.

(** ** The C library on strings *)

Definition newline : ascii := Ascii.ascii_of_nat 10.
Definition tab : ascii := Ascii.ascii_of_nat 9.

Definition is_space (c : ascii) : bool :=
  let n := Ascii.nat_of_ascii c in ((n =? 32) || ((9 <=? n) && (n <=? 13)))%nat.

(** [fgets]: at most [n] characters, up to and with the first newline; and what follows. *)
Fixpoint fgets (n : nat) (s : string) : string * string :=
  match n, s with
  | S n', String c s' =>
      if Ascii.eqb c newline then (String c "", s')
      else let '(line, rest) := fgets n' s' in (String c line, rest)
  | _, _ => (EmptyString, s)
  end.

Fixpoint strip (key s : string) : option string :=
  match key, s with
  | EmptyString, _ => Some s
  | String k key', String c s' => if Ascii.eqb k c then strip key' s' else None
  | String _ _, EmptyString => None
  end.

Fixpoint skip_ws (s : string) : string :=
  match s with
  | String c s' => if is_space c then skip_ws s' else s
  | EmptyString => EmptyString
  end.

Fixpoint word (s : string) : string :=
  match s with
  | String c s' => if is_space c then EmptyString else String c (word s')
  | EmptyString => EmptyString
  end.

(** [%s] into a buffer of [size] bytes that holds [old]. *)
Definition scan_word (size : nat) (s old : string) : outcome string :=
  let w := word (skip_ws s) in
  if String.eqb w "" then mret old
  else if (String.length w <? size)%nat then mret w else Faulty OutOfBounds.

(** [sscanf(line, "KEY: %c%s", &c, not_important)] and [sscanf(line, "KEY: %s", important)];
    without a match the variable keeps its value. *)
Definition scan_flag (key line : string) (important_char : ascii) : outcome ascii :=
  match strip key line with
  | None => mret important_char
  | Some s =>
      match skip_ws s with
      | EmptyString => mret important_char
      | String c s => _ ← scan_word 128 s ""; mret c
      end
  end.

Definition scan_setting (key line important : string) : outcome string :=
  match strip key line with
  | None => mret important
  | Some s => scan_word 128 s important
  end.

Definition strcpy (size : nat) (s : string) : outcome string :=
  if (String.length s <? size)%nat then mret s else Faulty OutOfBounds.

(** ** The configuration file *)

(** The new value of [*level]. *)
Definition set_log_level (level : log_level_t) (important : string) : log_level_t :=
  if String.eqb important "DEBUG" then DEBUG
  else if String.eqb important "INFO" then INFO
  else if String.eqb important "WARN" then WARN
  else if String.eqb important "ERROR" then ERROR
  else if String.eqb important "FATAL" then FATAL
  else level.

Definition is_blank_line (line : string) : bool :=
  match line with String c _ => Ascii.eqb c newline | _ => false end.

Definition is_comment_line (line : string) : bool :=
  match line with
  | String c (String d _) => Ascii.eqb c "/"%char && Ascii.eqb d "/"%char
  | _ => false
  end.

(** The [while (1)] loop: the next line that is neither blank nor a comment. *)
Fixpoint next_line (fuel : nat) (conf_fd : string) : outcome (string * string) :=
  match fuel with
  | O => OutOfFuel
  | S fuel' =>
      match conf_fd with
      | EmptyString => Exited 1
      | _ =>
          let '(nextline, conf_fd) := fgets (MAX_CONFIG_LINE_LEN - 1) conf_fd in
          if is_blank_line nextline then next_line fuel' conf_fd
          else if is_comment_line nextline then next_line fuel' conf_fd
          else mret (nextline, conf_fd)
      end
  end.

(** The local variables of [read_config_file] and the globals it sets. *)
Record reading : Set := Reading {
  r_char : ascii; r_important : string; r_log : logger_t
}.

Definition set_output (l : logger_t) (c : ascii) (flag : nat) : logger_t :=
  if Ascii.eqb c "Y"%char || Ascii.eqb c "y"%char
  then Logger (bit_set (OUTPUTS l) flag) (stdout_level l) (file_level l) (network_level l)
         (log_file_path l) (process_str l) (fifo_up l)
  else l.

Definition set_stdout_level (f : log_level_t -> log_level_t) (l : logger_t) : logger_t :=
  Logger (OUTPUTS l) (f (stdout_level l)) (file_level l) (network_level l) (log_file_path l) (process_str l) (fifo_up l).
Definition set_file_level (f : log_level_t -> log_level_t) (l : logger_t) : logger_t :=
  Logger (OUTPUTS l) (stdout_level l) (f (file_level l)) (network_level l) (log_file_path l) (process_str l) (fifo_up l).
Definition set_network_level (f : log_level_t -> log_level_t) (l : logger_t) : logger_t :=
  Logger (OUTPUTS l) (stdout_level l) (file_level l) (f (network_level l)) (log_file_path l) (process_str l) (fifo_up l).
Definition set_path (p : string) (l : logger_t) : logger_t :=
  Logger (OUTPUTS l) (stdout_level l) (file_level l) (network_level l) p (process_str l) (fifo_up l).

(** The [switch (i)]. *)
Definition config_line (i : nat) (nextline : string) (r : reading) : outcome reading :=
  match i with
  | 0%nat => c ← scan_flag "LOG_TO_STDOUT:" nextline (r_char r);
             mret (Reading c (r_important r) (set_output (r_log r) c LOG_STDOUT))
  | 1%nat => c ← scan_flag "LOG_TO_FILE:" nextline (r_char r);
             mret (Reading c (r_important r) (set_output (r_log r) c LOG_FILE))
  | 2%nat => c ← scan_flag "LOG_TO_NETWORK:" nextline (r_char r);
             mret (Reading c (r_important r) (set_output (r_log r) c LOG_NETWORK))
  | 3%nat => s ← scan_setting "STDOUT_LOG_LEVEL:" nextline (r_important r);
             mret (Reading (r_char r) s (set_stdout_level (fun l => set_log_level l s) (r_log r)))
  | 4%nat => s ← scan_setting "FILE_LOG_LEVEL:" nextline (r_important r);
             mret (Reading (r_char r) s (set_file_level (fun l => set_log_level l s) (r_log r)))
  | 5%nat => s ← scan_setting "NETWORK_LOG_LEVEL:" nextline (r_important r);
             mret (Reading (r_char r) s (set_network_level (fun l => set_log_level l s) (r_log r)))
  | 6%nat => s ← scan_setting "LOG_FILE_LOC:" nextline (r_important r);
             p ← strcpy MAX_CONFIG_LINE_LEN s;
             mret (Reading (r_char r) s (set_path p (r_log r)))
  | _ => mret r
  end.

Definition silence_unused (l : logger_t) : logger_t :=
  let off flag l' := if bit_on (OUTPUTS l) flag then l' else FATAL in
  set_stdout_level (off LOG_STDOUT) (set_file_level (off LOG_FILE) (set_network_level (off LOG_NETWORK) l)).

(** [junk_char] and [junk] are what the uninitialised [important_char] and [important]
    hold. One more than the number of characters is enough fuel for every search of a line. *)
Definition read_config_file (junk_char : ascii) (junk : string) (conf_fd : string) (l : logger_t)
  : outcome logger_t :=
  '(r, _) ← for_range NUM_CONFIGS 0 (fun i '(r, conf_fd) =>
    '(nextline, conf_fd) ← next_line (S (String.length conf_fd)) conf_fd;
    r ← config_line i nextline r;
    mret (r, conf_fd)) (Reading junk_char junk l, conf_fd);
  mret (silence_unused (r_log r)).

(** ** Printing *)

(** What has been printed to the three locations. *)
Record log_sinks : Set := Sinks { to_stdout : list string; to_file : list string; to_fifo : bytes }.

Fixpoint string_bytes (s : string) : bytes :=
  match s with
  | EmptyString => []
  | String c s' => Z.of_nat (Ascii.nat_of_ascii c) :: string_bytes s'
  end.

Definition set_fifo_up (up : bool) (l : logger_t) : logger_t :=
  Logger (OUTPUTS l) (stdout_level l) (file_level l) (network_level l) (log_file_path l) (process_str l) up.

(** [open_ok]: the FIFO has a reader. *)
Definition open_fifo (open_ok : bool) (l : logger_t) : logger_t :=
  if open_ok then set_fifo_up true l else l.

(** A write to a FIFO without a reader raises SIGPIPE, whose handler clears [fifo_up]. *)
Definition is_epipe (w : write_res) : bool :=
  match w with WErr e => e =? EPIPE | Wrote _ => false end.

Definition sigpipe_handler (l : logger_t) : logger_t := set_fifo_up false l.

(** [vsnprintf] into [msg]: the text cut to the size of the buffer. *)
Definition expand (text : string) : string := String.substring 0 (MAX_LOG_LEN - 100 - 1) text.

(** [*(msg + len - 1)]: an empty message makes it read the byte before the buffer. *)
Definition last_char (msg : string) : outcome ascii :=
  match String.length msg with
  | O => Faulty OutOfBounds
  | S n => match String.get n msg with Some c => mret c | None => Faulty OutOfBounds end
  end.

(** The message with its header; [time_str] is what [ctime] returned, its newline removed. *)
Definition format_msg (l : logger_t) (level : log_level_t) (time_str msg : string) : outcome string :=
  if decide (level = PYTHON) then strcpy MAX_LOG_LEN msg
  else
    c ← last_char msg;
    let header := log_level_strs level +:+ " @ " +:+ process_str l +:+ String tab ("(" +:+ time_str +:+ ") " +:+ msg) in
    strcpy MAX_LOG_LEN (if Ascii.eqb c newline then header else header +:+ String newline "").

Definition emit_stdout (l : logger_t) (level : log_level_t) (final_msg : string) (out : log_sinks) : log_sinks :=
  if bit_on (OUTPUTS l) LOG_STDOUT && level_ge level (stdout_level l)
  then Sinks (to_stdout out ++ [final_msg]) (to_file out) (to_fifo out) else out.

Definition emit_file (l : logger_t) (level : log_level_t) (final_msg : string) (out : log_sinks) : log_sinks :=
  if bit_on (OUTPUTS l) LOG_FILE && level_ge level (file_level l)
  then Sinks (to_stdout out) (to_file out ++ [final_msg]) (to_fifo out) else out.

Definition emit_network (l : logger_t) (open_ok : bool) (ws : list write_res) (level : log_level_t)
  (final_msg : string) (out : log_sinks) : outcome (logger_t * log_sinks * list write_res) :=
  if bit_on (OUTPUTS l) LOG_NETWORK && level_ge level (network_level l) then
    let l := if fifo_up l then l else open_fifo open_ok l in
    if fifo_up l then
      '(_, sink, ws') ← writen (Z.of_nat (String.length final_msg)) (string_bytes final_msg) ws (to_fifo out);
      let used := take (length ws - length ws') ws in
      let l := if existsb is_epipe used then sigpipe_handler l else l in
      mret (l, Sinks (to_stdout out) (to_file out) sink, ws')
    else mret (l, out, ws)
  else mret (l, out, ws).

(** The test at the start of [log_printf]. *)
Definition log_skips (l : logger_t) (level : log_level_t) : bool :=
  level_lt level (network_level l) && level_lt level (file_level l) && level_lt level (stdout_level l).

Definition log_printf (open_ok : bool) (ws : list write_res) (time_str : string) (level : log_level_t)
  (text : string) (l : logger_t) (out : log_sinks) : outcome (logger_t * log_sinks * list write_res) :=
  if log_skips l level then mret (l, out, ws)
  else
    final_msg ← format_msg l level time_str (expand text);
    emit_network l open_ok ws level final_msg (emit_file l level final_msg (emit_stdout l level final_msg out)).

(** ** Initialisation *)

Definition process_name (process : process_t) : string :=
  match process with
  | DEV_HANDLER => "DEV_HANDLER" | EXECUTOR => "EXECUTOR" | NET_HANDLER => "NET_HANDLER"
  | SHM => "SHM" | TEST => "TEST"
  end.

(** What the system answers: the expansion of a path ([wordexp]), whether the log file can
    be created and opened, whether the FIFO has a reader. *)
Record init_env : Set := InitEnv {
  wordexp : string -> list string; create_ok : bool; fopen_ok : bool; fifo_ok : bool
}.

Definition logger_init (env : init_env) (junk_char : ascii) (junk conf_fd : string) (process : process_t)
  (l : logger_t) : outcome logger_t :=
  l ← read_config_file junk_char junk conf_fd l;
  l ← (if bit_on (OUTPUTS l) LOG_FILE then
         match wordexp env (log_file_path l) with
         | [] => Exited 1
         | w :: _ =>
             p ← strcpy MAX_CONFIG_LINE_LEN w;
             if negb (create_ok env) then Exited 1
             else if negb (fopen_ok env) then Exited 1
             else mret (set_path p l)
         end
       else mret l);
  let l := if bit_on (OUTPUTS l) LOG_NETWORK then open_fifo (fifo_ok env) l else l in
  p ← strcpy PROCESS_STR_SIZE (process_name process);
  mret (Logger (OUTPUTS l) (stdout_level l) (file_level l) (network_level l) (log_file_path l) p (fifo_up l)).

(** ** The shape of a configuration file *)

Fixpoint all_chars (f : ascii -> bool) (s : string) : bool :=
  match s with EmptyString => true | String c s' => f c && all_chars f s' end.

Definition not_newline (c : ascii) : bool := negb (Ascii.eqb c newline).
Definition not_space (c : ascii) : bool := negb (is_space c).

Definition nl : string := String newline "".

(** The lines the reader skips. *)
Inductive noise : Set := Blank | Comment (text : string).

Definition noise_text (n : noise) : string :=
  match n with Blank => nl | Comment text => "//" +:+ text +:+ nl end.

Definition noise_ok (n : noise) : bool :=
  match n with
  | Blank => true
  | Comment text => all_chars not_newline text && (String.length text <? 253)%nat
  end.

Definition lines_text (ns : list noise) (rest : string) : string :=
  foldr (fun n s => noise_text n +:+ s) rest ns.

(** The settings, in the order of the file: three answers, three levels, a path. *)
Record config : Set := Settings {
  c_stdout : string; c_file : string; c_network : string;
  c_stdout_level : log_level_t; c_file_level : log_level_t; c_network_level : log_level_t;
  c_path : string
}.

Definition config_entries (c : config) : list (string * string) :=
  [ ("LOG_TO_STDOUT:", c_stdout c); ("LOG_TO_FILE:", c_file c); ("LOG_TO_NETWORK:", c_network c);
    ("STDOUT_LOG_LEVEL:", log_level_strs (c_stdout_level c));
    ("FILE_LOG_LEVEL:", log_level_strs (c_file_level c));
    ("NETWORK_LOG_LEVEL:", log_level_strs (c_network_level c));
    ("LOG_FILE_LOC:", c_path c) ].

Definition entry_line (e : string * string) : string := fst e +:+ " " +:+ snd e.

(** Each setting behind its comments and blank lines. *)
Definition config_text (c : config) (comments : list (list noise)) : string :=
  foldr (fun '(ns, e) s => lines_text ns (entry_line e +:+ nl +:+ s)) "" (zip comments (config_entries c)).

(** A word that fits the buffers of [sscanf]. *)
Definition setting_ok (s : string) : bool :=
  all_chars not_space s && negb (String.eqb s "") && (String.length s <? 128)%nat.

Definition config_ok (c : config) : bool :=
  setting_ok (c_stdout c) && setting_ok (c_file c) && setting_ok (c_network c) && setting_ok (c_path c).

Definition says_yes (s : string) : bool :=
  match s with String c _ => Ascii.eqb c "Y"%char || Ascii.eqb c "y"%char | _ => false end.

(** [PYTHON] is a level of messages, not one a location can be set to: the file's name for
    it leaves the default. *)
Definition settable (l : log_level_t) : log_level_t := if decide (l = PYTHON) then DEBUG else l.

Definition flag_if (b : bool) (i : nat) (m : Z) : Z := if b then bit_set m i else m.

(** The logger the settings ask for. *)
Definition configured (c : config) : logger_t :=
  let level answer l := if says_yes answer then settable l else FATAL in
  Logger (flag_if (says_yes (c_network c)) LOG_NETWORK
            (flag_if (says_yes (c_file c)) LOG_FILE (flag_if (says_yes (c_stdout c)) LOG_STDOUT 0)))
    (level (c_stdout c) (c_stdout_level c)) (level (c_file c) (c_file_level c))
    (level (c_network c) (c_network_level c)) (c_path c) "" false.

(** ** Lemmas on strings *)

Lemma append_assoc (a b c : string) : (a +:+ b) +:+ c = a +:+ b +:+ c.
Proof. induction a as [|x a IH]; [done|]. exact (f_equal (String x) IH). Qed.

Lemma length_append (a b : string) : String.length (a +:+ b) = (String.length a + String.length b)%nat.
Proof. induction a as [|x a IH]; [done|]. exact (f_equal S IH). Qed.

Lemma ascii_eqb_refl c : Ascii.eqb c c = true.
Proof. by apply Ascii.eqb_eq. Qed.

Lemma strip_append key s : strip key (key +:+ s) = Some s.
Proof. induction key as [|k key IH]; [done|]. simpl. rewrite ascii_eqb_refl. exact IH. Qed.

Lemma all_chars_weaken (f g : ascii -> bool) s : (forall c, f c = true -> g c = true) ->
  all_chars f s = true -> all_chars g s = true.
Proof.
  intros Hfg. induction s as [|c s IH]; simpl; [done|]. rewrite !andb_true_iff. naive_solver.
Qed.

Lemma all_chars_append f a b : all_chars f (a +:+ b) = all_chars f a && all_chars f b.
Proof. induction a as [|c a IH]; simpl; [done|]. by rewrite IH, andb_assoc. Qed.

Lemma not_space_newline c : not_space c = true -> not_newline c = true.
Proof.
  unfold not_space, not_newline. rewrite !negb_true_iff. intros Hc.
  apply not_true_iff_false. rewrite Ascii.eqb_eq. by intros ->.
Qed.

Lemma fgets_line s rest : forall n, all_chars not_newline s = true -> (String.length s < n)%nat ->
  fgets n (s +:+ nl +:+ rest) = (s +:+ nl, rest).
Proof.
  induction s as [|c s IH]; intros [|n] Hs Hn; simpl in *; try lia; [done|].
  apply andb_true_iff in Hs as [Hc Hs]. unfold not_newline in Hc. apply negb_true_iff in Hc.
  by rewrite Hc, IH by (done || lia).
Qed.

Lemma word_line s : all_chars not_space s = true -> word (s +:+ nl) = s.
Proof.
  induction s as [|c s IH]; simpl; [done|]. rewrite andb_true_iff. intros [Hc Hs].
  unfold not_space in Hc. apply negb_true_iff in Hc. by rewrite Hc, IH.
Qed.

(** A setting as the directives of [sscanf] find it. *)
Lemma setting_word s : setting_ok s = true ->
  exists c s', s = String c s' /\ is_space c = false /\ all_chars not_space s' = true /\
    (String.length s < 128)%nat.
Proof.
  unfold setting_ok. rewrite !andb_true_iff, negb_true_iff, Nat.ltb_lt.
  intros [[Ha Hne] Hl]. destruct s as [|c s']; [done|]. simpl in Ha.
  apply andb_true_iff in Ha as [Hc Ha]. apply negb_true_iff in Hc. eauto 10.
Qed.

Lemma skip_ws_line c s : is_space c = false -> skip_ws (String " "%char (String c s)) = String c s.
Proof. intros Hc. simpl. by rewrite Hc. Qed.

Lemma scan_word_line c s old :
  is_space c = false -> all_chars not_space s = true -> (String.length (String c s) < 128)%nat ->
  scan_word 128 (String c s +:+ nl) old = Done (String c s).
Proof.
  intros Hc Hs Hl. unfold scan_word.
  assert (Hw : word (skip_ws (String c s +:+ nl)) = String c s).
  { simpl. rewrite Hc. change (String c (s +:+ nl)) with (String c s +:+ nl). apply word_line.
    simpl. unfold not_space at 1. by rewrite Hc. }
  rewrite Hw. simpl in Hl |- *. by rewrite (proj2 (Nat.ltb_lt _ _)) by lia.
Qed.

Lemma scan_setting_line key s old : setting_ok s = true ->
  scan_setting key (entry_line (key, s) +:+ nl) old = Done s.
Proof.
  intros Hs. unfold scan_setting, entry_line; cbn [fst snd]. rewrite !append_assoc, strip_append.
  destruct (setting_word s Hs) as (c & s' & -> & Hc & Hs' & Hl).
  assert (Hw := scan_word_line c s' old Hc Hs' Hl). unfold scan_word in *. simpl. by simpl in Hw.
Qed.

Lemma scan_flag_line key c s old : setting_ok (String c s) = true ->
  scan_flag key (entry_line (key, String c s) +:+ nl) old = Done c.
Proof.
  intros Hs. unfold scan_flag, entry_line; cbn [fst snd]. rewrite !append_assoc, strip_append.
  destruct (setting_word _ Hs) as (c' & s' & [= <- <-] & Hc & Hs' & Hl).
  simpl. rewrite Hc. destruct s as [|d s]; [done|].
  simpl in Hs'. apply andb_true_iff in Hs' as [Hd Hs']. unfold not_space in Hd.
  apply negb_true_iff in Hd. change (String d s +:+ nl) with (String d s +:+ nl).
  rewrite scan_word_line; [done..|]. simpl in Hl |- *. lia.
Qed.

Lemma noise_text_nonempty n : exists c s, noise_text n = String c s.
Proof. destruct n; simpl; eauto. Qed.

Lemma lines_text_length ns rest :
  (length ns + String.length rest <= String.length (lines_text ns rest))%nat.
Proof.
  induction ns as [|n ns IH]; simpl; [lia|]. rewrite length_append.
  destruct (noise_text_nonempty n) as (c & s & ->). simpl. lia.
Qed.

Lemma next_line_unfold fuel conf_fd l rest :
  conf_fd ≠ "" -> fgets (MAX_CONFIG_LINE_LEN - 1) conf_fd = (l, rest) ->
  next_line (S fuel) conf_fd =
  if is_blank_line l || is_comment_line l then next_line fuel rest else Done (l, rest).
Proof.
  intros Hne Hf. cbn [next_line]. destruct conf_fd as [|c s]; [done|]. rewrite Hf.
  by destruct (is_blank_line l), (is_comment_line l).
Qed.

Lemma append_nl_nonempty s rest : s +:+ nl +:+ rest ≠ "".
Proof. by destruct s. Qed.

(** The reader's search skips the noise and returns the line behind it. *)
Lemma next_line_noise ns : forall fuel line rest,
  forallb noise_ok ns = true -> all_chars not_newline line = true ->
  (0 < String.length line < 255)%nat -> is_comment_line (line +:+ nl) = false ->
  (length ns < fuel)%nat ->
  next_line fuel (lines_text ns (line +:+ nl +:+ rest)) = Done (line +:+ nl, rest).
Proof.
  induction ns as [|n ns IH]; intros fuel line rest Hns Hline Hlen Hcom Hf;
    (destruct fuel as [|fuel]; [simpl in Hf; lia|]).
  - change (lines_text [] (line +:+ nl +:+ rest)) with (line +:+ nl +:+ rest).
    rewrite (next_line_unfold _ _ (line +:+ nl) rest); [| apply append_nl_nonempty |].
    2: { apply fgets_line; [done | unfold MAX_CONFIG_LINE_LEN; lia]. }
    rewrite Hcom, orb_false_r. destruct line as [|c line]; [simpl in Hlen; lia|].
    simpl in Hline. apply andb_true_iff in Hline as [Hc _]. apply negb_true_iff in Hc.
    simpl. by rewrite Hc.
  - simpl in Hns. apply andb_true_iff in Hns as [Hn Hns].
    change (lines_text (n :: ns) (line +:+ nl +:+ rest))
      with (noise_text n +:+ lines_text ns (line +:+ nl +:+ rest)).
    simpl in Hf. specialize (IH fuel line rest Hns Hline Hlen Hcom ltac:(lia)).
    destruct n as [|text]; [by apply IH|]. simpl in Hn. apply andb_true_iff in Hn as [Ht Hl].
    apply Nat.ltb_lt in Hl. cbn [noise_text]. rewrite append_assoc, append_assoc, <- append_assoc.
    rewrite (next_line_unfold _ _ (("//" +:+ text) +:+ nl) (lines_text ns (line +:+ nl +:+ rest)));
      [by simpl | apply append_nl_nonempty |].
    apply fgets_line; [done|]. rewrite length_append. unfold MAX_CONFIG_LINE_LEN. simpl. lia.
Qed.

(** A line of the file with what precedes it. *)
Lemma next_line_entry ns key s rest :
  forallb noise_ok ns = true -> all_chars not_newline key = true -> (1 < String.length key < 100)%nat ->
  is_comment_line key = false -> setting_ok s = true ->
  let conf_fd := lines_text ns (entry_line (key, s) +:+ nl +:+ rest) in
  next_line (S (String.length conf_fd)) conf_fd = Done (entry_line (key, s) +:+ nl, rest).
Proof.
  intros Hns Hk Hkl Hc Hs conf_fd. destruct (setting_word s Hs) as (c & s' & -> & Hsp & Hs' & Hl).
  apply next_line_noise.
  - done.
  - unfold entry_line; cbn [fst snd]. rewrite all_chars_append, Hk. simpl.
    rewrite (not_space_newline c) by (unfold not_space; by rewrite Hsp).
    by apply (all_chars_weaken _ _ _ not_space_newline).
  - unfold entry_line; cbn [fst snd]. rewrite !length_append. simpl in Hl |- *. lia.
  - unfold entry_line; cbn [fst snd]. destruct key as [|k [|k' key]]; simpl in Hkl; [lia|lia|].
    by simpl in Hc |- *.
  - subst conf_fd. pose proof (lines_text_length ns (entry_line (key, String c s') +:+ nl +:+ rest)). lia.
Qed.

Lemma set_log_level_str l : set_log_level DEBUG (log_level_strs l) = settable l.
Proof. by destruct l. Qed.

Lemma level_setting_ok l : setting_ok (log_level_strs l) = true.
Proof. by destruct l. Qed.

Lemma set_output_flag o s f n p q u c flag :
  set_output (Logger o s f n p q u) c flag =
  Logger (flag_if (Ascii.eqb c "Y"%char || Ascii.eqb c "y"%char) flag o) s f n p q u.
Proof. unfold set_output, flag_if. by destruct (Ascii.eqb c "Y"%char || Ascii.eqb c "y"%char). Qed.

Lemma set_fields o s f n p q u (g : log_level_t -> log_level_t) p' :
  set_stdout_level g (Logger o s f n p q u) = Logger o (g s) f n p q u /\
  set_file_level g (Logger o s f n p q u) = Logger o s (g f) n p q u /\
  set_network_level g (Logger o s f n p q u) = Logger o s f (g n) p q u /\
  set_path p' (Logger o s f n p q u) = Logger o s f n p' q u.
Proof. done. Qed.

Lemma setting_chars s : setting_ok s = true -> exists c s', s = String c s'.
Proof. intros Hs. destruct (setting_word s Hs) as (c & s' & -> & _). eauto. Qed.

Lemma configured_flags c :
  bit_on (OUTPUTS (configured c)) LOG_STDOUT = says_yes (c_stdout c) /\
  bit_on (OUTPUTS (configured c)) LOG_FILE = says_yes (c_file c) /\
  bit_on (OUTPUTS (configured c)) LOG_NETWORK = says_yes (c_network c).
Proof.
  unfold configured, OUTPUTS. by destruct (says_yes (c_stdout c)), (says_yes (c_file c)), (says_yes (c_network c)).
Qed.

(** ** The theorems *)

(** Reading a configuration. Whatever comments and blank lines stand before each of the
    seven settings, and whatever the uninitialised locals held, [read_config_file] stays
    inside its buffers and sets the three flags by the first letters of the answers, the
    level of each location that is used as written (a location set to PYTHON keeps the
    default DEBUG), that of the others to FATAL, and the path. *)
Theorem read_config_file_spec junk_char junk c comments :
  config_ok c = true -> length comments = NUM_CONFIGS -> forallb (forallb noise_ok) comments = true ->
  read_config_file junk_char junk (config_text c comments) logger_start = Done (configured c).
Proof.
  intros Hc Hlen Hn. unfold config_ok in Hc. rewrite !andb_true_iff in Hc. destruct Hc as [[[H1 H2] H3] H4].
  do 7 (destruct comments as [|? comments]; [done|]). destruct comments; [|done].
  simpl in Hn. rewrite !andb_true_iff in Hn. destruct Hn as (N0 & N1 & N2 & N3 & N4 & N5 & N6 & _).
  destruct (setting_chars _ H1) as (a1 & s1 & E1), (setting_chars _ H2) as (a2 & s2 & E2),
    (setting_chars _ H3) as (a3 & s3 & E3).
  unfold read_config_file, NUM_CONFIGS, config_text, config_entries. cbn [zip zip_with foldr for_range].
  cbv beta.
  rewrite next_line_entry, !bind_done by (done || simpl; lia). cbn [config_line].
  rewrite E1, scan_flag_line, !bind_done by (by rewrite <- E1).
  rewrite next_line_entry, !bind_done by (done || simpl; lia). cbn [config_line r_char].
  rewrite E2, scan_flag_line, !bind_done by (by rewrite <- E2).
  rewrite next_line_entry, !bind_done by (done || simpl; lia). cbn [config_line r_char].
  rewrite E3, scan_flag_line, !bind_done by (by rewrite <- E3).
  do 3 (rewrite next_line_entry, !bind_done by (apply level_setting_ok || done || simpl; lia);
    cbn [config_line r_char r_important]; rewrite scan_setting_line, !bind_done by apply level_setting_ok).
  rewrite next_line_entry, !bind_done by (done || simpl; lia). cbn [config_line r_important].
  rewrite scan_setting_line, bind_done by done.
  destruct (setting_word _ H4) as (_ & _ & _ & _ & _ & Hl). unfold strcpy, MAX_CONFIG_LINE_LEN.
  rewrite (proj2 (Nat.ltb_lt _ _)), !bind_done by lia. cbn [r_log r_char].
  unfold logger_start. rewrite !set_output_flag.
  rewrite (proj1 (set_fields _ _ _ _ _ _ _ _ "")), (proj1 (proj2 (set_fields _ _ _ _ _ _ _ _ ""))).
  rewrite (proj1 (proj2 (proj2 (set_fields _ _ _ _ _ _ _ _ "")))).
  rewrite (proj2 (proj2 (proj2 (set_fields _ _ _ _ _ _ _ id _)))), !set_log_level_str.
  unfold configured, says_yes. rewrite E1, E2, E3.
  by destruct (_ || _)%bool, (_ || _)%bool, (_ || _)%bool.
Qed.

Lemma read_config_file_spec_witness :
  let c := Settings "YES" "n" "y" WARN INFO PYTHON "~/runtime.log" in
  read_config_file "?" "" (config_text c [[Comment " which outputs"; Blank]; []; [Blank]; []; []; []; [Comment ""]])
    logger_start = Done (configured c).
Proof.
  intros c. apply (read_config_file_spec "?" "" c [[Comment " which outputs"; Blank]; []; [Blank]; []; []; []; [Comment ""]]).
  - reflexivity.
  - reflexivity.
  - reflexivity.
Defined.

(** ** Printing: what each location receives *)

Definition takes (l : logger_t) (flag : nat) (threshold level : log_level_t) : bool :=
  bit_on (OUTPUTS l) flag && level_ge level threshold.

Definition if_list {A} (b : bool) (x : list A) : list A := if b then x else [].

(** The header, the message, and a newline unless the message ends in one. *)
Definition log_line (l : logger_t) (level : log_level_t) (time_str msg : string) : string :=
  if decide (level = PYTHON) then msg
  else
    let line := log_level_strs level +:+ " @ " +:+ process_str l +:+ String tab ("(" +:+ time_str +:+ ") " +:+ msg) in
    match last_char msg with
    | Done c => if Ascii.eqb c newline then line else line +:+ nl
    | _ => line
    end.

Lemma length_substring n m s : (String.length (String.substring n m s) <= m)%nat.
Proof.
  revert n m. induction s as [|c s IH]; intros n m; destruct n, m; simpl; try lia.
  - specialize (IH 0%nat m). lia.
  - specialize (IH n 0%nat). lia.
  - apply (IH n (S m)).
Qed.

Lemma expand_nonempty text : text ≠ "" -> expand text ≠ "".
Proof. by destruct text. Qed.

Lemma get_last s : forall n, (n < String.length s)%nat -> exists c, String.get n s = Some c.
Proof.
  induction s as [|c s IH]; intros n Hn; simpl in Hn; [lia|].
  destruct n as [|n]; simpl; [eauto|]. apply IH. lia.
Qed.

Lemma last_char_done msg : msg ≠ "" -> exists c, last_char msg = Done c.
Proof.
  intros Hne. unfold last_char. destruct msg as [|a s]; [done|].
  destruct (get_last (String a s) (String.length s)) as (c & Hc); [simpl; lia|]. simpl String.length. cbv iota.
  rewrite Hc. by exists c.
Qed.

Lemma length_level_str level : (String.length (log_level_strs level) <= 6)%nat.
Proof. destruct level; simpl; lia. Qed.

Lemma format_msg_run l level time_str text :
  (level = PYTHON \/ text ≠ "") -> (String.length (process_str l) < PROCESS_STR_SIZE)%nat ->
  (String.length time_str <= 24)%nat ->
  format_msg l level time_str (expand text) = Done (log_line l level time_str (expand text)) /\
  (String.length (log_line l level time_str (expand text)) < MAX_LOG_LEN)%nat.
Proof.
  intros Ht Hp Htime. unfold PROCESS_STR_SIZE in Hp. unfold format_msg, log_line, strcpy.
  assert (Hm := length_substring 0 (MAX_LOG_LEN - 100 - 1) text). fold (expand text) in Hm.
  unfold MAX_LOG_LEN in *. case_decide as Hl.
  { rewrite (proj2 (Nat.ltb_lt _ _)) by lia. split; [done | lia]. }
  destruct Ht as [->|Ht]; [done|].
  destruct (last_char_done (expand text) (expand_nonempty _ Ht)) as (c & ->). rewrite bind_done.
  pose proof (length_level_str level).
  assert (Hlen : (String.length (log_level_strs level +:+ " @ " +:+ process_str l +:+
    String tab ("(" +:+ time_str +:+ ") " +:+ expand text)) < 500)%nat).
  { rewrite !length_append. simpl. rewrite !length_append. simpl. lia. }
  destruct (Ascii.eqb c newline).
  - rewrite (proj2 (Nat.ltb_lt _ _)) by lia. split; [done | lia].
  - assert (Hn : forall s, (String.length s < 500)%nat -> (String.length (s +:+ nl) < 512)%nat)
      by (intros s Hs; rewrite length_append; simpl; lia).
    rewrite (proj2 (Nat.ltb_lt _ _)) by (by apply Hn). split; [done | by apply Hn].
Qed.

Lemma length_string_bytes s : length (string_bytes s) = String.length s.
Proof. induction s as [|c s IH]; simpl; [done | by rewrite IH]. Qed.

Lemma no_epipe ws ks : Forall2 writes ws ks -> existsb is_epipe ws = false.
Proof. induction 1 as [|w k ws ks [-> _] _ IH]; [done | exact IH]. Qed.

Lemma set_fifo_up_id l : set_fifo_up (fifo_up l) l = l.
Proof. by destruct l. Qed.

Lemma set_fifo_up_takes b l flag threshold level :
  takes (set_fifo_up b l) flag threshold level = takes l flag threshold level.
Proof. done. Qed.

Lemma existsb_take {A} (f : A -> bool) n l : existsb f l = false -> existsb f (take n l) = false.
Proof.
  revert n. induction l as [|x l IH]; intros [|n] Hl; simpl in *; try done.
  apply orb_false_iff in Hl as [-> Hl]. by apply IH.
Qed.

Lemma existsb_app_take {A} (f : A -> bool) l l' tail : existsb f l = false ->
  existsb f (take (length (l ++ tail) - length (l' ++ tail)) (l ++ tail)) = false.
Proof.
  intros Hl. rewrite take_app_le by list_lia. by apply existsb_take.
Qed.

(** The writes [writen] used are among those that took bytes. *)
Lemma emit_network_run l open_ok ws ks tail level msg out :
  Forall2 writes ws ks -> (String.length msg < MAX_LOG_LEN)%nat -> (MAX_LOG_LEN <= sum_list ks)%nat ->
  let up := takes l LOG_NETWORK (network_level l) level && (fifo_up l || open_ok) in
  exists ws', emit_network l open_ok (ws ++ tail) level msg out =
    Done (set_fifo_up (fifo_up l || up) l,
      Sinks (to_stdout out) (to_file out) (to_fifo out ++ if_list up (string_bytes msg)), ws' ++ tail).
Proof.
  intros Hw Hm Hk up. unfold emit_network. fold (takes l LOG_NETWORK (network_level l) level). subst up.
  assert (Hout : Sinks (to_stdout out) (to_file out) (to_fifo out ++ []) = out)
    by (rewrite app_nil_r; by destruct out).
  destruct (takes l LOG_NETWORK (network_level l) level); cbn [andb].
  2: { exists ws. by rewrite orb_false_r, set_fifo_up_id; cbn [if_list]; rewrite Hout. }
  set (l1 := if fifo_up l then l else open_fifo open_ok l).
  assert (Hl1 : l1 = set_fifo_up (fifo_up l || (fifo_up l || open_ok)) l).
  { subst l1. unfold open_fifo, set_fifo_up. destruct l as [? ? ? ? ? ? []]; [done|]. by destruct open_ok. }
  assert (Hup : fifo_up l1 = fifo_up l || open_ok) by (rewrite Hl1; simpl; by destruct (fifo_up l)).
  cbv zeta. rewrite Hup. destruct (fifo_up l || open_ok).
  2: { exists ws. cbn [if_list]. by rewrite Hl1, Hout. }
  unfold MAX_LOG_LEN in *.
  destruct (writen_run ws ks (Z.of_nat (String.length msg)) (string_bytes msg) (to_fifo out) tail)
    as (ws' & ->); [done | lia | lia | rewrite length_string_bytes; lia |].
  exists ws'. rewrite bind_done, Nat2Z.id. rewrite (take_ge (string_bytes msg)) by (rewrite length_string_bytes; lia).
  rewrite existsb_app_take by (by apply (no_epipe ws ks)). by rewrite Hl1.
Qed.

Lemma skips_takes l level flag threshold :
  log_skips l level = true -> threshold = stdout_level l \/ threshold = file_level l \/ threshold = network_level l ->
  takes l flag threshold level = false.
Proof.
  unfold log_skips, takes, level_lt, level_ge. rewrite !andb_true_iff, !Nat.ltb_lt.
  intros [[Hn Hf] Hs] Ht. rewrite (proj2 (Nat.leb_gt _ _)), andb_false_r; [done|].
  destruct Ht as [->|[->| ->]]; lia.
Qed.

(** What a call of [log_printf] prints. For a message that is not empty, a process name
    and a time that fit, and a FIFO that takes what is written to it: the buffers are never
    overrun; each of the three locations receives the formatted line exactly when it is in
    use and its level is at most the message's (the FIFO only when it can be opened); and
    the early return at the start changes nothing. With the levels as [read_config_file]
    leaves them, that early return is taken for a message below FATAL exactly when no
    location wants the message. *)
Theorem log_printf_spec open_ok ws ks tail time_str level text l out :
  (level = PYTHON \/ text ≠ "") -> (String.length (process_str l) < PROCESS_STR_SIZE)%nat ->
  (String.length time_str <= 24)%nat -> Forall2 writes ws ks -> (MAX_LOG_LEN <= sum_list ks)%nat ->
  let line := log_line l level time_str (expand text) in
  let up := takes l LOG_NETWORK (network_level l) level && (fifo_up l || open_ok) in
  (exists ws', log_printf open_ok (ws ++ tail) time_str level text l out =
    Done (set_fifo_up (fifo_up l || up) l,
      Sinks (to_stdout out ++ if_list (takes l LOG_STDOUT (stdout_level l) level) [line])
            (to_file out ++ if_list (takes l LOG_FILE (file_level l) level) [line])
            (to_fifo out ++ if_list up (string_bytes line)), ws' ++ tail)) /\
  (String.length line < MAX_LOG_LEN)%nat /\
  (forall l0, l = silence_unused l0 -> level ≠ FATAL ->
     log_skips l level = negb (takes l LOG_STDOUT (stdout_level l) level ||
       takes l LOG_FILE (file_level l) level || takes l LOG_NETWORK (network_level l) level)).
Proof.
  intros Ht Hp Htime Hw Hk line up.
  destruct (format_msg_run l level time_str text Ht Hp Htime) as [Hf Hlen]. fold line in Hf, Hlen.
  split; [|split; [done|]].
  - unfold log_printf. destruct (log_skips l level) eqn:Hskip.
    + exists ws. subst up. rewrite !(skips_takes l level) by auto. cbn [andb if_list].
      rewrite orb_false_r, set_fifo_up_id, !app_nil_r. by destruct out.
    + rewrite Hf, bind_done.
      destruct (emit_network_run l open_ok ws ks tail level line
        (emit_file l level line (emit_stdout l level line out)) Hw Hlen Hk) as (ws' & ->).
      exists ws'. fold up. unfold emit_file, emit_stdout.
      fold (takes l LOG_STDOUT (stdout_level l) level) (takes l LOG_FILE (file_level l) level).
      destruct (takes l LOG_STDOUT _ _), (takes l LOG_FILE _ _); cbn [if_list to_stdout to_file to_fifo];
        by rewrite ?app_nil_r.
  - intros l0 -> Hfatal. unfold log_skips, takes, level_lt, level_ge, silence_unused. simpl.
    assert (Hlv : forall a, (level_num a <=? level_num level)%nat = negb (level_num level <? level_num a)%nat).
    { intros a. by rewrite Nat.ltb_antisym, negb_involutive. }
    rewrite !Hlv.
    destruct (bit_on (OUTPUTS l0) LOG_STDOUT), (bit_on (OUTPUTS l0) LOG_FILE), (bit_on (OUTPUTS l0) LOG_NETWORK),
      l0 as [? [] [] [] ? ? ?], level; simpl; done.
Qed.

Lemma log_printf_spec_witness :
  let l := Logger 5 INFO FATAL WARN "" "SHM" false in
  let line := log_line l ERROR "Mon Jan  1 00:00:00 2024" (expand "no device") in
  let up := takes l LOG_NETWORK (network_level l) ERROR && (fifo_up l || true) in
  (exists ws', log_printf true ([Wrote 512] ++ []) "Mon Jan  1 00:00:00 2024" ERROR "no device" l (Sinks [] [] []) =
    Done (set_fifo_up (fifo_up l || up) l,
      Sinks (to_stdout (Sinks [] [] []) ++ if_list (takes l LOG_STDOUT (stdout_level l) ERROR) [line])
            (to_file (Sinks [] [] []) ++ if_list (takes l LOG_FILE (file_level l) ERROR) [line])
            (to_fifo (Sinks [] [] []) ++ if_list up (string_bytes line)), ws' ++ [])) /\
  (String.length line < MAX_LOG_LEN)%nat /\
  (forall l0, l = silence_unused l0 -> ERROR ≠ FATAL ->
     log_skips l ERROR = negb (takes l LOG_STDOUT (stdout_level l) ERROR ||
       takes l LOG_FILE (file_level l) ERROR || takes l LOG_NETWORK (network_level l) ERROR)).
Proof.
  intros l. apply (log_printf_spec true [Wrote 512] [512]%nat [] "Mon Jan  1 00:00:00 2024" ERROR "no device" l (Sinks [] [] [])).
  - by right.
  - vm_compute. lia.
  - vm_compute. lia.
  - repeat constructor.
  - unfold MAX_LOG_LEN. simpl. lia.
Defined.

(** Two edges of [log_printf]. An empty message that some location may want makes it
    read the byte before its static buffer. When the reader of the FIFO has gone (every
    write fails with EPIPE), a message of [n] characters costs 65536 - n failing writes,
    because [writen] does not see the failures, before the handler's flag stops the next
    one; nothing arrives, and no error is reported. *)
Theorem log_printf_edges :
  (forall open_ok ws time_str level l out,
     log_skips l level = false -> level ≠ PYTHON ->
     log_printf open_ok ws time_str level "" l out = Faulty OutOfBounds) /\
  (forall l open_ok level tail line out,
     takes l LOG_NETWORK (network_level l) level = true -> fifo_up l = true ->
     (0 < String.length line < MAX_LOG_LEN)%nat ->
     emit_network l open_ok (replicate (Z.to_nat (65536 - Z.of_nat (String.length line))) (WErr EPIPE) ++ tail) level line out =
     Done (set_fifo_up false l, out, tail)).
Proof.
  split.
  - intros open_ok ws time_str level l out Hs Hp. unfold log_printf. rewrite Hs.
    unfold format_msg. by rewrite decide_False.
  - intros l open_ok level tail line out Ht Hup Hlen. unfold emit_network.
    fold (takes l LOG_NETWORK (network_level l) level). rewrite Ht, Hup. cbv zeta. rewrite Hup.
    unfold MAX_LOG_LEN in Hlen. unfold writen. rewrite u16_small by lia.
    destruct (Z.to_nat (65536 - Z.of_nat (String.length line))) as [|k] eqn:Hk; [lia|].
    rewrite writen_loop_persistent_err, bind_done by lia.
    rewrite length_app, Nat.add_sub, take_app_length by done.
    rewrite replicate_S. cbn [existsb is_epipe]. rewrite Z.eqb_refl. cbn [orb]. by destruct out.
Qed.
