(* ===== verification/Protos.v ===== *)
(** * The generated message code, as parameters.

    The protobuf files of the repository are a git submodule, and the C code of the messages
    is generated from them: neither is part of the sources. This file states what the
    network handler uses of that code: the fields it reads and writes, the enumerators, and
    the functions that pack and unpack. *)

From stdpp Require Import strings.
From S2P Require Export RuntimeUtil.

(** The fields of [Param], [Device] and [Input] that the code uses; [pb_val] is the member
    of the union that [val_case] names. A name is a pointer. *)
Record pb_param : Set := PbParam { pb_name : option string; pb_readonly : bool; val_case : Z; pb_val : Z }.
Record pb_device : Set := PbDevice {
  pbd_name : string; pbd_type : Z; pbd_uid : Z; pbd_params : list pb_param
}.
Record pb_input : Set := PbInput {
  in_source : Z; in_connected : bool; in_buttons : Z; in_axes : list Z
}.

#[export] Instance pb_param_eq_dec : EqDecision pb_param.
Proof. solve_decision. Defined.
#[export] Instance pb_device_eq_dec : EqDecision pb_device.
Proof. solve_decision. Defined.

(** [x__unpack] is NULL on bytes that are no message; [x__pack] gives the bytes written, whose
    number is [x__get_packed_size]. *)
Class Protos : Type := {
  MODE__IDLE : Z; MODE__AUTO : Z; MODE__TELEOP : Z; MODE__ESTOP : Z;
  POS__LEFT : Z; POS__RIGHT : Z;
  STATE__POISON_IVY : Z; STATE__DEHYDRATION : Z; STATE__HYPOTHERMIA_START : Z; STATE__HYPOTHERMIA_END : Z;
  SOURCE__GAMEPAD : Z; SOURCE__KEYBOARD : Z;
  PARAM__VAL_FVAL : Z; PARAM__VAL_IVAL : Z; PARAM__VAL_BVAL : Z;
  run_mode__unpack : bytes -> option Z;
  start_pos__unpack : bytes -> option Z;
  game_state__unpack : bytes -> option Z;
  dev_data__unpack : bytes -> option (list pb_device);
  user_inputs__unpack : bytes -> option (list pb_input);
  TimeStamps : Set;
  time_stamps__unpack : bytes -> option TimeStamps;
  set_runtime_timestamp : Z -> TimeStamps -> TimeStamps;
  time_stamps__pack : TimeStamps -> bytes;
  text__pack : list string -> bytes;
  text__unpack : bytes -> option (list string);
  dev_data__pack : list pb_device -> bytes
}.

(** The enumerators of one enumeration differ, and so do the cases of a union. *)
Class ProtosLaws (P : Protos) : Prop := {
  modes_differ : NoDup [MODE__IDLE; MODE__AUTO; MODE__TELEOP; MODE__ESTOP];
  positions_differ : NoDup [POS__LEFT; POS__RIGHT];
  states_differ : NoDup [STATE__POISON_IVY; STATE__DEHYDRATION; STATE__HYPOTHERMIA_START; STATE__HYPOTHERMIA_END];
  sources_differ : NoDup [SOURCE__GAMEPAD; SOURCE__KEYBOARD];
  cases_differ : NoDup [PARAM__VAL_FVAL; PARAM__VAL_IVAL; PARAM__VAL_BVAL]
}.

(** A concrete code for examples: a message is the list of its numbers. *)
Definition demo_protos : Protos := {|
  MODE__IDLE := 0; MODE__AUTO := 1; MODE__TELEOP := 2; MODE__ESTOP := 3;
  POS__LEFT := 0; POS__RIGHT := 1;
  STATE__POISON_IVY := 0; STATE__DEHYDRATION := 1; STATE__HYPOTHERMIA_START := 2; STATE__HYPOTHERMIA_END := 3;
  SOURCE__GAMEPAD := 0; SOURCE__KEYBOARD := 1;
  PARAM__VAL_FVAL := 2; PARAM__VAL_IVAL := 3; PARAM__VAL_BVAL := 4;
  run_mode__unpack b := match b with [x] => Some x | _ => None end;
  start_pos__unpack b := match b with [x] => Some x | _ => None end;
  game_state__unpack b := match b with [x] => Some x | _ => None end;
  dev_data__unpack b := match b with
    | uid :: bits => Some [PbDevice "" 0 uid ((fun x => PbParam None false 4 x) <$> bits)]
    | [] => None
    end;
  user_inputs__unpack b := match b with
    | source :: connected :: buttons :: axes => Some [PbInput source (negb (connected =? 0)) buttons axes]
    | _ => None
    end;
  TimeStamps := (Z * Z)%type;
  time_stamps__unpack b := match b with [x] => Some (x, 0) | _ => None end;
  set_runtime_timestamp t ts := (fst ts, t);
  time_stamps__pack ts := le_bytes 8 (fst ts) ++ le_bytes 8 (snd ts);
  text__pack lines := [Z.of_nat (length lines)];
  text__unpack b := match b with [n] => Some (replicate (Z.to_nat n) "7"%string) | _ => None end;
  dev_data__pack devices := [Z.of_nat (length devices)]
|}.

#[export] Instance demo_protos_laws : ProtosLaws demo_protos.
Proof. split; by apply (bool_decide_eq_true_1 _). Qed.
