(* ===== verification/Udp.v ===== *)
(** * The UDP connection of the network handler (src/net_handler/udp_conn.c).

    Two threads share the socket with Dawn: one sends the devices' data, one receives the
    inputs. Both are programs over the shared memory; the packed messages are those of
    [Protos]. Arrays that live across iterations, and what a fresh array finds on the stack,
    are passed along. *)

From stdpp Require Import strings.
From S2P Require Export Protos ShmLocks.

Section Udp.
Context {H : Heap} {P : Protos}.

(** The sizes of the generated structures. *)
Context (sizeof_Device sizeof_Param : nat).

(** ** Sending the data of the devices *)

(** The arrays of [send_device_data]. *)
Record udp_arrays : Set := UdpArrays {
  udp_subs : list Z;                    (* MAX_DEVICES + 1 *)
  udp_ids : list dev_id_t;              (* MAX_DEVICES *)
  param_data : list param_val_t;        (* MAX_PARAMS *)
  custom_names : list string;           (* UCHAR_MAX, like the next two *)
  custom_types : list param_type_t;
  custom_params : list param_val_t
}.

(** The [switch] on the type of a parameter. *)
Definition set_value (name : option string) (readonly : bool) (ty : param_type_t) (v : param_val_t) : pb_param :=
  match ty with
  | INT => PbParam name readonly PARAM__VAL_IVAL (p_i v)
  | FLOAT => PbParam name readonly PARAM__VAL_FVAL (p_f v)
  | BOOL => PbParam name readonly PARAM__VAL_BVAL (p_b v)
  end.

(** The loop over the parameters of a device, [k] iterations from [j] on. *)
Fixpoint fill_params (k j : nat) (info : device_t) (sub : Z) (data : list param_val_t) (ps : list pb_param)
  : outcome (list pb_param) :=
  match k with
  | O => mret ps
  | S k' =>
      if bit_on sub j then
        _ ← alloc sizeof_Param;
        desc ← buf_get (params info) j;
        v ← buf_get data j;
        fill_params k' (S j) info sub data (ps ++ [set_value (pd_name desc) (pd_write desc =? 0) (pd_type desc) v])
      else fill_params k' (S j) info sub data ps
  end.

(** One device; none when its type is not registered. The result of [device_read_uid] is
    ignored. *)
Definition fill_device (idx : nat) (a : udp_arrays) : prog (M := shm_mem) (option pb_device * udp_arrays) :=
  id ← local (buf_get (udp_ids a) idx);
  match get_device (id_type id) with
  | None => mret (None, a)
  | Some device_info =>
      _ ← local (alloc sizeof_Device);
      sub ← local (buf_get (udp_subs a) (S idx));
      '(_, data) ← device_read_uid (id_uid id) NET_HANDLER DATA sub (param_data a);
      _ ← local (alloc (8 * num_params device_info));
      ps ← local (fill_params (num_params device_info) 0 device_info sub data []);
      mret (Some (PbDevice (device_name device_info) (id_type id) (id_uid id) ps),
            UdpArrays (udp_subs a) (udp_ids a) data (custom_names a) (custom_types a) (custom_params a))
  end.

Fixpoint fill_devices (idxs : list nat) (a : udp_arrays) (devices : list pb_device)
  : prog (M := shm_mem) (list pb_device * udp_arrays) :=
  match idxs with
  | [] => mret (devices, a)
  | idx :: idxs =>
      '(device, a) ← fill_device idx a;
      fill_devices idxs a (match device with Some d => devices ++ [d] | None => devices end)
  end.

(** The loop over the logged values: it makes one parameter more than there are. *)
Definition fill_custom (n : nat) (a : udp_arrays) : outcome (list pb_param) :=
  for_range (S n) 0 (fun i ps =>
    _ ← alloc sizeof_Param;
    name ← buf_get (custom_names a) i;
    ty ← buf_get (custom_types a) i;
    v ← buf_get (custom_params a) i;
    mret (ps ++ [set_value (Some name) false ty v])) [].

Definition custom_device (n : nat) (elapsed : Z) (a : udp_arrays) : outcome pb_device :=
  _ ← alloc (8 * S n);
  ps ← fill_custom n a;
  _ ← alloc sizeof_Param;
  mret (PbDevice "CustomData" (Z.of_nat MAX_DEVICES) 2020
    (<[n := PbParam (Some "time_ms"%string) true PARAM__VAL_IVAL (s32 elapsed)]> ps)).

(** The connected devices. *)
Definition valid_dev_idxs (catalog : Z) : list nat := List.filter (bit_on catalog) (seq 0 MAX_DEVICES).

(** An iteration: the datagram, unless Dawn is not connected. [elapsed] is the time since the
    start. *)
Definition send_device_data (elapsed : Z) (a : udp_arrays) : prog (M := shm_mem) (option bytes * udp_arrays) :=
  dawn ← robot_desc_read DAWN;
  if dawn =? val_index DISCONNECTED then mret (None, a)
  else
    catalog ← get_catalog;
    sub_map ← get_sub_requests (udp_subs a) NET_HANDLER;
    ids ← get_device_identifiers (udp_ids a);
    let a := UdpArrays sub_map ids (param_data a) (custom_names a) (custom_types a) (custom_params a) in
    let idxs := valid_dev_idxs catalog in
    _ ← local (alloc (8 * S (length idxs)));
    '(devices, a) ← fill_devices idxs a [];
    _ ← local (alloc sizeof_Device);
    '(num_params, (names, types, values)) ← log_data_read (custom_names a) (custom_types a) (custom_params a);
    let a := UdpArrays (udp_subs a) (udp_ids a) (param_data a) names types values in
    custom ← local (custom_device (Z.to_nat num_params) elapsed a);
    let packed := dev_data__pack (devices ++ [custom]) in
    _ ← local (alloc (length packed));
    mret (Some packed, a).

(** ** Receiving the inputs *)

Definition UDP_SIZE : nat := 128.

Definition input_from (input : pb_input) : prog (M := shm_mem) unit :=
  let source := if in_source input =? SOURCE__GAMEPAD then GAMEPAD else KEYBOARD in
  robot_desc_write source (val_index (if in_connected input then CONNECTED else DISCONNECTED)) ;;
  if in_connected input then
    if bool_decide (source = GAMEPAD) && negb (length (in_axes input) =? 4)%nat then mret tt
    else _ ← input_write (in_buttons input) (in_axes input) source; mret tt
  else mret tt.

Fixpoint inputs_from (inputs : list pb_input) : prog (M := shm_mem) unit :=
  match inputs with
  | [] => mret tt
  | input :: inputs => input_from input ;; inputs_from inputs
  end.

(** An iteration, with the datagram that [recvfrom] finds; nothing when it fails. *)
Definition update_inputs (received : option bytes) : prog (M := shm_mem) unit :=
  match received with
  | None => mret tt
  | Some datagram =>
      match user_inputs__unpack (take UDP_SIZE datagram) with
      | None => mret tt
      | Some inputs => inputs_from inputs
      end
  end.

End Udp.
