(* ===== verification/TcpConn.v ===== *)
(** * The TCP connections of the network handler (src/net_handler/tcp_conn.c).

    A connection thread is a program over the shared memory; its sockets are its own state:
    the chunks that will be read, the answers to its writes, what it has sent. The messages
    are those of [Protos], the frames those of [NetUtil]. *)

From stdpp Require Import strings.
From S2P Require Export NetUtil Protos Logger ShmLocks.

Section TcpConn.
Context {H : Heap} {P : Protos} (logger : logger_t).

(** ** State *)

(** What the thread never frees. *)
Inductive leak_t : Set := LeakBuf | LeakMsg.

Record conn : Set := Conn {
  conn_in : list chunk;           (* what reads of conn_fd will find *)
  conn_ws : list write_res;       (* what writes to conn_fd will answer *)
  conn_out : bytes;               (* what the client has been sent *)
  to_executor : list bytes;       (* the datagrams sent to the executor *)
  leaked : list leak_t
}.

Definition set_in (fd : list chunk) (c : conn) : conn :=
  Conn fd (conn_ws c) (conn_out c) (to_executor c) (leaked c).
Definition leak (l : list leak_t) (c : conn) : conn :=
  Conn (conn_in c) (conn_ws c) (conn_out c) (to_executor c) (leaked c ++ l).
Definition send_datagram (d : bytes) (c : conn) : conn :=
  Conn (conn_in c) (conn_ws c) (conn_out c) (to_executor c ++ [d]) (leaked c).

(** [writen(conn_fd, buf, n)]; the code only logs a failure. *)
Definition conn_write (n : Z) (buf : bytes) (c : conn) : outcome conn :=
  '(_, out, ws) ← writen n buf (conn_ws c) (conn_out c);
  mret (Conn (conn_in c) ws out (to_executor c) (leaked c)).

(** What [log_printf(level, "... %s", n)] does with an integer [n]: the format is expanded
    unless the message is filtered out. *)
Definition log_int_as_string (level : log_level_t) : prog (M := shm_mem) unit :=
  if log_skips logger level then mret tt else Fail BadFormat.

(** ** Sending *)

(** What the next [fgets] on the log FIFO gives. *)
Inductive log_read : Set := LogLine (line : string) | LogEof | LogAgain | LogError.

(** The loop of [send_log_msg] with room for [k] more lines; [None] when it returns without
    sending. A FIFO on which nothing is left answers EAGAIN. *)
Fixpoint read_logs (k : nat) (log_file : list log_read) (payload : list string)
  : outcome (option (list string)) :=
  match k with
  | O => mret (Some payload)
  | S k' =>
      match log_file with
      | LogLine nextline :: log_file =>
          _ ← alloc (String.length nextline + 1);
          read_logs k' log_file (payload ++ [nextline])
      | LogEof :: _ => match payload with [] => mret None | _ => mret (Some payload) end
      | LogAgain :: _ => mret (Some payload)
      | LogError :: _ => mret None
      | [] => mret (Some payload)
      end
  end.

(** [make_buf], the packed message behind the header, [writen]. *)
Definition send_packed (msg_type : net_msg_t) (packed : bytes) (c : conn) : outcome conn :=
  let len_pb := u16 (Z.of_nat (length packed)) in
  send_buf ← make_buf (net_msg_num msg_type) len_pb;
  send_buf ← buf_write send_buf BUFFER_OFFSET packed;
  conn_write (len_pb + Z.of_nat BUFFER_OFFSET) send_buf c.

Definition send_log_msg (log_file : list log_read) (c : conn) : outcome conn :=
  _ ← alloc (MAX_NUM_LOGS * 8);
  payload ← read_logs MAX_NUM_LOGS log_file [];
  match payload with
  | None => mret c
  | Some payload => send_packed LOG_MSG (text__pack payload) c
  end.

(** The message is a pointer. *)
Definition send_timestamp_msg (now : Z) (dawn_timestamp_msg : option TimeStamps) (c : conn) : outcome conn :=
  match dawn_timestamp_msg with
  | None => Faulty NullDeref
  | Some ts => send_packed TIME_STAMP_MSG (time_stamps__pack (set_runtime_timestamp now ts)) c
  end.

(** [recvfrom] stores at most the 256 bytes of the buffer; [None] when it fails. *)
Definition send_challenge_results (received : option bytes) (c : conn) : outcome conn :=
  match received with
  | None => mret c
  | Some datagram =>
      let read_buf := take 256 datagram in
      conn_write (Z.of_nat (length read_buf)) read_buf c
  end.

(** ** Receiving *)

(** What the system tells the thread while it handles a message. *)
Record recv_env : Set := RecvEnv {
  is_dawn : bool;          (* pthread_self() == dawn_tid *)
  send_len : Z;            (* what sendto on the challenge socket returns *)
  now : Z                  (* millis() *)
}.

Definition challenge_msg (env : recv_env) (m : parsed_msg) (c : conn) : prog (M := shm_mem) (Z * conn) :=
  d ← local (buf_read (pm_buf m) 0 (Z.to_nat (pm_len m)));
  if send_len env <? 0 then mret (-2, leak [LeakBuf] c)
  else
    robot_desc_write RUN_MODE (val_index CHALLENGE) ;;
    mret (0, send_datagram d c).

(** The [switch] on the mode. *)
Definition set_run_mode (mode : Z) : prog (M := shm_mem) unit :=
  if mode =? MODE__IDLE then robot_desc_write RUN_MODE (val_index IDLE)
  else if mode =? MODE__AUTO then robot_desc_write RUN_MODE (val_index AUTO)
  else if mode =? MODE__TELEOP then robot_desc_write RUN_MODE (val_index TELEOP)
  else if mode =? MODE__ESTOP then robot_desc_write RUN_MODE (val_index IDLE)
  else log_int_as_string ERROR.

Definition run_mode_msg (env : recv_env) (m : parsed_msg) (c : conn) : prog (M := shm_mem) (Z * conn) :=
  match run_mode__unpack (pm_buf m) with
  | None => mret (-2, leak [LeakBuf] c)
  | Some mode =>
      shepherd ← (if is_dawn env then robot_desc_read SHEPHERD else mret (val_index DISCONNECTED));
      if is_dawn env && (shepherd =? val_index CONNECTED) && ((mode =? MODE__AUTO) || (mode =? MODE__TELEOP))
      then mret (0, leak [LeakBuf; LeakMsg] c)
      else set_run_mode mode ;; mret (0, c)
  end.

Definition start_pos_msg (m : parsed_msg) (c : conn) : prog (M := shm_mem) (Z * conn) :=
  match start_pos__unpack (pm_buf m) with
  | None => mret (-2, leak [LeakBuf] c)
  | Some pos =>
      (if pos =? POS__LEFT then robot_desc_write START_POS (val_index LEFT)
       else if pos =? POS__RIGHT then robot_desc_write START_POS (val_index RIGHT)
       else mret tt) ;;
      mret (0, c)
  end.

(** [requests |= (bval << j)] over the parameters, from [j] on; the shift is at type [int]. *)
Fixpoint sub_mask (j : nat) (ps : list pb_param) (requests : Z) : outcome Z :=
  match ps with
  | [] => mret requests
  | p :: ps =>
      requests ← (if val_case p =? PARAM__VAL_BVAL then
                    if (j <? 32)%nat then mret (Z.lor requests (u32 (Z.shiftl (pb_val p) (Z.of_nat j))))
                    else Faulty ShiftRange
                  else mret requests);
      sub_mask (S j) ps requests
  end.

Fixpoint place_sub_requests (devices : list pb_device) : prog (M := shm_mem) unit :=
  match devices with
  | [] => mret tt
  | d :: devices =>
      requests ← local (sub_mask 0 (pbd_params d) 0);
      _ ← place_sub_request (pbd_uid d) NET_HANDLER requests;
      place_sub_requests devices
  end.

Definition device_data_msg (m : parsed_msg) (c : conn) : prog (M := shm_mem) (Z * conn) :=
  match dev_data__unpack (pm_buf m) with
  | None => mret (-2, leak [LeakBuf] c)
  | Some devices => place_sub_requests devices ;; mret (0, c)
  end.

(** Only the default branch of the [switch] frees the message. *)
Definition game_state_msg (m : parsed_msg) (c : conn) : prog (M := shm_mem) (Z * conn) :=
  match game_state__unpack (pm_buf m) with
  | None => mret (-2, leak [LeakBuf] c)
  | Some state =>
      if state =? STATE__POISON_IVY then
        robot_desc_write POISON_IVY (val_index ACTIVE) ;; mret (0, leak [LeakMsg] c)
      else if state =? STATE__DEHYDRATION then
        robot_desc_write DEHYDRATION (val_index ACTIVE) ;; mret (0, leak [LeakMsg] c)
      else if state =? STATE__HYPOTHERMIA_START then
        robot_desc_write HYPOTHERMIA (val_index ACTIVE) ;; mret (0, leak [LeakMsg] c)
      else if state =? STATE__HYPOTHERMIA_END then
        robot_desc_write HYPOTHERMIA (val_index INACTIVE) ;; mret (0, leak [LeakMsg] c)
      else log_int_as_string ERROR ;; mret (0, c)
  end.

(** A message that cannot be unpacked is logged, and then answered all the same. *)
Definition time_stamp_msg (env : recv_env) (m : parsed_msg) (c : conn) : prog (M := shm_mem) (Z * conn) :=
  c ← local (send_timestamp_msg (now env) (time_stamps__unpack (pm_buf m)) c);
  mret (0, c).

Definition handle_msg (env : recv_env) (m : parsed_msg) (c : conn) : prog (M := shm_mem) (Z * conn) :=
  let t := pm_type m in
  if t =? net_msg_num CHALLENGE_DATA_MSG then challenge_msg env m c
  else if t =? net_msg_num RUN_MODE_MSG then run_mode_msg env m c
  else if t =? net_msg_num START_POS_MSG then start_pos_msg m c
  else if t =? net_msg_num DEVICE_DATA_MSG then device_data_msg m c
  else if t =? net_msg_num GAME_STATE_MSG then game_state_msg m c
  else if t =? net_msg_num TIME_STAMP_MSG then time_stamp_msg env m c
  else mret (-2, leak [LeakBuf] c).

(** The last case is a return value of [parse_msg] other than 0 and -1 without a message. *)
Definition recv_new_msg (env : recv_env) (c : conn) : prog (M := shm_mem) (Z * conn) :=
  '(err, m, fd) ← local (parse_msg (conn_in c));
  let c := set_in fd c in
  if err =? 0 then mret (-1, c)
  else if err =? -1 then mret (-2, c)
  else
    match m with
    | Some m => handle_msg env m c
    | None => Fail NullDeref
    end.

(** ** The thread *)

Definition tcp_conn_cleanup (client : robot_desc_field_t) : prog (M := shm_mem) unit :=
  robot_desc_write RUN_MODE (val_index IDLE) ;;
  robot_desc_write client (val_index DISCONNECTED) ;;
  (if decide (client = DAWN) then
     robot_desc_write GAMEPAD (val_index DISCONNECTED) ;;
     robot_desc_write KEYBOARD (val_index DISCONNECTED)
   else mret tt).

(** What one [select] finds: log lines to send, a result of the executor, a message. *)
Record round : Set := Round {
  log_ready : option (list log_read);
  challenge_ready : option (option bytes);
  conn_ready : bool;
  round_env : recv_env
}.

Definition if_ready {A} (o : option A) (f : A -> conn -> outcome conn) (c : conn) : prog (M := shm_mem) conn :=
  match o with Some a => local (f a c) | None => mret c end.

(** The thread serves [rounds]; then it is cancelled in [select], or it waits there for ever. *)
Fixpoint tcp_process (client : robot_desc_field_t) (send_logs cancelled : bool) (rounds : list round) (c : conn)
  : prog (M := shm_mem) conn :=
  match rounds with
  | [] => if cancelled then tcp_conn_cleanup client ;; mret c else Starve
  | r :: rounds =>
      c ← if_ready (if send_logs then log_ready r else None) send_log_msg c;
      c ← if_ready (challenge_ready r) send_challenge_results c;
      if conn_ready r then
        '(ret, c) ← recv_new_msg (round_env r) c;
        if ret =? -1 then tcp_conn_cleanup client ;; mret c
        else tcp_process client send_logs cancelled rounds c
      else tcp_process client send_logs cancelled rounds c
  end.

(** ** Starting and stopping *)

Record start_env : Set := StartEnv {
  socket_ok : bool; bind_ok : bool; log_open_ok : bool; fdopen_ok : bool; create_ok : bool
}.

(** What [start_tcp_conn] does up to the creation of the thread: whether it creates one. The
    log FIFO is only opened when the client wants logs. *)
Definition start_setup (env : start_env) (client : robot_desc_field_t) (send_logs : bool) : outcome bool :=
  if negb (bool_decide (client = DAWN) || bool_decide (client = SHEPHERD)) then mret false
  else
    _ ← alloc 32;
    if negb (socket_ok env) then mret false
    else if negb (bind_ok env) then mret false
    else if send_logs && negb (log_open_ok env && fdopen_ok env) then mret false
    else mret (create_ok env).

(** The main thread's part; the new thread runs from the creation on. *)
Definition start_tcp_conn (env : start_env) (client : robot_desc_field_t) (send_logs : bool) : prog (M := shm_mem) bool :=
  created ← local (start_setup env client send_logs);
  if (created : bool) then robot_desc_write client (val_index CONNECTED) ;; mret true
  else mret false.

(** [alive]: the thread is still in its loop, so the cancellation makes it run its cleanup,
    which the join waits for. *)
Definition stop_tcp_conn (client : robot_desc_field_t) (alive : bool) : prog (M := shm_mem) unit :=
  if negb (bool_decide (client = DAWN) || bool_decide (client = SHEPHERD)) then mret tt
  else if alive then tcp_conn_cleanup client else mret tt.

End TcpConn.
