(* ===== verification/NetHandler.v ===== *)
(** * The main thread of the network handler (src/net_handler/net_handler.c).

    It accepts connections, asks each client who it is, and starts or restarts the thread of
    that client. The sockets are the environment: a request says what [accept] and the first
    bytes of the connection give. *)

From S2P Require Export TcpConn.

(** What the first byte of a connection is, when one arrives in time; none at the end of the
    connection. *)
Inductive first_read : Set := SelectError | SelectTimeout | ReadError | ReadNothing | ReadId (id : Z).

Definition determine_client (r : first_read) : Z :=
  match r with
  | SelectError => 255
  | SelectTimeout => 254
  | ReadError => 253
  | ReadNothing => 255
  | ReadId id => id
  end.

(** A connection; whether the client's old thread is still in its loop; what starting a new one
    meets. *)
Record request : Set := Request { id_read : first_read; inet : bool; old_alive : bool; env : start_env }.

Section NetHandler.
Context {H : Heap}.

(** The client's thread is started, an old one stopped before. *)
Definition serve (client : robot_desc_field_t) (send_logs : bool) (r : request) : prog (M := shm_mem) unit :=
  v ← robot_desc_read client;
  (if v =? val_index DISCONNECTED then mret tt else stop_tcp_conn client (old_alive r)) ;;
  _ ← start_tcp_conn (env r) client send_logs;
  mret tt.

(** The body of the loop of [main]; no request when [accept] fails. *)
Definition main_step (accepted : option request) : prog (M := shm_mem) unit :=
  match accepted with
  | None => mret tt
  | Some r =>
      let client_id := determine_client (id_read r) in
      if (client_id =? 0) && inet r then serve SHEPHERD false r
      else if (client_id =? 1) && inet r then serve DAWN true r
      else mret tt
  end.

Fixpoint main_loop (requests : list (option request)) : prog (M := shm_mem) unit :=
  match requests with
  | [] => Starve
  | r :: requests => main_step r ;; main_loop requests
  end.

(** The connections end; whether the threads are still in their loops. *)
Definition stop_clients (shepherd_alive dawn_alive : bool) : prog (M := shm_mem) unit :=
  v ← robot_desc_read SHEPHERD;
  (if v =? val_index CONNECTED then stop_tcp_conn SHEPHERD shepherd_alive else mret tt) ;;
  v ← robot_desc_read DAWN;
  if v =? val_index CONNECTED then stop_tcp_conn DAWN dawn_alive else mret tt.

(** The handler of SIGINT. *)
Definition sigint_handler (shepherd_alive dawn_alive : bool) : prog (M := shm_mem) unit :=
  stop_clients shepherd_alive dawn_alive ;; Exit 0.

End NetHandler.
