(* ===== verification/TcpSpec.v ===== *)
(** * What the TCP connections guarantee: the theorems on [TcpConn]. *)

From stdpp Require Import gmap strings.
From S2P Require Export TcpConn ShmSpec.

(** ** The robot description *)

Definition field (f : robot_desc_field_t) (m : shm_t) : Z := nth (field_index f) (fields m) 0.

Definition set_field (f : robot_desc_field_t) (v : Z) (m : shm_t) : shm_t :=
  shm_store RFields (<[field_index f := v]> (fields m)) m.

Lemma field_index_lt f : (field_index f < NUM_DESC_FIELDS)%nat.
Proof. unfold NUM_DESC_FIELDS, NUM_DESC_FIELDS_PERM, NUM_DESC_FIELDS_TEMP. destruct f; cbn; lia. Qed.

Lemma field_index_inj f g : field_index f = field_index g -> f = g.
Proof. by destruct f, g. Qed.

Lemma field_set_eq f v m : (field_index f < length (fields m))%nat -> field f (set_field f v m) = v.
Proof. intros Hl. unfold field, set_field. cbn. by rewrite nth_lookup, list_lookup_insert_eq. Qed.

Lemma field_set_ne f g v m : f ≠ g -> field f (set_field g v m) = field f m.
Proof.
  intros Hne. unfold field, set_field. cbn. rewrite !nth_lookup, list_lookup_insert_ne; [done|].
  intros Heq. by apply Hne, field_index_inj.
Qed.

Lemma fields_set_length f v m : length (fields (set_field f v m)) = length (fields m).
Proof. apply length_insert. Qed.

Lemma val_index_u8 v : u8 (val_index v) = val_index v.
Proof. by destruct v. Qed.

Lemma val_index_inj v w : val_index v = val_index w -> v = w.
Proof. by destruct v, w. Qed.

Section RobotDesc.
Context (sm : gmap shm_sem nat) (Hfree : all_free sm).

Lemma robot_desc_write_run f v m : length (fields m) = NUM_DESC_FIELDS ->
  run (robot_desc_write f v) (Sys m sm) = Done (tt, Sys (set_field f (u8 v) m) sm).
Proof.
  intros Hl. pose proof (field_index_lt f). unfold robot_desc_write.
  rewrite (run_wait (M := shm_mem) _ [] m sm RdSem);
    [| exact (Hfree RdSem I) | apply not_elem_of_nil].
  rewrite (run_upd (M := shm_mem) _ RFields _ (<[field_index f := u8 v]> (fields m)))
    by (apply buf_set_done; cbn; lia).
  erewrite (run_post_last (M := shm_mem) [RdSem] []); [done | exact (Hfree RdSem I) | held | drop_held].
Qed.

Lemma robot_desc_read_run f m : length (fields m) = NUM_DESC_FIELDS ->
  run (robot_desc_read f) (Sys m sm) = Done (field f m, Sys m sm).
Proof.
  intros Hl. unfold robot_desc_read.
  rewrite (run_wait (M := shm_mem) _ [] m sm RdSem);
    [| exact (Hfree RdSem I) | apply not_elem_of_nil].
  destruct (fields_lookup (fields m) f Hl) as [v Hv].
  rewrite (run_get (M := shm_mem) _ RFields _ v) by (by apply buf_get_done).
  erewrite (run_post (M := shm_mem)); [| exact (Hfree RdSem I) | held | drop_held].
  unfold field. by rewrite nth_lookup, Hv.
Qed.

End RobotDesc.

(** What is known of a write that has ended, whatever the semaphores were. *)
Lemma robot_desc_write_inv f v st r :
  run (robot_desc_write f v) st = Done r ->
  mem (snd r) = set_field f (u8 v) (mem st) /\ (field_index f < length (fields (mem st)))%nat.
Proof.
  unfold robot_desc_write. intros Hr.
  apply run_inv_bind in Hr as ([] & st1 & H1 & Hr). apply run_inv_bind in Hr as ([] & st2 & H2 & Hr).
  assert (Hm1 : mem st1 = mem st).
  { cbn in H1. repeat case_match; try done. by apply done_pair in H1 as [_ <-]. }
  assert (Hm3 : mem (snd r) = mem st2).
  { cbn in Hr. case_match; [|done]. apply done_inj in Hr. by rewrite <- Hr. }
  cbn in H2. rewrite Hm1 in H2. unfold buf_set in H2.
  destruct (Nat.ltb_spec (field_index f) (length (fields (mem st)))) as [Hlt|]; [|done].
  cbn in H2. apply done_pair in H2 as [_ <-]. by rewrite Hm3.
Qed.

Section TcpSpec.
Context {H : Heap} {P : Protos} (logger : logger_t).

(** ** The end of a connection *)

Definition inputs_off (client : robot_desc_field_t) (m : shm_t) : Prop :=
  client = DAWN -> field GAMEPAD m = val_index DISCONNECTED /\ field KEYBOARD m = val_index DISCONNECTED.

Lemma cleanup_inv client st r : client = DAWN \/ client = SHEPHERD ->
  run (tcp_conn_cleanup client) st = Done r ->
  field RUN_MODE (mem (snd r)) = val_index IDLE /\ field client (mem (snd r)) = val_index DISCONNECTED /\
  inputs_off client (mem (snd r)).
Proof.
  intros Hc Hr. unfold tcp_conn_cleanup in Hr.
  apply run_inv_bind in Hr as ([] & st1 & H1 & Hr). apply run_inv_bind in Hr as ([] & st2 & H2 & Hr).
  apply robot_desc_write_inv in H1 as [H1 L1]. apply robot_desc_write_inv in H2 as [H2 L2]. cbn [snd] in *.
  rewrite H1 in H2, L2. rewrite val_index_u8 in H2.
  assert (Hrm : field RUN_MODE (mem st2) = val_index IDLE).
  { rewrite H2, field_set_ne by (by destruct Hc as [-> | ->]). by rewrite field_set_eq. }
  assert (Hcl : field client (mem st2) = val_index DISCONNECTED) by (by rewrite H2, field_set_eq).
  case_decide as Hd.
  - apply run_inv_bind in Hr as ([] & st3 & H3 & Hr).
    apply robot_desc_write_inv in H3 as [H3 L3]. apply robot_desc_write_inv in Hr as [Hr L4]. cbn [snd] in *.
    rewrite Hr, H3, !val_index_u8. rewrite H3 in L4. subst client.
    rewrite !(field_set_ne _ KEYBOARD), !(field_set_ne _ GAMEPAD) by done.
    split; [done|]. split; [done|]. intros _.
    rewrite (field_set_ne GAMEPAD), !field_set_eq by done. done.
  - rewrite run_ret in Hr. apply done_inj in Hr. subst r. cbn [snd]. split; [done|]. split; [done|].
    intros ->. done.
Qed.

(** C15: the end of a connection stops the robot. Whatever a client sent, in whatever pieces
    and between whatever logs and challenge results, when its thread ends (because the client
    disconnected or the thread was cancelled) the run mode is IDLE, the client is marked
    DISCONNECTED, and for Dawn the gamepad and the keyboard are too. *)
Theorem disconnect_stops_robot client send_logs cancelled rounds c st c' st' :
  client = DAWN \/ client = SHEPHERD ->
  run (tcp_process logger client send_logs cancelled rounds c) st = Done (c', st') ->
  field RUN_MODE (mem st') = val_index IDLE /\ field client (mem st') = val_index DISCONNECTED /\
  inputs_off client (mem st').
Proof.
  intros Hc. revert c st.
  assert (Hend : forall c st, run (tcp_conn_cleanup client ;; mret c) st = Done (c', st') ->
    field RUN_MODE (mem st') = val_index IDLE /\ field client (mem st') = val_index DISCONNECTED /\
    inputs_off client (mem st')).
  { intros c st Hr. apply run_inv_bind in Hr as ([] & st1 & H1 & Hr). rewrite run_ret in Hr.
    apply done_pair in Hr as [_ <-]. by apply (cleanup_inv client st (tt, st1)). }
  induction rounds as [|r rounds IH]; intros c st Hr; cbn [tcp_process] in Hr.
  - destruct cancelled; [by eapply Hend | done].
  - apply run_inv_bind in Hr as (c1 & st1 & _ & Hr). apply run_inv_bind in Hr as (c2 & st2 & _ & Hr).
    destruct (conn_ready r); [|by eapply IH].
    apply run_inv_bind in Hr as ([ret c3] & st3 & _ & Hr).
    destruct (ret =? -1); [by eapply Hend | by eapply IH].
Qed.

(** ** The run mode *)

Lemma robot_desc_read_inv f st v st' :
  run (robot_desc_read f) st = Done (v, st') -> mem st' = mem st /\ v = field f (mem st).
Proof.
  unfold robot_desc_read. intros Hr.
  apply run_inv_bind in Hr as ([] & st1 & H1 & Hr). apply run_inv_bind in Hr as (v1 & st2 & H2 & Hr).
  apply run_inv_bind in Hr as ([] & st3 & H3 & Hr). rewrite run_ret in Hr. apply done_pair in Hr as [<- <-].
  assert (Hm1 : mem st1 = mem st).
  { cbn in H1. repeat case_match; try done. by apply done_pair in H1 as [_ <-]. }
  assert (Hm3 : mem st3 = mem st2).
  { cbn in H3. case_match; [|done]. by apply done_pair in H3 as [_ <-]. }
  cbn in H2. rewrite Hm1 in H2. destruct (buf_get (fields (mem st)) (field_index f)) as [w| | | |] eqn:Hw; try done.
  apply buf_get_inv in Hw. cbn in H2. apply done_pair in H2 as [<- <-]. rewrite Hm3. cbn. split.
  - by destruct (mem st).
  - unfold field. by rewrite nth_lookup, Hw.
Qed.

(** What happens to the run mode and to Shepherd's status. *)
Definition mode_guarded (m m' : shm_t) : Prop :=
  (field RUN_MODE m' = field RUN_MODE m \/ field RUN_MODE m' = val_index IDLE \/
   field RUN_MODE m' = val_index CHALLENGE) /\
  field SHEPHERD m' = field SHEPHERD m.

Lemma guarded_same m m' : fields m' = fields m -> mode_guarded m m'.
Proof. intros Hf. unfold mode_guarded, field. rewrite Hf. auto. Qed.

Lemma guarded_write f v st r :
  f ≠ SHEPHERD -> (f = RUN_MODE -> v = IDLE \/ v = CHALLENGE) ->
  run (robot_desc_write f (val_index v)) st = Done r -> mode_guarded (mem st) (mem (snd r)).
Proof.
  intros Hf Hv Hr. apply robot_desc_write_inv in Hr as [-> Hl]. rewrite val_index_u8.
  split; [|by apply field_set_ne].
  destruct (decide (f = RUN_MODE)) as [->|Hne]; [|left; by apply field_set_ne].
  rewrite field_set_eq by done. destruct Hv as [-> | ->]; auto.
Qed.

Lemma keeps_place_sub_requests devices : keeps (M := shm_mem) RFields (place_sub_requests devices).
Proof.
  induction devices as [|d devices IH]; cbn [place_sub_requests]; [done|].
  apply keeps_bind; [by destruct (sub_mask _ _ _)|]. intros requests.
  apply keeps_bind; [|done]. unfold place_sub_request, get_dev_ix_from_uid.
  keeps_tac; first [apply keeps_find_uid | keeps_tac].
Qed.

(** A write of the description, then a return. *)
Lemma guarded_then {A} f v (a : A) st a' st' :
  f ≠ SHEPHERD -> (f = RUN_MODE -> v = IDLE \/ v = CHALLENGE) ->
  run (robot_desc_write f (val_index v) ;; mret a) st = Done (a', st') -> mode_guarded (mem st) (mem st').
Proof.
  intros Hf Hv Hr. apply run_inv_bind in Hr as ([] & st1 & H1 & Hr). rewrite run_ret in Hr.
  apply done_pair in Hr as [_ <-]. by apply (guarded_write f v st (tt, st1)).
Qed.

Lemma guarded_ret {A} (a a' : A) st st' : run (mret a) st = Done (a', st') -> mode_guarded (mem st) (mem st').
Proof. rewrite run_ret. intros Hr. apply done_pair in Hr as [_ <-]. by apply guarded_same. Qed.

Lemma guarded_log level {A} (a a' : A) st st' :
  run (log_int_as_string logger level ;; mret a) st = Done (a', st') -> mode_guarded (mem st) (mem st').
Proof. unfold log_int_as_string. destruct (log_skips _ _); [|done]. apply (guarded_ret a). Qed.

Lemma guarded_local {A B} (o : outcome A) (k : A -> prog B) st r :
  run (local o ≫= k) st = Done r -> exists a, o = Done a /\ run (k a) st = Done r.
Proof. destruct o; try done. intros Hr. by exists a. Qed.

Lemma guarded_set_mode mode st r :
  ((mode =? MODE__AUTO) || (mode =? MODE__TELEOP)) = false ->
  run (set_run_mode logger mode) st = Done r -> mode_guarded (mem st) (mem (snd r)).
Proof.
  intros Hm. apply orb_false_iff in Hm as [Ha Ht]. unfold set_run_mode. rewrite Ha, Ht.
  destruct (mode =? MODE__IDLE); [apply guarded_write; auto|].
  destruct (mode =? MODE__ESTOP); [apply guarded_write; auto|].
  unfold log_int_as_string. destruct (log_skips _ _); [|done].
  rewrite run_ret. intros Hr. apply done_inj in Hr. subst r. by apply guarded_same.
Qed.

Lemma handle_msg_guarded env m c st r st' :
  is_dawn env = true -> field SHEPHERD (mem st) = val_index CONNECTED ->
  run (handle_msg logger env m c) st = Done (r, st') -> mode_guarded (mem st) (mem st').
Proof.
  intros Hd Hs. unfold handle_msg.
  destruct (pm_type m =? _); [|destruct (pm_type m =? _); [|destruct (pm_type m =? _);
    [|destruct (pm_type m =? _); [|destruct (pm_type m =? _); [|destruct (pm_type m =? _)]]]]].
  - unfold challenge_msg. intros Hr. apply guarded_local in Hr as (d & _ & Hr).
    destruct (send_len env <? 0); [by apply guarded_ret in Hr|]. apply guarded_then in Hr; auto.
  - unfold run_mode_msg. destruct (run_mode__unpack _) as [mode|]; [|apply guarded_ret].
    rewrite Hd. intros Hr. apply run_inv_bind in Hr as (v & st1 & H1 & Hr).
    apply robot_desc_read_inv in H1 as [H1 ->]. rewrite Hs in Hr. cbn [andb] in Hr. rewrite Z.eqb_refl in Hr.
    cbn [andb] in Hr. destruct ((mode =? MODE__AUTO) || (mode =? MODE__TELEOP)) eqn:Hm.
    + apply guarded_ret in Hr. by rewrite H1 in Hr.
    + apply run_inv_bind in Hr as ([] & st2 & H2 & Hr). rewrite run_ret in Hr. apply done_pair in Hr as [_ <-].
      apply guarded_set_mode in H2; [|done]. by rewrite H1 in H2.
  - unfold start_pos_msg. destruct (start_pos__unpack _) as [pos|]; [|apply guarded_ret].
    destruct (pos =? POS__LEFT); [by apply guarded_then|].
    destruct (pos =? POS__RIGHT); [by apply guarded_then|]. apply (guarded_ret (0, c)).
  - unfold device_data_msg. destruct (dev_data__unpack _) as [devices|]; [|apply guarded_ret].
    intros Hr. apply run_inv_bind in Hr as ([] & st1 & H1 & Hr). rewrite run_ret in Hr.
    apply done_pair in Hr as [_ <-]. apply guarded_same.
    exact (keeps_run (M := shm_mem) _ RFields _ (keeps_place_sub_requests devices) _ _ _ H1).
  - unfold game_state_msg. destruct (game_state__unpack _) as [state|]; [|apply guarded_ret].
    do 4 (case_match; [by apply guarded_then|]). apply guarded_log.
  - unfold time_stamp_msg. intros Hr. apply guarded_local in Hr as (c' & _ & Hr). by apply guarded_ret in Hr.
  - apply guarded_ret.
Qed.

(** C16: Dawn cannot override Shepherd. Whatever message arrives from Dawn while Shepherd is
    connected, once it has been handled the run mode is what it was, IDLE, or CHALLENGE, never
    newly AUTO or TELEOP, and Shepherd is still marked connected. *)
Theorem dawn_cannot_override env c st r st' :
  is_dawn env = true -> field SHEPHERD (mem st) = val_index CONNECTED ->
  run (recv_new_msg logger env c) st = Done (r, st') ->
  (field RUN_MODE (mem st') = field RUN_MODE (mem st) \/ field RUN_MODE (mem st') = val_index IDLE \/
   field RUN_MODE (mem st') = val_index CHALLENGE) /\
  field SHEPHERD (mem st') = val_index CONNECTED.
Proof.
  intros Hd Hs Hr. assert (Hg : mode_guarded (mem st) (mem st')).
  { unfold recv_new_msg in Hr. apply guarded_local in Hr as ([[err m] fd] & _ & Hr).
    destruct (err =? 0); [by apply guarded_ret in Hr|]. destruct (err =? -1); [by apply guarded_ret in Hr|].
    destruct m as [m|]; [|done]. by eapply handle_msg_guarded. }
  destruct Hg as [Hm Hsh]. by rewrite Hsh.
Qed.

(** ** What the messages do *)

Section Handling.
Context {PL : ProtosLaws P} (sm : gmap shm_sem nat) (Hfree : all_free sm).

Lemma modes_ne :
  MODE__IDLE ≠ MODE__AUTO /\ MODE__IDLE ≠ MODE__TELEOP /\ MODE__IDLE ≠ MODE__ESTOP /\
  MODE__AUTO ≠ MODE__TELEOP /\ MODE__AUTO ≠ MODE__ESTOP /\ MODE__TELEOP ≠ MODE__ESTOP.
Proof.
  pose proof modes_differ as Hd. rewrite !list.NoDup_cons, !not_elem_of_cons in Hd. tauto.
Qed.

Lemma set_run_mode_run mode v m : length (fields m) = NUM_DESC_FIELDS ->
  In (mode, v) [(MODE__IDLE, IDLE); (MODE__AUTO, AUTO); (MODE__TELEOP, TELEOP); (MODE__ESTOP, IDLE)] ->
  run (set_run_mode logger mode) (Sys m sm) = Done (tt, Sys (set_field RUN_MODE (val_index v) m) sm).
Proof.
  intros Hl Hin. unfold set_run_mode. destruct modes_ne as (N1 & N2 & N3 & N4 & N5 & N6).
  assert (Hw : forall v, run (robot_desc_write RUN_MODE (val_index v)) (Sys m sm) =
    Done (tt, Sys (set_field RUN_MODE (val_index v) m) sm)).
  { intros w. rewrite robot_desc_write_run by done. by rewrite val_index_u8. }
  destruct Hin as [[= <- <-]|[[= <- <-]|[[= <- <-]|[[= <- <-]|[]]]]];
    repeat (rewrite (proj2 (Z.eqb_neq _ _)) by congruence); by rewrite Z.eqb_refl.
Qed.

(** What a run mode message does. Bytes that are no message give -2 and change nothing.
    From Dawn, while Shepherd is connected, a request for AUTO or TELEOP is refused: the
    result is 0, nothing changes, and neither the buffer nor the message is freed. Otherwise
    the mode requested is written (ESTOP as IDLE), and only that. A mode that is none of the
    four makes the logger expand "%s" with an integer, unless it filters errors out. *)
Theorem run_mode_spec env len buf c m :
  mem_wf (M := shm_mem) m ->
  let msg := ParsedMsg (net_msg_num RUN_MODE_MSG) len buf in
  let guarded := is_dawn env && (field SHEPHERD m =? val_index CONNECTED) in
  let handled r m' := run (handle_msg logger env msg c) (Sys m sm) = Done (r, Sys m' sm) in
  (run_mode__unpack buf = None -> handled (-2, leak [LeakBuf] c) m) /\
  (forall mode, run_mode__unpack buf = Some mode ->
    (guarded = true -> mode = MODE__AUTO \/ mode = MODE__TELEOP -> handled (0, leak [LeakBuf; LeakMsg] c) m) /\
    (forall v, (guarded = false \/ v = IDLE) ->
      In (mode, v) [(MODE__IDLE, IDLE); (MODE__AUTO, AUTO); (MODE__TELEOP, TELEOP); (MODE__ESTOP, IDLE)] ->
      handled (0, c) (set_field RUN_MODE (val_index v) m)) /\
    (mode ∉ [MODE__IDLE; MODE__AUTO; MODE__TELEOP; MODE__ESTOP] -> log_skips logger ERROR = false ->
      run (handle_msg logger env msg c) (Sys m sm) = Faulty BadFormat)).
Proof.
  intros Hm msg guarded handled. subst handled. pose proof (Hm RFields) as [Hl _]. cbn in Hl.
  assert (Heq : handle_msg logger env msg c = run_mode_msg logger env msg c) by done. rewrite Heq.
  unfold run_mode_msg. subst msg. cbn [pm_buf]. split; [intros ->; apply run_ret|]. intros mode ->.
  set (k := fun shepherd : Z => if is_dawn env && (shepherd =? val_index CONNECTED) &&
    ((mode =? MODE__AUTO) || (mode =? MODE__TELEOP)) then mret (0, leak [LeakBuf; LeakMsg] c)
    else set_run_mode logger mode ;; mret (0, c) : prog (M := shm_mem) (Z * conn)).
  set (body := if guarded && ((mode =? MODE__AUTO) || (mode =? MODE__TELEOP))
    then mret (0, leak [LeakBuf; LeakMsg] c) else set_run_mode logger mode ;; mret (0, c) : prog (M := shm_mem) (Z * conn)).
  assert (Hrun : run ((if is_dawn env then robot_desc_read SHEPHERD else mret (val_index DISCONNECTED)) ≫= k)
    (Sys m sm) = run body (Sys m sm)).
  { subst body guarded k. destruct (is_dawn env); [|done].
    rewrite (run_then (M := shm_mem) _ _ _ _ _ (robot_desc_read_run sm Hfree SHEPHERD m Hl)). done. }
  rewrite Hrun. clear Hrun k. subst body. destruct modes_ne as (N1 & N2 & N3 & N4 & N5 & N6). split; [|split].
  - intros -> [-> | ->]; rewrite Z.eqb_refl, ?orb_true_r; apply run_ret.
  - intros v Hv Hin. assert (Hoff : guarded && ((mode =? MODE__AUTO) || (mode =? MODE__TELEOP)) = false).
    { destruct Hv as [-> | ->]; [done|]. apply andb_false_iff. right. apply orb_false_iff. rewrite !Z.eqb_neq.
      destruct Hin as [[= <-]|[[=]|[[=]|[[= <-]|[]]]]]; split; congruence. }
    rewrite Hoff. by rewrite (run_then (M := shm_mem) _ _ _ _ _ (set_run_mode_run mode v m Hl Hin)).
  - intros Hnot Hlog. rewrite !not_elem_of_cons in Hnot.
    unfold set_run_mode. repeat (rewrite (proj2 (Z.eqb_neq mode _)) by tauto).
    rewrite andb_false_r. unfold log_int_as_string. by rewrite Hlog.
Qed.

(** ** Subscriptions *)

Definition is_bool (p : pb_param) : bool := val_case p =? PARAM__VAL_BVAL.

(** The parameters a client asks for: the boolean ones that are set. *)
Definition wanted (ps : list pb_param) (i : nat) : bool :=
  match ps !! i with Some p => is_bool p && (pb_val p =? 1) | None => false end.

Lemma sub_mask_run ps : forall j requests,
  word32 requests -> (j + length ps <= 32)%nat ->
  Forall (fun p => is_bool p = true -> pb_val p = 0 \/ pb_val p = 1) ps ->
  exists r, sub_mask j ps requests = Done r /\ word32 r /\
    forall i, bit_on r i = bit_on requests i || ((j <=? i)%nat && wanted ps (i - j)).
Proof.
  induction ps as [|p ps IH]; intros j requests Hw Hj Hb; cbn [sub_mask].
  { exists requests. split; [done|]. split; [done|]. intros i. unfold wanted.
    by rewrite lookup_nil, andb_false_r, orb_false_r. }
  apply Forall_cons_1 in Hb as [Hp Hb]. cbn [length] in Hj.
  set (r1 := if is_bool p && (pb_val p =? 1) then bit_set requests j else requests).
  assert (Hr1 : (if val_case p =? PARAM__VAL_BVAL then
      if (j <? 32)%nat then mret (Z.lor requests (u32 (Z.shiftl (pb_val p) (Z.of_nat j)))) else Faulty ShiftRange
    else mret requests) = Done r1).
  { subst r1. unfold is_bool in *. destruct (val_case p =? PARAM__VAL_BVAL); [|done]. cbn [andb].
    rewrite (proj2 (Nat.ltb_lt _ _)) by lia. unfold bit_set. destruct (Hp eq_refl) as [-> | ->].
    - rewrite Z.shiftl_0_l. change (u32 0) with 0. by rewrite Z.lor_0_r.
    - rewrite u32_small; [done|]. rewrite Z.shiftl_1_l. split; [apply Z.pow_nonneg; lia|].
      apply Z.pow_lt_mono_r; lia. }
  rewrite Hr1, bind_done.
  destruct (IH (S j) r1) as (r & -> & Hrw & Hr); [|lia|done|].
  { subst r1. destruct (_ && _); [apply word32_set; [done | lia] | done]. }
  exists r. split; [done|]. split; [done|]. intros i. rewrite Hr. subst r1.
  destruct (decide (i = j)) as [->|Hne].
  - rewrite (proj2 (Nat.leb_gt (S j) j)), (proj2 (Nat.leb_le j j)), Nat.sub_diag by lia.
    cbn [andb]. rewrite orb_false_r. unfold wanted at 1. cbn [lookup list_lookup].
    destruct (is_bool p && (pb_val p =? 1)); [by rewrite bit_on_set_eq, orb_true_r | by rewrite orb_false_r].
  - assert (Hbit : bit_on (if is_bool p && (pb_val p =? 1) then bit_set requests j else requests) i = bit_on requests i).
    { destruct (is_bool p && (pb_val p =? 1)); [by rewrite bit_on_set_ne | done]. }
    rewrite Hbit. f_equal. destruct (Nat.lt_ge_cases j i) as [Hji|Hji].
    + rewrite !(proj2 (Nat.leb_le _ _)) by lia. cbn [andb]. unfold wanted.
      by replace (i - j)%nat with (S (i - S j)) by lia.
    + by rewrite !(proj2 (Nat.leb_gt _ _)) by lia.
Qed.

Lemma place_sub_requests_cons d devices :
  place_sub_requests (d :: devices) =
  (requests ← local (sub_mask 0 (pbd_params d) 0);
   _ ← place_sub_request (pbd_uid d) NET_HANDLER requests; place_sub_requests devices).
Proof. exact eq_refl. Qed.

(** The subscription a device data message asks for. When a device of the message has
    at most 32 parameters and its booleans are 0 or 1, its mask has exactly the bits of the
    boolean parameters that are set, and each device gets one [place_sub_request] with its
    mask, in order. A boolean parameter at a position of 32 or more is an undefined shift. *)
Theorem sub_requests_spec :
  (forall ps, (length ps <= 32)%nat -> Forall (fun p => is_bool p = true -> pb_val p = 0 \/ pb_val p = 1) ps ->
     exists r, sub_mask 0 ps 0 = Done r /\ word32 r /\ (forall i, bit_on r i = wanted ps i) /\
       forall d devices, pbd_params d = ps ->
         place_sub_requests (d :: devices) =
         (_ ← place_sub_request (pbd_uid d) NET_HANDLER r; place_sub_requests devices)) /\
  (forall ps p rest, length ps = 32%nat -> is_bool p = true ->
     Forall (fun p => is_bool p = true -> pb_val p = 0 \/ pb_val p = 1) ps ->
     sub_mask 0 (ps ++ p :: rest) 0 = Faulty ShiftRange).
Proof.
  split.
  - intros ps Hl Hb. destruct (sub_mask_run ps 0 0 word32_0) as (r & Hr & Hw & Hbits); [lia | done |].
    exists r. split; [done|]. split; [done|]. split.
    + intros i. by rewrite Hbits, bit_on_0, Nat.sub_0_r.
    + intros d devices <-. by rewrite place_sub_requests_cons, Hr, local_done.
  - intros ps p rest Hl Hp Hb.
    assert (Happ : forall ps j r, sub_mask j (ps ++ p :: rest) r =
      (r' ← sub_mask j ps r; sub_mask (j + length ps) (p :: rest) r')).
    { clear. induction ps as [|q ps IH]; intros j r.
      - cbn [app length]. by rewrite Nat.add_0_r.
      - cbn [app sub_mask length]. rewrite bind_assoc. destruct (if val_case q =? _ then _ else _); try done.
        rewrite !bind_done, IH. by replace (j + S (length ps))%nat with (S j + length ps)%nat by lia. }
    rewrite Happ. destruct (sub_mask_run ps 0 0 word32_0) as (r & -> & _); [lia | done |].
    rewrite bind_done. cbn [sub_mask Nat.add]. rewrite Hl. unfold is_bool in Hp. by rewrite Hp.
Qed.

End Handling.

(** ** What the client is sent *)

Section Replies.
Context {HR : ReliableHeap H}.

(** The socket takes whatever is written to it, up to [n] bytes. *)
Definition writable_for (n : nat) (c : conn) : Prop :=
  exists ws ks tail, conn_ws c = ws ++ tail /\ Forall2 writes ws ks /\ (n <= sum_list ks)%nat.

(** [c'] is [c] after [bs] has been sent. *)
Definition sent (bs : bytes) (c c' : conn) : Prop :=
  conn_in c' = conn_in c /\ conn_out c' = conn_out c ++ bs /\ to_executor c' = to_executor c /\
  leaked c' = leaked c.

Lemma conn_write_run buf c : Z.of_nat (length buf) < 65536 -> writable_for (length buf) c ->
  exists c', conn_write (Z.of_nat (length buf)) buf c = Done c' /\ sent buf c c'.
Proof.
  intros Hl (ws & ks & tail & Hws & Hw & Hk). unfold conn_write. rewrite Hws.
  destruct (writen_run ws ks (Z.of_nat (length buf)) buf (conn_out c) tail) as (ws' & ->); [done | lia | lia | lia |].
  rewrite bind_done, Nat2Z.id, firstn_all. eexists. split; [done|]. by repeat split.
Qed.

Lemma send_packed_run t packed c :
  Z.of_nat (length packed) < 65533 -> writable_for (length packed + 3) c ->
  exists c', send_packed t packed c = Done c' /\ sent (net_frame (net_msg_num t) packed) c c'.
Proof.
  intros Hl Hw. unfold send_packed. rewrite u16_small by lia.
  assert (Ht : byte_ok (net_msg_num t)) by (unfold byte_ok; destruct t; simpl; lia).
  pose proof (packed_frame (net_msg_num t) packed Ht ltac:(lia)) as Hf.
  apply bind_done_inv in Hf as (b & -> & Hf). rewrite bind_done, Hf, bind_done.
  assert (Hlen : length (net_frame (net_msg_num t) packed) = (length packed + 3)%nat)
    by (unfold net_frame; list_lia).
  destruct (conn_write_run (net_frame (net_msg_num t) packed) c) as (c' & Hc' & Hs); [lia | by rewrite Hlen |].
  exists c'. split; [|done]. rewrite <- Hc'. f_equal. rewrite Hlen. unfold BUFFER_OFFSET. lia.
Qed.

(** What [fgets] answers when no more lines are sent: no data for now, or the end of the file
    behind at least one line. *)
Definition log_pause (lines : list string) (rest : list log_read) : Prop :=
  (MAX_NUM_LOGS <= length lines)%nat \/ rest = [] \/ (exists r, rest = LogAgain :: r) \/
  (lines ≠ [] /\ exists r, rest = LogEof :: r).

Lemma read_logs_run lines : forall k payload rest,
  (k <= length lines)%nat \/ rest = [] \/ (exists r, rest = LogAgain :: r) \/
  (payload ++ lines ≠ [] /\ exists r, rest = LogEof :: r) ->
  read_logs k (map LogLine lines ++ rest) payload = Done (Some (payload ++ take k lines)).
Proof.
  induction lines as [|line lines IH]; intros k payload rest Hp.
  - rewrite take_nil, app_nil_r. destruct k as [|k]; [done|]. cbn [map app read_logs].
    destruct Hp as [Hp|[->|[(r & ->)|[Hne (r & ->)]]]]; [cbn in Hp; lia|done|done|].
    rewrite app_nil_r in Hne. by destruct payload.
  - destruct k as [|k]; [by rewrite take_0, app_nil_r|]. cbn [map app read_logs].
    destruct (alloc_done (String.length line + 1)) as (b & -> & _). rewrite bind_done, IH.
    + cbn [take]. by rewrite <- app_assoc.
    + rewrite <- app_assoc. cbn [length app] in *. destruct Hp as [Hp|Hp]; [left; lia | by right].
Qed.

(** What a client is sent. A time stamp message that unpacks is answered, alone, by the
    frame of the same message with the current time set; one that does not is a NULL
    dereference. A log message holds the next lines of the log, at most sixteen, in order.
    A result of the executor is forwarded as it is, cut to 256 bytes. *)
Theorem tcp_replies :
  (forall env len buf ts c st, time_stamps__unpack buf = Some ts ->
     let packed := time_stamps__pack (set_runtime_timestamp (now env) ts) in
     Z.of_nat (length packed) < 65533 -> writable_for (length packed + 3) c ->
     exists c', run (handle_msg logger env (ParsedMsg (net_msg_num TIME_STAMP_MSG) len buf) c) st = Done ((0, c'), st) /\
       sent (net_frame (net_msg_num TIME_STAMP_MSG) packed) c c') /\
  (forall env len buf c st, time_stamps__unpack buf = None ->
     run (handle_msg logger env (ParsedMsg (net_msg_num TIME_STAMP_MSG) len buf) c) st = Faulty NullDeref) /\
  (forall lines rest c, log_pause lines rest ->
     let packed := text__pack (take MAX_NUM_LOGS lines) in
     Z.of_nat (length packed) < 65533 -> writable_for (length packed + 3) c ->
     exists c', send_log_msg (map LogLine lines ++ rest) c = Done c' /\
       sent (net_frame (net_msg_num LOG_MSG) packed) c c') /\
  (forall datagram c, writable_for 256 c ->
     exists c', send_challenge_results (Some datagram) c = Done c' /\ sent (take 256 datagram) c c').
Proof.
  split; [|split; [|split]].
  - intros env len buf ts c st Hts packed Hl Hw.
    assert (Heq : handle_msg logger env (ParsedMsg (net_msg_num TIME_STAMP_MSG) len buf) c =
      (c ← local (send_timestamp_msg (now env) (time_stamps__unpack buf) c); mret (0, c))) by done.
    rewrite Heq, Hts. unfold send_timestamp_msg.
    destruct (send_packed_run TIME_STAMP_MSG packed c Hl Hw) as (c' & Hc' & Hs). exists c'. split; [|done].
    subst packed. by rewrite Hc'.
  - intros env len buf c st Hts.
    assert (Heq : handle_msg logger env (ParsedMsg (net_msg_num TIME_STAMP_MSG) len buf) c =
      (c ← local (send_timestamp_msg (now env) (time_stamps__unpack buf) c); mret (0, c))) by done.
    by rewrite Heq, Hts.
  - intros lines rest c Hp packed Hl Hw. unfold send_log_msg.
    destruct (alloc_done (MAX_NUM_LOGS * 8)) as (b & -> & _).
    rewrite bind_done, read_logs_run, bind_done by done. by apply send_packed_run.
  - intros datagram c (ws & ks & tail & Hws & Hw & Hk). unfold send_challenge_results.
    apply conn_write_run; [rewrite length_take; lia|]. exists ws, ks, tail. rewrite length_take.
    split; [done|]. split; [done | lia].
Qed.

End Replies.

(** ** The connection threads among the other processes *)

Section Threads.
Context {HR : ReliableHeap H}.

(** What a message must be for its handling to be defined: known enumerators where the
    logger would print them, positions below 32, time stamps that unpack. *)
Definition message_safe (m : parsed_msg) : Prop :=
  (pm_type m = net_msg_num RUN_MODE_MSG -> forall mode, run_mode__unpack (pm_buf m) = Some mode ->
     mode ∈ [MODE__IDLE; MODE__AUTO; MODE__TELEOP; MODE__ESTOP]) /\
  (pm_type m = net_msg_num GAME_STATE_MSG -> forall state, game_state__unpack (pm_buf m) = Some state ->
     state ∈ [STATE__POISON_IVY; STATE__DEHYDRATION; STATE__HYPOTHERMIA_START; STATE__HYPOTHERMIA_END]) /\
  (pm_type m = net_msg_num DEVICE_DATA_MSG -> forall devices, dev_data__unpack (pm_buf m) = Some devices ->
     Forall (fun d => (length (pbd_params d) <= 32)%nat /\
       Forall (fun p => is_bool p = true -> pb_val p = 0 \/ pb_val p = 1) (pbd_params d)) devices) /\
  (pm_type m = net_msg_num TIME_STAMP_MSG -> exists ts, time_stamps__unpack (pm_buf m) = Some ts /\
     forall t, Z.of_nat (length (time_stamps__pack (set_runtime_timestamp t ts))) < 65533).

(** Log messages that fit the two bytes of the length. *)
Definition round_safe (r : round) : Prop :=
  forall log_file payload, log_ready r = Some log_file ->
    read_logs MAX_NUM_LOGS log_file [] = Done (Some payload) ->
    Z.of_nat (length (text__pack payload)) < 65533.

(** The sockets of the connection do not fail. *)
Definition clean (c : conn) : Prop := Forall no_error (conn_in c) /\ Forall no_werror (conn_ws c).

Lemma disc_input {A} (o : outcome A) (Q : A -> Prop) :
  o = Blocked \/ (exists a, o = Done a /\ Q a) -> disc (M := shm_mem) [] (local o) [] Q.
Proof. intros [->|(a & -> & Ha)]; done. Qed.

Lemma clean_leak l c : clean c -> clean (leak l c).
Proof. done. Qed.

(** [c'] is clean and has the same messages to come. *)
Definition next_conn (c c' : conn) : Prop := clean c' /\ conn_in c' = conn_in c.

Lemma next_conn_refl c : clean c -> next_conn c c.
Proof. done. Qed.

Lemma conn_write_clean n buf c : clean c -> 0 <= n < 65536 -> (Z.to_nat n <= length buf)%nat ->
  conn_write n buf c = Blocked \/ exists c', conn_write n buf c = Done c' /\ next_conn c c'.
Proof.
  intros [Hi Hw] Hn Hb. unfold conn_write.
  destruct (writen_clean n buf (conn_ws c) (conn_out c) Hw Hn Hb) as [->|(r & s & ws' & -> & Hw')]; [by left|].
  right. eexists. split; [done|]. by split; [split|].
Qed.

Lemma send_packed_clean t packed c : clean c -> Z.of_nat (length packed) < 65533 ->
  send_packed t packed c = Blocked \/ exists c', send_packed t packed c = Done c' /\ next_conn c c'.
Proof.
  intros Hc Hl. unfold send_packed. rewrite u16_small by lia.
  assert (Ht : byte_ok (net_msg_num t)) by (unfold byte_ok; destruct t; simpl; lia).
  pose proof (packed_frame (net_msg_num t) packed Ht ltac:(lia)) as Hf.
  apply bind_done_inv in Hf as (b & -> & Hf). rewrite bind_done, Hf, bind_done.
  apply conn_write_clean; [done | unfold BUFFER_OFFSET; lia |]. unfold net_frame, BUFFER_OFFSET. list_lia.
Qed.

Lemma read_logs_total log_file : forall k payload, exists r, read_logs k log_file payload = Done r.
Proof.
  induction log_file as [|l log_file IH]; intros [|k] payload; cbn [read_logs]; eauto.
  destruct l as [line| | |]; eauto.
  - destruct (alloc_done (String.length line + 1)) as (b & -> & _). rewrite bind_done. apply IH.
  - destruct payload; eauto.
Qed.

Lemma send_log_clean r log_file c : clean c -> round_safe r -> log_ready r = Some log_file ->
  send_log_msg log_file c = Blocked \/ exists c', send_log_msg log_file c = Done c' /\ next_conn c c'.
Proof.
  intros Hc Hr Hlog. unfold send_log_msg.
  destruct (alloc_done (MAX_NUM_LOGS * 8)) as (b & -> & _). rewrite bind_done.
  destruct (read_logs_total log_file MAX_NUM_LOGS []) as ([payload|] & Hp); rewrite Hp, bind_done.
  - apply send_packed_clean; [done|]. by eapply Hr.
  - right. by exists c.
Qed.

Lemma send_challenge_clean received c : clean c ->
  send_challenge_results received c = Blocked \/
  exists c', send_challenge_results received c = Done c' /\ next_conn c c'.
Proof.
  intros Hc. destruct received as [d|]; [|right; by exists c]. apply conn_write_clean; [done | | lia].
  rewrite length_take. lia.
Qed.

Lemma disc_set_field f v : disc (M := shm_mem) [] (robot_desc_write f (val_index v)) [] (fun _ => True).
Proof. apply disc_robot_desc_write. Qed.

(** A write of the description, then a result. *)
Lemma disc_write_ret {A} f v (a : A) (Q : A -> Prop) : Q a ->
  disc (M := shm_mem) [] (robot_desc_write f (val_index v) ;; mret a) [] Q.
Proof. intros HQ. eapply disc_bind; [apply disc_set_field|]. intros _ _. by apply disc_ret. Qed.

Lemma disc_place_sub_requests devices :
  Forall (fun d => (length (pbd_params d) <= 32)%nat /\
    Forall (fun p => is_bool p = true -> pb_val p = 0 \/ pb_val p = 1) (pbd_params d)) devices ->
  disc (M := shm_mem) [] (place_sub_requests devices) [] (fun _ => True).
Proof.
  induction 1 as [|d devices [Hl Hb] _ IH]; [by apply disc_ret|]. rewrite place_sub_requests_cons.
  destruct (sub_mask_run (pbd_params d) 0 0 word32_0) as (r & Hr & Hw & _); [lia | done |].
  rewrite Hr, local_done. eapply disc_bind; [by apply disc_place_sub_request|]. intros _ _. exact IH.
Qed.

Lemma disc_set_run_mode mode : mode ∈ [MODE__IDLE; MODE__AUTO; MODE__TELEOP; MODE__ESTOP] ->
  disc (M := shm_mem) [] (set_run_mode logger mode) [] (fun _ => True).
Proof.
  rewrite !elem_of_cons. unfold set_run_mode. intros Hm.
  destruct (Z.eqb_spec mode MODE__IDLE); [apply disc_set_field|].
  destruct (Z.eqb_spec mode MODE__AUTO); [apply disc_set_field|].
  destruct (Z.eqb_spec mode MODE__TELEOP); [apply disc_set_field|].
  destruct (Z.eqb_spec mode MODE__ESTOP); [apply disc_set_field|].
  destruct Hm as [?|[?|[?|[?|Hm]]]]; try done. by apply not_elem_of_nil in Hm.
Qed.

Lemma disc_game_state state c (Q : Z * conn -> Prop) msg :
  state ∈ [STATE__POISON_IVY; STATE__DEHYDRATION; STATE__HYPOTHERMIA_START; STATE__HYPOTHERMIA_END] ->
  game_state__unpack (pm_buf msg) = Some state -> Q (0, leak [LeakMsg] c) ->
  disc (M := shm_mem) [] (game_state_msg logger msg c) [] Q.
Proof.
  rewrite !elem_of_cons. unfold game_state_msg. intros Hs -> HQ.
  destruct (Z.eqb_spec state STATE__POISON_IVY); [by apply disc_write_ret|].
  destruct (Z.eqb_spec state STATE__DEHYDRATION); [by apply disc_write_ret|].
  destruct (Z.eqb_spec state STATE__HYPOTHERMIA_START); [by apply disc_write_ret|].
  destruct (Z.eqb_spec state STATE__HYPOTHERMIA_END); [by apply disc_write_ret|].
  destruct Hs as [?|[?|[?|[?|Hs]]]]; try done. by apply not_elem_of_nil in Hs.
Qed.

Lemma disc_handle_msg env m c : message_safe m -> length (pm_buf m) = Z.to_nat (pm_len m) -> clean c ->
  disc (M := shm_mem) [] (handle_msg logger env m c) [] (fun r => next_conn c (snd r)).
Proof.
  intros (Hmode & Hstate & Hdev & Hts) Hlen Hc. unfold handle_msg.
  destruct (pm_type m =? net_msg_num CHALLENGE_DATA_MSG).
  { unfold challenge_msg. rewrite buf_read_prefix, local_done by lia.
    destruct (send_len env <? 0); [by apply disc_ret | by apply disc_write_ret]. }
  destruct (Z.eqb_spec (pm_type m) (net_msg_num RUN_MODE_MSG)) as [Ht|_].
  { unfold run_mode_msg. destruct (run_mode__unpack _) as [mode|] eqn:Hu; [|by apply disc_ret].
    eapply (disc_bind _ _ _ _ _ (fun _ => True)).
    { destruct (is_dawn env); [apply disc_robot_desc_read | by apply disc_ret]. }
    intros v _. destruct (is_dawn env && _ && _); [by apply disc_ret|].
    eapply disc_bind; [by apply disc_set_run_mode, (Hmode Ht)|]. intros _ _. by apply disc_ret. }
  destruct (pm_type m =? net_msg_num START_POS_MSG).
  { unfold start_pos_msg. destruct (start_pos__unpack _) as [pos|]; [|by apply disc_ret].
    destruct (pos =? POS__LEFT); [by apply disc_write_ret|].
    destruct (pos =? POS__RIGHT); [by apply disc_write_ret | by apply disc_ret]. }
  destruct (Z.eqb_spec (pm_type m) (net_msg_num DEVICE_DATA_MSG)) as [Ht|_].
  { unfold device_data_msg. destruct (dev_data__unpack _) as [devices|] eqn:Hu; [|by apply disc_ret].
    eapply disc_bind; [by apply disc_place_sub_requests, (Hdev Ht)|]. intros _ _. by apply disc_ret. }
  destruct (Z.eqb_spec (pm_type m) (net_msg_num GAME_STATE_MSG)) as [Ht|_].
  { destruct (game_state__unpack (pm_buf m)) as [state|] eqn:Hu.
    - by apply (disc_game_state state); [apply Hstate | |].
    - unfold game_state_msg. rewrite Hu. by apply disc_ret. }
  destruct (Z.eqb_spec (pm_type m) (net_msg_num TIME_STAMP_MSG)) as [Ht|_].
  { destruct (Hts Ht) as (ts & Hu & Hp). unfold time_stamp_msg. rewrite Hu.
    eapply disc_bind; [apply disc_input, send_packed_clean; [done | apply Hp]|].
    intros c' Hc'. by apply disc_ret. }
  by apply disc_ret.
Qed.

(** Every message that will arrive on the connection is safe. *)
Definition arrivals_safe (fd : list chunk) : Prop :=
  forall k ms fd', parse_msgs k fd = Done (ms, fd') -> Forall message_safe ms.

Lemma arrivals_next fd r pm fd' : parse_msg fd = Done (r, Some pm, fd') -> arrivals_safe fd ->
  message_safe pm /\ arrivals_safe fd'.
Proof.
  intros Hp Ha. split.
  - assert (H1 : parse_msgs 1 fd = Done ([pm], fd')) by (cbn [parse_msgs]; by rewrite Hp).
    apply Ha in H1. by inversion H1.
  - intros k ms fd2 Hk. assert (H1 : parse_msgs (S k) fd = Done (pm :: ms, fd2)).
    { cbn [parse_msgs]. by rewrite Hp, bind_done, Hk. }
    apply Ha in H1. by inversion H1.
Qed.

Definition served (r : Z * conn) : Prop := fst r = -1 \/ (clean (snd r) /\ arrivals_safe (conn_in (snd r))).

Lemma disc_recv_new_msg env c : clean c -> arrivals_safe (conn_in c) ->
  disc (M := shm_mem) [] (recv_new_msg logger env c) [] served.
Proof.
  intros [Hi Hw] Ha. unfold recv_new_msg.
  destruct (parse_msg_clean (conn_in c) Hi) as [->|(r & m & fd & Hp & Hfd & Hlen)]; [done|].
  rewrite Hp, local_done.
  destruct (parse_msg_result _ _ _ _ Hp) as [[-> ->]|[-> (pm & ->)]]; [apply disc_ret; by left|].
  destruct (arrivals_next _ _ _ _ Hp Ha) as [Hs Ha']. change (1 =? 0) with false. change (1 =? -1) with false.
  cbv iota. eapply disc_weaken.
  - apply (disc_handle_msg env pm (set_in fd c)); [done | by apply Hlen | by split].
  - intros [ret c'] [Hc' Hin]. right. cbn [snd] in *. split; [done|]. by rewrite Hin.
Qed.

Lemma disc_cleanup client : disc (M := shm_mem) [] (tcp_conn_cleanup client) [] (fun _ => True).
Proof.
  unfold tcp_conn_cleanup. do 2 (eapply disc_bind; [apply disc_set_field|]; intros _ _).
  case_decide; [|by apply disc_ret]. eapply disc_bind; [apply disc_set_field|]. intros _ _. apply disc_set_field.
Qed.

Lemma disc_tcp_process client send_logs cancelled rounds : forall c,
  Forall round_safe rounds -> clean c -> arrivals_safe (conn_in c) ->
  disc (M := shm_mem) [] (tcp_process logger client send_logs cancelled rounds c) [] (fun _ => True).
Proof.
  assert (Hend : forall c : conn, disc (M := shm_mem) [] (tcp_conn_cleanup client ;; mret c) [] (fun _ => True)).
  { intros c. eapply disc_bind; [apply disc_cleanup|]. intros _ _. by apply disc_ret. }
  induction rounds as [|r rounds IH]; intros c Hr Hc Ha; cbn [tcp_process].
  { destruct cancelled; [apply Hend | done]. }
  inversion Hr as [|? ? Hr1 Hr2]; subst.
  eapply (disc_bind _ _ _ _ _ (next_conn c)).
  { destruct send_logs; [|by apply disc_ret]. destruct (log_ready r) as [l|] eqn:Hl; [|by apply disc_ret].
    apply disc_input. by apply (send_log_clean r). }
  intros c1 [Hc1 E1]. eapply (disc_bind _ _ _ _ _ (next_conn c1)).
  { destruct (challenge_ready r) as [d|]; [|by apply disc_ret]. by apply disc_input, send_challenge_clean. }
  intros c2 [Hc2 E2]. assert (Ha2 : arrivals_safe (conn_in c2)) by (by rewrite E2, E1).
  destruct (conn_ready r); [|by apply IH].
  eapply disc_bind; [by apply disc_recv_new_msg|]. intros [ret c3] Hs.
  destruct (Z.eqb_spec ret (-1)) as [|Hret]; [apply Hend|].
  destruct Hs as [Hs|[Hc3 Ha3]]; [by destruct Hret | by apply IH].
Qed.

(** A connection: the client, what its thread does, its sockets. *)
Definition tcp_thread (t : robot_desc_field_t * bool * bool * list round * conn) : prog (M := shm_mem) unit :=
  let '(client, send_logs, cancelled, rounds, c) := t in
  tcp_process logger client send_logs cancelled rounds c ;; mret tt.

Definition tcp_thread_ok (t : robot_desc_field_t * bool * bool * list round * conn) : Prop :=
  let '(_, _, _, rounds, c) := t in Forall round_safe rounds /\ clean c /\ arrivals_safe (conn_in c).

Lemma disc_tcp_thread t : tcp_thread_ok t -> thread_ok (M := shm_mem) [] (tcp_thread t).
Proof.
  destruct t as [[[[cl l] ca] rounds] cn]. intros (Hr & Hc & Ha). unfold thread_ok; cbn.
  eapply disc_bind; [by apply disc_tcp_process|]. intros _ _. by apply disc_ret.
Qed.

(** The connection threads among the other processes. Any number of connections, on
    sockets that do not fail and with messages whose handling is defined, together with any
    number of processes that make calls of the wrapper, whatever the interleaving: memory
    stays well-formed, nobody faults, nobody races, and as long as somebody can still do
    something (is not finished, and does not wait for its client), somebody can move. *)
Theorem tcp_threads_safe old tcp (calls : list (list shm_call)) c :
  mem_wf (M := shm_mem) old -> Forall tcp_thread_ok tcp -> Forall (Forall call_ok) calls ->
  rtc step (Config (M := shm_mem) (Sys (shm_start old) sems_start)
    ((tcp_thread <$> tcp) ++ (client <$> calls))) c ->
  safe c.
Proof.
  intros Hold Htcp Hcalls. apply disciplined_safe.
  - by apply shm_start_wf.
  - apply sems_start_ok.
  - apply Forall_app. split; apply Forall_fmap.
    + eapply Forall_impl; [|exact Htcp]. apply disc_tcp_thread.
    + eapply Forall_impl; [|exact Hcalls]. intros cs. apply client_disc.
Qed.

End Threads.
End TcpSpec.

(** ** A connection that ends before it is marked connected *)

#[local] Existing Instance zero_heap.
#[local] Existing Instance demo_protos.

Definition no_env : recv_env := RecvEnv false 0 0.
Definition dawn_env : recv_env := RecvEnv true 0 0.
Definition quiet_conn (fd : list chunk) : conn := Conn fd [Wrote 600] [] [] [].

(** Shepherd connects and disconnects at once: the new thread, and the main thread behind
    [pthread_create]. *)
Definition hasty_shepherd : list (prog (M := shm_mem) unit) :=
  [ tcp_thread logger_start (SHEPHERD, false, false, [Round None None true no_env], quiet_conn [Eof]);
    start_tcp_conn (StartEnv true true true true true) SHEPHERD false ;; mret tt ].

(** The thread cleans up first. *)
Definition hasty_schedule : list nat := replicate 6 0%nat ++ replicate 3 1%nat.

Definition ghost_shepherd (c : config (M := shm_mem)) : bool :=
  forallb finished (c_threads c) && (field SHEPHERD (mem (c_sys c)) =? val_index CONNECTED) &&
  match run (handle_msg logger_start dawn_env
    (ParsedMsg (net_msg_num RUN_MODE_MSG) 1 [MODE__AUTO]) (quiet_conn [])) (c_sys c) with
  | Done (r, st') => (fst r =? 0) && (field RUN_MODE (mem st') =? val_index IDLE)
  | _ => false
  end.

(** A ghost of Shepherd. [start_tcp_conn] creates the thread of a connection before it
    marks the client connected. If Shepherd disconnects at once, the thread's cleanup can
    mark it disconnected first: both threads have then finished, no connection exists, and
    Shepherd is marked connected for good, so that Dawn's request for AUTO is refused. *)
Theorem shepherd_ghost :
  exists c, rtc step (Config (M := shm_mem) (Sys (shm_start zero_shm) sems_start) hasty_shepherd) c /\
    ghost_shepherd c = true.
Proof.
  assert (Hr : match run_schedule hasty_schedule (Config (M := shm_mem) (Sys (shm_start zero_shm) sems_start) hasty_shepherd) with
              | Some c => ghost_shepherd c | None => false end = true) by (vm_compute; reflexivity).
  destruct (run_schedule hasty_schedule _) as [c|] eqn:E; [|done].
  exists c. split; [by eapply run_schedule_steps | exact Hr].
Qed.

(** ** Witnesses *)

(** Dawn asks for TELEOP and disconnects. *)
Definition teleop_stream : list chunk := [Data [0; 1]; Data [0; 2]; Eof].

Definition teleop_run : outcome (conn * sys) :=
  run (tcp_process logger_start DAWN false false
    [Round None None true dawn_env; Round None None true dawn_env] (quiet_conn teleop_stream))
    (Sys (M := shm_mem) (shm_start zero_shm) sems_start).

Lemma teleop_run_done : is_done teleop_run = true.
Proof. vm_compute. reflexivity. Qed.

Lemma disconnect_stops_robot_witness :
  exists c' st', teleop_run = Done (c', st') /\
    field RUN_MODE (mem st') = val_index IDLE /\ field DAWN (mem st') = val_index DISCONNECTED /\
    inputs_off DAWN (mem st').
Proof.
  destruct (is_done_inv _ teleop_run_done) as ([c' st'] & E). exists c', st'. split; [exact E|].
  apply (disconnect_stops_robot logger_start DAWN false false
    [Round None None true dawn_env; Round None None true dawn_env] (quiet_conn teleop_stream)
    (Sys (M := shm_mem) (shm_start zero_shm) sems_start) c' st').
  - by left.
  - exact E.
Defined.

Definition with_shepherd : shm_t := set_field SHEPHERD (val_index CONNECTED) (shm_start zero_shm).

Definition guarded_run : outcome ((Z * conn) * sys) :=
  run (recv_new_msg logger_start dawn_env (quiet_conn teleop_stream)) (Sys (M := shm_mem) with_shepherd sems_start).

Lemma guarded_run_done : is_done guarded_run = true.
Proof. vm_compute. reflexivity. Qed.

Lemma dawn_cannot_override_witness :
  exists r st', guarded_run = Done (r, st') /\
    (field RUN_MODE (mem st') = field RUN_MODE with_shepherd \/
      field RUN_MODE (mem st') = val_index IDLE \/ field RUN_MODE (mem st') = val_index CHALLENGE) /\
    field SHEPHERD (mem st') = val_index CONNECTED.
Proof.
  destruct (is_done_inv _ guarded_run_done) as ([r st'] & E). exists r, st'. split; [exact E|].
  apply (dawn_cannot_override logger_start dawn_env (quiet_conn teleop_stream) (Sys (M := shm_mem) with_shepherd sems_start) r st').
  - reflexivity.
  - reflexivity.
  - exact E.
Defined.

Lemma with_shepherd_wf : mem_wf (M := shm_mem) with_shepherd.
Proof.
  pose proof demo_start_wf as Hm. apply (store_wf (M := shm_mem) RFields); [done|].
  destruct (Hm RFields) as [Hl Hb]. split; [by rewrite length_insert|]. apply Forall_insert; [done | unfold byte_ok; cbn; lia].
Qed.

Lemma run_mode_spec_witness :
  let msg := ParsedMsg (net_msg_num RUN_MODE_MSG) 1 [1] in
  let c := quiet_conn [] in
  let guarded := is_dawn dawn_env && (field SHEPHERD with_shepherd =? val_index CONNECTED) in
  let handled r m' := run (handle_msg logger_start dawn_env msg c) (Sys with_shepherd sems_start) = Done (r, Sys m' sems_start) in
  (run_mode__unpack [1] = None -> handled (-2, leak [LeakBuf] c) with_shepherd) /\
  (forall mode, run_mode__unpack [1] = Some mode ->
    (guarded = true -> mode = MODE__AUTO \/ mode = MODE__TELEOP -> handled (0, leak [LeakBuf; LeakMsg] c) with_shepherd) /\
    (forall v, (guarded = false \/ v = IDLE) ->
      In (mode, v) [(MODE__IDLE, IDLE); (MODE__AUTO, AUTO); (MODE__TELEOP, TELEOP); (MODE__ESTOP, IDLE)] ->
      handled (0, c) (set_field RUN_MODE (val_index v) with_shepherd)) /\
    (mode ∉ [MODE__IDLE; MODE__AUTO; MODE__TELEOP; MODE__ESTOP] -> log_skips logger_start ERROR = false ->
      run (handle_msg logger_start dawn_env msg c) (Sys with_shepherd sems_start) = Faulty BadFormat)).
Proof.
  apply (run_mode_spec logger_start sems_start sems_start_ok dawn_env 1 [1] (quiet_conn []) with_shepherd).
  apply with_shepherd_wf.
Defined.

Lemma tcp_threads_safe_witness :
  safe (Config (M := shm_mem) (Sys (shm_start zero_shm) sems_start)
    ((tcp_thread logger_start <$> [(DAWN, false, false, [Round None None true dawn_env], quiet_conn [Eof])]) ++
     (client <$> [[CallConnect (DevId 6 1 77)]]))).
Proof.
  apply (tcp_threads_safe logger_start zero_shm
    [(DAWN, false, false, [Round None None true dawn_env], quiet_conn [Eof])] [[CallConnect (DevId 6 1 77)]]).
  - apply zero_shm_wf.
  - apply Forall_cons_2; [|apply Forall_nil_2]. split; [|split].
    + apply Forall_cons_2; [|apply Forall_nil_2]. intros log_file payload [=].
    + split; repeat constructor.
    + intros [|k] ms fd' Hk; cbn in Hk; injection Hk as <- <-; apply Forall_nil_2.
  - match goal with |- ?P => apply (bool_decide_eq_true_1 P) end. vm_compute. reflexivity.
  - apply rtc_refl.
Defined.

Lemma tcp_replies_witness :
  (exists c', run (handle_msg logger_start dawn_env (ParsedMsg (net_msg_num TIME_STAMP_MSG) 1 [9]) (quiet_conn []))
      (Sys (M := shm_mem) with_shepherd sems_start) = Done ((0, c'), Sys with_shepherd sems_start) /\
    sent (net_frame (net_msg_num TIME_STAMP_MSG) (le_bytes 8 9 ++ le_bytes 8 0)) (quiet_conn []) c') /\
  (exists c', send_log_msg (map LogLine ["ready"%string] ++ [LogAgain]) (quiet_conn []) = Done c' /\
    sent (net_frame (net_msg_num LOG_MSG) (text__pack (take MAX_NUM_LOGS ["ready"%string]))) (quiet_conn []) c').
Proof.
  assert (Hw : forall n, (n <= 600)%nat -> writable_for n (quiet_conn [])).
  { intros n Hn. exists [Wrote 600], [600%nat], []. split; [done|]. split; [repeat constructor; lia | cbn; lia]. }
  split.
  - apply (proj1 (tcp_replies logger_start) dawn_env 1 [9] ((9, 0) : @TimeStamps demo_protos) (quiet_conn [])); [done | cbn; lia | apply Hw; cbn; lia].
  - apply (proj1 (proj2 (proj2 (tcp_replies logger_start))) ["ready"%string] [LogAgain] (quiet_conn []));
      [right; right; left; by exists [] | cbn; lia | apply Hw; cbn; lia].
Defined.
