(* ===== verification/UdpSpec.v ===== *)
(** * What the UDP connection guarantees: the theorems on [Udp]. *)

From stdpp Require Import gmap strings.
From S2P Require Export Udp TcpSpec.

Section Snapshot.
Context {H : Heap} {HR : ReliableHeap H} {P : Protos} (sizeof_Device sizeof_Param : nat).
Context (sm : gmap shm_sem nat) (Hfree : all_free sm).

(** ** What Dawn is told of the shared memory *)

(** The parameter [j] of a device of this kind with the data [vals]. *)
Definition param_report (d : device_t) (vals : list param_val_t) (j : nat) : pb_param :=
  let desc := nth j (params d) zero_param in
  set_value (pd_name desc) (pd_write desc =? 0) (pd_type desc) (nth j vals 0).

(** The device [ix]: the parameters that the network handler's clients want, with their data. *)
Definition device_report (m : shm_t) (ix : nat) : option pb_device :=
  id ← ids m !! ix;
  d ← get_device (id_type id);
  let wanted := List.filter (bit_on (sub_val NET_HANDLER (S ix) (subs m))) (seq 0 (num_params d)) in
  Some (PbDevice (device_name d) (id_type id) (id_uid id) (param_report d (pars m DATA ix) <$> wanted)).

(** The logged values, and the time. *)
Definition custom_report (m : shm_t) (elapsed : Z) : pb_device :=
  let l := log_data m in
  PbDevice "CustomData" (Z.of_nat MAX_DEVICES) 2020
    (((fun i => set_value (Some (nth i (log_names l) EmptyString)) false (nth i (log_types l) INT) (nth i (log_params l) 0))
       <$> seq 0 (Z.to_nat (log_num_params l))) ++
     [PbParam (Some "time_ms"%string) true PARAM__VAL_IVAL (s32 elapsed)]).

Definition snapshot (m : shm_t) (elapsed : Z) : list pb_device :=
  omap (device_report m) (valid_dev_idxs (cat m)) ++ [custom_report m elapsed].

Definition arrays_ok (a : udp_arrays) : Prop :=
  length (udp_subs a) = S MAX_DEVICES /\ length (udp_ids a) = MAX_DEVICES /\ length (param_data a) = MAX_PARAMS /\
  length (custom_names a) = UCHAR_MAX /\ length (custom_types a) = UCHAR_MAX /\ length (custom_params a) = UCHAR_MAX.

(** ** The loops *)

Lemma fill_params_run d sub data k : forall j ps, length (params d) = MAX_PARAMS -> length data = MAX_PARAMS ->
  (j + k <= MAX_PARAMS)%nat ->
  fill_params sizeof_Param k j d sub data ps =
  Done (ps ++ (param_report d data <$> List.filter (bit_on sub) (seq j k))).
Proof.
  induction k as [|k IH]; intros j ps Hp Hd Hk; cbn [fill_params seq List.filter]; [by rewrite app_nil_r|].
  destruct (bit_on sub j); [|apply IH; (done || lia)].
  destruct (alloc_done sizeof_Param) as (b & -> & _). rewrite bind_done.
  destruct (lookup_lt_is_Some_2 (params d) j) as [desc Hdesc]; [lia|].
  destruct (lookup_lt_is_Some_2 data j) as [v Hv]; [lia|].
  rewrite (buf_get_done _ _ _ Hdesc), bind_done, (buf_get_done _ _ _ Hv), bind_done, IH by (done || lia).
  cbn [fmap list_fmap]. unfold param_report at 2. cbv zeta.
  by rewrite (nth_lookup_Some _ _ _ _ Hdesc), (nth_lookup_Some _ _ _ _ Hv), <- app_assoc.
Qed.

(** Only the wanted parameters are looked at. *)
Lemma param_reports_same d sub data data' n : length data = MAX_PARAMS -> length data' = MAX_PARAMS -> (n <= MAX_PARAMS)%nat ->
  (forall i, (i < MAX_PARAMS)%nat -> bit_on sub i = true -> data !! i = data' !! i) ->
  param_report d data <$> List.filter (bit_on sub) (seq 0 n) = param_report d data' <$> List.filter (bit_on sub) (seq 0 n).
Proof.
  intros Hl Hl' Hn Hsame. apply list_fmap_ext. intros k j Hj.
  assert (Hin : In j (List.filter (bit_on sub) (seq 0 n))) by (by eapply list_elem_of_In, list_elem_of_lookup_2).
  apply filter_In in Hin as [[_ Hjn]%in_seq Hon]. unfold param_report. cbv zeta.
  by rewrite !(nth_lookup data), !(nth_lookup data'), Hsame by (done || lia).
Qed.

(** The arrays in the loop over the devices: the information is there. *)
Definition looked (m : shm_t) (a : udp_arrays) : Prop :=
  arrays_ok a /\ udp_ids a = ids m /\
  forall ix, (ix < MAX_DEVICES)%nat -> bit_on (cat m) ix = true -> udp_subs a !! S ix = Some (sub_val NET_HANDLER (S ix) (subs m)).

Definition set_data (data : list param_val_t) (a : udp_arrays) : udp_arrays :=
  UdpArrays (udp_subs a) (udp_ids a) data (custom_names a) (custom_types a) (custom_params a).

Lemma fill_device_run m ix a : mem_wf (M := shm_mem) m -> unique_uids m -> (ix < MAX_DEVICES)%nat ->
  bit_on (cat m) ix = true -> looked m a ->
  exists data, length data = MAX_PARAMS /\
    run (fill_device sizeof_Device sizeof_Param ix a) (Sys m sm) = Done ((device_report m ix, set_data data a), Sys m sm).
Proof.
  intros Hm Hu Hix Hon ((_ & _ & Hd & _) & Hids & Hsubs). pose proof (Hm RDevIds) as Hl. cbn in Hl. fold (ids m) in Hl.
  destruct (lookup_lt_is_Some_2 (ids m) ix) as [id Hid]; [lia|].
  unfold fill_device, device_report. rewrite Hids, (buf_get_done _ _ _ Hid), local_done, Hid. cbn [mbind option_bind].
  destruct (get_device (id_type id)) as [d|] eqn:Hdev.
  2: { exists (param_data a). split; [done|]. by destruct a. }
  set (sub := sub_val NET_HANDLER (S ix) (subs m)). cbn [mbind option_bind].
  destruct (alloc_done sizeof_Device) as (b1 & -> & _). rewrite local_done.
  rewrite (buf_get_done _ _ _ (Hsubs ix Hix Hon)), local_done. fold sub.
  pose proof (pars_wf m DATA ix Hm Hix) as [Hpl _]. pose proof (Hm RCmdMap) as [Hcl _]. cbn in Hcl.
  destruct (copy_params_spec sub (pars m DATA ix) (param_data a) Hpl Hd) as (data & Hc & Hdl & Hdata).
  assert (Hread : run (device_read_uid (id_uid id) NET_HANDLER DATA sub (param_data a)) (Sys m sm) = Done ((0, data), Sys m sm)).
  { unfold device_read_uid.
    rewrite (run_then (M := shm_mem) _ _ _ _ _ (find_run sm m (id_uid id) Hm)), (Hu ix Hix Hon id Hid).
    pose proof (read_helper_run sm Hfree m ix NET_HANDLER DATA sub (param_data a) data Hix Hcl Hc) as Hr.
    rewrite decide_False in Hr by (by intros [? _]). change (taken (M := shm_mem) [] sm) with sm in Hr.
    by rewrite (run_then (M := shm_mem) _ _ _ _ _ Hr). }
  rewrite (run_then (M := shm_mem) _ _ _ _ _ Hread). cbv beta iota.
  destruct (alloc_done (8 * num_params d)) as (b2 & -> & _). rewrite local_done.
  destruct (get_device_wf _ _ Hdev) as (_ & _ & Hnp & Hdp & _).
  rewrite fill_params_run by (done || lia). rewrite local_done, run_ret. cbn [app].
  exists data. split; [done|]. rewrite (param_reports_same d sub data (pars m DATA ix)); [|done|done|done|]; [unfold set_data; by rewrite Hids|].
  intros i Hi Hb. by rewrite Hdata, Hb.
Qed.

Lemma fill_devices_run m idxs : mem_wf (M := shm_mem) m -> unique_uids m ->
  (forall ix, In ix idxs -> (ix < MAX_DEVICES)%nat /\ bit_on (cat m) ix = true) ->
  forall a devices, looked m a ->
  exists data, length data = MAX_PARAMS /\
    run (fill_devices sizeof_Device sizeof_Param idxs a devices) (Sys m sm) =
    Done ((devices ++ omap (device_report m) idxs, set_data data a), Sys m sm).
Proof.
  intros Hm Hu. induction idxs as [|ix idxs IH]; intros Hin a devices Ha; cbn [fill_devices omap list_omap].
  - exists (param_data a). destruct Ha as ((_ & _ & Hd & _) & _). split; [done|]. rewrite app_nil_r. by destruct a.
  - destruct (Hin ix (or_introl eq_refl)) as [Hix Hon].
    destruct (fill_device_run m ix a Hm Hu Hix Hon Ha) as (data & Hd & Hr). rewrite (run_then (M := shm_mem) _ _ _ _ _ Hr).
    assert (Ha' : looked m (set_data data a)).
    { destruct Ha as ((H1 & H2 & H3 & H4 & H5 & H6) & H7 & H8). by repeat split. }
    edestruct (IH (fun i Hi => Hin i (or_intror Hi)) (set_data data a)) as (data' & Hd' & Hr'); [exact Ha'|].
    exists data'. split; [done|]. rewrite Hr'. destruct (device_report m ix); [by rewrite <- app_assoc | done].
Qed.

(** The three arrays after the log data have been read. *)
Lemma log_data_read_run m names types values : mem_wf (M := shm_mem) m ->
  length names = UCHAR_MAX -> length types = UCHAR_MAX -> length values = UCHAR_MAX ->
  let l := log_data m in let n := Z.to_nat (log_num_params l) in
  exists names' types' values',
    run (log_data_read names types values) (Sys m sm) = Done ((log_num_params l, (names', types', values')), Sys m sm) /\
    length names' = UCHAR_MAX /\ length types' = UCHAR_MAX /\ length values' = UCHAR_MAX /\
    forall i, (i < n)%nat -> names' !! i = log_names l !! i /\ types' !! i = log_types l !! i /\ values' !! i = log_params l !! i.
Proof.
  intros Hm Hn Ht Hv l n. destruct (Hm RLog) as (Hr & Hln & _ & Hlp & Hlt). cbn in Hr, Hln, Hlp, Hlt. fold l in Hr, Hln, Hlp, Hlt.
  unfold log_data_read. rewrite (run_wait (M := shm_mem) _ [] m sm LogDataSem); [| exact (Hfree LogDataSem I) | apply not_elem_of_nil].
  destruct (for_range_inv (fun k '(ns, ts, vs) =>
      (length ns = UCHAR_MAX /\ length ts = UCHAR_MAX /\ length vs = UCHAR_MAX) /\
      forall i, (i < k)%nat -> ns !! i = log_names l !! i /\ ts !! i = log_types l !! i /\ vs !! i = log_params l !! i)
    n 0 (fun i '(names, types, values) =>
      n ← buf_get (log_names l) i; names ← buf_set names i n;
      t ← buf_get (log_types l) i; types ← buf_set types i t;
      v ← buf_get (log_params l) i; values ← buf_set values i v;
      mret (names, types, values)) (names, types, values)) as ([[ns ts] vs] & Hrun & (Hl1 & Hl2 & Hl3) & Hall).
  - split; [done|]. intros i Hi. lia.
  - intros i [[ns ts] vs] Hi ((H1 & H2 & H3) & Hpre). unfold UCHAR_MAX in *.
    destruct (lookup_lt_is_Some_2 (log_names l) i) as [x Ha]; [lia|].
    destruct (lookup_lt_is_Some_2 (log_types l) i) as [y Hb]; [lia|].
    destruct (lookup_lt_is_Some_2 (log_params l) i) as [z Hc]; [lia|].
    rewrite (buf_get_done _ _ _ Ha), bind_done, buf_set_done, bind_done by lia.
    rewrite (buf_get_done _ _ _ Hb), bind_done, buf_set_done, bind_done by lia.
    rewrite (buf_get_done _ _ _ Hc), bind_done, buf_set_done, bind_done by lia.
    eexists. split; [reflexivity|]. cbv beta iota. rewrite !length_insert. split; [done|]. intros j Hj.
    destruct (decide (j = i)) as [->|Hne].
    + by rewrite !list_lookup_insert_eq by lia.
    + rewrite !list_lookup_insert_ne by done. apply Hpre. lia.
  - exists ns, ts, vs. split; [|done].
    rewrite (run_get (M := shm_mem) _ RLog _ (log_num_params l, (ns, ts, vs))).
    2: { cbn [load shm_mem shm_load]. fold l n. by rewrite Hrun, bind_done. }
    by erewrite (run_post (M := shm_mem)); [| exact (Hfree LogDataSem I) | held | drop_held].
Qed.

Lemma fill_custom_run n a : arrays_ok a -> (n < UCHAR_MAX)%nat ->
  fill_custom sizeof_Param n a =
  Done ((fun i => set_value (Some (nth i (custom_names a) EmptyString)) false (nth i (custom_types a) INT) (nth i (custom_params a) 0))
    <$> seq 0 (S n)).
Proof.
  intros (_ & _ & _ & Hn & Ht & Hv) Hlt. unfold fill_custom.
  destruct (for_range_inv (fun k ps => ps = (fun i => set_value (Some (nth i (custom_names a) EmptyString)) false
      (nth i (custom_types a) INT) (nth i (custom_params a) 0)) <$> seq 0 k) (S n) 0 (fun i ps =>
    _ ← alloc sizeof_Param;
    name ← buf_get (custom_names a) i;
    ty ← buf_get (custom_types a) i;
    v ← buf_get (custom_params a) i;
    mret (ps ++ [set_value (Some name) false ty v])) []) as (ps & -> & ->); [done | | done].
  intros i ps Hi ->. destruct (alloc_done sizeof_Param) as (b & -> & _). rewrite bind_done.
  destruct (lookup_lt_is_Some_2 (custom_names a) i) as [x Ha]; [lia|].
  destruct (lookup_lt_is_Some_2 (custom_types a) i) as [y Hb]; [lia|].
  destruct (lookup_lt_is_Some_2 (custom_params a) i) as [z Hc]; [lia|].
  rewrite (buf_get_done _ _ _ Ha), bind_done, (buf_get_done _ _ _ Hb), bind_done, (buf_get_done _ _ _ Hc), bind_done.
  eexists. split; [reflexivity|]. rewrite seq_S, fmap_app. cbn [fmap list_fmap Nat.add].
  by rewrite (nth_lookup_Some _ _ _ _ Ha), (nth_lookup_Some _ _ _ _ Hb), (nth_lookup_Some _ _ _ _ Hc).
Qed.

(** With as many values as the arrays have room for, the one too many is read behind them. *)
Lemma fill_custom_over a : arrays_ok a -> fill_custom sizeof_Param UCHAR_MAX a = Faulty OutOfBounds.
Proof.
  intros Ha. pose proof (fill_custom_run (UCHAR_MAX - 1) a Ha ltac:(unfold UCHAR_MAX; lia)) as Hrun.
  unfold fill_custom in *. rewrite <- (Nat.add_1_r UCHAR_MAX), for_range_app.
  change (S (UCHAR_MAX - 1)) with UCHAR_MAX in Hrun. rewrite Hrun, bind_done. cbn [for_range Nat.add].
  destruct (alloc_done sizeof_Param) as (b & -> & _). rewrite bind_done.
  destruct Ha as (_ & _ & _ & Hn & _). unfold buf_get. by rewrite (lookup_ge_None_2 (custom_names a)) by lia.
Qed.

Lemma valid_idxs_in c ix : In ix (valid_dev_idxs c) -> (ix < MAX_DEVICES)%nat /\ bit_on c ix = true.
Proof. unfold valid_dev_idxs. rewrite filter_In, in_seq. intros [[_ Hix] Hon]. split; [exact Hix | exact Hon]. Qed.

(** An iteration, up to the device of the logged values. *)
Lemma send_device_data_run m elapsed a : mem_wf (M := shm_mem) m -> unique_uids m -> arrays_ok a ->
  field DAWN m ≠ val_index DISCONNECTED ->
  exists a', arrays_ok a' /\
    (forall i, (i < Z.to_nat (log_num_params (log_data m)))%nat -> custom_names a' !! i = log_names (log_data m) !! i /\
       custom_types a' !! i = log_types (log_data m) !! i /\ custom_params a' !! i = log_params (log_data m) !! i) /\
    run (send_device_data sizeof_Device sizeof_Param elapsed a) (Sys m sm) =
    run (custom ← local (custom_device sizeof_Param (Z.to_nat (log_num_params (log_data m))) elapsed a');
         let packed := dev_data__pack (omap (device_report m) (valid_dev_idxs (cat m)) ++ [custom]) in
         _ ← local (alloc (length packed));
         mret (Some packed, a')) (Sys m sm).
Proof.
  intros Hm Hu (H1 & H2 & H3 & H4 & H5 & H6) Hdawn. destruct (Hm RFields) as [Hfl _]. cbn in Hfl. unfold send_device_data.
  rewrite (run_then (M := shm_mem) _ _ _ _ _ (robot_desc_read_run sm Hfree DAWN m Hfl)).
  rewrite (proj2 (Z.eqb_neq _ _)) by done.
  rewrite (run_then (M := shm_mem) _ _ _ _ _ (get_catalog_run sm Hfree m)).
  destruct (get_sub_requests_client_run sm Hfree m (udp_subs a) NET_HANDLER Hm H1) as (sub & Hr & Hsl & Hsub); [done|].
  rewrite (run_then (M := shm_mem) _ _ _ _ _ Hr).
  rewrite (run_then (M := shm_mem) _ _ _ _ _ (get_ids_run sm Hfree m (udp_ids a) Hm H2)). cbv zeta.
  destruct (alloc_done (8 * S (length (valid_dev_idxs (cat m))))) as (b1 & -> & _). rewrite local_done.
  set (a1 := UdpArrays sub (ids m) _ _ _ _). pose proof (Hm RDevIds) as Hil. cbn in Hil. fold (ids m) in Hil.
  assert (Ha1 : looked m a1) by (split; [by repeat split | by split]).
  destruct (fill_devices_run m (valid_dev_idxs (cat m)) Hm Hu (fun ix => valid_idxs_in (cat m) ix) a1 [] Ha1)
    as (data & Hd & Hrun).
  rewrite (run_then (M := shm_mem) _ _ _ _ _ Hrun). cbv beta iota.
  destruct (alloc_done sizeof_Device) as (b2 & -> & _). rewrite local_done.
  destruct (log_data_read_run m (custom_names a) (custom_types a) (custom_params a) Hm H4 H5 H6)
    as (ns & ts & vs & Hlog & L1 & L2 & L3 & Hall).
  cbn [set_data custom_names custom_types custom_params a1 udp_subs udp_ids param_data].
  rewrite (run_then (M := shm_mem) _ _ _ _ _ Hlog). cbv beta iota.
  exists (UdpArrays sub (ids m) data ns ts vs). split; [by repeat split|]. split; [exact Hall|]. done.
Qed.

End Snapshot.

(** C10: what Dawn is sent is what the shared memory holds. While Dawn is connected, an iteration
    of the sending thread changes nothing in the shared memory and sends one message: for every
    connected device of a registered type, in the order of their indices, its name, type and
    identifier with exactly the parameters that the clients of the network handler have
    subscribed to, each with its current value and whether it can be written, and then the
    logged values with the time. With 255 logged values, the most that there can be, the thread
    reads behind the end of its arrays. *)
Theorem device_data_snapshot {H : Heap} {HR : ReliableHeap H} {P : Protos} sizeof_Device sizeof_Param sm m elapsed a :
  all_free sm -> mem_wf (M := shm_mem) m -> unique_uids m -> arrays_ok a -> field DAWN m ≠ val_index DISCONNECTED ->
  (log_num_params (log_data m) < 255 ->
   exists a', run (send_device_data sizeof_Device sizeof_Param elapsed a) (Sys m sm) =
       Done ((Some (dev_data__pack (snapshot m elapsed)), a'), Sys m sm) /\ arrays_ok a') /\
  (log_num_params (log_data m) = 255 ->
   run (send_device_data sizeof_Device sizeof_Param elapsed a) (Sys m sm) = Faulty OutOfBounds).
Proof.
  intros Hf Hm Hu Ha Hd. destruct (send_device_data_run sizeof_Device sizeof_Param sm Hf m elapsed a Hm Hu Ha Hd)
    as (a' & Ha' & Hlog & ->).
  destruct (Hm RLog) as (Hr & _). cbn in Hr. set (n := Z.to_nat (log_num_params (log_data m))) in *.
  unfold custom_device. destruct (alloc_done (8 * S n)) as (b & -> & _). rewrite bind_done. split; intros Hn.
  - rewrite fill_custom_run, bind_done by (done || unfold UCHAR_MAX, n; lia).
    destruct (alloc_done sizeof_Param) as (b2 & -> & _). rewrite bind_done, local_done. cbv zeta.
    match goal with |- context [alloc (length ?bs)] => destruct (alloc_done (length bs)) as (b3 & -> & _) end.
    rewrite local_done, run_ret. exists a'. split; [|done].
    assert (Hc : PbDevice "CustomData" (Z.of_nat MAX_DEVICES) 2020
        (<[n := PbParam (Some "time_ms"%string) true PARAM__VAL_IVAL (s32 elapsed)]>
          ((fun i => set_value (Some (nth i (custom_names a') EmptyString)) false (nth i (custom_types a') INT)
              (nth i (custom_params a') 0)) <$> seq 0 (S n))) = custom_report m elapsed).
    { unfold custom_report. fold n. rewrite seq_S, fmap_app. cbn [Nat.add].
      rewrite insert_app_r_alt by (by rewrite length_fmap, length_seq). rewrite length_fmap, length_seq, Nat.sub_diag.
      cbn [fmap list_fmap insert list_insert]. do 2 f_equal. apply list_fmap_ext. intros k i Hi.
      apply lookup_seq in Hi as [-> Hk]. cbn [Nat.add]. destruct (Hlog k Hk) as (E1 & E2 & E3).
      by rewrite !(nth_lookup (custom_names a')), !(nth_lookup (custom_types a')), !(nth_lookup (custom_params a')), E1, E2, E3,
        !nth_lookup. }
    rewrite Hc. unfold snapshot. reflexivity.
  - replace n with UCHAR_MAX by (unfold n; by rewrite Hn). by rewrite fill_custom_over.
Qed.

(** [demo] with Dawn connected. *)
Definition with_dawn : shm_t := set_field DAWN (val_index CONNECTED) demo.
Definition udp_start : udp_arrays :=
  UdpArrays (replicate 33 0) (replicate 32 (DevId 0 0 0)) (replicate 32 0) (replicate 255 EmptyString) (replicate 255 INT) (replicate 255 0).

Lemma with_dawn_wf : mem_wf (M := shm_mem) with_dawn.
Proof.
  apply (store_wf (M := shm_mem) RFields); [exact demo_wf|]. destruct (demo_wf RFields) as [Hl Hb].
  split; [by rewrite length_insert|]. apply Forall_insert; [done | unfold byte_ok; cbn; lia].
Qed.

Lemma device_data_snapshot_witness :
  (log_num_params (log_data with_dawn) < 255 ->
   exists a', run (@send_device_data zero_heap demo_protos 64 40 5 udp_start) (Sys with_dawn sems_start) =
       Done ((Some (dev_data__pack (Protos := demo_protos) (snapshot (P := demo_protos) with_dawn 5)), a'), Sys with_dawn sems_start) /\
     arrays_ok a') /\
  (log_num_params (log_data with_dawn) = 255 ->
   run (@send_device_data zero_heap demo_protos 64 40 5 udp_start) (Sys with_dawn sems_start) = Faulty OutOfBounds).
Proof.
  apply (device_data_snapshot (H := zero_heap) (P := demo_protos) 64 40 sems_start with_dawn 5 udp_start).
  - exact sems_start_ok.
  - exact with_dawn_wf.
  - exact demo_unique.
  - repeat split; reflexivity.
  - discriminate.
Defined.

(** ** The inputs *)

Section Inputs.
Context {P : Protos} (sm : gmap shm_sem nat) (Hfree : all_free sm).

Definition source_of (input : pb_input) : robot_desc_field_t :=
  if in_source input =? SOURCE__GAMEPAD then GAMEPAD else KEYBOARD.

(** The buttons and axes of the input are stored. *)
Definition usable (input : pb_input) : bool :=
  in_connected input && negb (bool_decide (source_of input = GAMEPAD) && negb (length (in_axes input) =? 4)%nat).

Definition stored_input (source : robot_desc_field_t) (b : Z) (axes : list Z) (m : shm_t) : shm_t :=
  let old := nth (input_index source) (inputs m) (Input 0 [] GAMEPAD) in
  shm_store RInputs (<[input_index source :=
    Input b (if decide (source = GAMEPAD) then axes else joysticks old) (input_source old)]> (inputs m)) m.

Definition apply_input (m : shm_t) (input : pb_input) : shm_t :=
  let m := set_field (source_of input) (val_index (if in_connected input then CONNECTED else DISCONNECTED)) m in
  if usable input then stored_input (source_of input) (in_buttons input) (in_axes input) m else m.

Lemma source_is_input input : is_input (source_of input) = true /\ (input_index (source_of input) < 2)%nat.
Proof. unfold source_of. destruct (_ =? _); split; (reflexivity || (unfold input_index; case_decide; lia)). Qed.

Lemma input_write_run b axes source m : mem_wf (M := shm_mem) m -> is_input source = true -> (input_index source < 2)%nat ->
  (source = GAMEPAD -> length axes = 4%nat) -> field source m ≠ val_index DISCONNECTED ->
  run (input_write b axes source) (Sys m sm) = Done (0, Sys (stored_input source b axes m) sm).
Proof.
  intros Hm Hs Hix Hax Hf. destruct (Hm RFields) as [Hfl _]. destruct (Hm RInputs) as [Hil Hjs]. cbn in Hfl, Hil, Hjs.
  unfold input_write. rewrite Hs. cbn [negb].
  rewrite (run_wait (M := shm_mem) _ [] m sm RdSem); [| exact (Hfree RdSem I) | apply not_elem_of_nil].
  destruct (fields_lookup (fields m) source Hfl) as [v Hv].
  assert (Hfv : field source m = v) by (unfold field; by rewrite nth_lookup, Hv). rewrite Hfv in Hf.
  rewrite (run_get (M := shm_mem) _ RFields _ true).
  2: { cbn [load shm_mem shm_load]. rewrite (buf_get_done _ _ _ Hv), bind_done.
       by rewrite (proj2 (Z.eqb_neq _ _)) by done. }
  cbn [negb]. erewrite (run_post (M := shm_mem)); [| exact (Hfree RdSem I) | held | drop_held].
  change (taken (M := shm_mem) [] sm) with sm.
  rewrite (run_wait (M := shm_mem) _ [] m sm InputSem); [| exact (Hfree InputSem I) | apply not_elem_of_nil].
  destruct (lookup_lt_is_Some_2 (inputs m) (input_index source)) as [inp Hi]; [lia|].
  rewrite (run_upd (M := shm_mem) _ RInputs _ (<[input_index source :=
    Input b (if decide (source = GAMEPAD) then axes else joysticks inp) (input_source inp)]> (inputs m))).
  2: { cbn [load shm_mem shm_load]. rewrite (buf_get_done _ _ _ Hi), bind_done.
       pose proof (Forall_lookup_1 _ _ _ _ Hjs Hi) as H4. cbn in H4.
       assert (Hc : (if decide (source = GAMEPAD) then copy_joysticks axes (joysticks inp) else mret (joysticks inp)) =
         Done (if decide (source = GAMEPAD) then axes else joysticks inp))
         by (case_decide; [unfold copy_joysticks; apply copy_all_done; auto | done]).
       rewrite Hc, bind_done. apply buf_set_done. by apply lookup_lt_Some in Hi. }
  erewrite (run_post (M := shm_mem)); [| exact (Hfree InputSem I) | held | drop_held].
  unfold stored_input. by rewrite (nth_lookup_Some _ _ _ _ Hi).
Qed.

Lemma set_field_wf f v m : mem_wf (M := shm_mem) m -> byte_ok v -> mem_wf (M := shm_mem) (set_field f v m).
Proof.
  intros Hm Hv. apply (store_wf (M := shm_mem) RFields); [done|]. destruct (Hm RFields) as [Hl Hb].
  split; [by rewrite length_insert | by apply Forall_insert].
Qed.

Lemma stored_input_wf source b axes m : mem_wf (M := shm_mem) m -> (source = GAMEPAD -> length axes = 4%nat) ->
  (input_index source < 2)%nat -> mem_wf (M := shm_mem) (stored_input source b axes m).
Proof.
  intros Hm Ha Hix. apply (store_wf (M := shm_mem) RInputs); [done|]. destruct (Hm RInputs) as [Hl Hjs]. cbn in Hl, Hjs.
  split; [by rewrite length_insert|]. apply Forall_insert; [done|]. cbn.
  case_decide; [by apply Ha|]. destruct (lookup_lt_is_Some_2 (inputs m) (input_index source)) as [inp Hi]; [lia|].
  rewrite (nth_lookup_Some _ _ _ _ Hi). exact (Forall_lookup_1 _ _ _ _ Hjs Hi).
Qed.

Lemma usable_axes input : usable input = true -> source_of input = GAMEPAD -> length (in_axes input) = 4%nat.
Proof.
  unfold usable. intros [_ Hn]%andb_prop Hs. rewrite bool_decide_true in Hn by done. cbn [andb] in Hn.
  rewrite negb_involutive in Hn. by apply Nat.eqb_eq in Hn.
Qed.

Lemma apply_input_wf m input : mem_wf (M := shm_mem) m -> mem_wf (M := shm_mem) (apply_input m input).
Proof.
  intros Hm. unfold apply_input. destruct (source_is_input input) as [_ Hix].
  assert (Hw : mem_wf (M := shm_mem) (set_field (source_of input)
    (val_index (if in_connected input then CONNECTED else DISCONNECTED)) m))
    by (apply set_field_wf; [done | destruct (in_connected input); unfold byte_ok; cbn; lia]).
  destruct (usable input) eqn:Hu; [|done]. apply stored_input_wf; [done | by apply usable_axes | done].
Qed.

Lemma input_from_run input m : mem_wf (M := shm_mem) m ->
  run (input_from input) (Sys m sm) = Done (tt, Sys (apply_input m input) sm).
Proof.
  intros Hm. destruct (Hm RFields) as [Hfl _]. cbn in Hfl. unfold input_from, apply_input. cbv zeta. fold (source_of input).
  set (v := if in_connected input then CONNECTED else DISCONNECTED).
  rewrite (run_then (M := shm_mem) _ _ _ _ _ (robot_desc_write_run sm Hfree (source_of input) (val_index v) m Hfl)).
  rewrite val_index_u8. unfold usable. set (m1 := set_field _ _ m).
  assert (Hm1 : mem_wf (M := shm_mem) m1) by (apply set_field_wf; [done | destruct v; unfold byte_ok; cbn; lia]).
  destruct (in_connected input) eqn:Hc; [|done]. cbn [andb]. destruct (_ && _) eqn:Hg; [done|]. cbn [negb].
  destruct (source_is_input input) as [Hs Hix].
  assert (Hw : run (input_write (in_buttons input) (in_axes input) (source_of input)) (Sys m1 sm) =
    Done (0, Sys (stored_input (source_of input) (in_buttons input) (in_axes input) m1) sm)).
  { apply input_write_run; [done | done | done | |].
    - apply usable_axes. unfold usable. by rewrite Hc, Hg.
    - unfold m1. rewrite field_set_eq by (rewrite Hfl; apply field_index_lt). subst v. done. }
  by rewrite (run_then (M := shm_mem) _ _ _ _ _ Hw).
Qed.

Lemma inputs_from_run ins : forall m, mem_wf (M := shm_mem) m ->
  run (inputs_from ins) (Sys m sm) = Done (tt, Sys (foldl apply_input m ins) sm).
Proof.
  induction ins as [|input ins IH]; intros m Hm; cbn [inputs_from foldl]; [done|].
  rewrite (run_then (M := shm_mem) _ _ _ _ _ (input_from_run input m Hm)). by apply IH, apply_input_wf.
Qed.

(** What a client reads of a source. *)
Lemma input_read_run b js source m inp : mem_wf (M := shm_mem) m -> is_input source = true -> length js = 4%nat ->
  inputs m !! input_index source = Some inp ->
  run (input_read b js source) (Sys m sm) =
  Done (if field source m =? val_index DISCONNECTED then (-1, b, js)
        else (0, buttons inp, if decide (source = GAMEPAD) then joysticks inp else js), Sys m sm).
Proof.
  intros Hm Hs Hjl Hi. destruct (Hm RFields) as [Hfl _]. destruct (Hm RInputs) as [_ Hjs]. cbn in Hfl, Hjs.
  unfold input_read. rewrite Hs. cbn [negb].
  rewrite (run_wait (M := shm_mem) _ [] m sm RdSem); [| exact (Hfree RdSem I) | apply not_elem_of_nil].
  destruct (fields_lookup (fields m) source Hfl) as [v Hv].
  assert (Hfv : field source m = v) by (unfold field; by rewrite nth_lookup, Hv). rewrite Hfv.
  rewrite (run_get (M := shm_mem) _ RFields _ (negb (v =? val_index DISCONNECTED)))
    by (cbn [load shm_mem shm_load]; by rewrite (buf_get_done _ _ _ Hv), bind_done).
  rewrite negb_involutive. destruct (v =? val_index DISCONNECTED).
  { by erewrite (run_post (M := shm_mem)); [| exact (Hfree RdSem I) | held | drop_held]. }
  erewrite (run_post (M := shm_mem)); [| exact (Hfree RdSem I) | held | drop_held].
  change (taken (M := shm_mem) [] sm) with sm.
  rewrite (run_wait (M := shm_mem) _ [] m sm InputSem); [| exact (Hfree InputSem I) | apply not_elem_of_nil].
  rewrite (run_get (M := shm_mem) _ RInputs _ (buttons inp, if decide (source = GAMEPAD) then joysticks inp else js)).
  2: { cbn [load shm_mem shm_load]. rewrite (buf_get_done _ _ _ Hi), bind_done.
       pose proof (Forall_lookup_1 _ _ _ _ Hjs Hi) as H4. cbn in H4.
       assert (Hc : (if decide (source = GAMEPAD) then copy_joysticks (joysticks inp) js else mret js) =
         Done (if decide (source = GAMEPAD) then joysticks inp else js))
         by (case_decide; [unfold copy_joysticks; by apply copy_all_done | done]).
       by rewrite Hc, bind_done. }
  cbv beta iota. by erewrite (run_post (M := shm_mem)); [| exact (Hfree InputSem I) | held | drop_held].
Qed.

(** An input leaves the other source as it was. *)
Lemma apply_other m input source : is_input source = true -> source_of input ≠ source ->
  field source (apply_input m input) = field source m /\
  inputs (apply_input m input) !! input_index source = inputs m !! input_index source.
Proof.
  intros Hs Hne. unfold apply_input. set (m1 := set_field _ _ m).
  assert (Hf : field source m1 = field source m) by (apply field_set_ne; congruence).
  destruct (usable input); [|done]. split; [exact Hf|]. cbn -[insert]. apply list_lookup_insert_ne.
  revert Hs Hne. unfold source_of, input_index. by destruct (_ =? _), source.
Qed.

Lemma apply_others source ins : is_input source = true -> Forall (fun input => source_of input ≠ source) ins ->
  forall m, field source (foldl apply_input m ins) = field source m /\
    inputs (foldl apply_input m ins) !! input_index source = inputs m !! input_index source.
Proof.
  intros Hs. induction 1 as [|input ins Hne _ IH]; intros m; cbn [foldl]; [done|].
  destruct (IH (apply_input m input)) as [-> ->]. by apply apply_other.
Qed.

Lemma foldl_apply_wf ins : forall m, mem_wf (M := shm_mem) m -> mem_wf (M := shm_mem) (foldl apply_input m ins).
Proof. induction ins as [|input ins IH]; intros m Hm; cbn; [done | by apply IH, apply_input_wf]. Qed.

End Inputs.

(** What the clients read of a source after a datagram: the last input for it counts. *)
Lemma update_inputs_run {P : Protos} sm m datagram before input after : all_free sm -> mem_wf (M := shm_mem) m ->
  user_inputs__unpack (take UDP_SIZE datagram) = Some (before ++ input :: after) ->
  Forall (fun other => source_of other ≠ source_of input) after ->
  (source_of input = GAMEPAD -> length (in_axes input) = 4%nat) ->
  exists m', mem_wf (M := shm_mem) m' /\ run (update_inputs (Some datagram)) (Sys m sm) = Done (tt, Sys m' sm) /\
    forall b js, length js = 4%nat -> run (input_read b js (source_of input)) (Sys m' sm) =
      Done (if in_connected input
            then (0, in_buttons input, if decide (source_of input = GAMEPAD) then in_axes input else js)
            else (-1, b, js), Sys m' sm).
Proof.
  intros Hf Hm Hun Hafter Haxes. unfold update_inputs. rewrite Hun, (inputs_from_run sm Hf _ m Hm), foldl_app. cbn [foldl].
  set (m1 := foldl apply_input m before).
  assert (Hm1 : mem_wf (M := shm_mem) m1) by (by apply foldl_apply_wf).
  assert (Hm2 : mem_wf (M := shm_mem) (apply_input m1 input)) by (by apply apply_input_wf).
  destruct (source_is_input input) as [Hs Hix].
  destruct (apply_others (source_of input) after Hs Hafter (apply_input m1 input)) as [Hfield Hinp].
  set (m3 := foldl apply_input _ after) in *.
  assert (Hm3 : mem_wf (M := shm_mem) m3) by (by apply foldl_apply_wf). exists m3. do 2 (split; [done|]). intros b js Hjs.
  destruct (Hm1 RInputs) as [Hil _]. destruct (Hm1 RFields) as [Hfl _]. cbn in Hil, Hfl.
  assert (Hnow : field (source_of input) (apply_input m1 input) = val_index (if in_connected input then CONNECTED else DISCONNECTED)).
  { unfold apply_input.
    assert (Hset : field (source_of input) (set_field (source_of input) (val_index (if in_connected input then CONNECTED else DISCONNECTED)) m1) =
      val_index (if in_connected input then CONNECTED else DISCONNECTED))
      by (apply field_set_eq; rewrite Hfl; apply field_index_lt).
    by destruct (usable input). }
  destruct (Hm3 RInputs) as [Hil3 _]. cbn in Hil3.
  destruct (lookup_lt_is_Some_2 (inputs m3) (input_index (source_of input))) as [inp Hi]; [lia|].
  rewrite (input_read_run sm Hf b js (source_of input) m3 inp Hm3 Hs Hjs Hi), Hfield, Hnow.
  destruct (in_connected input) eqn:Hc; [|done]. change (val_index CONNECTED =? val_index DISCONNECTED) with false. cbv iota.
  assert (Hu : usable input = true).
  { unfold usable. rewrite Hc. case_bool_decide as Hg; [|done]. by rewrite Haxes. }
  rewrite Hinp in Hi. unfold apply_input in Hi. rewrite Hu in Hi. unfold stored_input in Hi. cbn -[insert nth] in Hi.
  rewrite list_lookup_insert_eq in Hi by lia. injection Hi as <-. cbn [buttons joysticks]. by case_decide.
Qed.

(** A datagram arrives; then a client reads the source. *)
Definition input_handoff {P : Protos} (datagram : bytes) (b : Z) (js : list Z) (source : robot_desc_field_t)
  : prog (M := shm_mem) (Z * Z * list Z) :=
  update_inputs (Some datagram) ;; input_read b js source.

(** What Dawn's user presses is what the student's code reads. Of the inputs in a datagram
    the last one for a source counts. If it is connected, a client that then reads the source
    gets its buttons, and for the gamepad its four axes; if it is not, the client gets -1 and
    its own values back. *)
Theorem inputs_reach_student {P : Protos} sm m datagram before input after b js :
  all_free sm -> mem_wf (M := shm_mem) m -> length js = 4%nat ->
  user_inputs__unpack (take UDP_SIZE datagram) = Some (before ++ input :: after) ->
  Forall (fun other => source_of other ≠ source_of input) after ->
  (source_of input = GAMEPAD -> length (in_axes input) = 4%nat) ->
  exists m', mem_wf (M := shm_mem) m' /\ run (input_handoff datagram b js (source_of input)) (Sys m sm) =
    Done (if in_connected input
          then (0, in_buttons input, if decide (source_of input = GAMEPAD) then in_axes input else js)
          else (-1, b, js), Sys m' sm).
Proof.
  intros Hf Hm Hjs Hun Hafter Haxes.
  destruct (update_inputs_run sm m datagram before input after Hf Hm Hun Hafter Haxes) as (m' & Hm' & Hrun & Hread).
  exists m'. split; [done|]. unfold input_handoff. by rewrite (run_then (M := shm_mem) _ _ _ _ _ Hrun), Hread.
Qed.

Lemma inputs_reach_student_witness :
  exists m', mem_wf (M := shm_mem) m' /\
    run (@input_handoff demo_protos [0; 1; 9; 10; 20; 30; 40] 0 [0; 0; 0; 0] GAMEPAD) (Sys demo sems_start) =
    Done ((0, 9, [10; 20; 30; 40]), Sys m' sems_start).
Proof.
  apply (inputs_reach_student (P := demo_protos) sems_start demo [0; 1; 9; 10; 20; 30; 40] []
    (PbInput 0 true 9 [10; 20; 30; 40]) [] 0 [0; 0; 0; 0]); try reflexivity.
  - exact sems_start_ok.
  - exact demo_wf.
  - apply Forall_nil_2.
Defined.
