(* ===== verification/Executor.v ===== *)
(** * The executor (src/executor/executor.c).

    The parent process follows the run mode in the shared memory and keeps at most one child,
    which runs the student's code. Both are programs over the shared memory; the processes of
    the system and the Python interpreter are their environment: what [fork] and the calls of
    the student's functions do is given as data. Lines for the log are left out. *)

From Stdlib Require Import Ascii.
From stdpp Require Import strings.
From S2P Require Export NetUtil Protos ShmLocks.

(** ** Modes *)

(** NULL for the others; the code logs them. *)
Definition get_mode_str (mode : Z) : option string :=
  if mode =? val_index AUTO then Some "autonomous"%string
  else if mode =? val_index TELEOP then Some "teleop"%string
  else if mode =? val_index IDLE then Some "idle"%string
  else None.

(** In nanoseconds. *)
Definition setup_time : Z := 2 * 10 ^ 9.
Definition main_interval : Z := 10 ^ 9 / 10.
Definition min_time : Z := 10 ^ 9 / 10000.

(** ** Resetting the devices *)

(** The loop over the parameters of a KoalaBear, [k] iterations from [j] on. *)
Fixpoint velocity_mask (ps : list param_desc_t) (k j : nat) (params_to_reset : Z) : outcome Z :=
  match k with
  | O => mret params_to_reset
  | S k' =>
      p ← buf_get ps j;
      match pd_name p with
      | None => Faulty NullDeref
      | Some name =>
          velocity_mask ps k' (S j)
            (if String.eqb name "velocity_a" then bit_set params_to_reset j
             else if String.eqb name "velocity_b" then bit_set params_to_reset j
             else params_to_reset)
      end
  end.

Definition reset_device (id : dev_id_t) : prog (M := shm_mem) unit :=
  match get_device (id_type id) with
  | None => mret tt
  | Some device =>
      if String.eqb (device_name device) "KoalaBear" then
        params_to_reset ← local (velocity_mask (params device) (num_params device) 0 0);
        _ ← device_write_uid (id_uid id) EXECUTOR COMMAND params_to_reset (replicate MAX_PARAMS 0);
        mret tt
      else mret tt
  end.

(** The loop over the devices, [k] iterations from [i] on. *)
Fixpoint reset_devices (k i : nat) (catalog : Z) (dev_ids : list dev_id_t) : prog (M := shm_mem) unit :=
  match k with
  | O => mret tt
  | S k' =>
      (if bit_on catalog i then id ← local (buf_get dev_ids i); reset_device id else mret tt) ;;
      reset_devices k' (S i) catalog dev_ids
  end.

(** [dev_ids] is what the stack holds. *)
Definition reset_params (dev_ids : list dev_id_t) : prog (M := shm_mem) unit :=
  catalog ← get_catalog;
  dev_ids ← get_device_identifiers dev_ids;
  reset_devices MAX_DEVICES 0 catalog dev_ids.

(** ** The parent *)

(** [procs] are the children that have not been waited for; [forks] is what [fork] will
    return. *)
Record executor_t : Type := Executor { mode : Z; pid : Z; procs : list Z; forks : list Z }.

(** [kill] and [waitpid]: the child is told to end, and has ended when [waitpid] returns; a
    process that is no child is neither killed nor waited for. *)
Definition kill_and_wait (p : Z) (procs : list Z) : list Z := filter (fun q => q ≠ p) procs.

Definition kill_subprocess (dev_ids : list dev_id_t) (e : executor_t) : prog (M := shm_mem) executor_t :=
  let procs := kill_and_wait (pid e) (procs e) in
  (if negb (mode e =? val_index CHALLENGE) then reset_params dev_ids else mret tt) ;;
  mret (Executor (val_index IDLE) (pid e) procs (forks e)).

(** The parent's side of [start_mode_subprocess]: the result of [fork]; without a result left
    the system has run out of processes. *)
Definition start_mode_subprocess (e : executor_t) : Z * executor_t :=
  match forks e with
  | [] => (-1, e)
  | r :: forks =>
      if r <? 0 then (-1, Executor (mode e) (pid e) (procs e) forks)
      else (r, Executor (mode e) (pid e) (r :: procs e) forks)
  end.

(** The start of a new mode in [main]. *)
Definition start_mode (new_mode : Z) (e : executor_t) : executor_t :=
  let '(r, e) := start_mode_subprocess (Executor new_mode (pid e) (procs e) (forks e)) in
  Executor (if r =? -1 then val_index IDLE else mode e) r (procs e) (forks e).

(** The body of the loop of [main]. *)
Definition main_step (dev_ids : list dev_id_t) (e : executor_t) : prog (M := shm_mem) executor_t :=
  new_mode ← robot_desc_read RUN_MODE;
  if negb (new_mode =? mode e) then
    e ← (if negb (mode e =? val_index IDLE) then kill_subprocess dev_ids e else mret e);
    mret (if negb (new_mode =? val_index IDLE) then start_mode new_mode e else e)
  else mret e.

(** The loop, for as many iterations as there are arrays on the stack. *)
Fixpoint main_loop (stacks : list (list dev_id_t)) (e : executor_t) : prog (M := shm_mem) executor_t :=
  match stacks with
  | [] => mret e
  | dev_ids :: stacks => e ← main_step dev_ids e; main_loop stacks e
  end.

Definition executor_start (forks : list Z) : executor_t := Executor (val_index IDLE) 0 [] forks.

(** The handler of SIGINT. *)
Definition exit_handler (dev_ids : list dev_id_t) (e : executor_t) : prog (M := shm_mem) executor_t :=
  _ ← (if negb (mode e =? val_index IDLE) then kill_subprocess dev_ids e else mret e);
  Exit 0.

(** ** The Python interpreter *)

(** [PyObject_Str] of NULL is a string too; [PyUnicode_AsUTF8AndSize] gives the characters and
    the size it stores; [stale s] is what the memory of the string [s] holds when nothing
    refers to its object any more. *)
Class Python : Type := {
  PyObject : Set;
  PyObject_Str : option PyObject -> option PyObject;
  PyUnicode_AsUTF8AndSize : PyObject -> option (string * nat);
  Py_BuildValue : Z -> option PyObject;
  stale : string -> string
}.

(** The call of a function: the nanoseconds it took, what it returned, and what the check of
    the robot's [error_event] found. *)
Inductive call_result `{Python} : Set := Returned (v : PyObject) | RaisedTimeout | Raised.
Inductive event_result : Set := EventSet (b : bool) | NoEvent | IsSetTimeout | IsSetFails.
Record call_t `{Python} : Set := Call { took : Z; result : call_result; error_event : event_result }.

Section Python.
Context {Py : Python}.

(** How the loop of [run_py_function] ends: with a result for its caller, by [exit], or not as
    far as the calls go. A beat is an iteration: whether it was warned of, and the argument of
    [usleep]. *)
Inductive py_end : Set := Ends (ret : Z) (py_ret : option PyObject) | Exits (status : Z) | StillRunning.
Record beat : Set := Beat { warned : bool; slept : option Z }.

Definition pause (took : Z) : option Z := if took <? min_time then Some ((min_time - took) / 1000) else None.

Fixpoint run_calls (loop : bool) (timeout : option Z) (run_mode : Z) (calls : list call_t) : py_end * list beat :=
  match calls with
  | [] => (StillRunning, [])
  | c :: calls =>
      let b := Beat (match timeout with Some max_time => max_time <? took c | None => false end) (pause (took c)) in
      let continue (v : PyObject) :=
        if loop then let '(e, bs) := run_calls loop timeout run_mode calls in (e, b :: bs)
        else (Ends 0 (Some v), [b]) in
      match result c with
      | Raised => (Ends 2 None, [b])
      | RaisedTimeout => (Ends 3 None, [b])
      | Returned v =>
          if negb (run_mode =? val_index CHALLENGE) then
            match error_event c with
            | NoEvent => (Exits 2, [b])
            | IsSetFails => (Exits 2, [b])
            | IsSetTimeout => (Ends 3 (Some v), [b])
            | EventSet true => (Ends 1 (Some v), [b])
            | EventSet false => continue v
            end
          else continue v
      end
  end.

(** [function] is the callable found under the name, as the calls that will be made. *)
Definition run_py_function (function : option (list call_t)) (timeout : option Z) (loop : bool) (run_mode : Z)
  : py_end * list beat :=
  match function with
  | Some calls => run_calls loop timeout run_mode calls
  | None => (Ends 4 None, [])
  end.

(** [sprintf] of a name into an array of 20 characters; NULL is printed as glibc does. *)
Definition function_name (mode_str : option string) (suffix : string) : outcome string :=
  let s := (default "(null)" mode_str +:+ suffix)%string in
  if (String.length s <? 20)%nat then mret s else Faulty OutOfBounds.

(** What the setup function ended with, and the main function when it was run. *)
Definition run_mode (functions : string -> option (list call_t)) (mode : Z)
  : outcome ((py_end * list beat) * option (py_end * list beat)) :=
  setup_str ← function_name (get_mode_str mode) "_setup";
  main_str ← function_name (get_mode_str mode) "_main";
  let setup := run_py_function (functions setup_str) (Some setup_time) false mode in
  match fst setup with
  | Ends 0 _ => mret (setup, Some (run_py_function (functions main_str) (Some main_interval) true mode))
  | _ => mret (setup, None)
  end.

(** ** The start of a child *)

(** What the calls of the Python API give in [executor_init]: whether each result is not NULL,
    and the results of the three insertions. *)
Record api_t : Set := Api {
  api : bool; code : bool;
  robot_class : bool; robot : bool; gamepad_class : bool; gamepad : bool; keyboard_class : bool; keyboard : bool;
  set_robot : Z; set_gamepad : Z; set_keyboard : Z;
  subs : bool
}.

Definition need (b : bool) : outcome unit := if b then mret tt else Exited 1.

Definition executor_init (mode : Z) (a : api_t) : outcome unit :=
  need (api a) ;;
  need (code a) ;;
  if mode =? val_index CHALLENGE then mret tt
  else
    need (robot_class a) ;; need (robot a) ;;
    need (gamepad_class a) ;; need (gamepad a) ;;
    need (keyboard_class a) ;; need (keyboard a) ;;
    need (Z.lor (Z.lor (set_robot a) (set_gamepad a)) (set_keyboard a) =? 0) ;;
    need (subs a).

(** ** The challenges *)

(** [strtol(s, NULL, 10)]: white space, a sign and digits, as far as they go, in 64 bits. *)
Definition is_digit (c : ascii) : bool := ((48 <=? nat_of_ascii c) && (nat_of_ascii c <=? 57))%nat.
Definition is_space (c : ascii) : bool :=
  ((nat_of_ascii c =? 32) || ((9 <=? nat_of_ascii c) && (nat_of_ascii c <=? 13)))%nat.

Fixpoint digits (s : string) (n : Z) : Z :=
  match s with
  | String c s => if is_digit c then digits s (10 * n + (Z.of_nat (nat_of_ascii c) - 48)) else n
  | EmptyString => n
  end.

Fixpoint skip_spaces (s : string) : string :=
  match s with
  | String c s' => if is_space c then skip_spaces s' else s
  | EmptyString => s
  end.

Definition strtol (s : string) : Z :=
  let '(neg, s) := match skip_spaces s with
    | String "-" s => (true, s)
    | String "+" s => (false, s)
    | s => (false, s)
    end in
  let n := digits s 0 in
  Z.max (- 2 ^ 63) (Z.min (if neg : bool then - n else n) (2 ^ 63 - 1)).

(** The list in the student's module: there may be none, or something that is no list. *)
Inductive challenges_t : Set := NoChallenges | NotAList | Challenges (names : list PyObject).

Section Challenges.
Context {H : Heap} {P : Protos}.

(** What the function of this name does with an argument as challenge number [i]. *)
Context (functions : nat -> string -> PyObject -> option (list call_t)).

(** The message of one challenge; [None] when it was timed out. The number that the loop has
    reached tells the calls apart. *)
Definition run_challenge (i : nat) (name : option PyObject) (input : string) : outcome (option string) :=
  match name with
  | None => mret (Some "Fatal error"%string)
  | Some pyName =>
      match PyUnicode_AsUTF8AndSize pyName with
      | None => mret (Some "Fatal error"%string)
      | Some (func_name, _) =>
          match Py_BuildValue (strtol input) with
          | None => mret (Some "Fatal error"%string)
          | Some arg =>
              match fst (run_py_function (functions i func_name arg) None false (val_index CHALLENGE)) with
              | StillRunning => Blocked
              | Exits status => Exited status
              | Ends code ret =>
                  if code =? 3 then mret None
                  else
                    match PyObject_Str ret with
                    | None => mret (Some "Fatal error"%string)
                    | Some ret_string =>
                        match PyUnicode_AsUTF8AndSize ret_string with
                        | None => Faulty NullDeref
                        | Some (c_ret, ret_len) =>
                            _ ← alloc (ret_len + 1);
                            if (String.length (stale c_ret) <=? ret_len)%nat then mret (Some (stale c_ret))
                            else Faulty OutOfBounds
                        end
                    end
              end
          end
      end
  end.

(** The loop, [k] challenges from [i] on. A challenge that is timed out ends it: its own output
    is set once for each of the rest. *)
Fixpoint challenge_loop (k i : nat) (names : list PyObject) (inputs : list string) (outputs : list (option string))
  : outcome (list (option string)) :=
  match k with
  | O => mret outputs
  | S k' =>
      input ← buf_get inputs i;
      out ← run_challenge i (names !! i) input;
      match out with
      | None => for_range k i (fun _ outputs => buf_set outputs i (Some "Timed out"%string)) outputs
      | Some text =>
          outputs ← buf_set outputs i (Some text);
          challenge_loop k' (S i) names inputs outputs
      end
  end.

(** Packing follows every pointer of the array. *)
Fixpoint follow (outputs : list (option string)) : outcome (list string) :=
  match outputs with
  | [] => mret []
  | None :: _ => Faulty WildPtr
  | Some s :: outputs => rest ← follow outputs; mret (s :: rest)
  end.

(** The datagram that is sent, if one is; [received] is what [recvfrom] finds, nothing when it
    fails. The numbers of challenges and of packed bytes are a [uint8_t] and a [uint16_t]. *)
Definition run_challenges (list_ : challenges_t) (received : option bytes) : outcome (option bytes) :=
  match list_ with
  | NoChallenges => mret None
  | NotAList => mret None
  | Challenges names =>
      let num_challenges := Z.to_nat (u8 (Z.of_nat (length names))) in
      match take 256 <$> received with
      | None => mret None
      | Some [] => mret None
      | Some read_buf =>
          match text__unpack read_buf with
          | None => mret None
          | Some inputs =>
              if negb (num_challenges =? length inputs)%nat then mret None
              else
                _ ← alloc (8 * num_challenges);
                outputs ← challenge_loop num_challenges 0 names inputs (replicate num_challenges None);
                payload ← follow outputs;
                let packed := text__pack payload in
                let len_pb := u16 (Z.of_nat (length packed)) in
                send_buf ← make_buf (net_msg_num CHALLENGE_DATA_MSG) len_pb;
                send_buf ← buf_write send_buf BUFFER_OFFSET packed;
                d ← buf_read send_buf 0 (Z.to_nat (u16 (len_pb + Z.of_nat BUFFER_OFFSET)));
                mret (Some d)
          end
      end
  end.

(** The most seconds for all challenges, and the handler of SIGALRM. *)
Definition CHALLENGE_TIME : Z := 5.
Definition python_exit_handler {A} : outcome A := Exited 0.

(** What is done between [alarm(CHALLENGE_TIME)] and [alarm(0)], and would take so many seconds if
    it were left alone; what waits or runs for ever takes more than any number. *)
Definition under_alarm {A} (seconds : Z) (o : outcome A) : outcome A :=
  match o with
  | Blocked => python_exit_handler
  | _ => if CHALLENGE_TIME <=? seconds then python_exit_handler else o
  end.

(** The child for a challenge: it makes the parent stop it by writing the run mode; what it has
    sent is its result. The alarm ends it while it waits for the inputs or runs a challenge.
    (When [run_challenges] returns early it is not switched off; the write of the run mode is
    taken to end before it goes off.) *)
Definition challenge_child (a : api_t) (list_ : challenges_t) (received : option bytes) (seconds : Z)
  : prog (M := shm_mem) (option bytes) :=
  local (executor_init (val_index CHALLENGE) a) ;;
  sent ← local (under_alarm seconds (run_challenges list_ received));
  robot_desc_write RUN_MODE (val_index IDLE) ;;
  mret sent.

End Challenges.

End Python.
