(* ===== verification/GameState.v ===== *)
(** * The game states (src/executor/gamestate_filter.c).

    Every write of a student to a device passes a filter, which changes the velocities of a
    KoalaBear according to the game states. A thread of the executor's child follows the game
    states in the shared memory and ends two of them after ten seconds. *)

From S2P Require Export Shm F32.

(** ** The state of the filter *)

(** In milliseconds. *)
Definition DEBUFF_DURATION : Z := 10000.
Definition SLOW_SCALAR : Z := F_0_2.
Definition KOALABEAR : Z := 6.
Definition IDX_VELOCITY_A : nat := 0.
Definition IDX_VELOCITY_B : nat := 8.

Record gamestate_t : Set := GameState { hypothermia : bool; poison_ivy : bool; dehydration : bool }.

(** ** The thread *)

(** With the times at which poison ivy and dehydration have started, 0 if they have not. *)
Record handler_t : Set := Handler { gamestate : gamestate_t; poison_ivy_start : Z; dehydration_start : Z }.

(** One of the two states that end by themselves: whether it is on, and since when. *)
Definition debuff (field : robot_desc_field_t) (curr_time : Z) (on : bool) (start : Z)
  : prog (M := shm_mem) (bool * Z) :=
  started ← (if negb on then v ← robot_desc_read field; mret (v =? val_index ACTIVE) else mret false);
  if (started : bool) then mret (true, curr_time)
  else if on && (DEBUFF_DURATION <? u64 (curr_time - start)) then
    robot_desc_write field (val_index INACTIVE) ;; mret (false, 0)
  else mret (on, start).

(** The body of the loop of the thread, at the time given. *)
Definition gamestate_handler (curr_time : Z) (h : handler_t) : prog (M := shm_mem) handler_t :=
  v ← robot_desc_read HYPOTHERMIA;
  let hypothermia := v =? val_index ACTIVE in
  '(poison_ivy, poison_start) ← debuff POISON_IVY curr_time (poison_ivy (gamestate h)) (poison_ivy_start h);
  '(dehydration, dehydration_start) ← debuff DEHYDRATION curr_time (dehydration (gamestate h)) (dehydration_start h);
  mret (Handler (GameState hypothermia poison_ivy dehydration) poison_start dehydration_start).

Fixpoint gamestate_loop (times : list Z) (h : handler_t) : prog (M := shm_mem) handler_t :=
  match times with
  | [] => mret h
  | curr_time :: times => h ← gamestate_handler curr_time h; gamestate_loop times h
  end.

(** ** The filter *)

Definition scale_velocity (params : list param_val_t) (scalar : Z) : outcome (list param_val_t) :=
  a ← buf_get params IDX_VELOCITY_A;
  params ← buf_set params IDX_VELOCITY_A (f32_mul a scalar);
  b ← buf_get params IDX_VELOCITY_B;
  buf_set params IDX_VELOCITY_B (f32_mul b scalar).

Definition bound (v : Z) : Z :=
  if f32_lt F_1 v then F_1 else if f32_lt v F_minus_1 then F_minus_1 else v.

Definition bound_velocity (params : list param_val_t) : outcome (list param_val_t) :=
  a ← buf_get params IDX_VELOCITY_A;
  params ← buf_set params IDX_VELOCITY_A (bound a);
  b ← buf_get params IDX_VELOCITY_B;
  buf_set params IDX_VELOCITY_B (bound b).

Definition scale_if (b : bool) (scalar : Z) (params : list param_val_t) : outcome (list param_val_t) :=
  if b then scale_velocity params scalar else mret params.

(** The game states at the time of the call; the result, and the caller's array, which the
    filter changes. *)
Definition filter_device_write_uid (g : gamestate_t) (dev_type dev_uid : Z) (process : process_t) (stream : stream_t)
  (params_to_write : Z) (params : list param_val_t) : prog (M := shm_mem) (Z * list param_val_t) :=
  params ← (if dev_type =? KOALABEAR then local (
      params ← bound_velocity params;
      params ← scale_if (hypothermia g) SLOW_SCALAR params;
      params ← scale_if (poison_ivy g) F_minus_1 params;
      scale_if (dehydration g) F_0 params)
    else mret params);
  ret ← device_write_uid dev_uid process stream params_to_write params;
  mret (ret, params).
