(* ===== verification/DevHandler.v ===== *)
(** * The device handler (src/dev_handler/dev_handler.c).

    For every device three threads share a [relay_t]: the relayer verifies the device, adds it
    to the shared memory and watches it, the sender turns what the shared memory holds for the
    device into messages, the receiver stores what the device reports. A device is what its
    descriptor answers: the chunks that reads will find, the answers to writes, and what has
    been written so far. The bitmaps of the ports in use are a second memory, shared by the
    handler's own threads under [used_ports_lock]. Opening a descriptor and asking whether a
    file exists are the environment. *)

From stdpp Require Import gmap strings pretty.
From S2P Require Export Message FdIO Logger ShmLocks ConcSum.

(** ** Constants *)

Definition TIMEOUT : Z := 1000.
Definition PING_FREQ : Z := 250.
Definition SUB_INTERVAL : Z := 1.

(** [(uint64_t) -1], the identifier of a device that has not been verified. *)
Definition NO_UID : Z := 2 ^ 64 - 1.

(** ** State *)

(** The mutex and the thread handles have no state here; the descriptor is only compared with
    -1. *)
Record relay_t : Set := Relay {
  is_virtual : bool;
  port_num : nat;
  file_descriptor : Z;
  shm_dev_idx : Z;
  dev_id : dev_id_t;
  last_received_msg_time : Z
}.

Record dev_io : Set := DevIO {
  io_in : list chunk;          (* what reads will find *)
  io_ws : list write_res;      (* what writes will answer *)
  io_out : bytes               (* what the device has been sent *)
}.

Definition with_in (cs : list chunk) (io : dev_io) : dev_io := DevIO cs (io_ws io) (io_out io).

(** [w & (1 << ix)] for an index that may be -1. *)
Definition flag_on (w ix : Z) : outcome bool :=
  b ← int_shl1 ix; mret (negb (Z.land w (u32 b) =? 0)).

(** The bytes that a [%s] conversion reads, up to the first zero. *)
Definition c_string (b : bytes) : outcome bytes :=
  match list_find (fun x => x = 0) b with
  | Some (i, _) => mret (take i b)
  | None => Faulty OutOfBounds
  end.

(** [n] words of four bytes. *)
Definition words_of (n : nat) (b : bytes) : list Z :=
  (fun i => le_word (take 4 (drop (4 * i) b))) <$> seq 0 n.

Definition alloc_params {H : Heap} : outcome (list param_val_t) :=
  b ← alloc (MAX_PARAMS * 4); mret (words_of MAX_PARAMS b).

Section DevHandler.
Context {H : Heap} (logger : logger_t).

(** A call of the logger whose format and arguments do not match. *)
Definition log_mismatch (level : log_level_t) : outcome unit :=
  if log_skips logger level then mret tt else Faulty BadFormat.

(** ** Sending and receiving messages *)

(** The message is a pointer. The warning prints the name of the device with [%d]. *)
Definition send_message (msg : option message_t) (io : dev_io) : outcome (Z * dev_io) :=
  match msg with
  | None => Faulty NullDeref
  | Some msg =>
      let len := calc_max_cobs_msg_length msg in
      data ← alloc len;
      '(len, data) ← message_to_bytes msg data len;
      '(transferred, out, ws) ← writen len data (io_ws io) (io_out io);
      (if transferred =? len then mret tt else log_mismatch WARN) ;;
      mret (if transferred =? len then 0 else -1, DevIO (io_in io) ws out)
  end.

(** One [read] of the first byte of a device that is not verified; [Some] is what
    [receive_message] returns, [None] that a delimiter was read. *)
Definition first_byte (cs : list chunk) : outcome (option Z * list chunk) :=
  match sys_read 1 cs with
  | None => Blocked
  | Some (num_bytes_read, bs, _, cs) =>
      last ← kernel_store [0] 0 bs;
      last_byte_read ← buf_get last 0;
      mret (if num_bytes_read =? -1 then Some 3
            else if num_bytes_read =? 0 then Some 3
            else if negb (last_byte_read =? 0) then Some 1
            else None, cs)
  end.

(** The loop that looks for a delimiter. *)
Fixpoint find_delimiter (fuel : nat) (last : bytes) (cs : list chunk) : outcome (option Z * list chunk) :=
  match fuel with
  | O => OutOfFuel
  | S fuel' =>
      '(num_bytes_read, last, cs) ← readn 1 last cs;
      if num_bytes_read =? 0 then mret (Some 1, cs)
      else if num_bytes_read =? -1 then mret (Some 1, cs)
      else
        last_byte_read ← buf_get last 0;
        if last_byte_read =? 0 then mret (None, cs) else find_delimiter fuel' last cs
  end.

(** Every iteration takes a byte or a chunk, so one more than their number is enough. *)
Definition chunks_size (cs : list chunk) : nat := sum_list ((fun c => S (length (chunk_bytes c))) <$> cs).

(** What follows the delimiter. *)
Definition receive_body (cs : list chunk) (msg : message_t) : outcome (Z * message_t * list chunk) :=
  '(num_bytes_read, cl, cs) ← readn 1 [0] cs;
  cobs_len ← buf_get cl 0;
  if negb (num_bytes_read =? 1) then mret (1, msg, cs)
  else if Z.of_nat (MESSAGE_ID_SIZE + PAYLOAD_LENGTH_SIZE + MAX_PAYLOAD_SIZE + CHECKSUM_SIZE + 1) <? cobs_len
  then mret (1, msg, cs)
  else if cobs_len <? Z.of_nat (MESSAGE_ID_SIZE + PAYLOAD_LENGTH_SIZE + CHECKSUM_SIZE + 1)
  then mret (1, msg, cs)
  else
    data ← alloc (DELIMITER_SIZE + COBS_LENGTH_SIZE + Z.to_nat cobs_len);
    data ← buf_set data 0 0;
    data ← buf_set data 1 cobs_len;
    '(num_bytes_read, body, cs) ← readn cobs_len (drop 2 data) cs;
    let data := take 2 data ++ body in
    if negb (num_bytes_read =? cobs_len) then mret (1, msg, cs)
    else
      '(ret, msg) ← parse_message data msg;
      mret (if negb (ret =? 0) then 2 else 0, msg, cs).

Definition receive_message (relay : relay_t) (cs : list chunk) (msg : message_t)
  : outcome (Z * message_t * list chunk) :=
  '(stop, cs) ← (if id_uid (dev_id relay) =? NO_UID then first_byte cs
                 else find_delimiter (S (chunks_size cs)) [0] cs);
  match stop with
  | Some ret => mret (ret, msg, cs)
  | None => receive_body cs msg
  end.

(** What the system answers while a device is verified. *)
Record verify_env : Set := VerifyEnv { tcgetattr_ok : bool; tcsetattr_ok : bool; verify_time : Z }.

Definition verify_device (env : verify_env) (relay : relay_t) (io : dev_io) : outcome (Z * relay_t * dev_io) :=
  ping ← make_ping;
  '(ret, io) ← send_message (Some ping) io;
  if negb (ret =? 0) then mret (1, relay, io)
  else
    ack ← make_empty MAX_PAYLOAD_SIZE;
    '(ret, ack, cs) ← receive_message relay (io_in io) ack;
    let io := with_in cs io in
    if negb (ret =? 0) then mret (2, relay, io)
    else if negb (message_id ack =? ACKNOWLEDGEMENT) then mret (2, relay, io)
    else if negb (is_virtual relay) && negb (tcgetattr_ok env && tcsetattr_ok env) then mret (-1, relay, io)
    else
      type ← buf_read (payload ack) 0 1;
      year ← buf_read (payload ack) 1 1;
      uid ← buf_read (payload ack) 2 8;
      mret (0, Relay (is_virtual relay) (port_num relay) (file_descriptor relay) (shm_dev_idx relay)
                 (DevId (le_word type) (le_word year) (le_word uid)) (verify_time env), io).

(** ** The sender *)

(** The thread's variables; the arrays are not initialised. *)
Record sender_t : Set := Sender {
  sn_pmap : list Z;
  sn_params : list param_val_t;
  sn_sub_map : list Z;
  sn_last_ping : Z;
  sn_io : dev_io
}.

Definition write_command (relay : relay_t) (s : sender_t) : prog (M := shm_mem) sender_t :=
  pmap ← get_cmd_map (sn_pmap s);
  flags ← local (buf_get pmap 0);
  changed ← local (flag_on flags (shm_dev_idx relay));
  if (changed : bool) then
    mask ← local (buf_get pmap (Z.to_nat (1 + shm_dev_idx relay)));
    '(_, params) ← device_read (shm_dev_idx relay) DEV_HANDLER COMMAND mask (sn_params s);
    msg ← local (make_device_write (id_type (dev_id relay)) mask params);
    '(_, io) ← local (send_message msg (sn_io s));
    mret (Sender pmap params (sn_sub_map s) (sn_last_ping s) io)
  else mret (Sender pmap (sn_params s) (sn_sub_map s) (sn_last_ping s) (sn_io s)).

(** The two results of [millis]: at the test, and after the ping. *)
Definition ping_device (now after : Z) (s : sender_t) : prog (M := shm_mem) sender_t :=
  if PING_FREQ <=? u64 (now - sn_last_ping s) then
    msg ← local make_ping;
    '(_, io) ← local (send_message (Some msg) (sn_io s));
    mret (Sender (sn_pmap s) (sn_params s) (sn_sub_map s) after io)
  else mret s.

Definition send_subscription (relay : relay_t) (s : sender_t) : prog (M := shm_mem) sender_t :=
  sub_map ← get_sub_requests (sn_sub_map s) DEV_HANDLER;
  flags ← local (buf_get sub_map 0);
  changed ← local (flag_on flags (shm_dev_idx relay));
  if (changed : bool) then
    mask ← local (buf_get sub_map (Z.to_nat (1 + shm_dev_idx relay)));
    msg ← local (make_subscription_request (id_type (dev_id relay)) mask SUB_INTERVAL);
    '(_, io) ← local (send_message msg (sn_io s));
    mret (Sender (sn_pmap s) (sn_params s) sub_map (sn_last_ping s) io)
  else mret (Sender (sn_pmap s) (sn_params s) sub_map (sn_last_ping s) (sn_io s)).

(** The body of the sender's loop. *)
Definition sender_step (relay : relay_t) (times : Z * Z) (s : sender_t) : prog (M := shm_mem) sender_t :=
  s ← write_command relay s;
  s ← ping_device (fst times) (snd times) s;
  send_subscription relay s.

(** The sender works until it is cancelled at the end of an iteration. *)
Fixpoint sender_loop (relay : relay_t) (times : list (Z * Z)) (s : sender_t) : prog (M := shm_mem) sender_t :=
  match times with
  | [] => mret s
  | t :: times => s ← sender_step relay t s; sender_loop relay times s
  end.

(** From the moment the relayer has let the thread go; [pmap] and [sub_map] are what the stack
    holds. *)
Definition sender (relay : relay_t) (pmap sub_map : list Z) (start : Z) (times : list (Z * Z)) (io : dev_io)
  : prog (M := shm_mem) sender_t :=
  params ← local alloc_params;
  sender_loop relay times (Sender pmap params sub_map start io).

(** ** The receiver *)

Record receiver_t : Set := Receiver {
  rc_msg : message_t;
  rc_vals : list param_val_t;
  rc_last : Z;                 (* relay->last_received_msg_time *)
  rc_logged : list bytes;      (* the lines handed to the logger *)
  rc_io : list chunk
}.

(** The line a LOG message makes: [%s] applied to the payload, unless the logger skips it. *)
Definition log_payload (payload : bytes) (logged : list bytes) : outcome (list bytes) :=
  if log_skips logger DEBUG then mret logged
  else line ← c_string payload; mret (logged ++ [line]).

(** The handling of a message of a known kind. *)
Definition handle_device_msg (relay : relay_t) (now : Z) (r : receiver_t) : prog (M := shm_mem) receiver_t :=
  let msg := rc_msg r in
  if message_id msg =? DEVICE_DATA then
    vals ← local (parse_device_data (id_type (dev_id relay)) msg (rc_vals r));
    bm ← local (buf_read (payload msg) 0 4);
    _ ← device_write (shm_dev_idx relay) DEV_HANDLER DATA (le_word bm) vals;
    mret (Receiver msg vals now (rc_logged r) (rc_io r))
  else if message_id msg =? LOG then
    logged ← local (log_payload (payload msg) (rc_logged r));
    mret (Receiver msg (rc_vals r) now logged (rc_io r))
  else mret (Receiver msg (rc_vals r) now (rc_logged r) (rc_io r)).

Definition clear_message (r : receiver_t) : outcome receiver_t :=
  p ← buf_write (payload (rc_msg r)) 0 (replicate MAX_PAYLOAD_SIZE 0);
  mret (Receiver (Message 0 p 0 MAX_PAYLOAD_SIZE) (rc_vals r) (rc_last r) (rc_logged r) (rc_io r)).

(** The body of the receiver's loop; a broken message ends it early. *)
Definition receiver_step (relay : relay_t) (now : Z) (r : receiver_t) : prog (M := shm_mem) receiver_t :=
  '(ret, msg, cs) ← local (receive_message relay (rc_io r) (rc_msg r));
  let r := Receiver msg (rc_vals r) (rc_last r) (rc_logged r) cs in
  if negb (ret =? 0) then mret r
  else
    r ← (if (message_id msg =? DEVICE_DATA) || (message_id msg =? LOG) || (message_id msg =? DEVICE_PING)
         then handle_device_msg relay now r else mret r);
    local (clear_message r).

(** The receiver works until it is cancelled, between two messages. *)
Fixpoint receiver_loop (relay : relay_t) (times : list Z) (r : receiver_t) : prog (M := shm_mem) receiver_t :=
  match times with
  | [] => mret r
  | now :: times => r ← receiver_step relay now r; receiver_loop relay times r
  end.

Definition receiver (relay : relay_t) (times : list Z) (cs : list chunk) : prog (M := shm_mem) receiver_t :=
  msg ← local (make_empty MAX_PAYLOAD_SIZE);
  vals ← local alloc_params;
  receiver_loop relay times (Receiver msg vals (last_received_msg_time relay) [] cs).

End DevHandler.
