(* ===== verification/DevRelay.v ===== *)
(** * The relayer, the polling and the start-up of the device handler
    (src/dev_handler/dev_handler.c).

    The bitmaps of the ports in use are shared by the main thread and the relayers: they are
    the memory [ports_mem], with one mutex. The relayer also works on the shared memory, so
    its programs are over the sum of the two. *)

From stdpp Require Import gmap strings pretty relations.
From S2P Require Export DevHandler.

(** ** The ports in use *)

Record ports_t : Set := Ports { used_lowcar_ports : Z; used_virtual_ports : Z }.

(** The bitmap of the lowcar ports is the region [false], that of the virtual ones [true]. *)
Definition load_ports (virt : bool) (p : ports_t) : Z :=
  if virt then used_virtual_ports p else used_lowcar_ports p.
Definition store_ports (virt : bool) (v : Z) (p : ports_t) : ports_t :=
  if virt then Ports (used_lowcar_ports p) v else Ports v (used_virtual_ports p).

Definition ports_mem : SharedMem := {|
  sem := unit; sem_ok := fun _ => True; rank := fun _ => 0%nat; max_rank := 1;
  memory := ports_t; region := bool; region_ty := fun _ => Z;
  load := load_ports; store := store_ports; owner := fun _ => tt;
  peekable := fun _ => false; region_wf := fun _ v => word32 v
|}.

#[export] Instance ports_mem_laws : SharedMemLaws ports_mem.
Proof.
  split.
  - intros []. cbn. lia.
  - by intros [] [].
  - by intros [] [] v [] Hne.
  - intros [] v m Hm Hv []; cbn in *; try done; [apply (Hm false) | apply (Hm true)].
Qed.

(** [used_ports_lock], and the globals as the program starts with them. *)
Definition used_ports_lock : sem (SharedMem := ports_mem) := tt.
Definition ports_start : ports_t := Ports 0 0.
Definition ports_sems : gmap (sem (SharedMem := ports_mem)) nat := {[ used_ports_lock := 1%nat ]}.

(** ** The relayer's monitoring *)

Definition LOWCAR_FILE_PATH : string := "/dev/ttyACM".
Definition VIRTUAL_FILE_PATH : string := "/tmp/ttyACM".

Definition port_name (virt : bool) (port : nat) : string :=
  (if virt then VIRTUAL_FILE_PATH else LOWCAR_FILE_PATH) +:+ pretty port.

(** What the relayer sees when it looks: whether the file of the port exists, the time, and
    the time of the last message. *)
Record look : Set := Look { file_exists : bool; look_time : Z; last_msg : Z }.

Inductive verdict : Set := Disconnected | TimedOut.

Definition judge (l : look) : option verdict :=
  if negb (file_exists l) then Some Disconnected
  else if TIMEOUT <=? u64 (look_time l - last_msg l) then Some TimedOut
  else None.

(** The loop ends at the first verdict; [None]: the relayer is still monitoring. *)
Fixpoint monitor (looks : list look) : option verdict :=
  match looks with
  | [] => None
  | l :: looks => match judge l with Some v => Some v | None => monitor looks end
  end.

Section DevRelay.
Context {H : Heap} (logger : logger_t).

(** Programs of the device handler: over the blocks and the ports. *)
Definition dev_mem : SharedMem := sum_mem shm_mem ports_mem.
Abbreviation dprog := (prog (M := dev_mem)).
Definition on_shm {A} (p : prog (M := shm_mem) A) : dprog A := inl_prog shm_mem ports_mem p.
Definition on_ports {A} (p : prog (M := ports_mem) A) : dprog A := inr_prog shm_mem ports_mem p.

(** ** Cleaning up *)

(** [*used_ports &= ~(1 << port_num)]: a read and a write. *)
Definition release_port (relay : relay_t) : prog (M := ports_mem) unit :=
  used ← get (M := ports_mem) (is_virtual relay) (fun v => mret v);
  upd (M := ports_mem) (is_virtual relay) (fun _ => mret (bit_clear used (port_num relay))).

(** The sender and the receiver have been cancelled and joined by the time the device is
    disconnected; the first case runs in the main thread. *)
Definition relay_clean_up (relay : relay_t) : dprog unit :=
  if file_descriptor relay =? -1 then on_ports (release_port relay)
  else
    (if negb (shm_dev_idx relay =? -1) then on_shm (device_disconnect (shm_dev_idx relay)) else mret tt) ;;
    on_ports (wait (M := ports_mem) used_ports_lock ;;
              release_port relay ;;
              post (M := ports_mem) used_ports_lock).

Definition with_idx (ix : Z) (relay : relay_t) : relay_t :=
  Relay (is_virtual relay) (port_num relay) (file_descriptor relay) ix (dev_id relay)
    (last_received_msg_time relay).

(** [Starve]: the relayer goes on monitoring. *)
Definition relayer (env : verify_env) (looks : list look) (relay : relay_t) (io : dev_io) : dprog unit :=
  '(ret, relay, io) ← local (verify_device logger env relay io);
  if negb (ret =? 0) then relay_clean_up relay
  else
    ix ← on_shm (device_connect (dev_id relay));
    match ix with
    | None => relay_clean_up relay
    | Some ix =>
        match monitor looks with
        | Some _ => relay_clean_up (with_idx (Z.of_nat ix) relay)
        | None => Starve
        end
    end.

(** ** Polling *)

(** The loop over the ports, [k] iterations from [i] on: the new bitmap and their number. *)
Fixpoint scan_ports (exists_ : string -> bool) (virt : bool) (k i : nat) (found n : Z)
  : prog (M := ports_mem) (Z * Z) :=
  match k with
  | O => mret (found, n)
  | S k' =>
      wait (M := ports_mem) used_ports_lock ;;
      used ← get (M := ports_mem) virt (fun v => mret v);
      (if negb (bit_on used i) && exists_ (port_name virt i) then
         upd (M := ports_mem) virt (fun v => mret (bit_set v i)) ;;
         post (M := ports_mem) used_ports_lock ;;
         scan_ports exists_ virt k' (S i) (bit_set found i) (n + 1)
       else
         post (M := ports_mem) used_ports_lock ;;
         scan_ports exists_ virt k' (S i) found n)
  end.

Definition get_new_devices_helper (exists_ : string -> bool) (virt : bool) (found_devices : Z)
  : prog (M := ports_mem) (Z * Z) :=
  scan_ports exists_ virt MAX_DEVICES 0 found_devices 0.

(** Returns the two bitmaps and the number of devices, which is kept in a byte. *)
Definition get_new_devices (exists_ : string -> bool) (lowcar_bitmap virtual_bitmap : Z)
  : prog (M := ports_mem) (Z * Z * Z) :=
  '(lowcar_bitmap, n1) ← get_new_devices_helper exists_ false lowcar_bitmap;
  '(virtual_bitmap, n2) ← get_new_devices_helper exists_ true virtual_bitmap;
  mret (lowcar_bitmap, virtual_bitmap, u8 (u8 n1 + n2)).

(** [open_] is what [connect_socket] or [serialport_open] gives for the port: a descriptor, or
    -1. The three threads of the relay returned then run. *)
Definition communicate (open_ : string -> Z) (virt : bool) (port : nat) : dprog (option relay_t) :=
  _ ← local (alloc 200);
  let fd := open_ (port_name virt port) in
  if fd =? -1 then
    relay_clean_up (Relay virt port fd (-1) (DevId 0 0 0) 0) ;; mret None
  else
    mret (Some (Relay virt port fd (-1) (DevId (u8 (-1)) (u8 (-1)) NO_UID) 0)).

(** The loop over a bitmap of new devices, [k] iterations from [i] on. *)
Fixpoint communicate_all (open_ : string -> Z) (virt : bool) (bitmap : Z) (k i : nat) : dprog (list relay_t) :=
  match k with
  | O => mret []
  | S k' =>
      if Z.shiftr bitmap (Z.of_nat i) >? 0 then
        r ← (if bit_on bitmap i then communicate open_ virt i else mret None);
        rs ← communicate_all open_ virt bitmap k' (S i);
        mret (match r with Some r => r :: rs | None => rs end)
      else mret []
  end.

(** One iteration of the main loop: the relays of the devices whose threads it starts. *)
Definition poll_once (exists_ : string -> bool) (open_ : string -> Z) : dprog (list relay_t) :=
  '(new_lowcar_devs, new_virtual_devs, n) ← on_ports (get_new_devices exists_ 0 0);
  if n >? 0 then
    rs ← communicate_all open_ false new_lowcar_devs MAX_DEVICES 0;
    rs' ← communicate_all open_ true new_virtual_devs MAX_DEVICES 0;
    mret (rs ++ rs')
  else mret [].

(** The main loop, as long as it is not interrupted; each round with its own environment. *)
Fixpoint poll_connected_devices (rounds : list ((string -> bool) * (string -> Z))) : dprog (list relay_t) :=
  match rounds with
  | [] => mret []
  | (exists_, open_) :: rounds =>
      rs ← poll_once exists_ open_;
      rs' ← poll_connected_devices rounds;
      mret (rs ++ rs')
  end.

(** ** Stopping *)

Fixpoint disconnect_all (connected_devs : Z) (k i : nat) : prog (M := shm_mem) unit :=
  match k with
  | O => mret tt
  | S k' =>
      (if bit_on connected_devs i then device_disconnect (Z.of_nat i) else mret tt) ;;
      disconnect_all connected_devs k' (S i)
  end.

(** The handler of the interrupt, up to the [exit(0)] that ends the process. *)
Definition stop : prog (M := shm_mem) unit :=
  connected_devs ← get_catalog;
  disconnect_all connected_devs MAX_DEVICES 0.

End DevRelay.

(** ** The start of the three threads *)

(** Where a worker (the sender or the receiver) is. *)
Inductive worker : Set := NotWaiting | Waiting | Working | Cancelled.
(** Where the relayer is: verifying and connecting, between [device_connect] and the broadcast,
    monitoring, at the end. *)
Inductive relayer_pc : Set := Verifying | Connecting | Monitoring | Ended.

Record startup : Set := Startup {
  sender_pc : worker; receiver_pc : worker; relayer_at : relayer_pc; connected_ix : option nat
}.

Definition startup_start : startup := Startup NotWaiting NotWaiting Verifying None.

Definition wake (w : worker) : worker := match w with Waiting => Working | _ => w end.

(** The steps of the threads; [spurious] allows [pthread_cond_wait] to return without a
    broadcast. A thread that waits, or that works, can be cancelled; the cancellation of one
    that has not reached its wait takes effect when it does. *)
Inductive start_step (spurious : bool) : startup -> startup -> Prop :=
| sender_waits r pc ix :
    start_step spurious (Startup NotWaiting r pc ix) (Startup Waiting r pc ix)
| receiver_waits s pc ix :
    start_step spurious (Startup s NotWaiting pc ix) (Startup s Waiting pc ix)
| sender_wakes r pc ix : spurious = true ->
    start_step spurious (Startup Waiting r pc ix) (Startup Working r pc ix)
| receiver_wakes s pc ix : spurious = true ->
    start_step spurious (Startup s Waiting pc ix) (Startup s Working pc ix)
| relayer_fails s r :
    start_step spurious (Startup s r Verifying None) (Startup Cancelled Cancelled Ended None)
| relayer_connects s r ix : (ix < MAX_DEVICES)%nat ->
    start_step spurious (Startup s r Verifying None) (Startup s r Connecting (Some ix))
| relayer_broadcasts s r ix :
    start_step spurious (Startup s r Connecting ix) (Startup (wake s) (wake r) Monitoring ix)
| relayer_ends s r ix :
    start_step spurious (Startup s r Monitoring ix) (Startup Cancelled Cancelled Ended None).
