(* ===== verification/DevSpec.v ===== *)
(** * What the device handler guarantees: the theorems on [DevHandler] and [DevRelay]. *)

From stdpp Require Import gmap strings relations.
From S2P Require Export DevRelay ShmSpec.

(** ** Streams of bytes *)

Lemma is_data_nil cs : Forall is_data cs -> stream cs = [] -> cs = [].
Proof.
  intros Hd Hs. destruct cs as [|c cs]; [done|]. inversion Hd as [|? ? (b & bs & ->) _]; subst. done.
Qed.

(** One byte from a stream that has one. *)
Lemma readn_byte b bs last cs tail : Forall is_data cs -> stream cs = b :: bs -> length last = 1%nat ->
  exists cs', readn 1 last (cs ++ tail) = Done (1, [b], cs' ++ tail) /\ stream cs' = bs /\ Forall is_data cs'.
Proof.
  intros Hd Hs Hl. destruct (readn_run 1 last cs tail Hd) as (cs' & Hr & Hs' & Hd'); [lia | rewrite Hs; cbn; lia | lia |].
  exists cs'. rewrite Hs in Hr, Hs'. change (Z.to_nat 1) with 1%nat in *. cbn [take drop] in *.
  destruct last as [|x [|]]; try done.
Qed.

Lemma stream_size cs : (length (stream cs) <= chunks_size cs)%nat.
Proof.
  induction cs as [|c cs IH]; [done|]. rewrite stream_cons, length_app. unfold chunks_size in *.
  cbn. lia.
Qed.

Lemma chunks_size_app cs cs' : chunks_size (cs ++ cs') = (chunks_size cs + chunks_size cs')%nat.
Proof. unfold chunks_size. induction cs as [|c cs IH]; [done|]. cbn in *. lia. Qed.

(** ** Receiving *)

Lemma find_delimiter_run noise : forall fuel last cs tail bs,
  Forall (fun b => b ≠ 0) noise -> Forall is_data cs -> stream cs = noise ++ 0 :: bs -> length last = 1%nat ->
  (length noise < fuel)%nat ->
  exists cs', find_delimiter fuel last (cs ++ tail) = Done (None, cs' ++ tail) /\
    stream cs' = bs /\ Forall is_data cs'.
Proof.
  induction noise as [|b noise IH]; intros fuel last cs tail bs Hn Hd Hs Hl Hf;
    (destruct fuel as [|fuel]; [lia|]); cbn [find_delimiter app] in *.
  - destruct (readn_byte 0 bs last cs tail Hd Hs Hl) as (cs' & -> & Hs' & Hd').
    rewrite bind_done. cbn. eauto.
  - inversion Hn as [|? ? Hb Hn']; subst.
    destruct (readn_byte b (noise ++ 0 :: bs) last cs tail Hd Hs Hl) as (cs' & -> & Hs' & Hd').
    rewrite bind_done. cbv beta iota. change (1 =? 0) with false. change (1 =? -1) with false. cbv iota.
    change (buf_get [b] 0) with (Done b). rewrite bind_done, (proj2 (Z.eqb_neq b 0)) by done.
    apply (IH fuel [b]); try done. cbn in Hf. lia.
Qed.

(** A message, as the parser leaves it in the message [target]. *)
Definition delivered (msg target : message_t) : message_t :=
  Message (message_id msg)
    (take (payload_length msg) (payload msg) ++ drop (payload_length msg) (payload target))
    (payload_length msg) (payload_length msg).

Section Receiving.
Context {H : Heap} {HR : ReliableHeap H}.

Lemma receive_body_run cs tail msg target rest :
  Forall is_data cs -> message_ok msg -> (payload_length msg <= MAX_PAYLOAD_SIZE)%nat ->
  (payload_length msg <= length (payload target))%nat ->
  0 :: stream cs = frame msg ++ rest ->
  exists cs', receive_body (cs ++ tail) target = Done (0, delivered msg target, cs' ++ tail) /\
    stream cs' = rest /\ Forall is_data cs'.
Proof.
  intros Hd Hok Hm Ht Hs. unfold frame in Hs. set (c := cobs_ref [] (packet msg)) in *.
  cbn [app] in Hs. injection Hs as Hs. pose proof Hok as (_ & _ & Hl).
  pose proof (packet_encoded_length msg Hl Hm) as Hc. fold c in Hc.
  destruct (cobs_ref_length [] (packet msg)) as [_ Hlt]; [simpl; lia|]. fold c in Hlt.
  rewrite (packet_length msg Hl) in Hlt. cbn [length] in Hlt. unfold MAX_PAYLOAD_SIZE in Hm.
  unfold receive_body. destruct (readn_byte _ _ [0] cs tail Hd Hs eq_refl) as (cs1 & -> & Hs1 & Hd1).
  rewrite bind_done. change (buf_get [Z.of_nat (length c)] 0) with (Done (Z.of_nat (length c))).
  rewrite bind_done. change (negb (1 =? 1)) with false. cbv iota.
  change (Z.of_nat (MESSAGE_ID_SIZE + PAYLOAD_LENGTH_SIZE + MAX_PAYLOAD_SIZE + CHECKSUM_SIZE + 1)) with 136.
  change (Z.of_nat (MESSAGE_ID_SIZE + PAYLOAD_LENGTH_SIZE + CHECKSUM_SIZE + 1)) with 4.
  rewrite !(proj2 (Z.ltb_ge _ _)), Nat2Z.id by lia.
  change (DELIMITER_SIZE + COBS_LENGTH_SIZE + length c)%nat with (S (S (length c))).
  destruct (alloc_done (S (S (length c)))) as (mem & -> & Hmem). rewrite bind_done.
  destruct mem as [|m0 [|m1 mem]]; [done..|]. cbn [length] in Hmem.
  change (buf_set (m0 :: m1 :: mem) 0 0) with (Done (0 :: m1 :: mem)). rewrite bind_done.
  change (buf_set (0 :: m1 :: mem) 1 (Z.of_nat (length c))) with (Done (0 :: Z.of_nat (length c) :: mem)).
  rewrite bind_done. cbn [drop take app]. rewrite drop_0.
  destruct (readn_run (Z.of_nat (length c)) mem cs1 tail Hd1) as (cs2 & -> & Hs2 & Hd2);
    [lia | rewrite Hs1, Nat2Z.id, length_app; lia | lia |].
  rewrite bind_done, Z.eqb_refl. cbn [negb]. rewrite Hs1, Nat2Z.id in Hs2 |- *.
  rewrite take_app_length, drop_ge, app_nil_r by lia.
  pose proof (parse_frame msg target [] Hok Hm Ht) as Hp. rewrite app_nil_r in Hp.
  rewrite take_0. cbn [app]. change (0 :: Z.of_nat (length c) :: c) with (frame msg). rewrite Hp, bind_done. cbn.
  exists cs2. split; [done|]. split; [by rewrite Hs2, drop_app_length | done].
Qed.

Definition verified (relay : relay_t) : Prop := id_uid (dev_id relay) ≠ NO_UID.

(** The receiver of a verified device skips whatever precedes the delimiter. *)
Lemma receive_message_run relay noise msg rest cs tail target :
  verified relay -> Forall (fun b => b ≠ 0) noise -> message_ok msg ->
  (payload_length msg <= MAX_PAYLOAD_SIZE)%nat -> (payload_length msg <= length (payload target))%nat ->
  Forall is_data cs -> stream cs = noise ++ frame msg ++ rest ->
  exists cs', receive_message relay (cs ++ tail) target = Done (0, delivered msg target, cs' ++ tail) /\
    stream cs' = rest /\ Forall is_data cs'.
Proof.
  intros Hv Hn Hok Hm Ht Hd Hs. unfold receive_message. rewrite (proj2 (Z.eqb_neq _ _)) by done.
  assert (Hsz : (length noise < S (chunks_size (cs ++ tail)))%nat).
  { rewrite chunks_size_app. pose proof (stream_size cs). rewrite Hs, length_app in *. lia. }
  unfold frame in Hs. cbn [app] in Hs.
  destruct (find_delimiter_run noise _ [0] cs tail _ Hn Hd Hs eq_refl Hsz) as (cs1 & -> & Hs1 & Hd1).
  rewrite bind_done. apply (receive_body_run cs1 tail msg target rest); try done.
  unfold frame. cbn [app]. by rewrite Hs1.
Qed.

(** The first message of a device must start with its first byte. *)
Lemma receive_first_run relay msg rest cs tail target :
  id_uid (dev_id relay) = NO_UID -> message_ok msg ->
  (payload_length msg <= MAX_PAYLOAD_SIZE)%nat -> (payload_length msg <= length (payload target))%nat ->
  Forall is_data cs -> stream cs = frame msg ++ rest ->
  exists cs', receive_message relay (cs ++ tail) target = Done (0, delivered msg target, cs' ++ tail) /\
    stream cs' = rest /\ Forall is_data cs'.
Proof.
  intros Hu Hok Hm Ht Hd Hs. unfold receive_message. rewrite Hu, Z.eqb_refl.
  destruct cs as [|c cs]; [done|]. inversion Hd as [|? ? (b & bs & ->) Hd']; subst.
  assert (Hb : b = 0) by (by injection Hs). subst b.
  assert (Hf : exists cs1, first_byte ((Data (0 :: bs) :: cs) ++ tail) = Done (None, cs1 ++ tail) /\
    0 :: stream cs1 = stream (Data (0 :: bs) :: cs) /\ Forall is_data cs1).
  { unfold first_byte. cbn [app sys_read]. destruct (Nat.leb_spec (length (0 :: bs)) 1) as [Hle|Hgt].
    - destruct bs as [|x bs]; [|cbn in Hle; lia]. exists cs. done.
    - cbn [length] in Hgt. destruct bs as [|x bs]; [cbn in Hgt; lia|].
      exists (Data (x :: bs) :: cs). split; [done|]. split; [done|]. constructor; [by exists x, bs | done]. }
  destruct Hf as (cs1 & -> & Hs1 & Hd1). rewrite bind_done. rewrite <- Hs1 in Hs.
  by apply (receive_body_run cs1 tail msg target rest).
Qed.

End Receiving.

(** ** Sending *)

Section Sending.
Context {H : Heap} {HR : ReliableHeap H} (logger : logger_t).

Lemma send_message_run msg cs ws ks wtail out :
  message_ok msg -> (payload_length msg <= MAX_PAYLOAD_SIZE)%nat ->
  Forall2 writes ws ks -> (length (frame msg) <= sum_list ks)%nat ->
  exists ws', send_message logger (Some msg) (DevIO cs (ws ++ wtail) out) =
    Done (0, DevIO cs (ws' ++ wtail) (out ++ frame msg)).
Proof.
  intros (_ & _ & Hl) Hm Hw Hs. unfold send_message.
  set (len := calc_max_cobs_msg_length msg). destruct (alloc_done len) as (b & -> & Hb). rewrite bind_done.
  rewrite message_to_bytes_frame by (done || lia). rewrite bind_done. cbn [io_ws io_out io_in].
  pose proof (frame_length msg Hl Hm len ltac:(done)) as Hf.
  assert (Hcap : (len <= 200)%nat).
  { unfold len, calc_max_cobs_msg_length, MESSAGE_ID_SIZE, PAYLOAD_LENGTH_SIZE, CHECKSUM_SIZE, DELIMITER_SIZE,
      COBS_LENGTH_SIZE. unfold MAX_PAYLOAD_SIZE in Hm.
    pose proof (Nat.Div0.div_le_upper_bound (1 + 1 + payload_length msg + 1) 254 1). lia. }
  destruct (writen_run ws ks (Z.of_nat (length (frame msg))) (frame msg ++ drop (length (frame msg)) b) out wtail)
    as (ws' & ->); [done | lia | lia | rewrite Nat2Z.id, length_app; lia |].
  rewrite bind_done, Z.eqb_refl, bind_ret, Nat2Z.id, take_app_length. by exists ws'.
Qed.

Lemma flag_on_nat w ix : word32 w -> (ix < MAX_DEVICES)%nat -> flag_on w (Z.of_nat ix) = Done (bit_on w ix).
Proof.
  intros Hw Hix. unfold MAX_DEVICES in Hix. unfold flag_on, int_shl1.
  rewrite (proj2 (Z.leb_le 0 _)), (proj2 (Z.ltb_lt _ 32)) by lia. cbn [andb]. rewrite bind_ret.
  unfold bit_on. do 4 f_equal. unfold s32, u32. rewrite Zminus_mod_idemp_l.
  rewrite Z.add_simpl_r. apply Z.mod_small. rewrite Z.shiftl_1_l.
  split; [apply Z.pow_nonneg; lia|]. apply Z.pow_lt_mono_r; lia.
Qed.

End Sending.

(** ** What a device reports *)

(** A message from a device: values of its parameters, a line for the log, a ping. *)
Inductive event : Set := Report (mask : Z) (sent : list param_val_t) | Line (text : bytes) | Ping.

Definition event_msg (d : device_t) (e : event) : message_t :=
  match e with
  | Report mask sent =>
      let pay := le_bytes 4 mask ++ values_image d mask sent MAX_PARAMS 0 in
      Message DEVICE_DATA pay (length pay) (length pay)
  | Line text => Message LOG text (length text) (length text)
  | Ping => Message DEVICE_PING [] 0 0
  end.

Definition event_ok (d : device_t) (e : event) : Prop :=
  match e with
  | Report mask sent => word32 mask /\ params_wf sent
  | Line text => Forall (fun b => b ≠ 0) text /\ Forall byte_ok text /\ (length text < MAX_PAYLOAD_SIZE)%nat
  | Ping => True
  end.

(** What the events say of the parameter [i]; the lines they log. *)
Definition reported (i : nat) (acc : option param_val_t) (e : event) : option param_val_t :=
  match e with
  | Report mask sent => if bit_on mask i then match sent !! i with Some v => Some v | None => acc end else acc
  | _ => acc
  end.
Definition latest (i : nat) (es : list event) : option param_val_t := foldl (reported i) None es.
Definition lines (es : list event) : list bytes := es ≫= fun e => match e with Line text => [text] | _ => [] end.

(** The value of a parameter of this type; a BOOL is the low byte of the union. *)
Definition agrees (ty : param_type_t) (v w : param_val_t) : Prop :=
  match ty with BOOL => p_b v = p_b w | _ => v = w end.

Lemma received_agrees ty old v : agrees ty v (received ty old v).
Proof.
  destruct ty; try done. unfold agrees, received, p_b, set_p_b, u8.
  rewrite Z.add_comm, Z.mul_comm. change 256 with (2 ^ 8) at 2. rewrite Z.mod_add by lia.
  by rewrite !Z.mod_mod by lia.
Qed.

(** A stream made of the frames of messages, each behind bytes that are no delimiter. *)
Fixpoint wire (items : list (bytes * message_t)) : bytes :=
  match items with
  | [] => []
  | (noise, msg) :: items => noise ++ frame msg ++ wire items
  end.

Definition noiseless (noise : bytes) : Prop := Forall (fun b => b ≠ 0) noise.

(** A receiver between two messages. *)
Definition idle (r : receiver_t) : Prop :=
  payload (rc_msg r) = replicate MAX_PAYLOAD_SIZE 0 /\ params_wf (rc_vals r).

Section Reports.
Context {H : Heap} {HR : ReliableHeap H} (logger : logger_t).

Lemma event_msg_ok d e : event_ok d e ->
  message_ok (event_msg d e) /\ (payload_length (event_msg d e) <= MAX_PAYLOAD_SIZE)%nat.
Proof.
  unfold message_ok, byte_ok. destruct e as [mask sent|text|]; cbn [event_ok event_msg message_id payload payload_length].
  - intros [Hm Hs]. pose proof (values_image_length d mask sent MAX_PARAMS 0) as Hl.
    rewrite length_app, length_le_bytes. unfold MAX_PARAMS, MAX_PAYLOAD_SIZE in *. split; [|lia].
    split; [unfold DEVICE_DATA; lia|]. split; [|lia]. apply Forall_app_2; [apply le_bytes_ok | apply values_image_bytes].
  - intros (_ & Hb & Hl). split; [|lia]. split; [unfold LOG; lia|]. done.
  - intros _. split; [|lia]. split; [unfold DEVICE_PING; lia|]. done.
Qed.

Lemma clear_message_run r : length (payload (rc_msg r)) = MAX_PAYLOAD_SIZE -> params_wf (rc_vals r) ->
  exists r', clear_message r = Done r' /\ idle r' /\ rc_vals r' = rc_vals r /\ rc_last r' = rc_last r /\
    rc_logged r' = rc_logged r /\ rc_io r' = rc_io r.
Proof.
  intros Hl Hv. unfold clear_message. rewrite buf_write_prefix by (by rewrite length_replicate, Hl).
  rewrite bind_done, length_replicate, drop_ge, app_nil_r by lia. by eexists.
Qed.

Lemma c_string_text text rest : Forall (fun b => b ≠ 0) text -> c_string (text ++ 0 :: rest) = Done text.
Proof.
  intros Ht. unfold c_string.
  assert (Hf : list_find (fun x : Z => x = 0) (text ++ 0 :: rest) = Some (length text, 0)).
  { apply list_find_Some. rewrite list_lookup_middle by done. split; [done|]. split; [done|].
    intros j y Hj Hlt. rewrite lookup_app_l in Hj by done.
    by apply (Forall_lookup_1 _ _ _ _ Ht Hj). }
  by rewrite Hf, take_app_length.
Qed.

Lemma received_word32 ty old v : word32 old -> word32 v -> word32 (received ty old v).
Proof.
  unfold word32. intros Ho Hv. destruct ty; cbn [received]; try done. unfold set_p_b.
  pose proof (u8_range (u8 v)). pose proof (Z.div_mod old 256). pose proof (Z.mod_pos_bound old 256). lia.
Qed.

(** A write of the device handler to the data of a connected device. *)
Lemma device_write_data_run sm ix mask vals m :
  all_free sm -> mem_wf (M := shm_mem) m -> (ix < MAX_DEVICES)%nat -> params_wf vals -> bit_on (cat m) ix = true ->
  exists to, params_wf to /\
    (forall i, (i < MAX_PARAMS)%nat -> to !! i = if bit_on mask i then vals !! i else pars m DATA ix !! i) /\
    run (device_write (Z.of_nat ix) DEV_HANDLER DATA mask vals) (Sys m sm) =
    Done (0, Sys (shm_store (RParams DATA ix) to m) sm).
Proof.
  intros Hf Hm Hix Hv Hon. pose proof (Hm RCmdMap) as [Hl _]. cbn in Hl.
  pose proof (pars_wf m DATA ix Hm Hix) as Hp.
  destruct (copy_params_wf mask vals _ Hv Hp) as (to & Hc & Hto).
  destruct Hv as [Hvl _], Hp as [Hpl _].
  destruct (copy_params_spec mask vals _ Hvl Hpl) as (to' & Hc' & _ & Hspec).
  rewrite Hc in Hc'. injection Hc' as <-. exists to. split; [done|]. split; [exact Hspec|].
  unfold device_write. rewrite shift_index_nat by done. rewrite test_catalog_run, Hon.
  change sm with (taken (M := shm_mem) [] sm) at 1.
  by rewrite (run_then (M := shm_mem) _ _ _ _ _
    (write_helper_run sm Hf m ix DEV_HANDLER DATA mask vals to Hix Hl Hc)).
Qed.

(** The data of the device [ix] after an event, from what they were. *)
Definition data_after (d : device_t) (say : nat -> option param_val_t) (old new : list param_val_t) : Prop :=
  params_wf new /\ forall i, (i < MAX_PARAMS)%nat ->
    match say i with
    | Some v => exists p w, params d !! i = Some p /\ new !! i = Some w /\ agrees (pd_type p) v w
    | None => new !! i = old !! i
    end.

Lemma data_after_refl d say old : params_wf old -> (forall i, say i = None) -> data_after d say old old.
Proof. intros Hw Hs. split; [done|]. intros i _. by rewrite Hs. Qed.

(** What the parsing of a report gives. *)
Lemma report_parsed d t msg mask sent old rest :
  get_device t = Some d -> params_wf old -> word32 mask -> params_wf sent ->
  payload msg = le_bytes 4 mask ++ values_image d mask sent MAX_PARAMS 0 ++ rest ->
  exists vals, params_wf vals /\ parse_device_data t msg old = Done vals /\
    buf_read (payload msg) 0 4 = Done (le_bytes 4 mask) /\
    forall i, (i < MAX_PARAMS)%nat -> vals !! i =
      if bit_on mask i then p ← params d !! i; o ← old !! i; v ← sent !! i; Some (received (pd_type p) o v) else old !! i.
Proof.
  intros Hd [Hrl Hrw] Hmask [Hsl Hsw] Hp. destruct msg as [mid mp ml mx]. cbn [payload] in Hp |- *. subst mp.
  destruct (parse_device_data_image t d mask sent old mid rest mx Hd Hmask Hsl Hsw Hrl) as (vals & Hpd & Hvl & Hvi).
  exists vals. split; [|split; [exact Hpd|split; [|exact Hvi]]].
  - split; [done|]. apply Forall_lookup. intros i x Hx.
    assert (Hi : (i < MAX_PARAMS)%nat) by (apply lookup_lt_Some in Hx; lia). rewrite Hvi in Hx by done.
    destruct (bit_on mask i); [|by apply (Forall_lookup_1 _ _ _ _ Hrw Hx)].
    destruct (params d !! i) as [p|]; [|done]. cbn in Hx.
    destruct (old !! i) as [o|] eqn:Ho; [|done]. destruct (sent !! i) as [v|] eqn:Hv; [|done].
    injection Hx as <-. apply received_word32; [exact (Forall_lookup_1 _ _ _ _ Hrw Ho) | exact (Forall_lookup_1 _ _ _ _ Hsw Hv)].
  - rewrite buf_read_prefix by list_lia. by rewrite take_app_length' by (by rewrite length_le_bytes).
Qed.

(** The two effects of a report: the values parsed, and the write of them. *)
Lemma report_run d relay ix now r m sm mask sent rest :
  all_free sm -> mem_wf (M := shm_mem) m -> (ix < MAX_DEVICES)%nat -> bit_on (cat m) ix = true ->
  get_device (id_type (dev_id relay)) = Some d -> shm_dev_idx relay = Z.of_nat ix ->
  params_wf (rc_vals r) -> word32 mask -> params_wf sent ->
  payload (rc_msg r) = le_bytes 4 mask ++ values_image d mask sent MAX_PARAMS 0 ++ rest ->
  message_id (rc_msg r) = DEVICE_DATA ->
  exists vals to, params_wf vals /\ data_after d (fun i => reported i None (Report mask sent)) (pars m DATA ix) to /\
    run (handle_device_msg logger relay now r) (Sys m sm) =
      Done (Receiver (rc_msg r) vals now (rc_logged r) (rc_io r), Sys (shm_store (RParams DATA ix) to m) sm).
Proof.
  intros Hf Hm Hix Hon Hd Hsi Hr Hmask Hsent Hp Hid.
  unfold handle_device_msg. rewrite Hid. change (DEVICE_DATA =? DEVICE_DATA) with true. cbv iota.
  destruct (report_parsed d _ (rc_msg r) mask sent (rc_vals r) rest Hd Hr Hmask Hsent Hp) as (vals & Hvw & -> & -> & Hvi).
  rewrite !local_done, le_word32, Hsi by done. destruct Hr as [Hrl _], Hsent as [Hsl _].
  destruct (device_write_data_run sm ix mask vals m Hf Hm Hix Hvw Hon) as (to & Hto & Hti & Hw).
  exists vals, to. split; [done|]. split.
  - split; [done|]. intros i Hi. cbn [reported]. rewrite Hti by done.
    destruct (bit_on mask i) eqn:Hb; [|done].
    destruct (lookup_lt_is_Some_2 sent i) as [v Hv]; [lia|]. rewrite Hv, Hvi, Hb by done.
    destruct (device_wf_param _ d i (get_device_wf _ _ Hd) Hi) as [p Hpi].
    destruct (lookup_lt_is_Some_2 (rc_vals r) i) as [o Ho]; [lia|].
    rewrite Hpi, Hv, Ho. eexists p, _. split; [done|]. split; [done|]. apply received_agrees.
  - by rewrite (run_then (M := shm_mem) _ _ _ _ _ Hw), run_ret.
Qed.

Definition logged_lines (es : list event) : list bytes := if log_skips logger DEBUG then [] else lines es.

Lemma log_payload_line text logged : Forall (fun b => b ≠ 0) text -> (length text < MAX_PAYLOAD_SIZE)%nat ->
  log_payload logger (text ++ drop (length text) (replicate MAX_PAYLOAD_SIZE 0)) logged =
  Done (logged ++ logged_lines [Line text]).
Proof.
  intros Hnz Hlen. unfold log_payload, logged_lines. destruct (log_skips logger DEBUG); [by rewrite app_nil_r|].
  rewrite drop_replicate. destruct (MAX_PAYLOAD_SIZE - length text)%nat as [|k] eqn:Hk; [lia|].
  by rewrite replicate_S, c_string_text, bind_done by done.
Qed.

(** One event, from the bytes on the wire to the shared memory and the logger. *)
Lemma receiver_step_run d relay ix now r m sm noise e rest cs tail :
  all_free sm -> mem_wf (M := shm_mem) m -> (ix < MAX_DEVICES)%nat -> bit_on (cat m) ix = true ->
  get_device (id_type (dev_id relay)) = Some d -> verified relay -> shm_dev_idx relay = Z.of_nat ix ->
  idle r -> event_ok d e -> noiseless noise ->
  Forall is_data cs -> stream cs = noise ++ frame (event_msg d e) ++ rest -> rc_io r = cs ++ tail ->
  exists r' to cs', run (receiver_step logger relay now r) (Sys m sm) =
      Done (r', Sys (shm_store (RParams DATA ix) to m) sm) /\
    data_after d (fun i => reported i None e) (pars m DATA ix) to /\
    idle r' /\ rc_last r' = now /\ rc_logged r' = rc_logged r ++ logged_lines [e] /\
    rc_io r' = cs' ++ tail /\ Forall is_data cs' /\ stream cs' = rest.
Proof.
  intros Hf Hm Hix Hon Hd Hv Hsi [Hpay Hrv] He Hn Hdata Hs Hio.
  destruct (event_msg_ok d e He) as [Hok Hmax]. set (msg := event_msg d e) in *.
  assert (Hl : length (payload (rc_msg r)) = MAX_PAYLOAD_SIZE) by (by rewrite Hpay, length_replicate).
  destruct (receive_message_run relay noise msg rest cs tail (rc_msg r)) as (cs' & Hr & Hs' & Hd');
    [done.. | lia | done | done |].
  unfold receiver_step. rewrite Hio, Hr, local_done. cbv beta iota. change (negb (0 =? 0)) with false. cbv iota.
  set (got := delivered msg (rc_msg r)).
  assert (Hgl : length (payload got) = MAX_PAYLOAD_SIZE).
  { unfold got, delivered. cbn [payload]. destruct Hok as (_ & _ & Hlen). list_lia. }
  set (r0 := Receiver got (rc_vals r) (rc_last r) (rc_logged r) (cs' ++ tail)).
  (* what the handling of the message leaves to the last statements of the loop *)
  cut (exists vals to logged, params_wf vals /\
    data_after d (fun i => reported i None e) (pars m DATA ix) to /\ logged = rc_logged r ++ logged_lines [e] /\
    run (if (message_id got =? DEVICE_DATA) || (message_id got =? LOG) || (message_id got =? DEVICE_PING)
         then handle_device_msg logger relay now r0 else mret r0) (Sys m sm) =
      Done (Receiver got vals now logged (cs' ++ tail), Sys (shm_store (RParams DATA ix) to m) sm)).
  { intros (vals & to & logged & Hvw & Hda & Hlg & Hrun).
    rewrite (run_then (M := shm_mem) _ _ _ _ _ Hrun).
    destruct (clear_message_run (Receiver got vals now logged (cs' ++ tail))) as (r' & Hc & Hi & _ & H2 & H3 & H4);
      [done.. |].
    rewrite Hc. exists r', to, cs'. subst logged. by rewrite H2, H3, H4. }
  pose proof (pars_wf m DATA ix Hm Hix) as Hpw.
  assert (Hsame : shm_store (RParams DATA ix) (pars m DATA ix) m = m) by apply shm_store_load.
  destruct e as [mask sent|text|]; cbn [event_ok] in He.
  - destruct He as [Hmask Hsent].
    destruct (report_run d relay ix now r0 m sm mask sent
      (drop (payload_length msg) (payload (rc_msg r))) Hf Hm Hix Hon Hd Hsi Hrv Hmask Hsent)
      as (vals & to & Hvw & Hda & Hrun); [|done|].
    { change (payload (rc_msg r0)) with (payload got).
      unfold got, delivered, msg. cbn [payload event_msg payload_length]. by rewrite firstn_all, <- app_assoc. }
    exists vals, to, (rc_logged r). split; [done|]. split; [done|]. split; [|exact Hrun].
    unfold logged_lines. cbn. destruct (log_skips logger DEBUG); by rewrite app_nil_r.
  - destruct He as (Hnz & _ & Hlen). exists (rc_vals r), (pars m DATA ix), (rc_logged r ++ logged_lines [Line text]).
    split; [done|]. split; [by apply data_after_refl|]. split; [done|]. rewrite Hsame.
    change (message_id got) with LOG. cbn [orb Z.eqb LOG DEVICE_DATA].
    unfold handle_device_msg. change (message_id (rc_msg r0)) with LOG.
    change (LOG =? DEVICE_DATA) with false. change (LOG =? LOG) with true. cbv iota.
    assert (Hlp : log_payload logger (payload got) (rc_logged r) = Done (rc_logged r ++ logged_lines [Line text])).
    { unfold got, delivered, msg. cbn [payload event_msg payload_length]. rewrite firstn_all, Hpay. by apply log_payload_line. }
    change (rc_msg r0) with got. change (rc_logged r0) with (rc_logged r). by rewrite Hlp, local_done.
  - exists (rc_vals r), (pars m DATA ix), (rc_logged r). split; [done|]. split; [by apply data_after_refl|].
    split; [|by rewrite Hsame]. unfold logged_lines. cbn. destruct (log_skips logger DEBUG); by rewrite app_nil_r.
Qed.

End Reports.

(** ** The receiver's loop *)

Lemma reported_foldl i es : forall acc,
  foldl (reported i) acc es = match latest i es with Some v => Some v | None => acc end.
Proof.
  unfold latest. induction es as [|e es IH]; intros acc; [done|]. cbn [foldl].
  rewrite IH, (IH (reported i None e)). destruct (foldl (reported i) None es); [done|].
  destruct e as [mask sent| |]; cbn [reported]; try done. destruct (bit_on mask i); [|done].
  by destruct (sent !! i).
Qed.

Lemma latest_cons i e es :
  latest i (e :: es) = match latest i es with Some v => Some v | None => reported i None e end.
Proof. apply (reported_foldl i es (reported i None e)). Qed.

Lemma data_after_trans d s1 s2 old mid new : data_after d s1 old mid -> data_after d s2 mid new ->
  data_after d (fun i => match s2 i with Some v => Some v | None => s1 i end) old new.
Proof.
  intros [_ H1] [Hw H2]. split; [done|]. intros i Hi. specialize (H1 i Hi). specialize (H2 i Hi).
  destruct (s2 i); [done|]. destruct (s1 i); by rewrite H2.
Qed.

Lemma data_after_ext d s1 s2 old new : (forall i, s1 i = s2 i) -> data_after d s1 old new -> data_after d s2 old new.
Proof. intros He [Hw Hs]. split; [done|]. intros i Hi. rewrite <- He. by apply Hs. Qed.

Lemma last_default {A} (l : list A) : forall x d d', List.last (x :: l) d = List.last (x :: l) d'.
Proof. induction l as [|y l IH]; [done|]. intros x d d'. apply (IH y). Qed.

Section Receiver.
Context {H : Heap} {HR : ReliableHeap H} (logger : logger_t).
Context (d : device_t) (relay : relay_t) (ix : nat) (sm : gmap shm_sem nat).
Context (Hf : all_free sm) (Hix : (ix < MAX_DEVICES)%nat) (Hd : get_device (id_type (dev_id relay)) = Some d)
  (Hv : verified relay) (Hsi : shm_dev_idx relay = Z.of_nat ix).

Definition item_ok (item : bytes * event) : Prop := noiseless (fst item) /\ event_ok d (snd item).

(** The bytes a device sends for a list of events. *)
Definition sent_by (items : list (bytes * event)) : bytes := wire ((fun '(noise, e) => (noise, event_msg d e)) <$> items).

Lemma receiver_loop_run items : forall times r m cs tail,
  mem_wf (M := shm_mem) m -> bit_on (cat m) ix = true -> idle r ->
  Forall item_ok items -> length times = length items ->
  Forall is_data cs -> stream cs = sent_by items -> rc_io r = cs ++ tail ->
  exists r' to, run (receiver_loop logger relay times r) (Sys m sm) =
      Done (r', Sys (shm_store (RParams DATA ix) to m) sm) /\
    data_after d (fun i => latest i (snd <$> items)) (pars m DATA ix) to /\
    rc_last r' = List.last times (rc_last r) /\
    rc_logged r' = rc_logged r ++ logged_lines logger (snd <$> items) /\ rc_io r' = tail.
Proof.
  induction items as [|[noise e] items IH]; intros times r m cs tail Hm Hon Hidle Hok Hlen Hdata Hs Hio;
    destruct times as [|now times]; try done; cbn [receiver_loop].
  - exists r, (pars m DATA ix). unfold pars. rewrite shm_store_load. split; [done|].
    apply (is_data_nil cs) in Hs; [|done]. subst cs.
    split; [apply data_after_refl; [by apply pars_wf | done]|]. split; [done|]. split; [|done].
    unfold logged_lines. destruct (log_skips logger DEBUG); by rewrite app_nil_r.
  - inversion Hok as [|? ? [Hn He] Hok']; subst. cbn [fst snd] in *.
    destruct (receiver_step_run logger d relay ix now r m sm noise e (sent_by items) cs tail)
      as (r1 & to1 & cs1 & Hr1 & Hda1 & Hid1 & Hl1 & Hlg1 & Hio1 & Hd1 & Hs1); [done..|].
    rewrite (run_then (M := shm_mem) _ _ _ _ _ Hr1).
    destruct Hda1 as [Hw1 Hda1]. pose proof (store_params_wf m DATA ix to1 Hm Hw1) as Hm1.
    destruct (IH times r1 _ cs1 tail Hm1 Hon Hid1 Hok' ltac:(by injection Hlen) Hd1 Hs1 Hio1)
      as (r2 & to2 & Hr2 & Hda2 & Hl2 & Hlg2 & Hio2).
    exists r2, to2. rewrite Hr2, store_params_twice. split; [done|].
    rewrite (pars_store DATA) in Hda2 by done. split; [|split; [|split]].
    + eapply data_after_ext; [|exact (data_after_trans _ _ _ _ _ _ (conj Hw1 Hda1) Hda2)].
      intros i. cbn beta. by rewrite fmap_cons, latest_cons.
    + rewrite Hl2, Hl1. destruct times as [|t times]; [done|]. exact (last_default times t now _).
    + rewrite Hlg2, Hlg1, <- app_assoc, fmap_cons. f_equal. unfold logged_lines.
      destruct (log_skips logger DEBUG); [done|]. unfold lines. cbn. by rewrite app_nil_r.
    + done.
Qed.

End Receiver.

(** ** The sender's commands *)

Section Commands.
Context {H : Heap} {HR : ReliableHeap H} (logger : logger_t).

(** The message for the parameters [mask] with the values [vals]. *)
Definition command_msg (d : device_t) (mask : Z) (vals : list param_val_t) : message_t :=
  let pay := le_bytes 4 mask ++ values_image d mask vals MAX_PARAMS 0 in
  Message DEVICE_WRITE pay (length pay) (length pay).

Lemma command_msg_ok d mask vals :
  message_ok (command_msg d mask vals) /\ (payload_length (command_msg d mask vals) <= MAX_PAYLOAD_SIZE)%nat.
Proof.
  unfold message_ok, command_msg. cbn [message_id payload payload_length].
  pose proof (values_image_length d mask vals MAX_PARAMS 0) as Hl.
  rewrite length_app, length_le_bytes. unfold MAX_PARAMS, MAX_PAYLOAD_SIZE in *. split; [|lia].
  split; [unfold byte_ok, DEVICE_WRITE; lia|]. split; [|lia].
  apply Forall_app_2; [apply le_bytes_ok | apply values_image_bytes].
Qed.

Lemma frame_length_max msg : (payload_length msg <= length (payload msg))%nat ->
  (payload_length msg <= MAX_PAYLOAD_SIZE)%nat -> (length (frame msg) <= MAX_PAYLOAD_SIZE + 6)%nat.
Proof.
  intros Hl Hm. pose proof (packet_encoded_length msg Hl Hm). unfold frame. cbn [length]. lia.
Qed.

(** What a descriptor that takes the writes [ks] has room for. *)
Definition room (ws : list write_res) (n : nat) : Prop := exists ks, Forall2 writes ws ks /\ (n <= sum_list ks)%nat.

(** With a command pending, one look of the sender sends it. *)
Lemma write_command_run sm d relay ix s m ws wtail :
  all_free sm -> mem_wf (M := shm_mem) m -> (ix < MAX_DEVICES)%nat -> bit_on (cat m) ix = true ->
  get_device (id_type (dev_id relay)) = Some d -> shm_dev_idx relay = Z.of_nat ix ->
  bit_on (nth 0 (cmds m) 0) ix = true -> length (sn_pmap s) = S MAX_DEVICES -> params_wf (sn_params s) ->
  io_ws (sn_io s) = ws ++ wtail -> room ws (MAX_PAYLOAD_SIZE + 6) ->
  let pending := nth (S ix) (cmds m) 0 in
  exists mask got s' ws', word32 mask /\ params_wf got /\ (forall i, bit_on mask i = bit_on pending i && writable d i) /\
    (forall i, (i < MAX_PARAMS)%nat -> bit_on pending i = true -> got !! i = pars m COMMAND ix !! i) /\
    io_in (sn_io s') = io_in (sn_io s) /\ io_ws (sn_io s') = ws' ++ wtail /\
    io_out (sn_io s') = io_out (sn_io s) ++ frame (command_msg d mask got) /\
    run (write_command logger relay s) (Sys m sm) =
      Done (s', Sys (M := shm_mem) (shm_store RCmdMap (cmd_acked ix pending (cmds m)) m) sm).
Proof.
  intros Hf Hm Hix Hon Hd Hsi Hflag Hpl Hps Hws (ks & Hw & Hks) pending. unfold write_command.
  pose proof (Hm RCmdMap) as Hcm. cbn in Hcm. fold (cmds m) in Hcm. pose proof Hcm as [Hl _].
  change sm with (taken (M := shm_mem) [] sm) at 1.
  rewrite (run_then (M := shm_mem) _ _ _ _ _ (get_cmd_map_run sm Hf m (sn_pmap s) Hm Hpl)).
  change (taken (M := shm_mem) [] sm) with sm.
  destruct (map_wf_lookup (cmds m) 0 Hcm) as (v0 & Hv0 & Hw0); [lia|].
  destruct (map_wf_lookup (cmds m) (S ix) Hcm) as (v1 & Hv1 & Hw1); [lia|].
  rewrite (buf_get_done _ _ _ Hv0), local_done, Hsi, flag_on_nat, local_done by done.
  rewrite (nth_lookup_Some _ _ _ _ Hv0) in Hflag. rewrite Hflag.
  replace (Z.to_nat (1 + Z.of_nat ix)) with (S ix) by lia.
  assert (Hpv : pending = v1) by (unfold pending; by rewrite (nth_lookup_Some _ _ _ _ Hv1)).
  rewrite (buf_get_done _ _ _ Hv1), local_done, <- Hpv.
  destruct (device_read_command_run sm ix pending (sn_params s) m Hf Hm Hix Hps Hon) as (got & Hgw & Hgot & Hr).
  pose proof Hgw as [Hgl _]. rewrite (run_then (M := shm_mem) _ _ _ _ _ Hr). clear Hr. cbv beta iota.
  destruct (make_device_write_image _ d pending got Hd) as (mask & Hmask & Hbits & ->); [by subst v1 | done |].
  rewrite local_done.
  destruct (command_msg_ok d mask got) as [Hok Hmax].
  destruct (send_message_run logger (command_msg d mask got) (io_in (sn_io s)) ws ks wtail (io_out (sn_io s)) Hok Hmax Hw)
    as (ws' & Hsend).
  { destruct Hok as (_ & _ & Hlen). pose proof (frame_length_max _ Hlen Hmax). lia. }
  assert (Hio : sn_io s = DevIO (io_in (sn_io s)) (ws ++ wtail) (io_out (sn_io s))).
  { rewrite <- Hws. by destruct (sn_io s). }
  unfold command_msg in Hsend. cbv zeta in Hsend. rewrite Hio, Hsend, local_done.
  eexists mask, got, _, ws'. split; [done|]. split; [done|]. split; [done|].
  split; [|split; [|split; [|split; [|reflexivity]]]]; try done.
  intros i Hi Hb. by rewrite Hgot, Hb by done.
Qed.

(** The executor writes a command; then the sender of the device looks. *)
Definition command_sent (relay : relay_t) (ix : nat) (mask : Z) (vals : list param_val_t)
  (s : sender_t) : prog (M := shm_mem) sender_t :=
  _ ← device_write (Z.of_nat ix) EXECUTOR COMMAND mask vals; write_command logger relay s.

(** The command and the look, together. *)
Lemma command_sent_run sm d relay ix mask vals s m ws wtail :
  all_free sm -> mem_wf (M := shm_mem) m -> (ix < MAX_DEVICES)%nat -> bit_on (cat m) ix = true ->
  get_device (id_type (dev_id relay)) = Some d -> shm_dev_idx relay = Z.of_nat ix ->
  word32 mask -> params_wf vals -> length (sn_pmap s) = S MAX_DEVICES -> params_wf (sn_params s) ->
  io_ws (sn_io s) = ws ++ wtail -> room ws (MAX_PAYLOAD_SIZE + 6) ->
  let pending := Z.lor (nth (S ix) (cmds m) 0) mask in
  exists sent got s' m', run (command_sent relay ix mask vals s) (Sys m sm) = Done (s', Sys m' sm) /\
    word32 sent /\ params_wf got /\
    (forall i, bit_on sent i = bit_on pending i && writable d i) /\
    (forall i, (i < MAX_PARAMS)%nat -> bit_on mask i = true -> got !! i = vals !! i) /\
    io_out (sn_io s') = io_out (sn_io s) ++ frame (command_msg d sent got) /\
    bit_on (nth 0 (cmds m') 0) ix = false /\ nth (S ix) (cmds m') 0 = 0 /\
    (forall j, j ≠ ix -> nth (S j) (cmds m') 0 = nth (S j) (cmds m) 0).
Proof.
  intros Hf Hm Hix Hon Hd Hsi Hmask Hv Hpl Hps Hws Hroom pending. unfold command_sent.
  pose proof (Hm RCmdMap) as Hcm. cbn in Hcm. fold (cmds m) in Hcm. pose proof Hcm as [Hl _].
  destruct (device_write_command_run sm ix mask vals m Hf Hm Hix Hv Hon) as (to & _ & Hto & Hspec & Hw).
  rewrite (run_then (M := shm_mem) _ _ _ _ _ Hw). clear Hw.
  set (bm := cmd_pended ix mask (cmds m)). set (m1 := shm_store RCmdMap bm _).
  assert (Hbm : map_wf bm) by (by apply cmd_pended_wf).
  assert (Hm1 : mem_wf (M := shm_mem) m1) by (by apply command_stored_wf).
  destruct (nth_pended ix mask (cmds m)) as (H0 & H1 & H2); [lia|]. fold bm in H0, H1, H2.
  assert (Hflag : bit_on (nth 0 (cmds m1) 0) ix = true) by (change (cmds m1) with bm; rewrite H0; apply bit_on_set_eq).
  destruct (write_command_run sm d relay ix s m1 ws wtail Hf Hm1 Hix Hon Hd Hsi Hflag Hpl Hps Hws Hroom)
    as (sent & got & s' & ws' & Hsw & Hgw & Hbits & Hgot & _ & _ & Hout & Hrun).
  change (cmds m1) with bm in *. rewrite H1 in *. fold pending in Hbits, Hgot, Hrun.
  destruct (nth_acked ix pending bm) as (A0 & A1 & A2); [destruct Hbm; lia|].
  assert (Hp : pars m1 COMMAND ix = to) by (unfold m1; by apply (pars_store COMMAND)).
  exists sent, got, s'. eexists. split; [exact Hrun|]. do 3 (split; [done|]).
  split; [|split; [done|split; [|split]]].
  - intros i Hi Hb. rewrite Hgot, Hp, Hspec, Hb; [done | done | done |].
    unfold pending. by rewrite bit_on_lor, Hb, orb_true_r.
  - cbn [cmds cmd_map dev_shm shm_store set_dev_shm]. rewrite A0. apply bit_on_clear_eq.
  - cbn [cmds cmd_map dev_shm shm_store set_dev_shm]. rewrite A1, H1. fold pending.
    apply clear_bits_all; [|done]. unfold pending. apply word32_lor; [by apply map_wf_nth | done].
  - intros j Hj. cbn [cmds cmd_map dev_shm shm_store set_dev_shm]. rewrite A2 by done. by apply H2.
Qed.

End Commands.

(** ** The theorems on the traffic with a device *)

(** C7: what a device reports is what the shared memory holds. Let a connected, verified device
    send any events (values of parameters, lines for the log, pings), each behind any bytes
    that are no delimiter, cut by the kernel anywhere. The receiver ends between two messages
    having read them all; every parameter of the device then has the value of the latest
    report that carried it (the low byte for a BOOL) and the others are as before, nothing
    else of the shared memory has changed, the lines have gone to the logger in order, and
    the time of the last message is that of the last event. *)
Theorem reports_reach_shm {H : Heap} {HR : ReliableHeap H} logger d relay ix sm items times r m cs tail :
  all_free sm -> mem_wf (M := shm_mem) m -> (ix < MAX_DEVICES)%nat -> bit_on (cat m) ix = true ->
  get_device (id_type (dev_id relay)) = Some d -> verified relay -> shm_dev_idx relay = Z.of_nat ix ->
  idle r -> Forall (item_ok d) items -> length times = length items ->
  Forall is_data cs -> stream cs = sent_by d items -> rc_io r = cs ++ tail ->
  exists r' to, run (receiver_loop logger relay times r) (Sys m sm) =
      Done (r', Sys (shm_store (RParams DATA ix) to m) sm) /\
    data_after d (fun i => latest i (snd <$> items)) (pars m DATA ix) to /\
    rc_last r' = List.last times (rc_last r) /\
    rc_logged r' = rc_logged r ++ logged_lines logger (snd <$> items) /\ rc_io r' = tail.
Proof. intros. by eapply (receiver_loop_run logger d relay ix sm). Qed.

(** A verified KoalaBear at index 0 of [demo], a receiver between two messages, and three
    events of it behind some noise. *)
Definition demo_relay : relay_t := Relay false 3 7 0 (DevId 6 1 77) 0.
Definition demo_events : list (bytes * event) :=
  [([9; 9], Report 3 (replicate 32 7)); ([], Line [72; 105]); ([255], Report 2 (replicate 32 5))].
Definition demo_receiver (cs : list chunk) : receiver_t :=
  Receiver (Message 0 (replicate MAX_PAYLOAD_SIZE 0) 0 132) (replicate 32 0) 0 [] cs.
Definition demo_stream : list chunk :=
  let bs := sent_by KoalaBear demo_events in [Data (take 3 bs); Data (drop 3 bs)].

Lemma reports_reach_shm_witness :
  exists r' to, run (@receiver_loop zero_heap logger_start demo_relay [10; 20; 30] (demo_receiver demo_stream)) (Sys demo sems_start) =
      Done (r', Sys (shm_store (RParams DATA 0) to demo) sems_start) /\
    data_after KoalaBear (fun i => latest i (snd <$> demo_events)) (pars demo DATA 0) to /\
    rc_last r' = 30 /\
    rc_logged r' = [] ++ logged_lines logger_start (snd <$> demo_events) /\ rc_io r' = [].
Proof.
  apply (reports_reach_shm (H := zero_heap) logger_start KoalaBear demo_relay 0 sems_start demo_events [10; 20; 30]
    (demo_receiver demo_stream) demo demo_stream []); try reflexivity.
  - exact sems_start_ok.
  - exact demo_wf.
  - unfold MAX_DEVICES. lia.
  - discriminate.
  - split; [reflexivity|]. split; [reflexivity|]. apply Forall_replicate. unfold word32. lia.
  - assert (Hw : forall x, word32 x -> params_wf (replicate 32 x)) by (intros x Hx; split; [done | by apply Forall_replicate]).
    repeat constructor; cbn; unfold byte_ok, word32; try lia; try (apply Hw; unfold word32; lia).
  - repeat constructor; eexists _, _; vm_compute; reflexivity.
Defined.

(** A command of the executor is put on the wire. On a connected device of a registered
    type, after the executor's [device_write] one look of the sender sends exactly one frame:
    a DEVICE_WRITE of the parameters that were pending or have just been written, as far as
    they are writable, with the values written; nothing is pending for the device afterwards,
    and no other device's entry has changed. *)
Theorem command_reaches_wire {H : Heap} {HR : ReliableHeap H} logger sm d relay ix mask vals s m ws wtail :
  all_free sm -> mem_wf (M := shm_mem) m -> (ix < MAX_DEVICES)%nat -> bit_on (cat m) ix = true ->
  get_device (id_type (dev_id relay)) = Some d -> shm_dev_idx relay = Z.of_nat ix ->
  word32 mask -> params_wf vals -> length (sn_pmap s) = S MAX_DEVICES -> params_wf (sn_params s) ->
  io_ws (sn_io s) = ws ++ wtail -> room ws (MAX_PAYLOAD_SIZE + 6) ->
  let pending := Z.lor (nth (S ix) (cmds m) 0) mask in
  exists sent got s' m', run (command_sent logger relay ix mask vals s) (Sys m sm) = Done (s', Sys m' sm) /\
    (forall i, bit_on sent i = bit_on pending i && writable d i) /\
    (forall i, (i < MAX_PARAMS)%nat -> bit_on mask i = true -> got !! i = vals !! i) /\
    io_out (sn_io s') = io_out (sn_io s) ++ frame (command_msg d sent got) /\
    bit_on (nth 0 (cmds m') 0) ix = false /\ nth (S ix) (cmds m') 0 = 0 /\
    (forall j, j ≠ ix -> nth (S j) (cmds m') 0 = nth (S j) (cmds m) 0).
Proof.
  intros Hf Hm Hix Hon Hd Hsi Hmask Hv Hpl Hps Hws Hroom pending.
  destruct (command_sent_run logger sm d relay ix mask vals s m ws wtail) as (sent & got & s' & m' & Hrun & _ & _ & Hs); [done..|].
  by exists sent, got, s', m'.
Qed.

Definition demo_sender : sender_t :=
  Sender (replicate 33 0) (replicate 32 0) (replicate 33 0) 0 (DevIO [] [Wrote 100; Wrote 100] []).

Lemma command_reaches_wire_witness :
  let pending := Z.lor (nth 1 (cmds demo) 0) 5 in
  exists sent got s' m', run (@command_sent zero_heap logger_start demo_relay 0 5 (replicate 32 9) demo_sender)
      (Sys demo sems_start) = Done (s', Sys m' sems_start) /\
    (forall i, bit_on sent i = bit_on pending i && writable KoalaBear i) /\
    (forall i, (i < MAX_PARAMS)%nat -> bit_on 5 i = true -> got !! i = replicate 32 9 !! i) /\
    io_out (sn_io s') = [] ++ frame (command_msg KoalaBear sent got) /\
    bit_on (nth 0 (cmds m') 0) 0 = false /\ nth 1 (cmds m') 0 = 0 /\
    (forall j, j ≠ 0%nat -> nth (S j) (cmds m') 0 = nth (S j) (cmds demo) 0).
Proof.
  apply (command_reaches_wire (H := zero_heap) logger_start sems_start KoalaBear demo_relay 0 5 (replicate 32 9)
    demo_sender demo [Wrote 100; Wrote 100] [] sems_start_ok demo_wf); try reflexivity;
    try (unfold MAX_DEVICES, word32; lia); try (split; [reflexivity | apply Forall_replicate; unfold word32; lia]).
  exists [100; 100]%nat. split; [repeat constructor | vm_compute; lia].
Defined.

(** ** Verifying a device *)

Definition ping_msg : message_t := Message DEVICE_PING [] 0 0.

Section Verifying.
Context {H : Heap} {HR : ReliableHeap H} (logger : logger_t).

Lemma make_empty_run n : exists p, make_empty n = Done (Message NOP p 0 n) /\ length p = n.
Proof.
  unfold make_empty. destruct (alloc_done sizeof_message_t) as (b & -> & _).
  destruct (alloc_done n) as (p & -> & Hp). exists p. done.
Qed.

Lemma send_ping_run cs ws wtail out : room ws 10 ->
  exists ping ws', make_ping = Done ping /\
    send_message logger (Some ping) (DevIO cs (ws ++ wtail) out) = Done (0, DevIO cs (ws' ++ wtail) (out ++ frame ping_msg)).
Proof.
  intros (ks & Hw & Hks). unfold make_ping. destruct (alloc_done sizeof_message_t) as (b & -> & _). rewrite bind_done.
  assert (Hok : message_ok ping_msg).
  { unfold message_ok, ping_msg, byte_ok, DEVICE_PING. cbn. split; [lia|]. split; [done | lia]. }
  destruct (send_message_run logger ping_msg cs ws ks wtail out Hok) as (ws' & Hs); [cbn; lia | done | |].
  { pose proof (packet_encoded_length ping_msg ltac:(done) ltac:(cbn; lia)) as Hc. cbn [payload_length ping_msg] in Hc.
    unfold frame. cbn [length]. lia. }
  exists ping_msg, ws'. done.
Qed.

(** Everything behind the ping, for what [receive_message] gives. *)
Lemma verify_device_run env relay io ws wtail :
  io_ws io = ws ++ wtail -> room ws 10 ->
  exists p ws', length p = MAX_PAYLOAD_SIZE /\ verify_device logger env relay io =
    let io1 cs := DevIO cs (ws' ++ wtail) (io_out io ++ frame ping_msg) in
    '(ret, ack, cs) ← receive_message relay (io_in io) (Message NOP p 0 MAX_PAYLOAD_SIZE);
    if negb (ret =? 0) then mret (2, relay, io1 cs)
    else if negb (message_id ack =? ACKNOWLEDGEMENT) then mret (2, relay, io1 cs)
    else if negb (is_virtual relay) && negb (tcgetattr_ok env && tcsetattr_ok env) then mret (-1, relay, io1 cs)
    else
      type ← buf_read (payload ack) 0 1;
      year ← buf_read (payload ack) 1 1;
      uid ← buf_read (payload ack) 2 8;
      mret (0, Relay (is_virtual relay) (port_num relay) (file_descriptor relay) (shm_dev_idx relay)
                 (DevId (le_word type) (le_word year) (le_word uid)) (verify_time env), io1 cs).
Proof.
  intros Hws Hroom. destruct (send_ping_run (io_in io) ws wtail (io_out io) Hroom) as (ping & ws' & Hp & Hs).
  destruct (make_empty_run MAX_PAYLOAD_SIZE) as (p & He & Hl). exists p, ws'. split; [done|].
  assert (Hio : io = DevIO (io_in io) (ws ++ wtail) (io_out io)) by (rewrite <- Hws; by destruct io).
  unfold verify_device. rewrite Hp, bind_done, Hio, Hs, bind_done. change (negb (0 =? 0)) with false. cbv iota.
  by rewrite He, bind_done.
Qed.

Lemma delivered_read msg target i k :
  (i + k <= payload_length msg)%nat -> (payload_length msg <= length (payload msg))%nat ->
  buf_read (payload (delivered msg target)) i k = Done (take k (drop i (payload msg))).
Proof.
  intros Hik Hl. unfold buf_read, delivered. cbn [payload].
  rewrite (proj2 (Nat.leb_le _ _)) by list_lia. unfold mret, outcome_ret. f_equal.
  rewrite drop_app_le by (rewrite length_take; lia). rewrite take_app_le by list_lia.
  rewrite skipn_firstn_comm, take_take. f_equal. lia.
Qed.

(** A first byte that is no delimiter, the end of the file (a time-out) or an error. *)
Lemma first_byte_refuses c cs : (forall bs, c ≠ Data (0 :: bs)) ->
  exists ret cs', first_byte (c :: cs) = Done (Some ret, cs') /\ ret ≠ 0.
Proof.
  intros Hne. unfold first_byte. destruct c as [[|b bs]| |e]; cbn [sys_read]; [by eexists 3, _ | | by eexists 3, _..].
  assert (Hb : b ≠ 0) by (intros ->; by apply (Hne bs)). exists 1.
  assert (Hgot : forall cs', (last ← kernel_store [0] 0 [b]; last_byte_read ← buf_get last 0;
      mret (if 1 =? -1 then Some 3 else if 1 =? 0 then Some 3
            else if negb (last_byte_read =? 0) then Some 1 else None, cs')) = Done (Some 1, cs' : list chunk)).
  { intros cs'. change (kernel_store [0] 0 [b]) with (Done [b]). rewrite bind_done.
    change (buf_get [b] 0) with (Done b). by rewrite bind_done, (proj2 (Z.eqb_neq b 0)). }
  destruct (Nat.leb_spec (length (b :: bs)) 1) as [Hle|Hgt].
  - destruct bs; [|cbn in Hle; lia]. exists cs. split; [apply Hgot | done].
  - eexists. split; [apply Hgot | done].
Qed.

Lemma le_word_byte (l : bytes) i : (i < length l)%nat -> le_word (take 1 (drop i l)) = nth i l 0.
Proof.
  intros Hi. destruct (lookup_lt_is_Some_2 l i Hi) as [x Hx].
  rewrite (drop_S _ _ _ Hx), (nth_lookup_Some _ _ _ _ Hx). change (le_word [x] = x). cbn [le_word]. lia.
Qed.

End Verifying.

(** [verify_device] accepts a device exactly by its acknowledgement. With a descriptor that
    takes writes, a ping is sent; when the next bytes are the frame of an ACKNOWLEDGEMENT with
    at least ten bytes the result is 0 (-1, undocumented, when the options of a serial port
    cannot be changed) and the identity of the device is the one the payload spells in little
    endian; when the device sends any other message, or a first byte that is no delimiter, or
    nothing, the result is 2 and the relay is as before. *)
Theorem verify_device_spec {H : Heap} {HR : ReliableHeap H} logger env relay io ws wtail :
  id_uid (dev_id relay) = NO_UID -> io_ws io = ws ++ wtail -> room ws 10 ->
  (forall msg rest cs tail,
     message_ok msg -> (payload_length msg <= MAX_PAYLOAD_SIZE)%nat -> (10 <= payload_length msg)%nat ->
     Forall is_data cs -> stream cs = frame msg ++ rest -> io_in io = cs ++ tail ->
     exists relay' io' cs', io_in io' = cs' ++ tail /\ stream cs' = rest /\ io_out io' = io_out io ++ frame ping_msg /\
     if message_id msg =? ACKNOWLEDGEMENT then
       if is_virtual relay || (tcgetattr_ok env && tcsetattr_ok env) then
         verify_device logger env relay io = Done (0, relay', io') /\
         dev_id relay' = DevId (nth 0 (payload msg) 0) (nth 1 (payload msg) 0) (le_word (take 8 (drop 2 (payload msg)))) /\
         last_received_msg_time relay' = verify_time env /\ shm_dev_idx relay' = shm_dev_idx relay
       else verify_device logger env relay io = Done (-1, relay, io')
     else verify_device logger env relay io = Done (2, relay, io')) /\
  (forall b bs tail, b ≠ 0 -> io_in io = Data (b :: bs) :: tail ->
     exists io', verify_device logger env relay io = Done (2, relay, io')) /\
  (forall tail, io_in io = Eof :: tail -> exists io', verify_device logger env relay io = Done (2, relay, io')).
Proof.
  intros Hu Hws Hroom. destruct (verify_device_run logger env relay io ws wtail Hws Hroom) as (p & ws' & Hp & Hrun).
  cbv zeta in Hrun. rewrite Hrun. clear Hrun. split; [|split].
  - intros msg rest cs tail Hok Hmax Hmin Hd Hs Hin. pose proof Hok as (_ & _ & Hl). rewrite Hin.
    destruct (receive_first_run relay msg rest cs tail (Message NOP p 0 MAX_PAYLOAD_SIZE) Hu Hok Hmax)
      as (cs' & Hr & Hs' & Hd'); [cbn; lia | done | done |].
    rewrite Hr, bind_done. cbv beta iota. change (negb (0 =? 0)) with false. cbv iota.
    change (message_id (delivered msg _)) with (message_id msg).
    destruct (message_id msg =? ACKNOWLEDGEMENT); cbn [negb];
      [|by eexists relay, (DevIO (cs' ++ tail) _ _), cs'].
    destruct (is_virtual relay); cbn [negb andb orb];
      [|destruct (tcgetattr_ok env && tcsetattr_ok env); cbn [negb]; [|by eexists relay, (DevIO (cs' ++ tail) _ _), cs']].
    all: eexists _, (DevIO (cs' ++ tail) _ _), cs'; split; [reflexivity|]; split; [done|]; split; [reflexivity|].
    all: rewrite !delivered_read by lia; rewrite !bind_done; split; [reflexivity|].
    all: cbn [dev_id last_received_msg_time shm_dev_idx]; by rewrite !le_word_byte by lia.
  - intros b bs tail Hb Hin. rewrite Hin. unfold receive_message. rewrite Hu, Z.eqb_refl.
    destruct (first_byte_refuses (Data (b :: bs)) tail) as (ret & cs' & -> & Hret); [congruence|].
    rewrite !bind_done, (proj2 (Z.eqb_neq ret 0)) by done. by eexists.
  - intros tail Hin. rewrite Hin. unfold receive_message. rewrite Hu, Z.eqb_refl. by eexists.
Qed.

Definition new_relay : relay_t := Relay false 3 7 (-1) (DevId 255 255 NO_UID) 0.
Definition demo_ack : message_t := Message ACKNOWLEDGEMENT [6; 1; 77; 0; 0; 0; 0; 0; 0; 0] 10 10.

Lemma verify_device_spec_witness :
  exists relay' io', @verify_device zero_heap logger_start (VerifyEnv true true 5) new_relay
      (DevIO [Data (frame demo_ack)] [Wrote 100] []) = Done (0, relay', io') /\
    dev_id relay' = DevId 6 1 77 /\ last_received_msg_time relay' = 5.
Proof.
  destruct (verify_device_spec (H := zero_heap) logger_start (VerifyEnv true true 5) new_relay
    (DevIO [Data (frame demo_ack)] [Wrote 100] []) [Wrote 100] []) as (Hacc & _ & _).
  - reflexivity.
  - reflexivity.
  - exists [100]%nat. split; [repeat constructor; lia | cbn; lia].
  - destruct (Hacc demo_ack [] [Data (frame demo_ack)] []) as (relay' & io' & cs' & _ & _ & _ & Hv).
    + unfold message_ok, byte_ok. cbn. unfold ACKNOWLEDGEMENT. split; [lia|]. split; [repeat constructor; lia | lia].
    + vm_compute. lia.
    + vm_compute. lia.
    + repeat constructor. eexists _, _. vm_compute. reflexivity.
    + vm_compute. reflexivity.
    + reflexivity.
    + cbn in Hv. destruct Hv as (Hv & Hid & Ht & _). exists relay', io'. split; [exact Hv|]. split; [exact Hid | exact Ht].
Defined.

(** ** The start of the threads *)

Inductive reach (spurious : bool) : startup -> Prop :=
| reach_start : reach spurious startup_start
| reach_step s s' : reach spurious s -> start_step spurious s s' -> reach spurious s'.

(** The workers and the connection. Unless [pthread_cond_wait] wakes up without a
    broadcast, no worker works before the relayer has connected the device or after it has
    disconnected it, so the index they use is below MAX_DEVICES; with such a wake-up (which
    the code does not guard against) both can work with the index -1. And the broadcast can
    be lost: a sender that reaches its wait after the broadcast stays there until the relayer
    ends, while the receiver works and the device counts as connected. *)
Theorem startup_spec :
  (forall s, reach false s -> sender_pc s = Working \/ receiver_pc s = Working ->
     relayer_at s = Monitoring /\ exists ix, connected_ix s = Some ix /\ (ix < MAX_DEVICES)%nat) /\
  (exists s, reach true s /\ sender_pc s = Working /\ receiver_pc s = Working /\ connected_ix s = None) /\
  (exists s, reach false s /\ sender_pc s = Waiting /\ receiver_pc s = Working /\ relayer_at s = Monitoring /\
     forall s', rtc (start_step false) s s' -> sender_pc s' = Waiting \/ relayer_at s' = Ended).
Proof.
  split; [|split].
  - assert (Hinv : forall s, reach false s ->
      (sender_pc s = Working \/ receiver_pc s = Working -> relayer_at s = Monitoring) /\
      (relayer_at s = Connecting \/ relayer_at s = Monitoring ->
         exists ix, connected_ix s = Some ix /\ (ix < MAX_DEVICES)%nat)).
    { induction 1 as [|s s' _ [IH1 IH2] Hs]; [split; intros [?|?]; done|].
      destruct Hs; cbn in *; try done; (split; [intros [Hor|Hor] | intros [Hor|Hor]]); try done;
        try (by eauto); by specialize (IH1 ltac:(eauto)). }
    intros s Hs Hw. destruct (Hinv s Hs) as [H1 H2]. split; [by apply H1 | apply H2; right; by apply H1].
  - exists (Startup Working Working Verifying None). split; [|done].
    eapply reach_step; [|by apply (receiver_wakes true)]. eapply reach_step; [|apply receiver_waits].
    eapply reach_step; [|by apply (sender_wakes true)]. eapply reach_step; [apply reach_start | apply sender_waits].
  - exists (Startup Waiting Working Monitoring (Some 0%nat)). split; [|split; [done|split; [done|split; [done|]]]].
    + eapply reach_step; [|apply sender_waits]. eapply reach_step; [|apply (relayer_broadcasts false NotWaiting Waiting)].
      eapply reach_step; [|apply (relayer_connects false NotWaiting Waiting 0); unfold MAX_DEVICES; lia].
      eapply reach_step; [apply reach_start | apply receiver_waits].
    + intros s' Hr. remember (Startup Waiting Working Monitoring (Some 0%nat)) as s eqn:Hs.
      assert (Hst : (sender_pc s = Waiting /\ relayer_at s = Monitoring) \/ relayer_at s = Ended) by (left; by subst).
      clear Hs. induction Hr as [s|s s1 s2 Hstep _ IH]; [tauto|]. apply IH.
      destruct Hstep; cbn in *; intuition congruence.
Qed.

(** ** The ports in use *)

Definition new_port (exists_ : string -> bool) (virt : bool) (used : Z) (i : nat) : bool :=
  negb (bit_on used i) && exists_ (port_name virt i).

Lemma ports_wait {A} (k : unit -> prog (M := ports_mem) A) p :
  run (wait (M := ports_mem) used_ports_lock ≫= k) (Sys (M := ports_mem) p ports_sems) =
  run (k tt) (Sys (M := ports_mem) p {[ tt := 0%nat ]}).
Proof. done. Qed.

Lemma ports_post {A} (k : unit -> prog (M := ports_mem) A) p :
  run (post (M := ports_mem) used_ports_lock ≫= k) (Sys (M := ports_mem) p {[ tt := 0%nat ]}) =
  run (k tt) (Sys (M := ports_mem) p ports_sems).
Proof. done. Qed.

Lemma filter_seq_ext (f g : nat -> bool) k : forall i, (forall j, (i <= j)%nat -> f j = g j) ->
  filter (fun j => f j = true) (seq i k) = filter (fun j => g j = true) (seq i k).
Proof.
  induction k as [|k IH]; intros i He; [done|]. cbn [seq]. rewrite !filter_cons, (He i) by done.
  rewrite (IH (S i)) by (intros j Hj; apply He; lia). done.
Qed.

Lemma scan_ports_run exists_ virt k : forall i found n p,
  exists found' p', run (scan_ports exists_ virt k i found n) (Sys (M := ports_mem) p ports_sems) =
      Done (found', n + Z.of_nat (length (filter (fun j => new_port exists_ virt (load_ports virt p) j = true) (seq i k))),
            Sys (M := ports_mem) p' ports_sems) /\
    load_ports (negb virt) p' = load_ports (negb virt) p /\
    (forall j, bit_on found' j = bit_on found j || between i k j && new_port exists_ virt (load_ports virt p) j) /\
    (forall j, bit_on (load_ports virt p') j = bit_on (load_ports virt p) j || between i k j && exists_ (port_name virt j)).
Proof.
  induction k as [|k IH]; intros i found n p; cbn [scan_ports].
  - exists found, p. cbn [seq length]. rewrite Z.add_0_r. split; [done|]. split; [done|].
    split; intros j; by rewrite between_0, orb_false_r.
  - rewrite ports_wait. set (used := load_ports virt p) in *.
    rewrite (run_get (M := ports_mem) (ML := ports_mem_laws) _ virt _ used) by done.
    cbn [seq]. rewrite filter_cons. fold (new_port exists_ virt used i).
    destruct (new_port exists_ virt used i) eqn:Hnew; rewrite ?decide_True, ?decide_False by done.
    + rewrite (run_upd (M := ports_mem) _ virt _ (bit_set used i)) by done. rewrite ports_post.
      apply andb_true_iff in Hnew as [Hu He]. apply negb_true_iff in Hu.
      assert (Hl : load_ports virt (store_ports virt (bit_set used i) p) = bit_set used i) by (by destruct virt).
      destruct (IH (S i) (bit_set found i) (n + 1) (store_ports virt (bit_set used i) p)) as (f' & p' & Hr & Ho & Hb & Hus).
      exists f', p'. rewrite Hl in Hr, Hb, Hus. split; [|split; [|split]].
      * change (store (SharedMem := ports_mem) virt) with (store_ports virt). rewrite Hr. do 3 f_equal.
        cbn [length]. rewrite Nat2Z.inj_succ.
        assert (Heq : filter (fun j => new_port exists_ virt (bit_set used i) j = true) (seq (S i) k) =
          filter (fun j => new_port exists_ virt used j = true) (seq (S i) k)).
        { apply filter_seq_ext. intros j Hj. unfold new_port. by rewrite bit_on_set_ne by lia. }
        rewrite Heq. lia.
      * rewrite Ho. by destruct virt.
      * intros j. rewrite Hb. destruct (decide (j = i)) as [->|Hj].
        -- rewrite bit_on_set_eq, between_here. unfold new_port. by rewrite Hu, He, orb_true_r.
        -- rewrite bit_on_set_ne by done. rewrite between_S by done. unfold new_port. by rewrite bit_on_set_ne.
      * intros j. rewrite Hus. destruct (decide (j = i)) as [->|Hj].
        -- by rewrite bit_on_set_eq, between_here, He, orb_true_r.
        -- rewrite bit_on_set_ne by done. by rewrite between_S.
    + rewrite ports_post. destruct (IH (S i) found n p) as (f' & p' & Hr & Ho & Hb & Hus).
      exists f', p'. fold used in Hr, Hb, Hus. split; [done|]. split; [done|]. split.
      * intros j. rewrite Hb. destruct (decide (j = i)) as [->|Hj]; [|by rewrite between_S].
        by rewrite between_past, between_here, Hnew.
      * intros j. rewrite Hus. destruct (decide (j = i)) as [->|Hj]; [|by rewrite between_S].
        rewrite between_past, between_here. unfold new_port in Hnew. destruct (bit_on used i); [done|].
        cbn in Hnew. by rewrite Hnew.
Qed.

(** The scan for new devices. [get_new_devices_helper] adds to the caller's bitmap exactly
    the ports below MAX_DEVICES that were not in use and whose file exists, counts them, marks
    them in use (and nothing else, the other kind's bitmap included), and leaves the lock free;
    so a port found once is not found again until it is released. *)
Theorem get_new_devices_spec exists_ virt found p :
  let used := load_ports virt p in
  let new j := (j <? MAX_DEVICES)%nat && new_port exists_ virt used j in
  exists found' p', run (get_new_devices_helper exists_ virt found) (Sys (M := ports_mem) p ports_sems) =
      Done (found', Z.of_nat (length (filter (fun j => new j = true) (seq 0 MAX_DEVICES))),
            Sys (M := ports_mem) p' ports_sems) /\
    (forall j, bit_on found' j = bit_on found j || new j) /\
    (forall j, bit_on (load_ports virt p') j = bit_on used j || new j) /\
    load_ports (negb virt) p' = load_ports (negb virt) p /\
    (forall j, new_port exists_ virt (load_ports virt p') j = true -> (MAX_DEVICES <= j)%nat).
Proof.
  intros used new. destruct (scan_ports_run exists_ virt MAX_DEVICES 0 found 0 p) as (f' & p' & Hr & Ho & Hb & Hus).
  assert (Hbt : forall j, between 0 MAX_DEVICES j = (j <? MAX_DEVICES)%nat).
  { intros j. unfold between. by rewrite Nat.add_0_l. }
  assert (Hused : forall j, bit_on (load_ports virt p') j = bit_on used j || new j).
  { intros j. rewrite Hus, Hbt. unfold new, new_port. fold used. destruct (bit_on used j); [done|].
    by destruct (j <? MAX_DEVICES)%nat. }
  exists f', p'. split; [|split; [|split; [exact Hused | split; [exact Ho |]]]].
  - unfold get_new_devices_helper. rewrite Hr, Z.add_0_l.
    assert (Heq : forall k i, (i + k <= MAX_DEVICES)%nat ->
      filter (fun j => new_port exists_ virt (load_ports virt p) j = true) (seq i k) =
      filter (fun j => new j = true) (seq i k)).
    { induction k as [|k IH]; intros i Hi; [done|]. cbn [seq]. rewrite !filter_cons, IH by lia.
      assert (Hn : new i = new_port exists_ virt (load_ports virt p) i)
        by (unfold new; by rewrite (proj2 (Nat.ltb_lt i MAX_DEVICES)) by lia).
      by rewrite Hn. }
    rewrite (Heq MAX_DEVICES 0%nat) by lia. reflexivity.
  - intros j. by rewrite Hb, Hbt.
  - intros j. unfold new_port. rewrite Hused. unfold new, new_port. fold used.
    destruct (Nat.ltb_spec j MAX_DEVICES); [|done]. destruct (bit_on used j), (exists_ (port_name virt j)); done.
Qed.

(** Two ports in use; the main thread gives up the first, whose file could not be opened, while
    a relayer cleans up the second. *)
Definition dev_start (p : ports_t) : sys (M := dev_mem) :=
  Sys (M := dev_mem) (shm_start zero_shm, p) (sum_sems shm_mem ports_mem sems_start ports_sems).

Definition port_threads : list (prog (M := dev_mem) unit) :=
  [relay_clean_up (Relay false 0 (-1) (-1) (DevId 0 0 0) 0); relay_clean_up (Relay false 1 7 (-1) (DevId 255 255 NO_UID) 0)].

Definition port_leaked (c : config (M := dev_mem)) : bool :=
  forallb finished (c_threads c) && (used_lowcar_ports (snd (mem (c_sys c))) =? 2).

(** A port can stay in use for ever. The branch of [relay_clean_up] for a device that
    could not be opened updates the bitmap of the ports without the lock: when a relayer
    releases its port in between, that release is overwritten, and although both threads have
    finished the second port still counts as in use, so no scan will find a device there. *)
Theorem port_release_lost :
  exists c, rtc (step (M := dev_mem)) (Config (dev_start (Ports 3 0)) port_threads) c /\
    forallb finished (c_threads c) = true /\ used_lowcar_ports (snd (mem (c_sys c))) = 2 /\
    forall exists_, new_port exists_ false 2 1 = false.
Proof.
  assert (Hl : match run_schedule (M := dev_mem) [0; 1; 1; 1; 1; 0]%nat (Config (dev_start (Ports 3 0)) port_threads) with
               | Some c => port_leaked c | None => false end = true) by (vm_compute; reflexivity).
  destruct (run_schedule (M := dev_mem) _ _) as [c|] eqn:Hc; [|done].
  apply andb_true_iff in Hl as [H1 H2]. apply Z.eqb_eq in H2.
  exists c. split; [by eapply (run_schedule_steps (M := dev_mem)) | done].
Qed.
