(* ===== verification/Lifecycle.v ===== *)
(** * The life of a device: the relayer from the first ping to the clean-up.

    The relayer's program ([DevRelay]) alone on both memories, the blocks and the ports: what
    it leaves of a device that is no device of ours, that finds no room, or that was connected
    until it vanished or fell silent. *)

From stdpp Require Import gmap strings.
From S2P Require Export DevSpec.

(** ** Programs on one of two memories, run on both *)

Section SumRun.
Context (M1 M2 : SharedMem).

Lemma sum_sems_insert_inl (s1 : gmap (sem (SharedMem := M1)) nat) (s2 : gmap (sem (SharedMem := M2)) nat) s n :
  <[inl s := n]> (sum_sems M1 M2 s1 s2) = sum_sems M1 M2 (<[s := n]> s1) s2.
Proof.
  apply map_eq. intros [x|x]; symmetry.
  - etrans; [apply sum_sems_inl|]. destruct (decide (s = x)) as [<-|Hne]; symmetry.
    + etrans; [apply lookup_insert_eq|]. symmetry. apply lookup_insert_eq.
    + etrans; [apply lookup_insert_ne; congruence|]. etrans; [apply sum_sems_inl|]. symmetry. by apply lookup_insert_ne.
  - etrans; [apply sum_sems_inr|]. symmetry. etrans; [by apply lookup_insert_ne | apply sum_sems_inr].
Qed.

Lemma sum_sems_insert_inr (s1 : gmap (sem (SharedMem := M1)) nat) (s2 : gmap (sem (SharedMem := M2)) nat) s n :
  <[inr s := n]> (sum_sems M1 M2 s1 s2) = sum_sems M1 M2 s1 (<[s := n]> s2).
Proof.
  apply map_eq. intros [x|x]; symmetry.
  - etrans; [apply sum_sems_inl|]. symmetry. etrans; [by apply lookup_insert_ne | apply sum_sems_inl].
  - etrans; [apply sum_sems_inr|]. destruct (decide (s = x)) as [<-|Hne]; symmetry.
    + etrans; [apply lookup_insert_eq|]. symmetry. apply lookup_insert_eq.
    + etrans; [apply lookup_insert_ne; congruence|]. etrans; [apply sum_sems_inr|]. symmetry. by apply lookup_insert_ne.
Qed.

Definition both (m1 : memory (SharedMem := M1)) (m2 : memory (SharedMem := M2)) s1 s2 : sys (M := sum_mem M1 M2) :=
  Sys (M := sum_mem M1 M2) (m1, m2) (sum_sems M1 M2 s1 s2).

Lemma run_inl {A} (p : prog (M := M1) A) m2 s2 : forall m1 s1 a m1' s1',
  run p (Sys m1 s1) = Done (a, Sys m1' s1') -> run (inl_prog M1 M2 p) (both m1 m2 s1 s2) = Done (a, both m1' m2 s1' s2).
Proof.
  unfold both. induction p as [a0|s p IH|s p IH|r C f p IH|c| |e]; intros m1 s1 a m1' s1' Hr; cbn in Hr |- *; try done.
  - apply done_pair in Hr as [-> Hst]. by injection Hst as -> ->.
  - rewrite sum_sems_inl. destruct (s1 !! s) as [[|n]|]; try done. rewrite sum_sems_insert_inl. by apply IH.
  - rewrite sum_sems_inl. destruct (s1 !! s) as [n|]; try done. rewrite sum_sems_insert_inl. by apply IH.
  - destruct (f (load r m1)) as [[b v]| | | |]; try done. cbn in *. by apply IH.
Qed.

Lemma run_inr {A} (p : prog (M := M2) A) m1 s1 : forall m2 s2 a m2' s2',
  run p (Sys m2 s2) = Done (a, Sys m2' s2') -> run (inr_prog M1 M2 p) (both m1 m2 s1 s2) = Done (a, both m1 m2' s1 s2').
Proof.
  unfold both. induction p as [a0|s p IH|s p IH|r C f p IH|c| |e]; intros m2 s2 a m2' s2' Hr; cbn in Hr |- *; try done.
  - apply done_pair in Hr as [-> Hst]. by injection Hst as -> ->.
  - rewrite sum_sems_inr. destruct (s2 !! s) as [[|n]|]; try done. rewrite sum_sems_insert_inr. by apply IH.
  - rewrite sum_sems_inr. destruct (s2 !! s) as [n|]; try done. rewrite sum_sems_insert_inr. by apply IH.
  - destruct (f (load r m2)) as [[b v]| | | |]; try done. cbn in *. by apply IH.
Qed.

End SumRun.

(** ** The pieces *)

(** Both memories, the semaphores of the blocks [sm], the ports' lock free. *)
Definition world (m : shm_t) (p : ports_t) (sm : gmap shm_sem nat) : sys (M := dev_mem) :=
  both shm_mem ports_mem m p sm ports_sems.

(** The port of the relay given up. *)
Definition released (relay : relay_t) (p : ports_t) : ports_t :=
  store_ports (is_virtual relay) (bit_clear (load_ports (is_virtual relay) p) (port_num relay)) p.

Lemma release_run relay p :
  run (wait (M := ports_mem) used_ports_lock ;; release_port relay ;; post (M := ports_mem) used_ports_lock)
    (Sys (M := ports_mem) p ports_sems) = Done (tt, Sys (M := ports_mem) (released relay p) ports_sems).
Proof. unfold released. by destruct relay as [[] ? ? ? ? ?]. Qed.

Section Lifecycle.
Context {H : Heap} {HR : ReliableHeap H} (logger : logger_t) (sm : gmap shm_sem nat) (Hf : all_free sm).

(** A clean-up disconnects the device if it was connected, and releases the port. *)
Lemma clean_up_run relay m p : file_descriptor relay ≠ -1 -> shm_dev_idx relay = -1 ->
  run (relay_clean_up relay) (world m p sm) = Done (tt, world m (released relay p) sm).
Proof.
  intros Hfd Hix. unfold relay_clean_up. rewrite (proj2 (Z.eqb_neq (file_descriptor relay) (-1))), Hix by done.
  change (negb (-1 =? -1)) with false. cbv iota.
  rewrite (run_then (M := dev_mem) _ _ _ _ _ (run_ret (M := dev_mem) tt (world m p sm))).
  exact (run_inr shm_mem ports_mem _ m sm _ _ _ _ _ (release_run relay p)).
Qed.

Lemma clean_up_connected_run relay m p ix : mem_wf (M := shm_mem) m -> (ix < MAX_DEVICES)%nat -> file_descriptor relay ≠ -1 ->
  run (relay_clean_up (with_idx (Z.of_nat ix) relay)) (world m p sm) =
  Done (tt, world (disconnected ix m) (released relay p) sm).
Proof.
  intros Hm Hix Hfd. unfold MAX_DEVICES in Hix. unfold relay_clean_up. cbn [with_idx file_descriptor shm_dev_idx].
  rewrite (proj2 (Z.eqb_neq (file_descriptor relay) (-1))), (proj2 (Z.eqb_neq (Z.of_nat ix) (-1))) by (done || lia). cbn [negb].
  pose proof (device_disconnect_run sm Hf (Z.of_nat ix) m Hm ltac:(lia)) as Hd. rewrite Nat2Z.id in Hd. cbn [taken foldr] in Hd.
  rewrite (run_then (M := dev_mem) _ _ _ _ _ (run_inl shm_mem ports_mem _ p ports_sems _ _ _ _ _ Hd)).
  exact (run_inr shm_mem ports_mem _ (disconnected ix m) sm _ _ _ _ _ (release_run (with_idx (Z.of_nat ix) relay) p)).
Qed.

(** The relays that the relayer's own steps do not tell apart: the same port and descriptor. *)
Definition same_relay (relay relay' : relay_t) : Prop :=
  is_virtual relay' = is_virtual relay /\ port_num relay' = port_num relay /\
  file_descriptor relay' = file_descriptor relay /\ shm_dev_idx relay' = shm_dev_idx relay.

(** The port can be set up for the messages that follow the acknowledgement. *)
Definition options_ok (env : verify_env) (relay : relay_t) : bool :=
  is_virtual relay || tcgetattr_ok env && tcsetattr_ok env.

(** The identity an acknowledgement spells. *)
Definition announced (msg : message_t) : dev_id_t :=
  DevId (nth 0 (payload msg) 0) (nth 1 (payload msg) 0) (le_word (take 8 (drop 2 (payload msg)))).

(** What the relayer reads from a device that answers its ping with a message. *)
Lemma verify_answered env relay io ws wtail msg rest cs tail :
  id_uid (dev_id relay) = NO_UID -> io_ws io = ws ++ wtail -> room ws 10 ->
  message_ok msg -> (payload_length msg <= MAX_PAYLOAD_SIZE)%nat -> (10 <= payload_length msg)%nat ->
  Forall is_data cs -> stream cs = frame msg ++ rest -> io_in io = cs ++ tail ->
  exists ret relay' io', verify_device logger env relay io = Done (ret, relay', io') /\ same_relay relay relay' /\
    (ret =? 0) = (message_id msg =? ACKNOWLEDGEMENT) && options_ok env relay /\
    (ret = 0 -> dev_id relay' = announced msg).
Proof.
  intros Hu Hws Hroom Hok Hmax Hmin Hd Hs Hin. unfold options_ok.
  destruct (verify_device_run logger env relay io ws wtail Hws Hroom) as (p & ws' & Hp & ->). cbv zeta.
  pose proof Hok as (_ & _ & Hl). rewrite Hin.
  destruct (receive_first_run relay msg rest cs tail (Message NOP p 0 MAX_PAYLOAD_SIZE) Hu Hok Hmax)
    as (cs' & -> & _); [cbn; lia | done | done |].
  rewrite bind_done. cbv beta iota. change (negb (0 =? 0)) with false. cbv iota.
  change (message_id (delivered msg _)) with (message_id msg).
  destruct (message_id msg =? ACKNOWLEDGEMENT); cbn [negb]; [|by eexists 2, relay, _].
  destruct (is_virtual relay) eqn:Hvi; cbn [negb andb orb]; [|destruct (_ && _); cbn [negb]; [|by eexists (-1), relay, _]].
  all: rewrite !delivered_read, !bind_done by lia; eexists 0, _, _; split; [done|]; split; [done|]; split; [done|].
  all: intros _; cbn [dev_id]; by rewrite !le_word_byte by lia.
Qed.

(** Something else than the start of a message: the end of the file (the read timed out), an
    error, or a first byte that is no delimiter. *)
Lemma verify_refused env relay io ws wtail c cs :
  id_uid (dev_id relay) = NO_UID -> io_ws io = ws ++ wtail -> room ws 10 ->
  io_in io = c :: cs -> (forall bs, c ≠ Data (0 :: bs)) ->
  exists io', verify_device logger env relay io = Done (2, relay, io').
Proof.
  intros Hu Hws Hroom Hin Hc.
  destruct (verify_device_run logger env relay io ws wtail Hws Hroom) as (p & ws' & Hp & ->). cbv zeta.
  rewrite Hin. unfold receive_message. rewrite Hu, Z.eqb_refl.
  destruct (first_byte_refuses c cs Hc) as (ret & cs' & -> & Hret).
  rewrite !bind_done, (proj2 (Z.eqb_neq ret 0)) by done. by eexists.
Qed.

End Lifecycle.

(** A look at a device that is there and has been heard of lately. *)
Definition healthy (l : look) : bool := file_exists l && (u64 (look_time l - last_msg l) <? TIMEOUT).

Lemma monitor_healthy looks : monitor looks = None <-> forallb healthy looks = true.
Proof.
  induction looks as [|l looks IH]; [done|]. cbn [monitor forallb]. unfold judge, healthy at 1.
  destruct (file_exists l); [|done]. cbn [negb andb]. rewrite Z.leb_antisym. by destruct (_ <? _).
Qed.

Lemma connected_wf sm id m ix : all_free sm -> mem_wf (M := shm_mem) m -> find_free MAX_DEVICES 0 (cat m) = Some ix ->
  mem_wf (M := shm_mem) (connected ix id m).
Proof.
  intros Hf Hm Hfree.
  destruct (disc_run_calm (M := shm_mem) (device_connect id) sm Hf (calm_device_connect _) [] [] _
    m (Forall_nil_2 _) (disc_device_connect _) Hm) as [(a & m' & Hr & _ & Hw)|Hr];
    rewrite (device_connect_run sm Hf _ _ Hm), Hfree in Hr; [|done].
  apply done_pair in Hr as [_ Hr]. apply (f_equal mem) in Hr. cbn [mem] in Hr. by rewrite <- Hr in Hw.
Qed.

Lemma disconnected_wf sm m ix : all_free sm -> mem_wf (M := shm_mem) m -> (ix < MAX_DEVICES)%nat ->
  mem_wf (M := shm_mem) (disconnected ix m).
Proof.
  intros Hf Hm Hix. unfold MAX_DEVICES in Hix. assert (Hz : 0 <= Z.of_nat ix < 32) by lia.
  pose proof (device_disconnect_run sm Hf (Z.of_nat ix) m Hm Hz) as Hd. rewrite Nat2Z.id in Hd.
  destruct (disc_run_calm (M := shm_mem) (device_disconnect (Z.of_nat ix)) sm Hf (calm_device_disconnect _) [] [] _
    m (Forall_nil_2 _) (disc_device_disconnect _ Hz) Hm) as [(a & m' & Hr & _ & Hw)|Hr]; rewrite Hd in Hr; [|done].
  apply done_pair in Hr as [_ Hr]. apply (f_equal mem) in Hr. cbn [mem] in Hr. by rewrite <- Hr in Hw.
Qed.

(** ** What the processes would see in between *)

(** A program that completes alone takes its steps. *)
Lemma run_steps {M : SharedMem} {A} (k : A -> prog unit) (p : prog A) : forall st a st',
  run p st = Done (a, st') -> rtc step (Config st [p ≫= k]) (Config st' [k a]).
Proof.
  assert (Hone : forall (p p' q : prog unit) st st' st'', advance p st = Some (p', st') ->
    rtc step (Config st' [p']) (Config st'' [q]) -> rtc step (Config st [p]) (Config st'' [q])).
  { intros p1 p' q st st' st'' Ha Hr. eapply rtc_l; [|exact Hr]. exact (step_thread 0 p1 p' st st' [p1] eq_refl Ha). }
  induction p as [a0|s p IH|s p IH|r C f p IH|c| |e]; intros st a st' Hr; cbn in Hr; try done.
  - by apply done_pair in Hr as [-> ->].
  - destruct (sems st !! s) as [[|n]|] eqn:Hs; try done. eapply Hone; [cbn; by rewrite Hs | by apply IH].
  - destruct (sems st !! s) as [n|] eqn:Hs; try done. eapply Hone; [cbn; by rewrite Hs | by apply IH].
  - destruct (f (load r (mem st))) as [[b v]| | | |] eqn:Hs; try done. eapply Hone; [cbn; by rewrite Hs | by apply IH].
Qed.

(** The lowest free place. *)
Definition lowest_free (m : shm_t) (ix : nat) : Prop :=
  (ix < MAX_DEVICES)%nat /\ bit_on (cat m) ix = false /\ forall j, (j < ix)%nat -> bit_on (cat m) j = true.

(** In [m1] the place [ix] is the device [id]'s, and the others are as in [m]. *)
Definition occupies (ix : nat) (id : dev_id_t) (m m1 : shm_t) : Prop :=
  bit_on (cat m1) ix = true /\ ids m1 !! ix = Some id /\
  forall j, j ≠ ix -> bit_on (cat m1) j = bit_on (cat m) j /\ ids m1 !! j = ids m !! j /\
    forall stream, pars m1 stream j = pars m stream j.

(** In [m'] no device of [ix] is left: the catalog is that of [m], no command is pending for
    the place, and the identities, pending commands and values of the others are those of [m]. *)
Definition vacated (ix : nat) (m m' : shm_t) : Prop :=
  (forall j, bit_on (cat m') j = bit_on (cat m) j) /\
  nth (S ix) (cmds m') 0 = 0 /\ bit_on (nth 0 (cmds m') 0) ix = false /\
  forall j, j ≠ ix -> ids m' !! j = ids m !! j /\ nth (S j) (cmds m') 0 = nth (S j) (cmds m) 0 /\
    forall stream, pars m' stream j = pars m stream j.

Lemma find_free_lowest m ix : find_free MAX_DEVICES 0 (cat m) = Some ix -> lowest_free m ix.
Proof.
  intros Hfree. pose proof (find_free_spec MAX_DEVICES (cat m) 0) as Hff. rewrite Hfree in Hff.
  destruct Hff as (Hlt & Hoff & Hlow). split; [lia|]. split; [done|]. intros j Hj. apply Hlow. lia.
Qed.

Lemma connected_occupies m ix id : (ix < length (ids m))%nat -> occupies ix id m (connected ix id m).
Proof.
  intros Hl. split; [apply bit_on_set_eq|]. split; [by apply list_lookup_insert_eq|].
  intros j Hj. split; [by apply bit_on_set_ne|]. split; [by apply list_lookup_insert_ne|].
  intros stream. unfold pars. destruct stream; cbn -[insert nth replicate]; rewrite nth_insert, decide_False; (done || by intros [-> _]).
Qed.

(** What a visit of a device leaves. *)
Lemma visit_leaves_nothing m ix id : (ix < MAX_DEVICES)%nat -> bit_on (cat m) ix = false -> length (cmds m) = S MAX_DEVICES ->
  vacated ix m (disconnected ix (connected ix id m)).
Proof.
  intros Hix Hoff Hl. set (m' := disconnected ix (connected ix id m)). unfold vacated, cmds in *.
  assert (Hc : cat m' = bit_clear (bit_set (cat m) ix) ix) by done.
  assert (Hcm : cmd_map (dev_shm m') = <[S ix := 0]> (alter (fun v => bit_clear v ix) 0%nat (cmd_map (dev_shm m)))) by done.
  rewrite Hcm, Hc. split; [|split; [|split]].
  - intros j. destruct (decide (ix = j)) as [<-|Hne]; [by rewrite bit_on_clear_eq | by rewrite bit_on_clear_ne, bit_on_set_ne].
  - rewrite nth_lookup, list_lookup_insert_eq by (rewrite length_alter; lia). done.
  - rewrite nth_lookup, list_lookup_insert_ne, list_lookup_alter_eq by done.
    destruct (cmd_map (dev_shm m) !! 0%nat); [apply bit_on_clear_eq | apply bit_on_0].
  - intros j Hj. split; [by apply list_lookup_insert_ne|]. split.
    + by rewrite !nth_lookup, list_lookup_insert_ne, list_lookup_alter_ne by congruence.
    + intros stream. unfold pars. destruct stream; cbn -[insert nth replicate]; rewrite nth_insert, decide_False; (done || by intros [-> _]).
Qed.


