(* ===== verification/Messenger.v ===== *)
(** * The messenger of the devices
    (src/lowcar/devices/Device/Messenger.cpp, Messenger.h and defs.h).

    The code that runs on the Arduino: it has its own copies of the encoder, the decoder and the
    checksum, which differ from those of the device handler. A serial port is the bytes that
    have arrived, those that arrive while [readBytesUntil] waits, and what has been written;
    local arrays hold whatever the stack held ([Stack]). *)

From stdpp Require Import strings.
From S2P Require Export Message.

(** ** The environment *)

(** The contents of a local array of the given size. *)
Class Stack : Set := {
  stack : nat -> bytes;
  stack_length : forall n, length (stack n) = n
}.

#[export] Instance zero_stack : Stack := {| stack n := replicate n 0; stack_length := fun n => length_replicate n 0 |}.

Record serial_t : Set := Serial {
  rx : bytes;              (* arrived: what available() counts *)
  coming : bytes;          (* what arrives while readBytesUntil waits *)
  tx : bytes;              (* what has been written *)
  tx_room : nat            (* how many more bytes write() takes *)
}.

Definition serial_write (bs : bytes) (s : serial_t) : nat * serial_t :=
  let k := (length bs `min` tx_room s)%nat in
  (k, Serial (rx s) (coming s) (tx s ++ take k bs) (tx_room s - k)).

Definition set_rx (bs : bytes) (s : serial_t) : serial_t := Serial bs (coming s) (tx s) (tx_room s).

(** [readBytesUntil(0x00, buf, n)]: the bytes stored, and how many are taken from the stream;
    the terminator is taken and not stored. *)
Fixpoint read_until (n : nat) (bs : bytes) : bytes * nat :=
  match n, bs with
  | S n', b :: bs' =>
      if b =? 0 then ([], 1%nat)
      else let '(got, k) := read_until n' bs' in (b :: got, S k)
  | _, _ => ([], 0%nat)
  end.

Definition serial_read_until (n : nat) (s : serial_t) : bytes * serial_t :=
  let '(got, k) := read_until n (rx s ++ coming s) in
  (got, Serial (drop k (rx s)) (drop (k - length (rx s)) (coming s)) (tx s) (tx_room s)).

(** ** Data *)

Inductive Status : Set := SUCCESS | PROCESS_ERROR | MALFORMED_DATA | NO_DATA.

#[export] Instance Status_eq_dec : EqDecision Status.
Proof. solve_decision. Defined.

(** A decoded message; the length is a byte and the payload an array. *)
Record lc_message : Set := LcMessage { lc_id : Z; lc_length : nat; lc_payload : bytes }.

(** [num_logs] and the size of the queue are bytes; an entry is a pointer. *)
Record messenger : Set := Msngr {
  serial : serial_t;
  log_queue : list (option bytes);
  log_queue_max_size : Z;
  num_logs : Z
}.

Definition set_serial (s : serial_t) (m : messenger) : messenger :=
  Msngr s (log_queue m) (log_queue_max_size m) (num_logs m).

(** ** The encoding *)

Module Lc.

(** The macro [finish_block]; the length of a block is a byte. *)
Definition finish_block (s : enc_state) : outcome enc_state :=
  mem ← buf_set (e_mem s) (e_block s) (e_block_len s);
  mret (Enc mem (e_dst s) (S (e_dst s)) 1 (S (e_dst_len s))).

Definition encode_step (s : enc_state) (b : Z) : outcome enc_state :=
  if b =? 0 then finish_block s
  else
    mem ← buf_set (e_mem s) (e_dst s) b;
    let s' := Enc mem (e_block s) (S (e_dst s)) (u8 (e_block_len s + 1)) (S (e_dst_len s)) in
    if e_block_len s' =? 255 then finish_block s' else mret s'.

Fixpoint encode_loop (s : enc_state) (src : bytes) : outcome enc_state :=
  match src with
  | [] => mret s
  | b :: src' => s' ← encode_step s b; encode_loop s' src'
  end.

Definition cobs_encode (dst : bytes) (src : bytes) : outcome (nat * bytes) :=
  s ← encode_loop (Enc dst 0 1 1 0) src;
  s' ← finish_block s;
  mret (e_dst_len s', e_mem s').

(** The decoder; the copying loop is the one of the device handler. A block of 254 bytes is
    followed by no zero. *)
Fixpoint decode_loop (fuel : nat) (src : bytes) (end_ : nat) (s : dec_state) : outcome dec_result :=
  if (d_src s <? end_)%nat then
    match fuel with
    | O => OutOfFuel
    | S fuel' =>
        code ← buf_get src (d_src s);
        r ← decode_copy (Z.to_nat code - 1) src end_ (Dec (d_mem s) (d_dst s) (S (d_src s)) (d_out s));
        match r with
        | Bad s1 => mret (Bad s1)
        | Good s1 =>
            if (code <? 255) && negb (d_src s1 =? end_)%nat then
              mem ← buf_set (d_mem s1) (d_dst s1) 0;
              decode_loop fuel' src end_ (Dec mem (S (d_dst s1)) (d_src s1) (S (d_out s1)))
            else decode_loop fuel' src end_ s1
        end
    end
  else mret (Good s).

Definition cobs_decode (dst : bytes) (src : bytes) (src_len : nat) : outcome (nat * bytes) :=
  r ← decode_loop src_len src src_len (Dec dst 0 0 0);
  match r with
  | Bad s => mret (0%nat, d_mem s)
  | Good s => mret (d_out s, d_mem s)
  end.

Definition checksum (data : bytes) (len : nat) : outcome Z :=
  chk ← buf_get data 0;
  for_range (len - 1) 1 (fun i chk => b ← buf_get data i; mret (Z.lxor chk b)) chk.

(** [status] and the message. *)
Definition append_payload (msg : lc_message) (data : bytes) : outcome (Z * lc_message) :=
  if (MAX_PAYLOAD_SIZE <? lc_length msg + length data)%nat then mret (-1, msg)
  else
    p ← buf_write (lc_payload msg) (lc_length msg) data;
    mret (0, LcMessage (lc_id msg) (lc_length msg + length data) p).

Definition message_to_byte (data : bytes) (msg : lc_message) : outcome bytes :=
  data ← buf_set data 0 (u8 (lc_id msg));
  data ← buf_set data 1 (Z.of_nat (lc_length msg));
  src ← buf_read (lc_payload msg) 0 (lc_length msg);
  match src with [] => mret data | _ => buf_write data 2 src end.

End Lc.

Section Messenger.
Context {H : Heap} {St : Stack}.

(** ** Sending and receiving *)

(** What an ACKNOWLEDGEMENT carries besides its identifier. *)
Definition append_dev_id (msg : lc_message) (dev_id : dev_id_t) : outcome (Z * lc_message) :=
  '(s1, msg) ← Lc.append_payload msg (le_bytes 1 (id_type dev_id));
  '(s2, msg) ← Lc.append_payload msg (le_bytes 1 (id_year dev_id));
  '(s3, msg) ← Lc.append_payload msg (le_bytes 8 (id_uid dev_id));
  mret (s1 + s2 + s3, msg).

(** Serialising, encoding and writing; then the message is cleared. *)
Definition transmit (msg : lc_message) (s : serial_t) : outcome (Status * lc_message * serial_t) :=
  let msg_len := (1 + 1 + lc_length msg + 1)%nat in
  data ← Lc.message_to_byte (stack msg_len) msg;
  chk ← Lc.checksum data (msg_len - 1);
  data ← buf_set data (msg_len - 1) chk;
  cobs_buf ← buf_set (stack (1 + 1 + msg_len + 1)) 0 0;
  '(cobs_len, enc) ← Lc.cobs_encode (drop 2 cobs_buf) data;
  let cobs_buf := take 2 cobs_buf ++ enc in
  cobs_buf ← buf_set cobs_buf 1 (u8 (Z.of_nat cobs_len));
  out ← buf_read cobs_buf 0 (2 + cobs_len);
  let '(written, s) := serial_write out s in
  p ← buf_write (lc_payload msg) 0 (replicate MAX_PAYLOAD_SIZE 0);
  mret (if u8 (Z.of_nat written) =? Z.of_nat (2 + cobs_len) then SUCCESS else PROCESS_ERROR,
        LcMessage NOP 0 p, s).

(** [dev_id] is a pointer, given for an ACKNOWLEDGEMENT only. *)
Definition lc_send_message (msg_id : Z) (msg : lc_message) (dev_id : option dev_id_t) (s : serial_t)
  : outcome (Status * lc_message * serial_t) :=
  let msg := LcMessage msg_id (lc_length msg) (lc_payload msg) in
  if msg_id =? ACKNOWLEDGEMENT then
    match dev_id with
    | None => Faulty NullDeref
    | Some dev_id =>
        '(status, msg) ← append_dev_id msg dev_id;
        if negb (status =? 0) then mret (PROCESS_ERROR, msg, s) else transmit msg s
    end
  else transmit msg s.

(** The bytes behind the first delimiter, if there is one. *)
Fixpoint after_delimiter (bs : bytes) : option bytes :=
  match bs with
  | [] => None
  | b :: bs => if b =? 0 then Some bs else after_delimiter bs
  end.

(** The part of [read_message] behind the length byte. *)
Definition parse_packet (cobs_len : nat) (msg : lc_message) (s : serial_t) : outcome (Status * lc_message * serial_t) :=
  let '(got, s) := serial_read_until cobs_len s in
  if negb (cobs_len =? length got)%nat then mret (PROCESS_ERROR, msg, s)
  else
    '(_, data) ← Lc.cobs_decode (stack cobs_len) got cobs_len;
    message_id ← buf_get data 0;
    payload_length ← buf_get data 1;
    let body := (1 + 1 + Z.to_nat payload_length)%nat in
    expected_chk ← Lc.checksum data body;
    received_chk ← buf_get data body;
    if negb (received_chk =? expected_chk) then mret (MALFORMED_DATA, msg, s)
    else
      src ← buf_read data 2 (Z.to_nat payload_length);
      p ← buf_write (lc_payload msg) 0 src;
      mret (SUCCESS, LcMessage message_id (Z.to_nat payload_length) p, s).

Definition lc_read_message (msg : lc_message) (s : serial_t) : outcome (Status * lc_message * serial_t) :=
  match rx s with
  | [] => mret (NO_DATA, msg, s)
  | _ =>
      match after_delimiter (rx s) with
      | None => mret (MALFORMED_DATA, msg, set_rx [] s)
      | Some [] => mret (MALFORMED_DATA, msg, set_rx [] s)
      | Some (len :: bs) =>
          if len =? 0 then mret (MALFORMED_DATA, msg, set_rx (len :: bs) s)
          else parse_packet (Z.to_nat len) msg (set_rx bs s)
      end
  end.

(** ** Logging *)

(** [text] is what [vsprintf] makes of the format and its arguments. *)
Definition lowcar_printf (text : bytes) (m : messenger) : outcome messenger :=
  let m :=
    if num_logs m =? log_queue_max_size m then
      let k := Z.to_nat (log_queue_max_size m) in
      Msngr (serial m) (take k (log_queue m) ++ replicate k (malloc MAX_PAYLOAD_SIZE))
        (u8 (log_queue_max_size m * 2)) (num_logs m)
    else m in
  let i := Z.to_nat (num_logs m) in
  entry ← buf_get (log_queue m) i;
  match entry with
  | None => Faulty NullDeref
  | Some buf =>
      buf ← buf_write buf 0 (text ++ [0]);
      mret (Msngr (serial m) (<[i := Some buf]> (log_queue m)) (log_queue_max_size m) (u8 (num_logs m + 1)))
  end.

(** The length of a string, if it ends inside its allocation. *)
Definition strlen (b : bytes) : outcome nat :=
  match list_find (fun x => x = 0) b with
  | Some (i, _) => mret i
  | None => Faulty OutOfBounds
  end.

(** The loop over the queued strings, [k] from [i] on; [log] is the local message. *)
Fixpoint flush_loop (k i : nat) (log : lc_message) (m : messenger) : outcome messenger :=
  match k with
  | O => mret m
  | S k' =>
      entry ← buf_get (log_queue m) i;
      match entry with
      | None => Faulty NullDeref
      | Some text =>
          n ← strlen text;
          let len := Z.to_nat (u8 (Z.of_nat (n + 1))) in
          src ← buf_read text 0 len;
          p ← buf_write (lc_payload log) 0 src;
          '(_, log, s) ← lc_send_message LOG (LcMessage (lc_id log) len p) None (serial m);
          flush_loop k' (S i) log (set_serial s m)
      end
  end.

Definition lowcar_flush (m : messenger) : outcome messenger :=
  if num_logs m =? 0 then mret m
  else
    m ← flush_loop (Z.to_nat (num_logs m)) 0 (LcMessage NOP 0 (stack MAX_PAYLOAD_SIZE)) m;
    mret (Msngr (serial m) (log_queue m) (log_queue_max_size m) 0).

(** The constructor. *)
Definition messenger_start (s : serial_t) : messenger :=
  Msngr s (replicate 10 (malloc MAX_PAYLOAD_SIZE)) 10 0.

End Messenger.
