(* ===== verification/Lowcar.v ===== *)
(** * The main loop of a device (src/lowcar/devices/Device/Device.cpp and Device.h).

    The methods that a device class overrides are the interface [Driver]; the loop reads a
    message, answers it, performs the device's actions, and sends its data and its log. An
    [int] of the Arduino has 16 bits. *)

From stdpp Require Import strings.
From S2P Require Export Messenger.

(** ** The overridden methods *)

(** [device_read] returns the bytes it stores, whose number is its result; [device_write] is
    given the rest of the payload and returns the number of bytes it has used. The other methods
    may log lines. *)
Class Driver : Type := {
  dstate : Type;
  device_read : nat -> dstate -> outcome (bytes * dstate);
  device_write : nat -> bytes -> dstate -> outcome (nat * dstate);
  device_enable : dstate -> list bytes * dstate;
  device_reset : dstate -> list bytes * dstate;
  device_actions : Z -> dstate -> list bytes * dstate   (* at the time given *)
}.

(** The methods that the class itself provides. *)
Definition default_driver : Driver := {|
  dstate := unit;
  device_read _ s := mret ([], s);
  device_write _ _ s := mret (0%nat, s);
  device_enable s := ([], s);
  device_reset s := ([], s);
  device_actions _ s := ([], s)
|}.

(** ** State *)

Record device {D : Driver} : Type := Dev {
  dv_id : dev_id_t;
  dv_params : Z;                    (* the subscribed parameters *)
  sub_interval : Z;
  dv_timeout : Z;
  enabled : bool;
  last_sent_data_time : Z;
  last_received_ping_time : Z;
  curr_time : Z;
  curr_msg : lc_message;
  msngr : messenger;
  driver : dstate
}.
Arguments device : clear implicits.

(** [1 << n] at a 16-bit [int]; as an operand of [&] with a [uint32_t] its sign is extended. *)
Definition int16_shl1 (n : nat) : outcome Z :=
  if (n <? 15)%nat then mret (Z.shiftl 1 (Z.of_nat n))
  else if (n =? 15)%nat then mret (u32 (- 2 ^ 15))
  else Faulty ShiftRange.

Definition MIN_SUB_INTERVAL_MS : Z := 40.
Definition MAX_SUB_INTERVAL_MS : Z := 500.

Section Device.
Context {H : Heap} {St : Stack} {D : Driver}.

(** [printf_ack type uid]: the line that reports the first ping; the two other lines. *)
Context (printf_ack : Z -> Z -> bytes) (printf_unrecognized printf_error : bytes).

(** The constructor, at the time [now]. *)
Definition device_start (type year timeout now : Z) (s : serial_t) (msg : lc_message) (st : dstate) : device D :=
  Dev D (DevId type year 0) 0 0 timeout false now now now msg (messenger_start s) st.

Definition set_uid (uid : Z) (d : device D) : device D :=
  Dev D (DevId (id_type (dv_id d)) (id_year (dv_id d)) uid) (dv_params d) (sub_interval d) (dv_timeout d)
    (enabled d) (last_sent_data_time d) (last_received_ping_time d) (curr_time d) (curr_msg d) (msngr d) (driver d).

Definition set_msg (msg : lc_message) (m : messenger) (d : device D) : device D :=
  Dev D (dv_id d) (dv_params d) (sub_interval d) (dv_timeout d) (enabled d) (last_sent_data_time d)
    (last_received_ping_time d) (curr_time d) msg m (driver d).

Definition set_driver (st : dstate) (d : device D) : device D :=
  Dev D (dv_id d) (dv_params d) (sub_interval d) (dv_timeout d) (enabled d) (last_sent_data_time d)
    (last_received_ping_time d) (curr_time d) (curr_msg d) (msngr d) st.

Definition set_enabled (b : bool) (d : device D) : device D :=
  Dev D (dv_id d) (dv_params d) (sub_interval d) (dv_timeout d) b (last_sent_data_time d)
    (last_received_ping_time d) (curr_time d) (curr_msg d) (msngr d) (driver d).

(** ** Reading and writing parameters *)

(** The loop of [device_read_params], [k] iterations from [param_num] on; the message length is
    a byte. *)
Fixpoint read_params (k param_num : nat) (params : Z) (msg : lc_message) (st : dstate)
  : outcome (lc_message * dstate) :=
  match k with
  | O => mret (msg, st)
  | S k' =>
      if Z.shiftr params (Z.of_nat param_num) >? 0 then
        b ← int16_shl1 param_num;
        if negb (Z.land params b =? 0) then
          '(data, st) ← device_read param_num st;
          p ← match data with [] => mret (lc_payload msg) | _ => buf_write (lc_payload msg) (lc_length msg) data end;
          read_params k' (S param_num) params
            (LcMessage (lc_id msg) (Z.to_nat (u8 (Z.of_nat (lc_length msg + length data)))) p) st
        else read_params k' (S param_num) params msg st
      else mret (msg, st)
  end.

Definition device_read_params (d : device D) (msg : lc_message) : outcome (lc_message * dstate) :=
  p ← buf_write (lc_payload msg) 0 (replicate MAX_PAYLOAD_SIZE 0);
  p ← buf_write p 0 (le_bytes 4 (dv_params d));
  read_params MAX_PARAMS 0 (dv_params d) (LcMessage DEVICE_DATA 4 p) (driver d).

(** The loop of [device_write_params]; [ptr] is the offset of the next value. *)
Fixpoint write_params (k param_num : nat) (param_bitmap : Z) (pay : bytes) (ptr : nat) (st : dstate)
  : outcome dstate :=
  match k with
  | O => mret st
  | S k' =>
      if Z.shiftr param_bitmap (Z.of_nat param_num) >? 0 then
        b ← int16_shl1 param_num;
        if negb (Z.land param_bitmap b =? 0) then
          '(n, st) ← device_write param_num (drop ptr pay) st;
          write_params k' (S param_num) param_bitmap pay (ptr + n) st
        else write_params k' (S param_num) param_bitmap pay ptr st
      else mret st
  end.

Definition device_write_params (msg : lc_message) (st : dstate) : outcome dstate :=
  if negb (lc_id msg =? DEVICE_WRITE) then mret st
  else
    bm ← buf_read (lc_payload msg) 0 4;
    write_params MAX_PARAMS 0 (le_word bm) (lc_payload msg) 4 st.

(** ** The loop *)

(** [min] and [max] at type [float], stored in a [uint16_t]. *)
Definition clamp_interval (interval : Z) : Z :=
  Z.max (Z.min interval MAX_SUB_INTERVAL_MS) MIN_SUB_INTERVAL_MS.

Definition lc_log (text : bytes) (d : device D) : outcome (device D) :=
  m ← lowcar_printf text (msngr d); mret (set_msg (curr_msg d) m d).

Fixpoint log_lines (texts : list bytes) (m : messenger) : outcome messenger :=
  match texts with
  | [] => mret m
  | text :: texts => m ← lowcar_printf text m; log_lines texts m
  end.

(** A call of a method that may log. *)
Definition call_method (f : dstate -> list bytes * dstate) (d : device D) : outcome (device D) :=
  let '(texts, st) := f (driver d) in
  m ← log_lines texts (msngr d);
  mret (set_driver st (set_msg (curr_msg d) m d)).

Definition device_ping (d : device D) : outcome (device D) :=
  let d := Dev D (dv_id d) (dv_params d) (sub_interval d) (dv_timeout d) (enabled d) (last_sent_data_time d)
             (curr_time d) (curr_time d) (curr_msg d) (msngr d) (driver d) in
  if negb (enabled d) then
    '(_, msg, s) ← lc_send_message ACKNOWLEDGEMENT (curr_msg d) (Some (dv_id d)) (serial (msngr d));
    d ← lc_log (printf_ack (id_type (dv_id d)) (id_uid (dv_id d))) (set_msg msg (set_serial s (msngr d)) d);
    call_method device_enable (set_enabled true d)
  else mret d.

Definition subscription_request (d : device D) : outcome (device D) :=
  bm ← buf_read (lc_payload (curr_msg d)) 0 4;
  iv ← buf_read (lc_payload (curr_msg d)) 4 2;
  mret (Dev D (dv_id d) (le_word bm) (clamp_interval (le_word iv)) (dv_timeout d) (enabled d)
          (last_sent_data_time d) (last_received_ping_time d) (curr_time d) (curr_msg d) (msngr d) (driver d)).

(** The answer to a message, by its identifier. *)
Definition handle_message (d : device D) : outcome (device D) :=
  let id := lc_id (curr_msg d) in
  if id =? DEVICE_PING then device_ping d
  else if id =? SUBSCRIPTION_REQUEST then subscription_request d
  else if id =? DEVICE_WRITE then
    st ← device_write_params (curr_msg d) (driver d); mret (set_driver st d)
  else lc_log printf_unrecognized d.

(** A device that has not been pinged for too long is disabled. *)
Definition check_timeout (d : device D) : outcome (device D) :=
  if (0 <? dv_timeout d) && (dv_timeout d <=? u64 (curr_time d - last_received_ping_time d))
  then d ← call_method device_reset d; mret (set_enabled false d) else mret d.

Definition send_data (d : device D) : outcome (device D) :=
  if (0 <? sub_interval d) && (sub_interval d <=? u64 (curr_time d - last_sent_data_time d)) then
    '(msg, st) ← device_read_params d (curr_msg d);
    '(_, msg, s) ← lc_send_message DEVICE_DATA msg None (serial (msngr d));
    mret (Dev D (dv_id d) (dv_params d) (sub_interval d) (dv_timeout d) (enabled d) (curr_time d)
            (last_received_ping_time d) (curr_time d) msg (set_serial s (msngr d)) st)
  else mret d.

Definition receive (now : Z) (d : device D) : outcome (device D) :=
  '(sts, msg, s) ← lc_read_message (curr_msg d) (serial (msngr d));
  let d := Dev D (dv_id d) (dv_params d) (sub_interval d) (dv_timeout d) (enabled d) (last_sent_data_time d)
             (last_received_ping_time d) now msg (set_serial s (msngr d)) (driver d) in
  if decide (sts = SUCCESS) then handle_message d
  else if decide (sts = NO_DATA) then mret d
  else lc_log printf_error d.

Definition loop (now : Z) (d : device D) : outcome (device D) :=
  d ← receive now d;
  d ← check_timeout d;
  if negb (enabled d) then mret d
  else
    d ← call_method (device_actions now) d;
    d ← send_data d;
    m ← lowcar_flush (msngr d);
    mret (set_msg (curr_msg d) m d).

End Device.
