(* ===== verification/LowcarDevices.v ===== *)
(** * Device classes (src/lowcar/devices/: DummyDevice, LimitSwitch, LineFollower,
    ServoControl, PolarBear).

    Each class is an instance of [Driver] that overrides what the class overrides. The pins are
    the environment: what they read is a parameter, what they are told is part of the state. *)

From stdpp Require Import strings.
From S2P Require Export Lowcar F32.

(** The value of [n] bytes at the start of [buf]. *)
Definition take_word (n : nat) (buf : bytes) : outcome Z := x ← buf_read buf 0 n; mret (le_word x).

(** ** DummyDevice *)

Module DummyDevice.

Record state : Set := State {
  runtime : Z; shepherd : Z; dawn : Z; devops : Z; atlas : Z; infra : Z;
  sens : Z; pdb : Z; mech : Z; cpr : Z; edu : Z; exec : Z;
  pief : Z; funtime : Z; sheep : Z; dusk : Z;
  last_update_time : Z
}.

Definition start : state := State 1 F_0_1 1 1 F_0_1 1 0 F_minus_0_1 0 0 F_0 0 0 F_minus_0_1 0 0 0.

Definition read (param : nat) (s : state) : outcome (bytes * state) :=
  match param with
  | 0 => mret (le_bytes 4 (runtime s), s)
  | 1 => mret (le_bytes 4 (shepherd s), s)
  | 2 => mret (le_bytes 1 (dawn s), s)
  | 3 => mret (le_bytes 4 (devops s), s)
  | 4 => mret (le_bytes 4 (atlas s), s)
  | 5 => mret (le_bytes 1 (infra s), s)
  | 12 => mret (le_bytes 4 (pief s), s)
  | 13 => mret (le_bytes 4 (funtime s), s)
  | 14 => mret (le_bytes 1 (sheep s), s)
  | 15 => mret (le_bytes 4 (dusk s), s)
  | _ => mret ([], s)
  end%nat.

(** The assignment of a parameter. *)
Definition assign (param : nat) (v : Z) (s : state) : state :=
  let '(State rt sh da dv at_ inf se pd me cp ed ex pi fu sp du t) := s in
  match param with
  | 6 => State rt sh da dv at_ inf v pd me cp ed ex pi fu sp du t
  | 7 => State rt sh da dv at_ inf se v me cp ed ex pi fu sp du t
  | 8 => State rt sh da dv at_ inf se pd v cp ed ex pi fu sp du t
  | 9 => State rt sh da dv at_ inf se pd me v ed ex pi fu sp du t
  | 10 => State rt sh da dv at_ inf se pd me cp v ex pi fu sp du t
  | 11 => State rt sh da dv at_ inf se pd me cp ed v pi fu sp du t
  | 12 => State rt sh da dv at_ inf se pd me cp ed ex v fu sp du t
  | 13 => State rt sh da dv at_ inf se pd me cp ed ex pi v sp du t
  | 14 => State rt sh da dv at_ inf se pd me cp ed ex pi fu v du t
  | 15 => State rt sh da dv at_ inf se pd me cp ed ex pi fu sp v t
  | _ => s
  end%nat.

Definition write (param : nat) (data_buf : bytes) (s : state) : outcome (nat * state) :=
  match param with
  | 6 | 7 | 9 | 10 | 12 | 13 | 15 => v ← take_word 4 data_buf; mret (4, assign param v s)
  | 8 | 11 | 14 => v ← take_word 1 data_buf; mret (1, assign param v s)
  | _ => mret (0, s)
  end%nat.

Definition actions (curr : Z) (s : state) : list bytes * state :=
  if 500 <? u64 (curr - last_update_time s) then
    ([], State (u32 (runtime s + 2)) (f32_add (shepherd s) F_1_9) (if dawn s =? 0 then 1 else 0)
           (u32 (devops s + 1)) (f32_add (atlas s) F_0_9) 1
           (sens s) (pdb s) (mech s) (cpr s) (edu s) (exec s) (pief s) (funtime s) (sheep s) (dusk s) curr)
  else ([], s).

(** "DUMMY DEVICE ENABLED"; [device_disable] overrides nothing and is never called. *)
Definition enable (s : state) : list bytes * state :=
  ([[68; 85; 77; 77; 89; 32; 68; 69; 86; 73; 67; 69; 32; 69; 78; 65; 66; 76; 69; 68]], s).

Definition class : Driver := {|
  dstate := state; device_read := read; device_write := write; device_enable := enable;
  device_reset s := ([], s); device_actions := actions
|}.

End DummyDevice.

(** ** LimitSwitch *)

Module LimitSwitch.

(** The pins, and whether each has been set to INPUT; [low] tells whether a pin reads LOW. *)
Definition NUM_SWITCHES : nat := 3.

Section Pins.
Context (low : nat -> bool).

Definition read (param : nat) (s : list bool) : outcome (bytes * list bool) :=
  if (param <? NUM_SWITCHES)%nat then mret ([if low param then 1 else 0], s) else Faulty OutOfBounds.

Definition class : Driver := {|
  dstate := list bool; device_read := read; device_write _ _ s := mret (0%nat, s);
  device_enable s := ([], replicate NUM_SWITCHES true);
  device_reset s := ([], s); device_actions _ s := ([], s)
|}.
End Pins.

End LimitSwitch.

(** ** LineFollower *)

Module LineFollower.

Definition NUM_PINS : nat := 3.

Section Pins.
(** What [analogRead] finds at each pin. *)
Context (analog : nat -> Z).

Definition read (param : nat) (s : list bool) : outcome (bytes * list bool) :=
  if (param <? NUM_PINS)%nat then mret (le_bytes 4 (f32_sub F_1 (f32_div (f32_of_Z (analog param)) (f32_of_Z 1023))), s)
  else Faulty OutOfBounds.

Definition class : Driver := {|
  dstate := list bool; device_read := read; device_write _ _ s := mret (0%nat, s);
  device_enable s := ([], replicate NUM_PINS true);
  device_reset s := ([], s); device_actions _ s := ([], s)
|}.
End Pins.

End LineFollower.

(** ** ServoControl *)

Module ServoControl.

Definition NUM_SERVOS : nat := 2.

(** A servo is attached to its pin and has been told a position, or it is detached. *)
Record state : Set := State { positions : list Z; servos : list bool; told : list Z }.

Definition start : state := State (replicate NUM_SERVOS F_0) (replicate NUM_SERVOS false) (replicate NUM_SERVOS 0).

Definition read (param : nat) (s : state) : outcome (bytes * state) :=
  v ← buf_get (positions s) param; mret (le_bytes 4 v, s).

(** [SERVO_CENTER + position * SERVO_RANGE / 2.0], as an integer. *)
Definition pulse (position : Z) : Z := f32_to_Z (f32_add (f32_of_Z 1500) (f32_div (f32_mul position (f32_of_Z 1000)) F_2)).

Definition write (param : nat) (data_buf : bytes) (s : state) : outcome (nat * state) :=
  value ← take_word 4 data_buf;
  if f32_lt value F_minus_1 || f32_lt F_1 value then mret (0%nat, s)
  else
    servos ← buf_set (servos s) param true;
    positions ← buf_set (positions s) param value;
    told ← buf_set (told s) param (pulse value);
    mret (4%nat, State positions servos told).

Definition disable_all (s : state) : state := State (positions s) (replicate NUM_SERVOS false) (told s).

Definition class : Driver := {|
  dstate := state; device_read := read; device_write := write; device_enable s := ([], s);
  device_reset s := ([], disable_all s); device_actions _ s := ([], s)
|}.

End ServoControl.

(** ** PolarBear *)

Module PolarBear.

Record state : Set := State {
  duty_cycle : Z; deadband : Z;
  red : bool; yellow : bool; green : bool;    (* the LEDs *)
  pwm1 : Z; pwm2 : Z                          (* what the drive pins have been told *)
}.

Definition start : state := State F_0 F_0_05 false false false 0 0.

Section Pins.
(** What [analogRead] finds at the feedback pin, and what a float beyond an [int] is converted
    to. *)
Context (feedback : Z) (undefined : Z -> Z).

Definition read (param : nat) (s : state) : outcome (bytes * state) :=
  match param with
  | 0 => mret (le_bytes 4 (duty_cycle s), s)
  | 1 => mret (le_bytes 4 (f32_div (f32_of_Z feedback) F_0_0024), s)
  | 2 => mret (le_bytes 4 (deadband s), s)
  | _ => mret ([], s)
  end%nat.

Definition set_duty (v : Z) (s : state) : state :=
  State v (deadband s) (red s) (yellow s) (green s) (pwm1 s) (pwm2 s).

Definition write (param : nat) (data_buf : bytes) (s : state) : outcome (nat * state) :=
  match param with
  | 0 =>
      v ← take_word 4 data_buf;
      mret (4, set_duty (if negb (f32_le (f32_neg (deadband s)) v && f32_le v (deadband s)) then v else F_0) s)
  | 2 =>
      v ← take_word 4 data_buf;
      mret (4, State (duty_cycle s) v (red s) (yellow s) (green s) (pwm1 s) (pwm2 s))
  | _ => mret (0, s)
  end%nat.

(** [ctrl_RED], [ctrl_YELLOW] and [ctrl_GREEN]. *)
Definition ctrl_LEDs (s : state) : state :=
  let d := duty_cycle s in let b := deadband s in
  State d b (f32_lt (f32_neg b) d && f32_lt d b) (f32_lt d (f32_neg b)) (f32_lt b d) (pwm1 s) (pwm2 s).

(** The pin of the other direction is told 255. *)
Definition drive (target : Z) (s : state) : state :=
  let forwards := f32_lt F_0 target in
  let diff := f32_to_int undefined (f32_mul (f32_mul target (if forwards then F_1 else F_minus_1)) F_255) in
  State (duty_cycle s) (deadband s) (red s) (yellow s) (green s)
    (if forwards then 255 - diff else 255) (if forwards then 255 else 255 - diff).

Definition setup_LEDs (s : state) : state :=
  State (duty_cycle s) (deadband s) false false false (pwm1 s) (pwm2 s).

(** [device_disable] overrides nothing and is never called. *)
Definition class : Driver := {|
  dstate := state; device_read := read; device_write := write;
  device_enable s := ([], setup_LEDs s); device_reset s := ([], s);
  device_actions _ s := ([], drive (duty_cycle s) (ctrl_LEDs s))
|}.
End Pins.

End PolarBear.
