(* ===== verification/KoalaBear.v ===== *)
(** * The motor controller (src/lowcar/devices/KoalaBear/).

    The class KoalaBear with its PID controllers and LEDs, as an instance of [Driver]. The two
    motors are treated alike; [motor] is what one of them has. The clock in microseconds, the
    encoders' edges and what the processor makes of a float that is no [int] are the
    environment; what the pins and the SPI bus are told is part of the state. *)

From S2P Require Export LowcarDevices.

(** ** PID control (PID.cpp) *)

Module Pid.

Definition SAMPLES : nat := 5.

Record pid : Set := PID {
  kp : Z; ki : Z; kd : Z;
  prev_pos : Z; prev_desired_pos : Z;
  integral : Z; velocity : Z;
  prev_error : list Z; prev_time : list Z       (* SAMPLES of each *)
}.

(** [micros n] is the result of the call number [n] of [micros], in seconds. *)
Definition seconds (micros : nat -> Z) (n : nat) : Z := f32_div (f32_of_Z (micros n)) F_1000000.

(** The constructor, whose calls start with number [n]. *)
Definition start (micros : nat -> Z) (n : nat) : pid :=
  PID F_0 F_0 F_0 F_0 F_0 F_0 F_0 (replicate SAMPLES F_0) (seconds micros <$> seq n SAMPLES).

Definition sum (nums : list Z) (i : nat) : Z := foldl f32_add F_0 (take i nums).

Definition average (nums : list Z) (i : nat) : Z := f32_div (sum nums i) (f32_of_Z (Z.of_nat i)).

Definition regression (x_vals y_vals : list Z) (number : nat) : Z :=
  let x_avg := average x_vals number in
  let y_avg := average y_vals number in
  let numerator := zip_with (fun x y => f32_mul (f32_sub x x_avg) (f32_sub y y_avg)) x_vals y_vals in
  let denominator := (fun x => f32_mul (f32_sub x x_avg) (f32_sub x x_avg)) <$> x_vals in
  f32_div (sum numerator number) (sum denominator number).

Definition velocity_to_tps (velocity : Z) : Z := f32_mul F_2700 velocity.

(** The arrays lose their first element and get a new last one. *)
Definition compute (curr_time curr_pos : Z) (c : pid) : Z * pid :=
  let interval_secs := f32_sub curr_time (nth (SAMPLES - 1) (prev_time c) F_0) in
  let desired_pos := f32_add (prev_desired_pos c) (f32_mul (velocity_to_tps (velocity c)) interval_secs) in
  let error := f32_sub desired_pos curr_pos in
  let integral' := f32_add (integral c) (f32_mul error interval_secs) in
  let errors := drop 1 (prev_error c) ++ [error] in
  let times := drop 1 (prev_time c) ++ [curr_time] in
  let output := f32_add (f32_add (f32_mul (kp c) error) (f32_mul (ki c) integral'))
                  (f32_mul (kd c) (regression times errors SAMPLES)) in
  if f32_eq (velocity c) F_0
  then (F_0, PID (kp c) (ki c) (kd c) curr_pos curr_pos F_0 (velocity c) errors times)
  else (output, PID (kp c) (ki c) (kd c) curr_pos desired_pos integral' (velocity c) errors times).

Definition set_coefficients (kp ki kd : Z) (c : pid) : pid :=
  PID kp ki kd (prev_pos c) (prev_desired_pos c) (integral c) (velocity c) (prev_error c) (prev_time c).

Definition set_velocity (v : Z) (c : pid) : pid :=
  PID (kp c) (ki c) (kd c) (prev_pos c) (prev_desired_pos c) (integral c) v (prev_error c) (prev_time c).

(** The last elements of the arrays stay. *)
Definition set_position (micros : nat -> Z) (n : nat) (curr_pos : Z) (c : pid) : pid :=
  PID (kp c) (ki c) (kd c) curr_pos curr_pos F_0 (velocity c)
    (replicate (SAMPLES - 1) F_0 ++ drop (SAMPLES - 1) (prev_error c))
    ((seconds micros <$> seq n (SAMPLES - 1)) ++ drop (SAMPLES - 1) (prev_time c)).

End Pid.

(** ** LEDs (LEDKoala.cpp) *)

(** Whether each LED is on. *)
Record leds : Set := Leds { red_state : bool; yellow_state : bool; green_state : bool }.

Definition ctrl_red (vel deadband : Z) (enabled : bool) : bool :=
  f32_lt (f32_mul deadband F_minus_1) vel && f32_lt vel deadband && enabled.
Definition ctrl_yellow (vel deadband : Z) (enabled : bool) : bool := f32_lt vel (f32_mul deadband F_minus_1) && enabled.
Definition ctrl_green (vel deadband : Z) (enabled : bool) : bool := f32_lt deadband vel && enabled.

Definition ctrl_LEDs (vel deadband : Z) (enabled : bool) : leds :=
  Leds (ctrl_red vel deadband enabled) (ctrl_yellow vel deadband enabled) (ctrl_green vel deadband enabled).

(** ** The controller (KoalaBear.cpp) *)

Definition MAX_DUTY_CYCLE : Z := F_0_75.
Definition ACCEL : Z := F_0_7.
Definition KP_DEFAULT : Z := F_0_045.
Definition KI_DEFAULT : Z := F_0_35.
Definition KD_DEFAULT : Z := F_0_001.

(** [pwm1] and [pwm2] are what the two pins of the motor have been told; [enc] is the pattern of
    the encoder's [int32_t]. *)
Record motor : Set := Motor {
  velocity : Z; deadband : Z;
  invert : Z; pid_enabled : Z;
  curr_velocity : Z;
  controller : Pid.pid;
  enc : Z;
  pwm1 : Z; pwm2 : Z
}.

(** The other pins, and the words that have been sent on the SPI bus. *)
Record pins_t : Set := Pins { sleep : bool; reset : bool; heartbeat : bool; scs : bool; spi : list Z }.

(** [curr_led_mtr] is whether the LEDs show the second motor; [reads] counts the calls of
    [micros]. *)
Record state : Set := State {
  motor_a : motor; motor_b : motor;
  prev_loop_time : Z; online : bool;
  led : leds; prev_led_time : Z; curr_led_mtr : bool;
  pins : pins_t;
  reads : nat
}.

Section KoalaBear.
Context (micros : nat -> Z) (undefined : Z -> Z).

(** *** Setters *)

Definition set_velocity (v : Z) (m : motor) : motor :=
  Motor v (deadband m) (invert m) (pid_enabled m) (curr_velocity m) (controller m) (enc m) (pwm1 m) (pwm2 m).
Definition set_deadband (v : Z) (m : motor) : motor :=
  Motor (velocity m) v (invert m) (pid_enabled m) (curr_velocity m) (controller m) (enc m) (pwm1 m) (pwm2 m).
Definition set_invert (v : Z) (m : motor) : motor :=
  Motor (velocity m) (deadband m) v (pid_enabled m) (curr_velocity m) (controller m) (enc m) (pwm1 m) (pwm2 m).
Definition set_pid_enabled (v : Z) (m : motor) : motor :=
  Motor (velocity m) (deadband m) (invert m) v (curr_velocity m) (controller m) (enc m) (pwm1 m) (pwm2 m).
Definition set_curr_velocity (v : Z) (m : motor) : motor :=
  Motor (velocity m) (deadband m) (invert m) (pid_enabled m) v (controller m) (enc m) (pwm1 m) (pwm2 m).
Definition set_controller (c : Pid.pid) (m : motor) : motor :=
  Motor (velocity m) (deadband m) (invert m) (pid_enabled m) (curr_velocity m) c (enc m) (pwm1 m) (pwm2 m).
Definition set_enc (v : Z) (m : motor) : motor :=
  Motor (velocity m) (deadband m) (invert m) (pid_enabled m) (curr_velocity m) (controller m) v (pwm1 m) (pwm2 m).
Definition set_pwm (p1 p2 : Z) (m : motor) : motor :=
  Motor (velocity m) (deadband m) (invert m) (pid_enabled m) (curr_velocity m) (controller m) (enc m) p1 p2.

Definition set_motor (b : bool) (m : motor) (n : nat) (s : state) : state :=
  State (if b then motor_a s else m) (if b then m else motor_b s) (prev_loop_time s) (online s) (led s)
    (prev_led_time s) (curr_led_mtr s) (pins s) n.

(** *** Interrupts *)

(** A rising edge at an encoder, with the level of its other pin. *)
Definition handle_enc_tick (high : bool) (m : motor) : motor := set_enc (u32 (if high then enc m + 1 else enc m - 1)) m.

(** *** Parameters *)

(** Parameter [n] of a motor. *)
Definition read_motor (n : nat) (m : motor) : bytes :=
  match n with
  | 0 => le_bytes 4 (velocity m)
  | 1 => le_bytes 4 (deadband m)
  | 2 => [if invert m =? 0 then 0 else 1]%Z
  | 3 => [if pid_enabled m =? 0 then 0 else 1]%Z
  | 4 => le_bytes 4 (Pid.kp (controller m))
  | 5 => le_bytes 4 (Pid.ki (controller m))
  | 6 => le_bytes 4 (Pid.kd (controller m))
  | 7 => le_bytes 4 (enc m)
  | _ => []
  end%nat.

Definition read (param : nat) (s : state) : outcome (bytes * state) :=
  mret (if (param <? 8)%nat then read_motor param (motor_a s) else read_motor (param - 8) (motor_b s), s).

(** Limits to the range from -1.0 to 1.0. *)
Definition limit (v : Z) : Z :=
  let v := if f32_lt F_1 v then F_1 else v in
  if f32_lt v F_minus_1 then F_minus_1 else v.

Definition write_motor (n : nat) (data_buf : bytes) (reads : nat) (m : motor) : outcome (nat * motor * nat) :=
  let c := controller m in
  match n with
  | 0 => v ← take_word 4 data_buf; mret (4, set_velocity (limit v) m, reads)
  | 1 => v ← take_word 4 data_buf; mret (4, set_deadband v m, reads)
  | 2 => v ← take_word 1 data_buf; mret (1, set_invert v m, reads)
  | 3 => v ← take_word 1 data_buf; mret (1, set_pid_enabled v m, reads)
  | 4 => v ← take_word 4 data_buf; mret (4, set_controller (Pid.set_coefficients v (Pid.ki c) (Pid.kd c) c) m, reads)
  | 5 => v ← take_word 4 data_buf; mret (4, set_controller (Pid.set_coefficients (Pid.kp c) v (Pid.kd c) c) m, reads)
  | 6 => v ← take_word 4 data_buf; mret (4, set_controller (Pid.set_coefficients (Pid.kp c) (Pid.ki c) v c) m, reads)
  | 7 =>
      v ← take_word 4 data_buf;
      mret (4, set_controller (Pid.set_position micros reads (f32_of_Z (s32 v)) c) (set_enc v m), reads + (Pid.SAMPLES - 1))
  | _ => mret (0, m, reads)
  end%nat.

Definition write (param : nat) (data_buf : bytes) (s : state) : outcome (nat * state) :=
  let b := negb (param <? 8)%nat in
  '(len, m, n) ← write_motor (if b then param - 8 else param) data_buf (reads s) (if b then motor_b s else motor_a s);
  mret (len, set_motor b m n s).

(** *** Driving *)

(** What the two pins of a motor are told. *)
Definition drive (target : Z) : Z * Z :=
  let direction := if f32_lt F_0 target then F_1 else F_minus_1 in
  let pwm_difference := f32_to_int undefined (f32_mul (f32_mul target direction) F_255) in
  let pwm_difference := if pwm_difference <? 0 then 0 else pwm_difference in
  let pwm_difference := if 255 <? pwm_difference then 255 else pwm_difference in
  if f32_lt F_0 direction then (255 - pwm_difference, 255)
  else if f32_lt direction F_0 then (255, 255 - pwm_difference)
  else (255, 255).

(** The speed for this iteration: acceleration, direction, and the stop within the deadband. *)
Definition accelerate (interval_secs : Z) (m : motor) : Z :=
  f32_add (curr_velocity m)
    (f32_mul (f32_mul (if f32_lt F_0 (f32_sub (velocity m) (curr_velocity m)) then F_1 else F_minus_1) ACCEL) interval_secs).

Definition adjust (curr_velocity : Z) (m : motor) : Z :=
  f32_mul MAX_DUTY_CYCLE (if negb (invert m =? 0) then f32_mul curr_velocity F_minus_1 else curr_velocity).

Definition stops (adjusted_velocity : Z) (m : motor) : bool :=
  f32_eq (velocity m) F_0 && f32_lt adjusted_velocity (deadband m) && f32_lt (f32_mul (deadband m) F_minus_1) adjusted_velocity.

Definition speed (interval_secs : Z) (m : motor) : Z * motor :=
  let curr_velocity := accelerate interval_secs m in
  let adjusted_velocity := adjust curr_velocity m in
  if stops adjusted_velocity m then (F_0, set_curr_velocity F_0 m)
  else (adjusted_velocity, set_curr_velocity curr_velocity m).

(** The duty cycle, by the controller if it is enabled. *)
Definition duty (adjusted_velocity : Z) (n : nat) (m : motor) : Z * motor * nat :=
  if negb (pid_enabled m =? 0) then
    let '(duty_cycle, c) := Pid.compute (Pid.seconds micros n) (f32_of_Z (s32 (enc m)))
                              (Pid.set_velocity adjusted_velocity (controller m)) in
    (duty_cycle, set_controller c m, S n)
  else (adjusted_velocity, m, n).

Definition send (duty_cycle : Z) (m : motor) : motor := let '(p1, p2) := drive duty_cycle in set_pwm p1 p2 m.

(** [unsigned long] has 32 bits. *)
Definition actions (now : Z) (s : state) : list bytes * state :=
  if negb (online s) then
    ([], State (motor_a s) (motor_b s) (u32 now) true (led s) (prev_led_time s) (curr_led_mtr s) (pins s) (reads s))
  else
    let curr_time := u32 now in
    let interval_secs := f32_div (f32_of_Z (u32 (curr_time - prev_loop_time s))) F_1000 in
    let flip := 2000 <? u32 (curr_time - prev_led_time s) in
    let mtr := if flip then negb (curr_led_mtr s) else curr_led_mtr s in
    let m := if mtr then motor_b s else motor_a s in
    let led := ctrl_LEDs (velocity m) (deadband m) true in
    let '(adjusted_velocity_a, a) := speed interval_secs (motor_a s) in
    let '(adjusted_velocity_b, b) := speed interval_secs (motor_b s) in
    let '(duty_cycle_a, a, n) := duty adjusted_velocity_a (reads s) a in
    let '(duty_cycle_b, b, n) := duty adjusted_velocity_b n b in
    let pins := Pins true false (heartbeat (pins s)) (scs (pins s)) (spi (pins s)) in
    ([], State (send duty_cycle_a a) (send duty_cycle_b b) curr_time true led
           (if flip then curr_time else prev_led_time s) mtr pins n).

(** *** Enabling and resetting *)

Definition set_defaults (m : motor) : motor :=
  set_controller (Pid.set_coefficients KP_DEFAULT KI_DEFAULT KD_DEFAULT (controller m)) m.

Definition reset_motor (m : motor) : motor :=
  set_pid_enabled 1 (set_curr_velocity F_0 (set_velocity F_0 (set_defaults m))).

Definition device_reset_ (s : state) : state :=
  State (reset_motor (motor_a s)) (reset_motor (motor_b s)) (prev_loop_time s) false (led s) (prev_led_time s)
    (curr_led_mtr s) (pins s) (reads s).

(** The words of the two registers: dead time, gain and enable; torque. *)
Definition write_current_lim (p : pins_t) : pins_t :=
  Pins (sleep p) (reset p) (heartbeat p) false
    (spi p ++ [Z.shiftl 0 15 + Z.shiftl 0 12 + Z.shiftl 0 10 + Z.shiftl 2 8 + 1; Z.shiftl 0 15 + Z.shiftl 1 12 + 0x70]).

Definition read_current_lim (p : pins_t) : pins_t :=
  Pins (sleep p) (reset p) (heartbeat p) false (spi p ++ [u16 (Z.shiftl 1 15 + Z.shiftl 0 12); u16 (Z.shiftl 1 15 + Z.shiftl 1 12)]).

Definition electrical_setup (p : pins_t) : pins_t := read_current_lim (write_current_lim (Pins true false true false (spi p))).

(** The LEDs are tested, and off afterwards. *)
Definition enable (s : state) : state :=
  State (set_pid_enabled 1 (motor_a s)) (set_pid_enabled 1 (motor_b s)) (prev_loop_time s) (online s)
    (Leds false false false) (prev_led_time s) (curr_led_mtr s) (electrical_setup (pins s)) (reads s).

(** The constructor, at the time [now]; nothing has been told to the motors. *)
Definition start_motor (n : nat) : motor :=
  set_defaults (Motor F_0 F_0_05 0 1 F_0 (Pid.start micros n) 0 0 0).

Definition start (now : Z) : state :=
  State (start_motor 0) (start_motor Pid.SAMPLES) (u32 now) false (Leds false false false) (u32 now) false
    (Pins false false false false []) (2 * Pid.SAMPLES).

Definition class : Driver := {|
  dstate := state; device_read := read; device_write := write;
  device_enable s := ([], enable s); device_reset s := ([], device_reset_ s); device_actions := actions
|}.

End KoalaBear.
