(* ===== verification/LowcarSpec.v ===== *)
(** * What the device code guarantees, alone and together with the device handler: the theorems
    on [Messenger] and [Lowcar]. *)

From stdpp Require Import gmap strings.
From S2P Require Export Lowcar LowcarDevices DevSpec.

(** ** The encoder is the one of the device handler *)

Definition block_len_ok (s : enc_state) : Prop := 1 <= e_block_len s <= 254.

Lemma finish_block_same s : 0 <= e_block_len s <= 255 -> Lc.finish_block s = finish_block s.
Proof. intros Hs. unfold Lc.finish_block, finish_block. by rewrite u8_small by lia. Qed.

Lemma encode_step_same s b : block_len_ok s ->
  Lc.encode_step s b = encode_step s b /\ forall s', encode_step s b = Done s' -> block_len_ok s'.
Proof.
  intros Hs. unfold block_len_ok in *. unfold Lc.encode_step, encode_step.
  destruct (b =? 0).
  { rewrite finish_block_same by lia. split; [done|]. intros s' Hd. unfold finish_block in Hd.
    apply bind_done_inv in Hd as (mem & _ & Hd). apply done_inj in Hd. subst s'. cbn. lia. }
  rewrite (u8_small (e_block_len s + 1)) by lia. destruct (buf_set (e_mem s) (e_dst s) b) as [mem| | | |]; try done.
  rewrite !bind_done. cbv zeta. cbn [e_block_len]. destruct (Z.eqb_spec (e_block_len s + 1) 255).
  - rewrite finish_block_same by (cbn; lia). split; [done|]. intros s' Hd. unfold finish_block in Hd.
    apply bind_done_inv in Hd as (mem' & _ & Hd). apply done_inj in Hd. subst s'. cbn. lia.
  - split; [done|]. intros s' Hd. apply done_inj in Hd. subst s'. cbn. lia.
Qed.

Lemma encode_loop_same src : forall s, block_len_ok s ->
  Lc.encode_loop s src = encode_loop s src /\ forall s', encode_loop s src = Done s' -> block_len_ok s'.
Proof.
  induction src as [|b src IH]; intros s Hs; cbn [Lc.encode_loop encode_loop].
  - split; [done|]. intros s' Hd. apply done_inj in Hd. by subst.
  - destruct (encode_step_same s b Hs) as [-> Hok]. destruct (encode_step s b) as [s1| | | |] eqn:E; try done.
    rewrite !bind_done. by apply IH, Hok.
Qed.

Lemma cobs_encode_same dst src : Lc.cobs_encode dst src = cobs_encode dst src.
Proof.
  unfold Lc.cobs_encode, cobs_encode.
  destruct (encode_loop_same src (Enc dst 0 1 1 0)) as [-> Hok]; [unfold block_len_ok; cbn; lia|].
  destruct (encode_loop _ src) as [s| | | |] eqn:E; try done. rewrite !bind_done.
  specialize (Hok s eq_refl). unfold block_len_ok in Hok. by rewrite finish_block_same by lia.
Qed.

(** ** The decoder is an exact inverse *)

Lemma lc_decode_block fuel blk out hole room pre post end_ :
  length hole = length blk -> (length blk < 255)%nat ->
  let code := Z.of_nat (S (length blk)) in
  let src := pre ++ (code :: blk) ++ post in
  let pre' := pre ++ code :: blk in
  (length pre' <= end_)%nat ->
  Lc.decode_loop (S fuel) src end_ (dec_at out (hole ++ room) pre) =
  if (code <? 255) && negb (length pre' =? end_)%nat then
    mem ← buf_set (out ++ blk ++ room) (length out + length blk) 0;
    Lc.decode_loop fuel src end_
      (Dec mem (S (length out + length blk)) (length pre') (S (length out + length blk)))
  else Lc.decode_loop fuel src end_ (dec_at (out ++ blk) room pre').
Proof.
  intros Hh Hl code src pre' He.
  assert (Hp : length pre' = (length pre + S (length blk))%nat) by (unfold pre'; rewrite length_app; done).
  assert (Hg : buf_get src (length pre) = Done code) by (by apply buf_get_app).
  assert (Hc : decode_copy (length blk) src end_
      (Dec (out ++ hole ++ room) (length out) (S (length pre)) (length out)) =
    Done (Good (dec_at (out ++ blk) room pre'))).
  { pose proof (decode_copy_at blk out hole room (pre ++ [code]) post end_) as Hc.
    unfold dec_at in Hc at 1. rewrite length_app, <- !app_assoc, Nat.add_1_r in Hc. apply Hc; [done | lia]. }
  clearbody src pre'. cbn [Lc.decode_loop]. unfold dec_at. cbn [d_mem d_dst d_src d_out].
  rewrite (proj2 (Nat.ltb_lt _ _)), Hg, bind_done by lia.
  replace (Z.to_nat code - 1)%nat with (length blk) by (unfold code; lia).
  rewrite Hc, bind_done. unfold dec_at. cbn [d_mem d_dst d_src d_out].
  by rewrite !length_app, <- !app_assoc.
Qed.

(** A block that a zero ended. *)
Lemma lc_decode_zero fuel code blk next out hole y room rest pre post :
  code = Z.of_nat (S (length blk)) -> length hole = length blk -> (length blk < 254)%nat -> (0 < length next)%nat ->
  Lc.decode_loop (S fuel) (pre ++ (code :: blk ++ next) ++ post) (length (pre ++ code :: blk ++ next))
    (dec_at out ((hole ++ y :: room) ++ rest) pre) =
  Lc.decode_loop fuel ((pre ++ code :: blk) ++ next ++ post) (length ((pre ++ code :: blk) ++ next))
    (dec_at (out ++ blk ++ [0]) (room ++ rest) (pre ++ code :: blk)).
Proof.
  intros -> Hh Hl Hn.
  replace (pre ++ (Z.of_nat (S (length blk)) :: blk ++ next) ++ post)
    with (pre ++ (Z.of_nat (S (length blk)) :: blk) ++ next ++ post) by (by simplify_list_eq).
  rewrite <- (app_assoc hole). rewrite lc_decode_block by (lia || list_lia).
  rewrite (proj2 (Z.ltb_lt _ 255)), (proj2 (Nat.eqb_neq _ _)) by (lia || list_lia). cbn [andb negb].
  cbn [app]. rewrite (app_assoc out blk), buf_set_app, bind_done by (by rewrite length_app).
  f_equal; [by simplify_list_eq | by simplify_list_eq |].
  unfold dec_at. rewrite <- !app_assoc, !length_app. cbn [length app]. f_equal; lia.
Qed.

(** A full block. *)
Lemma lc_decode_full fuel blk next out hole room pre post :
  length hole = length blk -> length blk = 254%nat ->
  Lc.decode_loop (S fuel) (pre ++ (255 :: blk ++ next) ++ post) (length (pre ++ 255 :: blk ++ next))
    (dec_at out (hole ++ room) pre) =
  Lc.decode_loop fuel ((pre ++ 255 :: blk) ++ next ++ post) (length ((pre ++ 255 :: blk) ++ next))
    (dec_at (out ++ blk) room (pre ++ 255 :: blk)).
Proof.
  intros Hh Hl.
  replace (pre ++ (255 :: blk ++ next) ++ post)
    with (pre ++ (Z.of_nat (S (length blk)) :: blk) ++ next ++ post) by (rewrite Hl; by simplify_list_eq).
  rewrite lc_decode_block by (lia || list_lia). rewrite Hl. change (Z.of_nat 255 <? 255) with false. cbn [andb].
  change (Z.of_nat 255) with 255. f_equal; by simplify_list_eq.
Qed.

Lemma lc_decode_loop_done fuel src end_ s : (end_ <= d_src s)%nat -> Lc.decode_loop fuel src end_ s = Done (Good s).
Proof. intros H. destruct fuel; simpl; by rewrite (proj2 (Nat.ltb_ge _ _)) by lia. Qed.

Lemma lc_decode_loop_ref src : forall blk fuel out room rest pre post,
  (length blk <= 253)%nat -> (length (cobs_ref blk src) <= fuel)%nat ->
  length room = (length blk + length src)%nat ->
  Lc.decode_loop fuel (pre ++ cobs_ref blk src ++ post) (length (pre ++ cobs_ref blk src))
    (dec_at out (room ++ rest) pre) =
  Done (Good (dec_at (out ++ blk ++ src) rest (pre ++ cobs_ref blk src))).
Proof.
  induction src as [|b src IH]; intros blk fuel out room rest pre post Hl Hf Hr; cbn [cobs_ref] in *.
  - destruct fuel as [|fuel]; [simpl in Hf; lia|]. cbn [length] in Hr. rewrite Nat.add_0_r in Hr.
    rewrite app_nil_r, lc_decode_block by (lia || list_lia).
    rewrite Nat.eqb_refl, andb_false_r. by apply lc_decode_loop_done.
  - pose proof (cobs_ref_length_pos [] src) as Hpos.
    destruct (Z.eqb_spec b 0) as [->|Hb]; [|destruct (Nat.eqb_spec (length blk) 253) as [H253|H253]].
    + destruct fuel as [|fuel]; [list_lia|].
      destruct (split_room room (length blk) (length src)) as (hole & y & room' & -> & Hh & Hr'); [list_lia|].
      rewrite lc_decode_zero, (IH []) by (done || list_lia). do 3 f_equal; by simplify_list_eq.
    + destruct fuel as [|fuel]; [list_lia|]. assert (Hb1 : length (blk ++ [b]) = 254%nat) by list_lia.
      rewrite <- (take_drop 254 room), <- (app_assoc (take 254 room)).
      rewrite (lc_decode_full _ (blk ++ [b])), (IH []) by (done || list_lia).
      do 3 f_equal; by simplify_list_eq.
    + assert (Hs : length (blk ++ [b]) = S (length blk)) by list_lia.
      specialize (IH (blk ++ [b])). rewrite Hs in IH. rewrite IH by (done || lia || list_lia).
      do 3 f_equal; by simplify_list_eq.
Qed.

(** The decoder of the devices on an encoding, in a destination with enough room. *)
Lemma lc_decode_ref dst src post : (length src <= length dst)%nat ->
  Lc.cobs_decode dst (cobs_ref [] src ++ post) (length (cobs_ref [] src)) =
  Done (length src, src ++ drop (length src) dst).
Proof.
  intros Hcap. unfold Lc.cobs_decode.
  pose proof (lc_decode_loop_ref src [] (length (cobs_ref [] src)) [] (take (length src) dst) (drop (length src) dst)
    [] post) as Hd.
  cbn [app length] in Hd. unfold dec_at in Hd. cbn [app length] in Hd. rewrite take_drop in Hd.
  rewrite Hd, bind_done; [done | lia | lia | rewrite length_take; lia].
Qed.

(** ** Sending and receiving *)

(** A message of a device, as a message of the device handler. *)
Definition host_msg (msg : lc_message) : message_t :=
  Message (lc_id msg) (lc_payload msg) (lc_length msg) MAX_PAYLOAD_SIZE.

Definition lc_message_ok (msg : lc_message) : Prop :=
  byte_ok (lc_id msg) /\ Forall byte_ok (lc_payload msg) /\ length (lc_payload msg) = MAX_PAYLOAD_SIZE /\
  (lc_length msg <= MAX_PAYLOAD_SIZE)%nat.

Lemma host_msg_ok msg : lc_message_ok msg -> message_ok (host_msg msg) /\ (payload_length (host_msg msg) <= MAX_PAYLOAD_SIZE)%nat.
Proof. intros (Hi & Hb & Hl & Hn). split; [|done]. split; [done|]. split; [done|]. cbn. lia. Qed.

Definition cleared : bytes := replicate MAX_PAYLOAD_SIZE 0.

Section Wire.
Context {H : Heap} {St : Stack}.

Lemma message_to_byte_run msg data : lc_message_ok msg -> length data = (lc_length msg + 3)%nat ->
  exists x, Lc.message_to_byte data msg =
    Done (u8 (lc_id msg) :: u8 (Z.of_nat (lc_length msg)) :: take (lc_length msg) (lc_payload msg) ++ [x]).
Proof.
  intros (Hi & Hb & Hl & Hn) Hd. unfold MAX_PAYLOAD_SIZE in *. set (n := lc_length msg) in *.
  rewrite (u8_small (Z.of_nat n)) by lia. unfold Lc.message_to_byte. fold n.
  destruct data as [|d0 [|d1 data]]; [list_lia..|]. cbn [length] in Hd.
  change (buf_set (d0 :: d1 :: data) 0 (u8 (lc_id msg))) with (Done (u8 (lc_id msg) :: d1 :: data)). rewrite bind_done.
  set (x0 := u8 (lc_id msg)). change (buf_set (x0 :: d1 :: data) 1 (Z.of_nat n)) with (Done (x0 :: Z.of_nat n :: data)).
  rewrite bind_done, buf_read_prefix, bind_done by lia.
  assert (Hsplit : exists hole x, data = hole ++ [x] /\ length hole = n).
  { destruct (split_room data n 0) as (hole & y & room & -> & Hh & Hr); [lia|]. destruct room; [|done]. eauto. }
  destruct Hsplit as (hole & x & -> & Hh). exists x.
  destruct (take n (lc_payload msg)) as [|b bs] eqn:Ht.
  - apply (f_equal length) in Ht. rewrite length_take in Ht. cbn [length] in Ht. destruct hole; [done|]. list_lia.
  - rewrite <- Ht. change (x0 :: Z.of_nat n :: hole ++ [x]) with ([x0; Z.of_nat n] ++ hole ++ [x]).
    rewrite buf_write_app; [done | done | rewrite length_take; lia].
Qed.

Lemma lc_checksum_same data len : Lc.checksum data len = checksum data len.
Proof. done. Qed.

(** What the code writes is the frame that the device handler parses. *)
Lemma transmit_run msg s : lc_message_ok msg -> (length (frame (host_msg msg)) <= tx_room s)%nat ->
  transmit msg s = Done (SUCCESS, LcMessage NOP 0 cleared,
    Serial (rx s) (coming s) (tx s ++ frame (host_msg msg)) (tx_room s - length (frame (host_msg msg)))).
Proof.
  intros Hok Hroom. pose proof (host_msg_ok msg Hok) as [(Hi & Hb & Hl) Hn]. cbn [payload payload_length host_msg] in Hl, Hn.
  pose proof Hok as (_ & _ & Hpl & _). set (n := lc_length msg) in *.
  pose proof (packet_encoded_length (host_msg msg) Hl Hn) as Hc. cbn [payload_length host_msg] in Hc. fold n in Hc.
  set (c := cobs_ref [] (packet (host_msg msg))) in *. unfold transmit. fold n.
  destruct (message_to_byte_run msg (stack (1 + 1 + n + 1)) Hok) as (x & ->); [rewrite stack_length; fold n; lia|].
  rewrite bind_done. fold n. set (body := u8 (lc_id msg) :: u8 (Z.of_nat n) :: take n (lc_payload msg)).
  change (u8 (lc_id msg) :: u8 (Z.of_nat n) :: take n (lc_payload msg) ++ [x]) with (body ++ [x]).
  assert (Hbody : (1 + 1 + n + 1 - 1)%nat = length body) by (unfold body; list_lia).
  rewrite Hbody, lc_checksum_same, checksum_spec, bind_done by (unfold body; cbn [length]; lia).
  rewrite buf_set_app, bind_done by done.
  change (body ++ [xor_all body]) with (packet (host_msg msg)).
  remember (stack (1 + 1 + (1 + 1 + n + 1) + 1)) as buf eqn:Hbuf.
  assert (Hbl : length buf = (n + 6)%nat) by (rewrite Hbuf, stack_length; lia). clear Hbuf.
  destruct buf as [|b0 [|b1 buf]]; [cbn in Hbl; lia..|]. cbn [length] in Hbl.
  change (buf_set (b0 :: b1 :: buf) 0 0) with (Done (0 :: b1 :: buf)). rewrite bind_done. cbn [drop take].
  rewrite drop_0, take_0, cobs_encode_same, cobs_encode_ref, bind_done by (fold c; lia). fold c. cbn [app].
  match goal with |- context [buf_set (?a :: ?b :: ?t) 1 ?v] =>
    change (buf_set (a :: b :: t) 1 v) with (Done (a :: v :: t)) end.
  rewrite bind_done. unfold MAX_PAYLOAD_SIZE in Hn. rewrite u8_small by lia.
  change (0 :: Z.of_nat (length c) :: c ++ drop (length c) buf) with (frame (host_msg msg) ++ drop (length c) buf).
  assert (Hfl : (2 + length c)%nat = length (frame (host_msg msg))) by done.
  rewrite buf_read_prefix by (rewrite Hfl; list_lia). rewrite bind_done, Hfl, take_app_length.
  unfold serial_write. rewrite Nat.min_l, firstn_all by done.
  rewrite buf_write_prefix by (rewrite length_replicate; lia).
  rewrite bind_done, length_replicate, drop_ge, app_nil_r by lia.
  rewrite u8_small by (rewrite <- Hfl; lia). by rewrite Z.eqb_refl.
Qed.

Lemma after_delimiter_run noise bs : noiseless noise -> after_delimiter (noise ++ 0 :: bs) = Some bs.
Proof.
  induction noise as [|b noise IH]; intros Hn; [done|]. inversion Hn; subst. cbn [app after_delimiter].
  rewrite (proj2 (Z.eqb_neq b 0)) by done. by apply IH.
Qed.

Lemma read_until_run c : forall rest, Forall (fun b => b ≠ 0) c -> read_until (length c) (c ++ rest) = (c, length c).
Proof.
  induction c as [|b c IH]; intros rest Hc; [done|]. inversion Hc; subst. cbn [length app read_until].
  rewrite (proj2 (Z.eqb_neq b 0)), IH by done. done.
Qed.

(** A frame that has arrived, behind bytes that are no delimiter: its payload is written over
    the payload of the message, however long it is. *)
Lemma lc_read_message_parsed (m : message_t) lc s noise rest :
  message_ok m -> (length (cobs_ref [] (packet m)) <= 255)%nat ->
  noiseless noise -> rx s = noise ++ frame m ++ rest ->
  lc_read_message lc s =
    p ← buf_write (lc_payload lc) 0 (take (payload_length m) (payload m));
    mret (SUCCESS, LcMessage (message_id m) (payload_length m) p, set_rx rest s).
Proof.
  intros Hok Hc Hnoise Hrx. pose proof Hok as (Hid & Hb & Hl).
  set (n := payload_length m) in *. pose proof (packet_length m Hl) as Hpk. fold n in Hpk.
  unfold frame in Hrx. cbn [app] in Hrx. set (c := cobs_ref [] (packet m)) in *.
  assert (Hcpos : (n + 3 < length c)%nat).
  { destruct (cobs_ref_length [] (packet m)) as [_ Hlt]; [simpl; lia|]. fold c in Hlt. cbn [length] in Hlt. lia. }
  assert (Hcb : Forall (fun b => b ≠ 0) c).
  { eapply Forall_impl; [|apply cobs_ref_bytes; [cbn; lia | done | by apply packet_bytes]]. cbn. lia. }
  unfold lc_read_message. rewrite Hrx.
  replace (match noise ++ 0 :: Z.of_nat (length c) :: c ++ rest with [] => mret (NO_DATA, lc, s) | _ => _ end)
    with (match after_delimiter (noise ++ 0 :: Z.of_nat (length c) :: c ++ rest) with
          | None => mret (MALFORMED_DATA, lc, set_rx [] s)
          | Some [] => mret (MALFORMED_DATA, lc, set_rx [] s)
          | Some (len :: bs) =>
              if len =? 0 then mret (MALFORMED_DATA, lc, set_rx (len :: bs) s)
              else parse_packet (Z.to_nat len) lc (set_rx bs s)
          end) by (by destruct noise).
  rewrite after_delimiter_run by done. rewrite (proj2 (Z.eqb_neq _ 0)), Nat2Z.id by lia.
  unfold parse_packet, serial_read_until. cbn [rx coming tx tx_room set_rx].
  rewrite <- app_assoc, read_until_run by done. rewrite drop_app_length, Nat.eqb_refl. cbn [negb].
  replace (length c - length (c ++ rest))%nat with 0%nat by list_lia. rewrite drop_0.
  pose proof (lc_decode_ref (stack (length c)) (packet m) []) as Hdec. rewrite app_nil_r in Hdec. fold c in Hdec.
  rewrite Hdec, bind_done by (rewrite stack_length; lia). set (t := drop _ (stack (length c))).
  set (body := u8 (message_id m) :: u8 (Z.of_nat n) :: take n (payload m)).
  assert (Hbody : length body = (1 + 1 + n)%nat) by (unfold body; list_lia).
  assert (Heq : packet m ++ t = body ++ xor_all body :: t).
  { unfold packet. fold n body. by rewrite <- app_assoc. }
  rewrite Heq.
  assert (Hg0 : buf_get (body ++ xor_all body :: t) 0 = Done (message_id m))
    by (cbn; by rewrite u8_small by (unfold byte_ok in Hid; lia)).
  assert (Hg1 : buf_get (body ++ xor_all body :: t) 1 = Done (Z.of_nat n))
    by (cbn; by rewrite u8_small by lia).
  rewrite Hg0, bind_done, Hg1, bind_done, Nat2Z.id, <- Hbody, lc_checksum_same, checksum_spec, bind_done by lia.
  rewrite buf_get_app, bind_done, Z.eqb_refl by done. cbn [negb].
  assert (Hrd : buf_read (body ++ xor_all body :: t) 2 n = Done (take n (payload m))).
  { change (body ++ xor_all body :: t)
      with ([u8 (message_id m); u8 (Z.of_nat n)] ++ take n (payload m) ++ xor_all body :: t).
    apply buf_read_app; [done | rewrite length_take; lia]. }
  by rewrite Hrd, bind_done.
Qed.

(** A frame of the device handler. *)
Lemma lc_read_message_run (m : message_t) lc s noise rest :
  message_ok m -> (payload_length m <= MAX_PAYLOAD_SIZE)%nat -> length (lc_payload lc) = MAX_PAYLOAD_SIZE ->
  noiseless noise -> rx s = noise ++ frame m ++ rest ->
  lc_read_message lc s = Done (SUCCESS,
    LcMessage (message_id m) (payload_length m)
      (take (payload_length m) (payload m) ++ drop (payload_length m) (lc_payload lc)),
    set_rx rest s).
Proof.
  intros Hok Hn Hlc Hnoise Hrx. pose proof Hok as (_ & _ & Hl).
  pose proof (packet_encoded_length m Hl Hn) as Hc. unfold MAX_PAYLOAD_SIZE in *.
  rewrite (lc_read_message_parsed m lc s noise rest) by (done || lia).
  rewrite buf_write_prefix, bind_done by (rewrite length_take; lia). by rewrite length_take, Nat.min_l by lia.
Qed.

End Wire.

(** ** Parameters *)

(** A device class that implements the parameters the registry gives its type: reading one
    stores the value in as many bytes as its type has, writing one takes as many. *)
Class Params (D : Driver) (d : device_t) : Type := {
  get_param : nat -> @dstate D -> Z;
  put_param : nat -> Z -> @dstate D -> @dstate D;
  params_16 : (num_params d <= 16)%nat;
  get_word : forall i st, word32 (get_param i st);
  read_param : forall i p st, params d !! i = Some p -> pd_read p ≠ 0 ->
    Lowcar.device_read i st = Done (le_bytes (param_size (pd_type p)) (get_param i st), st);
  write_param : forall i p v post st, params d !! i = Some p -> pd_write p ≠ 0 -> word32 v ->
    Lowcar.device_write i (le_bytes (param_size (pd_type p)) v ++ post) st =
      Done (param_size (pd_type p), put_param i v st)
}.

Section ParamLoops.
Context {H : Heap} {HR : ReliableHeap H} {St : Stack} {D : Driver} (t : Z) (d : device_t) {P : Params D d}.
Context (Hd : get_device t = Some d).

(** The writes of the parameters of [mask], in the order of their indices. *)
Fixpoint put_params (k first : nat) (mask : Z) (vals : list param_val_t) (st : dstate) : dstate :=
  match k with
  | O => st
  | S k' => put_params k' (S first) mask vals
              (if bit_on mask first then put_param first (nth first vals 0) st else st)
  end.

(** [params & (1 << i)] at the width of the Arduino, when there are no bits from 16 on. *)
Lemma int16_bit m i : word32 m -> (forall j, (16 <= j)%nat -> bit_on m j = false) -> (i < 16)%nat ->
  exists b, int16_shl1 i = Done b /\ negb (Z.land m b =? 0) = bit_on m i.
Proof.
  intros Hm Hhigh Hi. unfold int16_shl1. destruct (Nat.ltb_spec i 15); [by eexists|].
  assert (i = 15)%nat as -> by lia. cbn [Nat.eqb]. eexists. split; [done|].
  assert (Hsub : Z.land m (u32 (- 2 ^ 15)) = Z.land m (Z.shiftl 1 (Z.of_nat 15))).
  { apply Z.bits_inj'. intros j Hj. rewrite !Z.land_spec. rewrite <- (Z2Nat.id j) by lia.
    set (k := Z.to_nat j). rewrite <- bit_on_testbit. destruct (Nat.lt_ge_cases k 16) as [Hk|Hk].
    - f_equal. do 16 (destruct k as [|k]; [reflexivity|]). lia.
    - by rewrite Hhigh. }
  by rewrite Hsub.
Qed.

Lemma high_off m : (forall i, bit_on m i = true -> (i < num_params d)%nat) -> forall j, (16 <= j)%nat -> bit_on m j = false.
Proof.
  intros Hm j Hj. destruct (bit_on m j) eqn:E; [|done]. apply Hm in E. pose proof params_16. lia.
Qed.

Lemma shiftr_off m first : word32 m -> (forall j, (first <= j)%nat -> bit_on m j = false) ->
  (Z.shiftr m (Z.of_nat first) >? 0) = false.
Proof.
  intros Hm Hoff. assert (H0 : Z.shiftr m (Z.of_nat first) = 0).
  { apply Z.bits_inj'. intros j Hj. rewrite Z.shiftr_spec, Z.bits_0 by lia.
    replace (j + Z.of_nat first) with (Z.of_nat (Z.to_nat j + first)) by lia.
    rewrite <- bit_on_testbit. apply Hoff. lia. }
  by rewrite H0.
Qed.

(** From [first] on either the loop goes on, or no bit is left. *)
Lemma bits_left m first : word32 m -> (Z.shiftr m (Z.of_nat first) >? 0) = false -> forall j, (first <= j)%nat -> bit_on m j = false.
Proof.
  intros Hm Hs j Hj. destruct (bit_on m j) eqn:E; [|done].
  apply (shiftr_gt0 m first j) in E; [congruence | apply Hm | done].
Qed.

Lemma put_params_off k : forall first mask vals st,
  (forall j, (first <= j)%nat -> bit_on mask j = false) -> put_params k first mask vals st = st.
Proof.
  induction k as [|k IH]; intros first mask vals st Hoff; cbn [put_params]; [done|].
  rewrite Hoff by lia. apply IH. intros j Hj. apply Hoff. lia.
Qed.

Lemma write_params_run mask vals : word32 mask -> (forall i, bit_on mask i = true -> writable d i = true) ->
  length vals = MAX_PARAMS -> Forall word32 vals ->
  forall k first dn post pay st, (first + k <= MAX_PARAMS)%nat ->
  pay = dn ++ values_image d mask vals k first ++ post ->
  write_params k first mask pay (length dn) st = Done (put_params k first mask vals st).
Proof.
  intros Hm Hw Hvl Hvw. pose proof (get_device_wf _ _ Hd) as Hwf.
  assert (Hhigh : forall j, (16 <= j)%nat -> bit_on mask j = false).
  { apply high_off. intros i Hi. by eapply writable_exists, Hw. }
  induction k as [|k IH]; intros first dn post pay st Hk Hpay; cbn [write_params put_params]; [done|].
  destruct (Z.shiftr mask (Z.of_nat first) >? 0) eqn:Hs.
  2: { pose proof (bits_left mask first Hm Hs) as Hoff. rewrite (Hoff first) by lia. symmetry. unfold mret, outcome_ret.
       f_equal. symmetry. rewrite put_params_off; [done|]. intros j Hj. apply Hoff. lia. }
  assert (Hf16 : (first < 16)%nat).
  { destruct (Nat.lt_ge_cases first 16); [done|]. rewrite shiftr_off in Hs; [done | done |]. intros j Hj. apply Hhigh. lia. }
  destruct (int16_bit mask first Hm Hhigh Hf16) as (b & -> & Hb). rewrite bind_done, Hb.
  cbn [values_image] in Hpay. destruct (bit_on mask first) eqn:Hon.
  2: { apply (IH (S first) dn post); [lia | done]. }
  destruct (device_wf_param _ d first Hwf ltac:(lia)) as [p Hp].
  destruct (lookup_lt_is_Some_2 vals first) as [v Hv]; [lia|].
  rewrite (value_image_eq _ _ _ _ _ _ Hwf Hp Hv), <- app_assoc in Hpay.
  assert (Hpw : pd_write p ≠ 0).
  { specialize (Hw first Hon). unfold writable in Hw. rewrite Hp in Hw. apply negb_true_iff, Z.eqb_neq in Hw. done. }
  rewrite Hpay, drop_app_length, (write_param first p v) by (done || exact (Forall_lookup_1 _ _ _ _ Hvw Hv)).
  rewrite bind_done, (nth_lookup_Some _ _ _ _ Hv).
  pose proof (IH (S first) (dn ++ le_bytes (param_size (pd_type p)) v) post pay (put_param first v st)) as Hrec.
  rewrite length_app, length_le_bytes in Hrec. rewrite <- Hpay. apply Hrec; [lia | by rewrite <- app_assoc].
Qed.

(** The values of all parameters. *)
Definition param_values (st : dstate) : list param_val_t := (fun i => get_param i st) <$> seq 0 MAX_PARAMS.

Lemma param_values_lookup st i : (i < MAX_PARAMS)%nat -> param_values st !! i = Some (get_param i st).
Proof. intros Hi. unfold param_values. by rewrite list_lookup_fmap, lookup_seq_lt by done. Qed.

Lemma param_values_wf st : params_wf (param_values st).
Proof.
  split; [unfold param_values; by rewrite length_fmap, length_seq|].
  apply Forall_fmap, Forall_forall. intros i _. apply get_word.
Qed.

Lemma read_params_run mask st : word32 mask -> (forall i, bit_on mask i = true -> readable d i = true) ->
  forall k first id dn hole, (first + k <= MAX_PARAMS)%nat ->
  let img := values_image d mask (param_values st) k first in
  (length img <= length hole)%nat -> (length dn + length img < 256)%nat ->
  read_params k first mask (LcMessage id (length dn) (dn ++ hole)) st =
  Done (LcMessage id (length dn + length img) (dn ++ img ++ drop (length img) hole), st).
Proof.
  intros Hm Hr. pose proof (get_device_wf _ _ Hd) as Hwf.
  assert (Hhigh : forall j, (16 <= j)%nat -> bit_on mask j = false).
  { apply high_off. intros i Hi. by eapply readable_exists, Hr. }
  assert (Hoffimg : forall k first, (forall j, (first <= j)%nat -> bit_on mask j = false) ->
    values_image d mask (param_values st) k first = []).
  { induction k as [|k IH]; intros first Hoff; cbn [values_image]; [done|].
    rewrite Hoff by lia. rewrite IH; [done|]. intros j Hj. apply Hoff. lia. }
  induction k as [|k IH]; intros first id dn hole Hk img Hh Hl; cbn [read_params].
  { unfold img. cbn [values_image length app]. by rewrite drop_0, Nat.add_0_r. }
  destruct (Z.shiftr mask (Z.of_nat first) >? 0) eqn:Hs.
  2: { unfold img. rewrite Hoffimg by (by apply bits_left). cbn [length app]. by rewrite drop_0, Nat.add_0_r. }
  assert (Hf16 : (first < 16)%nat).
  { destruct (Nat.lt_ge_cases first 16); [done|]. rewrite shiftr_off in Hs; [done | done |]. intros j Hj. apply Hhigh. lia. }
  destruct (int16_bit mask first Hm Hhigh Hf16) as (b & -> & Hb). rewrite bind_done, Hb.
  unfold img in *. cbn [values_image] in *. destruct (bit_on mask first) eqn:Hon; [|apply IH; [lia | done | done]].
  destruct (device_wf_param _ d first Hwf ltac:(lia)) as [p Hp].
  assert (Hpr : pd_read p ≠ 0).
  { specialize (Hr first Hon). unfold readable in Hr. rewrite Hp in Hr. apply negb_true_iff, Z.eqb_neq in Hr. done. }
  rewrite (read_param first p st Hp Hpr), bind_done.
  pose proof (value_image_eq _ _ _ _ _ _ Hwf Hp (param_values_lookup st first ltac:(lia))) as Hvi.
  rewrite Hvi in Hh, Hl |- *. clear Hvi img.
  set (one := le_bytes (param_size (pd_type p)) (get_param first st)) in *.
  assert (Hone : length one = param_size (pd_type p)) by (unfold one; apply length_le_bytes).
  set (more := values_image d mask (param_values st) k (S first)) in *. rewrite length_app in Hh, Hl |- *.
  assert (Hpos : (0 < length one)%nat) by (rewrite Hone; destruct (pd_type p); cbn; lia).
  cbn [lc_payload lc_length lc_id].
  assert (Hw : buf_write (dn ++ hole) (length dn) one = Done ((dn ++ one) ++ drop (length one) hole)).
  { rewrite <- (take_drop (length one) hole) at 1. rewrite buf_write_app; [by rewrite <- app_assoc | done |].
    rewrite length_take. lia. }
  clearbody one. destruct one as [|x xs]; [cbn in Hpos; lia|]. remember (x :: xs) as one eqn:He. clear He Hpos x xs.
  rewrite Hw, bind_done, u8_small, Nat2Z.id by lia. rewrite <- length_app.
  rewrite IH; [|lia | rewrite length_drop; fold more; lia | rewrite length_app; fold more; lia].
  fold more. rewrite drop_drop, !length_app, <- !app_assoc. do 3 f_equal; lia.
Qed.

End ParamLoops.

(** Messages that are sent as the same bytes. *)
Lemma frame_ext m m' : message_id m = message_id m' -> payload_length m = payload_length m' ->
  take (payload_length m) (payload m) = take (payload_length m') (payload m') -> frame m = frame m'.
Proof. intros Hi Hl Hp. unfold frame, packet. by rewrite Hi, Hl, <- Hp, Hl. Qed.

(** ** The loop *)

Section Loop.
Context {H : Heap} {HR : ReliableHeap H} {St : Stack} {D : Driver} (t : Z) (d : device_t) {P : Params D d}.
Context (Hd : get_device t = Some d).
Context (printf_ack : Z -> Z -> bytes) (printf_unrecognized printf_error : bytes).
Abbreviation loop := (loop printf_ack printf_unrecognized printf_error).

(** A device that is in contact with the handler, with nothing in its queue, whose actions
    log nothing. *)
Definition in_contact (now : Z) (dv : device D) : Prop :=
  enabled dv = true /\ (dv_timeout dv = 0 \/ u64 (now - last_received_ping_time dv) < dv_timeout dv) /\
  num_logs (msngr dv) = 0 /\ length (lc_payload (curr_msg dv)) = MAX_PAYLOAD_SIZE /\
  forall st, fst (device_actions now st) = [].

(** It is not, or it is, time to send data. *)
Definition data_due (now : Z) (dv : device D) : bool :=
  (0 <? sub_interval dv) && (sub_interval dv <=? u64 (now - last_sent_data_time dv)).

Lemma call_method_quiet (f : dstate -> list bytes * dstate) dv : fst (f (driver dv)) = [] ->
  call_method f dv = Done (set_driver (snd (f (driver dv))) dv).
Proof.
  intros Hf. unfold call_method. destruct (f (driver dv)) as [texts st]. cbn [fst] in Hf. subst texts.
  cbn [log_lines snd]. rewrite bind_ret. by destruct dv.
Qed.

Lemma check_timeout_off now dv : curr_time dv = now ->
  dv_timeout dv = 0 \/ u64 (now - last_received_ping_time dv) < dv_timeout dv -> check_timeout dv = Done dv.
Proof.
  intros <- [H0|Ht]; unfold check_timeout.
  - by rewrite H0.
  - rewrite (proj2 (Z.leb_gt _ _)) by done. by rewrite andb_false_r.
Qed.

(** The write of a DEVICE_WRITE message that has arrived. *)
Lemma device_write_params_run mask vals old st : word32 mask -> (forall i, bit_on mask i = true -> writable d i = true) ->
  params_wf vals -> length old = MAX_PAYLOAD_SIZE ->
  let m := command_msg d mask vals in
  device_write_params (LcMessage (message_id m) (payload_length m)
      (take (payload_length m) (payload m) ++ drop (payload_length m) old)) st =
    Done (put_params d MAX_PARAMS 0 mask vals st).
Proof.
  intros Hm Hw [Hvl Hvw] Hold m. unfold device_write_params. cbn [lc_id lc_payload].
  change (message_id m =? DEVICE_WRITE) with true. cbn [negb].
  unfold m, command_msg. cbn [payload payload_length]. rewrite firstn_all, <- app_assoc.
  rewrite buf_read_prefix by list_lia. rewrite bind_done, take_app_length' by (by rewrite length_le_bytes).
  rewrite le_word32 by done.
  pose proof (write_params_run t d Hd mask vals Hm Hw Hvl Hvw MAX_PARAMS 0 (le_bytes 4 mask)
    (drop (length (le_bytes 4 mask ++ values_image d mask vals MAX_PARAMS 0)) old) _ st ltac:(lia) eq_refl) as Hrun.
  rewrite length_le_bytes in Hrun. exact Hrun.
Qed.

Lemma loop_command now dv mask vals noise :
  word32 mask -> (forall i, bit_on mask i = true -> writable d i = true) -> params_wf vals ->
  in_contact now dv -> data_due now dv = false -> noiseless noise ->
  rx (serial (msngr dv)) = noise ++ frame (command_msg d mask vals) ->
  exists dv', loop now dv = Done dv' /\
    driver dv' = snd (device_actions now (put_params d MAX_PARAMS 0 mask vals (driver dv))) /\
    serial (msngr dv') = set_rx [] (serial (msngr dv)) /\ dv_params dv' = dv_params dv /\ enabled dv' = true.
Proof.
  intros Hm Hw Hv (Hen & Hto & Hlogs & Hlen & Hact) Hdue Hn Hrx.
  destruct (command_msg_ok d mask vals) as [Hok Hmax].
  unfold Lowcar.loop, receive. rewrite <- (app_nil_r (frame _)) in Hrx.
  rewrite (lc_read_message_run _ (curr_msg dv) (serial (msngr dv)) noise [] Hok Hmax Hlen Hn Hrx), bind_done.
  cbv beta iota zeta. rewrite decide_True by done. unfold handle_message.
  set (got := LcMessage _ _ _). cbn [curr_msg].
  change (lc_id got) with DEVICE_WRITE. change (DEVICE_WRITE =? DEVICE_PING) with false.
  change (DEVICE_WRITE =? SUBSCRIPTION_REQUEST) with false. change (DEVICE_WRITE =? DEVICE_WRITE) with true.
  cbn [driver]. cbv iota. unfold got. rewrite (device_write_params_run mask vals) by done. fold got. rewrite !bind_done.
  unfold set_driver. cbn [dv_id dv_params sub_interval dv_timeout enabled last_sent_data_time last_received_ping_time curr_time curr_msg msngr].
  rewrite (check_timeout_off now) by done. rewrite bind_done. cbn [enabled]. rewrite Hen. cbn [negb].
  rewrite call_method_quiet, bind_done by apply Hact. unfold send_data, set_driver, set_msg.
  cbn [dv_id dv_params sub_interval dv_timeout enabled last_sent_data_time last_received_ping_time curr_time curr_msg msngr driver].
  unfold data_due in Hdue. rewrite Hdue, bind_ret. unfold lowcar_flush, set_serial. cbn [num_logs msngr]. rewrite Hlogs.
  cbn [Z.eqb]. rewrite bind_ret. eexists. split; [reflexivity|]. done.
Qed.

(** The message with the subscribed parameters, and the loop that sends it. *)
Lemma device_read_params_run dv msg : word32 (dv_params dv) ->
  (forall i, bit_on (dv_params dv) i = true -> readable d i = true) -> length (lc_payload msg) = MAX_PAYLOAD_SIZE ->
  let st := driver dv in
  exists data, device_read_params dv msg = Done (data, st) /\ lc_message_ok data /\
    frame (Message DEVICE_DATA (lc_payload data) (lc_length data) MAX_PAYLOAD_SIZE) =
    frame (event_msg d (Report (dv_params dv) (param_values d st))).
Proof.
  intros Hm Hr Hl st. unfold device_read_params.
  rewrite buf_write_prefix by (by rewrite length_replicate, Hl).
  rewrite bind_done, length_replicate, drop_ge, app_nil_r by lia.
  rewrite buf_write_prefix by (vm_compute; lia). rewrite bind_done, length_le_bytes, drop_replicate.
  cbv beta iota zeta.
  set (img := values_image d (dv_params dv) (param_values d st) MAX_PARAMS 0).
  pose proof (values_image_length d (dv_params dv) (param_values d st) MAX_PARAMS 0) as Hil. fold img in Hil.
  unfold MAX_PARAMS in Hil. set (zeros := replicate (MAX_PAYLOAD_SIZE - 4) 0).
  assert (Hz : length zeros = 128%nat) by done.
  pose proof (read_params_run t d Hd (dv_params dv) st Hm Hr MAX_PARAMS 0 DEVICE_DATA (le_bytes 4 (dv_params dv)) zeros
    (le_n _)) as Hrun. cbv zeta in Hrun. fold img in Hrun. rewrite length_le_bytes in Hrun.
  fold st. rewrite Hrun by lia. eexists. split; [reflexivity|]. split.
  - unfold lc_message_ok. cbn [lc_id lc_payload lc_length].
    split; [unfold byte_ok, DEVICE_DATA; lia|]. split; [|split].
    + apply Forall_app_2; [apply le_bytes_ok|]. apply Forall_app_2; [apply values_image_bytes|].
      apply Forall_drop, Forall_replicate. unfold byte_ok. lia.
    + rewrite !length_app, length_drop, length_le_bytes. unfold MAX_PAYLOAD_SIZE. lia.
    + unfold MAX_PAYLOAD_SIZE. lia.
  - apply frame_ext; cbn [event_msg message_id payload_length payload lc_payload lc_length]; fold img.
    + done.
    + by rewrite length_app, length_le_bytes.
    + rewrite app_assoc, take_app_length', firstn_all by (rewrite length_app, length_le_bytes; done). done.
Qed.

Lemma loop_data now dv : word32 (dv_params dv) -> (forall i, bit_on (dv_params dv) i = true -> readable d i = true) ->
  in_contact now dv -> data_due now dv = true -> rx (serial (msngr dv)) = [] -> (200 <= tx_room (serial (msngr dv)))%nat ->
  let st := snd (device_actions now (driver dv)) in
  exists dv', loop now dv = Done dv' /\ driver dv' = st /\ last_sent_data_time dv' = now /\
    tx (serial (msngr dv')) = tx (serial (msngr dv)) ++ frame (event_msg d (Report (dv_params dv) (param_values d st))).
Proof.
  intros Hm Hr (Hen & Hto & Hlogs & Hlen & Hact) Hdue Hrx Hroom st.
  unfold Lowcar.loop, receive, lc_read_message. rewrite Hrx, bind_ret. cbv beta iota zeta.
  rewrite decide_False, decide_True by done. rewrite bind_ret.
  rewrite (check_timeout_off now) by done. rewrite bind_done. cbn [enabled]. rewrite Hen. cbn [negb].
  rewrite call_method_quiet, bind_done by apply Hact. cbn [driver]. fold st. unfold send_data, set_driver.
  cbn [dv_id dv_params sub_interval dv_timeout enabled last_sent_data_time last_received_ping_time curr_time curr_msg msngr driver].
  unfold data_due in Hdue. rewrite Hdue.
  set (dv1 := Dev D _ _ _ _ _ _ _ _ _ _ st).
  destruct (device_read_params_run dv1 (curr_msg dv) Hm Hr Hlen) as (data & Hread & Hdok & Hframe).
  change (driver dv1) with st in *. change (dv_params dv1) with (dv_params dv) in *.
  rewrite Hread, bind_done. unfold lc_send_message. change (DEVICE_DATA =? ACKNOWLEDGEMENT) with false. cbv beta iota.
  set (out := LcMessage DEVICE_DATA (lc_length data) (lc_payload data)).
  assert (Hout : lc_message_ok out).
  { destruct Hdok as (_ & Hb & Hl & Hn). split; [unfold byte_ok; cbn; unfold DEVICE_DATA; lia | done]. }
  assert (Hfl : (length (frame (host_msg out)) <= 200)%nat).
  { destruct (host_msg_ok out Hout) as [(_ & _ & Hl) Hn]. pose proof (frame_length_max _ Hl Hn).
    unfold MAX_PAYLOAD_SIZE in *. lia. }
  cbn [set_serial serial]. rewrite transmit_run by (done || lia). rewrite !bind_done. cbn [msngr].
  unfold lowcar_flush, set_serial. cbn [num_logs]. rewrite Hlogs. cbn [Z.eqb]. rewrite bind_ret.
  eexists. split; [reflexivity|]. split; [done|]. split; [done|]. cbn [set_msg msngr serial tx].
  by rewrite <- Hframe.
Qed.

End Loop.

(** ** A subscription *)

Section Subscription.
Context {H : Heap} {St : Stack} {D : Driver}.
Context (printf_ack : Z -> Z -> bytes) (printf_unrecognized printf_error : bytes).

(** The device when these bytes have arrived and nothing else is to be read. *)
Definition arrives (bs : bytes) (dv : device D) : device D :=
  set_msg (curr_msg dv) (set_serial (set_rx bs (serial (msngr dv))) (msngr dv)) dv.

Lemma le_word_half z : 0 <= z < 65536 -> le_word (le_bytes 2 z) = z.
Proof. intros Hz. rewrite le_word_bytes. by rewrite Z.mod_small by (change (2 ^ (8 * Z.of_nat 2)) with 65536; lia). Qed.

Lemma receive_subscription now dv mask interval noise :
  word32 mask -> 0 <= interval < 65536 -> length (lc_payload (curr_msg dv)) = MAX_PAYLOAD_SIZE -> noiseless noise ->
  exists dv', receive printf_ack printf_unrecognized printf_error now
      (arrives (noise ++ frame (Message SUBSCRIPTION_REQUEST (le_bytes 4 mask ++ le_bytes 2 interval) 6 6)) dv) = Done dv' /\
    dv_params dv' = mask /\ sub_interval dv' = clamp_interval interval /\
    (dv_id dv', dv_timeout dv', enabled dv', last_sent_data_time dv', last_received_ping_time dv', msngr dv', driver dv') =
    (dv_id dv, dv_timeout dv, enabled dv, last_sent_data_time dv, last_received_ping_time dv,
      set_serial (set_rx [] (serial (msngr dv))) (msngr dv), driver dv).
Proof.
  intros Hm Hi Hl Hn. set (msg := Message SUBSCRIPTION_REQUEST _ 6 6). unfold receive.
  assert (Hok : message_ok msg).
  { split; [unfold byte_ok, msg; cbn; unfold SUBSCRIPTION_REQUEST; lia|]. split; [|done].
    apply Forall_app_2; apply le_bytes_ok. }
  rewrite (lc_read_message_run msg (curr_msg dv) _ noise []), bind_done;
    [|done | unfold msg, MAX_PAYLOAD_SIZE; cbn [payload_length]; lia | done | done | cbn; by rewrite app_nil_r].
  cbv beta iota zeta. rewrite decide_True by done. unfold handle_message, subscription_request. cbn [curr_msg lc_id lc_payload].
  change (message_id msg =? DEVICE_PING) with false. change (message_id msg =? SUBSCRIPTION_REQUEST) with true. cbv iota.
  assert (Ht : take (payload_length msg) (payload msg) = le_bytes 4 mask ++ le_bytes 2 interval) by done.
  rewrite Ht, <- app_assoc.
  assert (H1 : buf_read (le_bytes 4 mask ++ le_bytes 2 interval ++ drop (payload_length msg) (lc_payload (curr_msg dv))) 0 4 =
    Done (le_bytes 4 mask)) by (rewrite buf_read_prefix by list_lia; by rewrite take_app_length').
  assert (H2 : buf_read (le_bytes 4 mask ++ le_bytes 2 interval ++ drop (payload_length msg) (lc_payload (curr_msg dv))) 4 2 =
    Done (le_bytes 2 interval)) by (by apply buf_read_app).
  rewrite H1, bind_done, H2, bind_done, le_word32, le_word_half by done.
  eexists. split; [reflexivity|]. done.
Qed.

End Subscription.

(** ** Device classes that implement the registry *)

Lemma le_bytes_mod n : forall k z, (n <= k)%nat -> le_bytes n (z mod 2 ^ (8 * Z.of_nat k)) = le_bytes n z.
Proof.
  induction n as [|n IH]; intros [|k] z Hk; try lia; try done. cbn [le_bytes].
  replace (2 ^ (8 * Z.of_nat (S k))) with (256 * 2 ^ (8 * Z.of_nat k))
    by (change 256 with (2 ^ 8); rewrite <- Z.pow_add_r by lia; f_equal; lia).
  pose proof (Z.mod_pos_bound z 256 ltac:(lia)). set (K := 2 ^ (8 * Z.of_nat k)) in *.
  assert (0 < K) by (apply Z.pow_pos_nonneg; lia). rewrite Z.rem_mul_r by lia. f_equal.
  - rewrite Z.mul_comm, Z.mod_add, Z.mod_mod by lia. done.
  - rewrite (Z.mul_comm 256), Z.div_add, Z.div_small, Z.add_0_l by lia. apply IH. lia.
Qed.

Lemma le_bytes_u32 n z : (n <= 4)%nat -> le_bytes n (u32 z) = le_bytes n z.
Proof. apply (le_bytes_mod n 4). Qed.

Lemma u32_word z : word32 (u32 z).
Proof. unfold word32, u32. apply Z.mod_pos_bound. lia. Qed.

Lemma take_word_run n v post : take_word n (le_bytes n v ++ post) = Done (v mod 2 ^ (8 * Z.of_nat n)).
Proof.
  unfold take_word. rewrite buf_read_prefix by list_lia.
  by rewrite bind_done, take_app_length', le_word_bytes by (by rewrite length_le_bytes).
Qed.

Lemma take_word4_run v post : word32 v -> take_word 4 (le_bytes 4 v ++ post) = Done v.
Proof. intros Hv. rewrite take_word_run. f_equal. apply Z.mod_small, Hv. Qed.

Module DummyParams.
Import LowcarDevices.DummyDevice.

Definition field (i : nat) (s : state) : Z :=
  match i with
  | 0 => runtime s | 1 => shepherd s | 2 => dawn s | 3 => devops s | 4 => atlas s | 5 => infra s
  | 6 => sens s | 7 => pdb s | 8 => mech s | 9 => cpr s | 10 => edu s | 11 => exec s
  | 12 => pief s | 13 => funtime s | 14 => sheep s | 15 => dusk s | _ => 0%Z
  end%nat.

(** A BOOL keeps its byte. *)
Definition put (i : nat) (v : Z) (s : state) : state :=
  assign i (match i with 8 | 11 | 14 => u8 v | _ => v end)%nat s.

#[export] Instance params : Params class RuntimeUtil.DummyDevice.
Proof.
  refine (Build_Params class _ (fun i s => u32 (field i s)) put _ _ _ _).
  - cbn. lia.
  - intros. apply u32_word.
  - intros i p st Hi Hr. do 16 (destruct i as [|i];
      [injection Hi as <-; try (exfalso; apply Hr; reflexivity); rewrite le_bytes_u32 by (cbn; lia); reflexivity|]).
    apply (lookup_replicate_1 16) in Hi as [-> _]. by destruct Hr.
  - intros i p v post st Hi Hw Hv. do 16 (destruct i as [|i];
      [injection Hi as <-; try (exfalso; apply Hw; reflexivity);
       cbn [Lowcar.device_write class write];
       first [change (param_size _) with 4%nat; rewrite take_word4_run by done; reflexivity
             |change (param_size _) with 1%nat; rewrite take_word_run; reflexivity]|]).
    apply (lookup_replicate_1 16) in Hi as [-> _]. by destruct Hw.
Defined.
End DummyParams.

(** ** ServoControl *)

Module Servo.
Import LowcarDevices.ServoControl.

Definition in_range (v : Z) : bool := negb (f32_lt v F_minus_1 || f32_lt F_1 v).

Definition state_wf (s : state) : Prop :=
  length (positions s) = NUM_SERVOS /\ length (servos s) = NUM_SERVOS /\ length (told s) = NUM_SERVOS.

(** A servo is attached and told its position. *)
Definition move (i : nat) (v : Z) (s : state) : state :=
  State (<[i := v]> (positions s)) (<[i := true]> (servos s)) (<[i := pulse v]> (told s)).

Lemma move_wf i v s : state_wf s -> state_wf (move i v s).
Proof. unfold state_wf. cbn. by rewrite !length_insert. Qed.

Lemma write_servo i v post s : state_wf s -> (i < NUM_SERVOS)%nat -> word32 v ->
  write i (le_bytes 4 v ++ post) s = Done (if in_range v then (4%nat, move i v s) else (0%nat, s)).
Proof.
  intros (H1 & H2 & H3) Hi Hv. unfold write, in_range. rewrite take_word4_run, bind_done by done.
  destruct (_ || _); [done|]. cbn [negb].
  rewrite !buf_set_done by congruence. done.
Qed.

(** Two parameters are written. *)
Lemma write_params_step k i pay ptr s : (i < 2)%nat ->
  write_params (D := class) (S k) i 3 pay ptr s =
    '(n, st) ← Lowcar.device_write (Driver := class) i (drop ptr pay) s;
    write_params (D := class) k (S i) 3 pay (ptr + n) st.
Proof. intros Hi. by destruct i as [|[|i]]; [| |lia]. Qed.
End Servo.

(** ** The theorems on a device and its handler *)

(** A DummyDevice subscribed to its first parameter, last heard of at the time 100. *)
Definition dummy : Driver := DummyDevice.class.
#[export] Instance dummy_params : Params dummy RuntimeUtil.DummyDevice := DummyParams.params.
Definition dummy_relay : relay_t := Relay false 3 7 0 (DevId 0 1 77) 0.
Definition dummy_device : device dummy :=
  Dev dummy (DevId 0 1 77) 1 40 1000 true 100 100 100 (LcMessage NOP 0 cleared)
    (messenger_start (H := zero_heap) (Serial [] [] [] 500)) DummyDevice.start.

Lemma dummy_in_contact now : 100 <= now < 1000 -> in_contact now dummy_device.
Proof.
  intros Hn. split; [done|]. split; [right; cbn; rewrite u64_small by lia; lia|]. do 2 (split; [done|]).
  intros st. change (device_actions now st) with (DummyDevice.actions now st).
  unfold DummyDevice.actions. by case_match.
Qed.

(** A command of the executor reaches the motors of the device it is for. On a connected
    device, after the executor's [device_write] one look of the handler's sender puts bytes on
    the wire; when they arrive at a device in contact, whose class implements the parameters of
    its type, one iteration of its main loop writes exactly the writable parameters that were
    pending or have just been written, in the order of their indices, each with the value the
    executor gave it, and then performs the actions of the device. *)
Theorem command_end_to_end {H : Heap} {HR : ReliableHeap H} {St : Stack} {D : Driver} d {P : Params D d}
    ack unrecognized error logger sm relay ix mask vals s m ws wtail now dv noise :
  all_free sm -> mem_wf (M := shm_mem) m -> (ix < MAX_DEVICES)%nat -> bit_on (cat m) ix = true ->
  get_device (id_type (dev_id relay)) = Some d -> shm_dev_idx relay = Z.of_nat ix ->
  word32 mask -> params_wf vals -> length (sn_pmap s) = S MAX_DEVICES -> params_wf (sn_params s) ->
  io_ws (sn_io s) = ws ++ wtail -> room ws (MAX_PAYLOAD_SIZE + 6) ->
  in_contact now dv -> data_due now dv = false -> noiseless noise ->
  let pending := Z.lor (nth (S ix) (cmds m) 0) mask in
  exists sent got s' m' dv', run (command_sent logger relay ix mask vals s) (Sys m sm) = Done (s', Sys m' sm) /\
    (forall i, bit_on sent i = bit_on pending i && writable d i) /\
    (forall i, (i < MAX_PARAMS)%nat -> bit_on mask i = true -> got !! i = vals !! i) /\
    loop ack unrecognized error now (arrives (noise ++ drop (length (io_out (sn_io s))) (io_out (sn_io s'))) dv) = Done dv' /\
    driver dv' = snd (device_actions now (put_params d MAX_PARAMS 0 sent got (driver dv))) /\
    rx (serial (msngr dv')) = [] /\ tx (serial (msngr dv')) = tx (serial (msngr dv)) /\ enabled dv' = true.
Proof.
  intros Hf Hm Hix Hon Hd Hsi Hmask Hv Hpl Hps Hws Hroom Hc Hdue Hn pending.
  destruct (command_sent_run logger sm d relay ix mask vals s m ws wtail)
    as (sent & got & s' & m' & Hrun & Hsw & Hgw & Hbits & Hgot & Hout & _); [done..|].
  destruct (loop_command (id_type (dev_id relay)) d Hd ack unrecognized error now
    (arrives (noise ++ frame (command_msg d sent got)) dv) sent got noise) as (dv' & Hloop & Hdr & Hser & _ & Hen);
    [done | | done | done | done | done | done |].
  { intros i Hi. rewrite Hbits in Hi. by apply andb_prop in Hi as [_ ?]. }
  exists sent, got, s', m', dv'. rewrite Hout, drop_app_length, Hser. done.
Qed.

Lemma command_end_to_end_witness :
  let pending := Z.lor (nth 1 (cmds demo) 0) 4160 in
  exists sent got s' m' dv',
    run (@command_sent zero_heap logger_start dummy_relay 0 4160 (replicate 32 9) demo_sender) (Sys demo sems_start) =
      Done (s', Sys m' sems_start) /\
    (forall i, bit_on sent i = bit_on pending i && writable RuntimeUtil.DummyDevice i) /\
    (forall i, (i < MAX_PARAMS)%nat -> bit_on 4160 i = true -> got !! i = replicate 32 9 !! i) /\
    loop (H := zero_heap) (fun _ _ => []) [] [] 110 (arrives ([5] ++ drop 0 (io_out (sn_io s'))) dummy_device) = Done dv' /\
    driver dv' = snd (@device_actions dummy 110 (put_params (D := dummy) RuntimeUtil.DummyDevice MAX_PARAMS 0 sent got DummyDevice.start)) /\
    rx (serial (msngr dv')) = [] /\ tx (serial (msngr dv')) = [] /\ enabled dv' = true.
Proof.
  apply (command_end_to_end (H := zero_heap) (D := dummy) RuntimeUtil.DummyDevice (fun _ _ => []) [] [] logger_start sems_start
    dummy_relay 0 4160 (replicate 32 9) demo_sender demo [Wrote 100; Wrote 100] [] 110 dummy_device [5] sems_start_ok demo_wf);
    try reflexivity; try (unfold MAX_DEVICES, word32; lia); try (split; [reflexivity | apply Forall_replicate; unfold word32; lia]).
  - exists [100; 100]%nat. split; [repeat constructor | vm_compute; lia].
  - apply dummy_in_contact. lia.
  - repeat constructor; discriminate.
Defined.

(** C9: what a device measures is what the shared memory holds. When its data are due, one
    iteration of the main loop of a device in contact performs its actions and puts bytes on
    the wire; however the kernel cuts them, one step of the handler's receiver stores the value
    of each subscribed parameter after the actions (the low byte for a BOOL) as the data of the
    device, leaves the others as they were and is ready for the next message. *)
Theorem data_end_to_end {H : Heap} {HR : ReliableHeap H} {St : Stack} {D : Driver} d {P : Params D d}
    ack unrecognized error logger sm relay ix m now dv :
  all_free sm -> mem_wf (M := shm_mem) m -> (ix < MAX_DEVICES)%nat -> bit_on (cat m) ix = true ->
  get_device (id_type (dev_id relay)) = Some d -> verified relay -> shm_dev_idx relay = Z.of_nat ix ->
  word32 (dv_params dv) -> (forall i, bit_on (dv_params dv) i = true -> readable d i = true) ->
  in_contact now dv -> data_due now dv = true -> rx (serial (msngr dv)) = [] -> (200 <= tx_room (serial (msngr dv)))%nat ->
  let st := snd (device_actions now (driver dv)) in
  exists dv' bs, loop ack unrecognized error now dv = Done dv' /\
    driver dv' = st /\ last_sent_data_time dv' = now /\ tx (serial (msngr dv')) = tx (serial (msngr dv)) ++ bs /\
    (forall later r cs tail, idle r -> Forall is_data cs -> stream cs = bs -> rc_io r = cs ++ tail ->
     exists r' to, run (receiver_step logger relay later r) (Sys m sm) =
         Done (r', Sys (shm_store (RParams DATA ix) to m) sm) /\
       idle r' /\ rc_io r' = tail /\ params_wf to /\
       forall i, (i < MAX_PARAMS)%nat ->
         if bit_on (dv_params dv) i
         then exists p w, params d !! i = Some p /\ to !! i = Some w /\ agrees (pd_type p) (get_param i st) w
         else to !! i = pars m DATA ix !! i).
Proof.
  intros Hf Hm Hix Hon Hd Hv Hsi Hw Hr Hc Hdue Hrx Hroom st.
  destruct (loop_data (id_type (dev_id relay)) d Hd ack unrecognized error now dv) as (dv' & Hloop & Hdr & Hlast & Htx);
    [done..|]. fold st in Htx. set (e := Report (dv_params dv) (param_values d st)) in *.
  exists dv', (frame (event_msg d e)). do 4 (split; [done|]). intros later r cs tail Hidle Hdata Hs Hio.
  destruct (receiver_step_run logger d relay ix later r m sm [] e [] cs tail)
    as (r' & to & cs' & Hrun & [Hto Hda] & Hid & _ & _ & Hio' & Hd' & Hs'); try done.
  - split; [done | apply param_values_wf].
  - by apply Forall_nil.
  - rewrite Hs. symmetry. apply app_nil_r.
  - exists r', to. apply (is_data_nil cs') in Hs'; [|done]. subst cs'. do 4 (split; [done|]).
    intros i Hi. specialize (Hda i Hi). cbn [reported e] in Hda.
    rewrite param_values_lookup in Hda by done. by destruct (bit_on (dv_params dv) i).
Qed.

Lemma data_end_to_end_witness :
  let st := snd (@device_actions dummy 150 DummyDevice.start) in
  exists dv' bs, loop (H := zero_heap) (fun _ _ => []) [] [] 150 dummy_device = Done dv' /\
    driver dv' = st /\ last_sent_data_time dv' = 150 /\ tx (serial (msngr dv')) = [] ++ bs /\
    (forall later r cs tail, idle r -> Forall is_data cs -> stream cs = bs -> rc_io r = cs ++ tail ->
     exists r' to, run (@receiver_step zero_heap logger_start dummy_relay later r) (Sys demo sems_start) =
         Done (r', Sys (shm_store (RParams DATA 0) to demo) sems_start) /\
       idle r' /\ rc_io r' = tail /\ params_wf to /\
       forall i, (i < MAX_PARAMS)%nat ->
         if bit_on 1 i
         then exists p w, params RuntimeUtil.DummyDevice !! i = Some p /\ to !! i = Some w /\
           agrees (pd_type p) (get_param (D := dummy) (d := RuntimeUtil.DummyDevice) i st) w
         else to !! i = pars demo DATA 0 !! i).
Proof.
  intros st.
  apply (data_end_to_end (H := zero_heap) (D := dummy) RuntimeUtil.DummyDevice (fun _ _ => []) [] [] logger_start sems_start
    dummy_relay 0 demo 150 dummy_device sems_start_ok demo_wf); try reflexivity;
    try (unfold MAX_DEVICES, word32; cbn; lia).
  - discriminate.
  - intros i Hi. destruct i as [|i]; [reflexivity|]. exfalso. cbn in Hi.
    rewrite bit_on_testbit in Hi. unfold Z.testbit in Hi. done.
  - apply dummy_in_contact. lia.
Defined.

(** C30: a subscription of a client reaches the device. The request that the handler makes for
    the parameters [pmap] of a registered type sets, in a device that reads it, the subscribed
    parameters to those of [pmap] that exist and can be read, and the interval to the requested
    one moved into 40..500 milliseconds: the handler's own SUB_INTERVAL of 1 becomes 40. The
    rest of the device does not change. *)
Theorem subscription_end_to_end {H : Heap} {HR : ReliableHeap H} {St : Stack} {D : Driver}
    ack unrecognized error t d pmap interval now (dv : device D) noise :
  get_device t = Some d -> word32 pmap -> 0 <= interval < 65536 ->
  length (lc_payload (curr_msg dv)) = MAX_PAYLOAD_SIZE -> noiseless noise ->
  exists msg m dv', make_subscription_request t pmap interval = Done (Some msg) /\
    (forall i, bit_on m i = bit_on pmap i && readable d i) /\
    receive ack unrecognized error now (arrives (noise ++ frame msg) dv) = Done dv' /\
    dv_params dv' = m /\ sub_interval dv' = Z.max 40 (Z.min interval 500) /\
    driver dv' = driver dv /\ enabled dv' = enabled dv /\ tx (serial (msngr dv')) = tx (serial (msngr dv)).
Proof.
  intros Hd Hp Hi Hl Hn. destruct (make_subscription_image t d pmap interval Hd Hp) as (m & Hm & Hbits & Hmk).
  destruct (receive_subscription ack unrecognized error now dv m interval noise Hm Hi Hl Hn)
    as (dv' & Hrec & Hpar & Hint & Hrest).
  eexists _, m, dv'. split; [exact Hmk|]. do 3 (split; [done|]).
  split; [rewrite Hint; unfold clamp_interval, MIN_SUB_INTERVAL_MS, MAX_SUB_INTERVAL_MS; lia|].
  injection Hrest as _ _ -> _ _ -> ->. done.
Qed.

Lemma subscription_end_to_end_witness :
  exists msg m dv', @make_subscription_request zero_heap 0 4294967295 1 = Done (Some msg) /\
    (forall i, bit_on m i = bit_on 4294967295 i && readable RuntimeUtil.DummyDevice i) /\
    receive (H := zero_heap) (fun _ _ => []) [] [] 110 (arrives ([7; 7] ++ frame msg) dummy_device) = Done dv' /\
    dv_params dv' = m /\ sub_interval dv' = Z.max 40 (Z.min 1 500) /\
    driver dv' = driver dummy_device /\ enabled dv' = enabled dummy_device /\
    tx (serial (msngr dv')) = tx (serial (msngr dummy_device)).
Proof.
  apply (subscription_end_to_end (H := zero_heap) (fun _ _ => []) [] [] 0 RuntimeUtil.DummyDevice); try reflexivity.
  - unfold word32. lia.
  - lia.
  - repeat constructor; discriminate.
Defined.

(** The codec of the devices is exact. For any bytes and any destinations that are large
    enough, the encoder writes what the encoder of the device handler writes, and the decoder
    gives the bytes back and leaves the rest of its destination alone: it needs no byte more
    than the message, where the handler's decoder writes one behind it. *)
Theorem lc_codec_roundtrip dst src out :
  (length (cobs_ref [] src) <= length dst)%nat -> (length src <= length out)%nat ->
  exists n mem, Lc.cobs_encode dst src = Done (n, mem) /\ cobs_encode dst src = Done (n, mem) /\
    Lc.cobs_decode out mem n = Done (length src, src ++ drop (length src) out).
Proof.
  intros Hd Ho. rewrite cobs_encode_same, cobs_encode_ref by done.
  eexists _, _. do 2 (split; [reflexivity|]). by apply lc_decode_ref.
Qed.

Lemma lc_codec_roundtrip_witness :
  exists n mem, Lc.cobs_encode (replicate 4 9) [1; 0; 2] = Done (n, mem) /\ cobs_encode (replicate 4 9) [1; 0; 2] = Done (n, mem) /\
    Lc.cobs_decode (replicate 3 7) mem n = Done (3%nat, [1; 0; 2] ++ drop 3 (replicate 3 7)).
Proof. apply (lc_codec_roundtrip (replicate 4 9) [1; 0; 2] (replicate 3 7)); vm_compute; lia. Defined.

(** A device does not bound the length it is told. A well-formed frame whose payload is
    longer than the message's array, up to the 255 bytes that the length byte can announce, is
    parsed, found correct, and copied past the end of the array. *)
Theorem oversized_message_overflows {H : Heap} {St : Stack} m msg s noise rest :
  message_ok m -> (MAX_PAYLOAD_SIZE < payload_length m <= 250)%nat -> length (lc_payload msg) = MAX_PAYLOAD_SIZE ->
  noiseless noise -> rx s = noise ++ frame m ++ rest ->
  lc_read_message msg s = Faulty OutOfBounds.
Proof.
  intros Hok [Hlo Hhi] Hl Hn Hrx. pose proof Hok as (_ & _ & Hp).
  destruct (cobs_ref_length [] (packet m)) as [Hle _]; [cbn; lia|]. rewrite packet_length in Hle by done. cbn [length] in Hle.
  rewrite (lc_read_message_parsed m msg s noise rest) by (done || lia).
  unfold buf_write. rewrite length_take, (proj2 (Nat.leb_gt _ _)) by lia. done.
Qed.

Lemma oversized_message_overflows_witness :
  lc_read_message (LcMessage NOP 0 cleared)
    (Serial (frame (Message DEVICE_WRITE (replicate 200 1) 200 200)) [] [] 0) = Faulty OutOfBounds.
Proof.
  apply (oversized_message_overflows (H := zero_heap) (Message DEVICE_WRITE (replicate 200 1) 200 200) _ _ [] []); try done.
  - split; [unfold byte_ok; cbn; unfold DEVICE_WRITE; lia|]. split; [|by vm_compute].
    cbn [payload]. apply Forall_replicate. unfold byte_ok. lia.
  - cbn [payload_length]. unfold MAX_PAYLOAD_SIZE. lia.
  - by apply Forall_nil.
Defined.

(** A command for both servos. Each servo whose value is within -1..1 is attached and told
    its position, one out of range is left alone; but because a rejected value is not consumed,
    a value out of range for the first servo is read again for the second, so that the second
    does not move either, whatever it was sent. *)
Theorem servo_command {H : Heap} {St : Stack} v0 v1 post n (s : LowcarDevices.ServoControl.state) :
  Servo.state_wf s -> word32 v0 -> word32 v1 ->
  device_write_params (D := LowcarDevices.ServoControl.class)
    (LcMessage DEVICE_WRITE n (le_bytes 4 3 ++ le_bytes 4 v0 ++ le_bytes 4 v1 ++ post)) s =
  Done (if Servo.in_range v0 then
          let s1 := Servo.move 0 v0 s in if Servo.in_range v1 then Servo.move 1 v1 s1 else s1
        else s).
Proof.
  intros Hs H0 H1. unfold device_write_params. cbn [lc_id lc_payload].
  change (negb (DEVICE_WRITE =? DEVICE_WRITE)) with false. cbv iota.
  rewrite buf_read_prefix by list_lia. rewrite bind_done, take_app_length', le_word32 by (done || unfold word32; lia).
  change MAX_PARAMS with (2 + 30)%nat. cbn [Nat.add]. rewrite !Servo.write_params_step by (cbn; lia).
  change (drop 4 (le_bytes 4 3 ++ le_bytes 4 v0 ++ le_bytes 4 v1 ++ post)) with (le_bytes 4 v0 ++ le_bytes 4 v1 ++ post).
  cbn [Lowcar.device_write ServoControl.class]. rewrite Servo.write_servo by (done || unfold ServoControl.NUM_SERVOS; lia).
  destruct (Servo.in_range v0) eqn:E0; rewrite bind_done, Servo.write_params_step by (cbn; lia).
  - change (drop (4 + 4) (le_bytes 4 3 ++ le_bytes 4 v0 ++ le_bytes 4 v1 ++ post)) with (le_bytes 4 v1 ++ post).
    cbn [Lowcar.device_write ServoControl.class].
    rewrite Servo.write_servo by (done || (by apply Servo.move_wf) || unfold ServoControl.NUM_SERVOS; lia).
    by destruct (Servo.in_range v1).
  - change (drop (4 + 0) (le_bytes 4 3 ++ le_bytes 4 v0 ++ le_bytes 4 v1 ++ post)) with (le_bytes 4 v0 ++ le_bytes 4 v1 ++ post).
    cbn [Lowcar.device_write ServoControl.class].
    rewrite Servo.write_servo by (done || unfold ServoControl.NUM_SERVOS; lia). by rewrite E0.
Qed.

Lemma servo_command_witness :
  device_write_params (D := LowcarDevices.ServoControl.class)
    (LcMessage DEVICE_WRITE 12 (le_bytes 4 3 ++ le_bytes 4 0x40000000 ++ le_bytes 4 0x3F000000 ++ replicate 120 0))
    LowcarDevices.ServoControl.start = Done LowcarDevices.ServoControl.start.
Proof.
  apply (servo_command (H := zero_heap) 0x40000000 0x3F000000 (replicate 120 0) 12); try (unfold word32; lia).
  repeat split; reflexivity.
Defined.
