(* ===== verification/ExecSpec.v ===== *)
(** * What the executor guarantees: the theorems on [Executor].

    The parent: which mode runs, that there is at most one child, and that the motors are told
    to stop when a mode ends. The child: how the student's functions are called, and what the
    challenges send back. And what goes wrong: a child that is stopped while it holds a
    semaphore, and challenges that are timed out. *)

From stdpp Require Import gmap strings pretty.
From S2P Require Export Executor TcpSpec DevSpec.

(** ** Stopping a KoalaBear *)

(** The two velocities of a KoalaBear. *)
Definition velocities : Z := 257.

Lemma velocities_on i : bit_on velocities i = bool_decide (i = 0%nat) || bool_decide (i = 8%nat).
Proof.
  do 9 (destruct i as [|i]; [reflexivity|]). rewrite bit_on_testbit.
  rewrite Z.bits_above_log2; [done | unfold velocities; lia | unfold velocities; cbn; lia].
Qed.

Lemma velocities_word : word32 velocities.
Proof. unfold word32, velocities. lia. Qed.

(** The only device type of that name. *)
Lemma koala_mask : registry_forall (fun _ d => negb (String.eqb (device_name d) "KoalaBear") ||
  match velocity_mask (params d) (num_params d) 0 0 with Done m => m =? velocities | _ => false end) DEVICES = true.
Proof. vm_compute. reflexivity. Qed.

Lemma koala_by_name t d : get_device t = Some d -> String.eqb (device_name d) "KoalaBear" = true ->
  velocity_mask (params d) (num_params d) 0 0 = Done velocities.
Proof.
  intros [_ E]%get_device_Some Hn. pose proof (registry_forall_lookup _ _ _ _ koala_mask E) as Hv.
  cbn beta in Hv. rewrite Hn in Hv. cbn [negb orb] in Hv.
  destruct (velocity_mask _ _ _ _); try done. by apply Z.eqb_eq in Hv as ->.
Qed.

(** The device at this index is a connected KoalaBear. *)
Definition is_koala (m : shm_t) (ix : nat) : bool :=
  bit_on (cat m) ix &&
  match ids m !! ix with
  | Some id => match get_device (id_type id) with Some d => String.eqb (device_name d) "KoalaBear" | None => false end
  | None => false
  end.

Definition zeroed (l : list param_val_t) : list param_val_t := <[8%nat := 0]> (<[0%nat := 0]> l).

(** The memory when the velocities of the device have been commanded to be zero. *)
Definition halt (ix : nat) (m : shm_t) : shm_t :=
  shm_store RCmdMap (cmd_pended ix velocities (cmds m)) (shm_store (RParams COMMAND ix) (zeroed (pars m COMMAND ix)) m).

(** What [reset_params] does: the velocities of every connected KoalaBear are commanded to be
    zero, everything else is as it was. *)
Record motors_stopped (m m' : shm_t) : Prop := {
  ms_cat : cat m' = cat m;
  ms_ids : ids m' = ids m;
  ms_subs : subs m' = subs m;
  ms_data : data_params (dev_shm m') = data_params (dev_shm m);
  ms_rest : same_rest m m';
  ms_values : forall ix, (ix < MAX_DEVICES)%nat ->
    pars m' COMMAND ix = if is_koala m ix then zeroed (pars m COMMAND ix) else pars m COMMAND ix;
  ms_pending : forall ix, (ix < MAX_DEVICES)%nat ->
    nth (S ix) (cmds m') 0 = if is_koala m ix then Z.lor (nth (S ix) (cmds m) 0) velocities else nth (S ix) (cmds m) 0;
  ms_flags : forall ix, (ix < MAX_DEVICES)%nat ->
    bit_on (nth 0 (cmds m') 0) ix = is_koala m ix || bit_on (nth 0 (cmds m) 0) ix
}.

Section Resets.
Context (sm : gmap shm_sem nat) (Hfree : all_free sm).

Lemma copy_velocities l : length l = MAX_PARAMS -> copy_params velocities (replicate MAX_PARAMS 0) l = Done (zeroed l).
Proof.
  intros Hl. destruct (copy_params_spec velocities (replicate MAX_PARAMS 0) l) as (to & -> & Hto & Hspec); [done | done |].
  f_equal. apply list_eq. intros i. destruct (Nat.lt_ge_cases i MAX_PARAMS) as [Hi|Hi].
  2: { rewrite !lookup_ge_None_2; [done | unfold zeroed; rewrite !length_insert; lia | lia]. }
  rewrite Hspec, velocities_on by done. unfold zeroed, MAX_PARAMS in *.
  destruct (decide (i = 8%nat)) as [->|H8]; [by rewrite list_lookup_insert_eq by (rewrite length_insert; lia)|].
  rewrite list_lookup_insert_ne by done.
  destruct (decide (i = 0%nat)) as [->|H0]; [by rewrite list_lookup_insert_eq by lia|].
  rewrite list_lookup_insert_ne by done. by rewrite !bool_decide_false by done.
Qed.

Lemma zeroed_wf l : params_wf l -> params_wf (zeroed l).
Proof.
  intros [Hl Hw]. split; [unfold zeroed; by rewrite !length_insert|].
  do 2 (apply Forall_insert; [|apply word32_0]). done.
Qed.

Lemma halt_wf ix m : mem_wf (M := shm_mem) m -> (ix < MAX_DEVICES)%nat -> mem_wf (M := shm_mem) (halt ix m).
Proof.
  intros Hm Hix. apply command_stored_wf; [done | by apply zeroed_wf, pars_wf |].
  apply cmd_pended_wf; [apply velocities_word | done | exact (Hm RCmdMap)].
Qed.

Lemma reset_device_run m ix id : mem_wf (M := shm_mem) m -> unique_uids m -> (ix < MAX_DEVICES)%nat ->
  bit_on (cat m) ix = true -> ids m !! ix = Some id ->
  run (reset_device id) (Sys m sm) = Done (tt, Sys (if is_koala m ix then halt ix m else m) sm).
Proof.
  intros Hm Hu Hix Hon Hid. unfold reset_device, is_koala. rewrite Hon, Hid. cbn [andb].
  destruct (get_device (id_type id)) as [d|] eqn:Hd; [|done].
  destruct (String.eqb _ _) eqn:Hn; [|done]. rewrite (koala_by_name _ _ Hd Hn), local_done.
  pose proof (Hm RCmdMap) as [Hl _]. cbn in Hl. destruct (pars_wf m COMMAND ix Hm Hix) as [Hpl _].
  assert (Hw : run (device_write_uid (id_uid id) EXECUTOR COMMAND velocities (replicate MAX_PARAMS 0)) (Sys m sm) =
    Done (0, Sys (halt ix m) sm)).
  { unfold device_write_uid.
    rewrite (run_then (M := shm_mem) _ _ _ _ _ (find_run sm m (id_uid id) Hm)), (Hu ix Hix Hon id Hid).
    change sm with (taken (M := shm_mem) [] sm) at 1.
    by rewrite (run_then (M := shm_mem) _ _ _ _ _ (write_helper_run sm Hfree m ix EXECUTOR COMMAND velocities _ _ Hix Hl
      (copy_velocities _ Hpl))). }
  by rewrite (run_then (M := shm_mem) _ _ _ _ _ Hw).
Qed.

(** The loop over the devices. *)
Fixpoint halt_all (k i : nat) (m : shm_t) : shm_t :=
  match k with
  | O => m
  | S k' => halt_all k' (S i) (if is_koala m i then halt i m else m)
  end.

Lemma reset_devices_run k : forall i c l m, mem_wf (M := shm_mem) m -> unique_uids m -> (i + k <= MAX_DEVICES)%nat ->
  c = cat m -> l = ids m ->
  run (reset_devices k i c l) (Sys m sm) = Done (tt, Sys (halt_all k i m) sm).
Proof.
  induction k as [|k IH]; intros i c l m Hm Hu Hk -> ->; cbn [reset_devices halt_all]; [done|].
  assert (Hstep : run (if bit_on (cat m) i then id ← local (buf_get (ids m) i); reset_device id else mret tt) (Sys m sm) =
    Done (tt, Sys (if is_koala m i then halt i m else m) sm)).
  { destruct (bit_on (cat m) i) eqn:Hon; [|unfold is_koala; by rewrite Hon].
    pose proof (Hm RDevIds) as Hids. cbn in Hids. fold (ids m) in Hids.
    destruct (lookup_lt_is_Some_2 (ids m) i) as [id Hid]; [lia|].
    rewrite (buf_get_done _ _ _ Hid), local_done. apply reset_device_run; done || lia. }
  rewrite (run_then (M := shm_mem) _ _ _ _ _ Hstep).
  destruct (is_koala m i); apply IH; try done; try lia. apply halt_wf; [done | lia].
Qed.

Lemma nth_insert_ne {A} (l : list A) i j x d : i ≠ j -> nth j (<[i := x]> l) d = nth j l d.
Proof. intros Hne. by rewrite !nth_lookup, list_lookup_insert_ne. Qed.

Lemma pars_halt ix jx m : mem_wf (M := shm_mem) m -> (ix < MAX_DEVICES)%nat ->
  pars (halt ix m) COMMAND jx = if decide (jx = ix) then zeroed (pars m COMMAND ix) else pars m COMMAND jx.
Proof.
  intros Hm Hix. case_decide as Hd; [subst jx; exact (pars_store COMMAND ix _ m Hm Hix)|].
  unfold pars, halt. cbn -[insert nth]. by apply nth_insert_ne.
Qed.

Lemma halt_all_spec k : forall i m, mem_wf (M := shm_mem) m -> (i + k <= MAX_DEVICES)%nat ->
  let m' := halt_all k i m in
  (cat m' = cat m /\ ids m' = ids m /\ subs m' = subs m /\ data_params (dev_shm m') = data_params (dev_shm m) /\
   same_rest m m' /\ mem_wf (M := shm_mem) m') /\
  forall ix, (ix < MAX_DEVICES)%nat -> let hit := between i k ix && is_koala m ix in
    pars m' COMMAND ix = (if hit then zeroed (pars m COMMAND ix) else pars m COMMAND ix) /\
    nth (S ix) (cmds m') 0 = (if hit then Z.lor (nth (S ix) (cmds m) 0) velocities else nth (S ix) (cmds m) 0) /\
    bit_on (nth 0 (cmds m') 0) ix = hit || bit_on (nth 0 (cmds m) 0) ix.
Proof.
  induction k as [|k IH]; intros i m Hm Hk; cbn [halt_all].
  { split; [done|]. intros ix Hix. by rewrite between_0. }
  destruct (is_koala m i) eqn:Hi.
  2: { destruct (IH (S i) m Hm ltac:(lia)) as [Hsame Hix]. split; [exact Hsame|]. intros ix Hlt.
       specialize (Hix ix Hlt). destruct (decide (ix = i)) as [->|Hd]; [|by rewrite between_S].
       rewrite between_here, Hi. rewrite between_past in Hix. exact Hix. }
  destruct (IH (S i) (halt i m) (halt_wf i m Hm ltac:(lia)) ltac:(lia)) as [Hsame Hix]. split; [exact Hsame|].
  intros ix Hlt. specialize (Hix ix Hlt). rewrite pars_halt in Hix by (done || lia).
  change (is_koala (halt i m) ix) with (is_koala m ix) in Hix.
  pose proof (Hm RCmdMap) as [Hl _]. cbn in Hl. fold (cmds m) in Hl.
  destruct (nth_pended i velocities (cmds m)) as (H0 & H1 & H2); [lia|].
  change (cmds (halt i m)) with (cmd_pended i velocities (cmds m)) in Hix. rewrite H0, bit_on_set in Hix.
  destruct (decide (ix = i)) as [->|Hd].
  - rewrite between_past, H1, bool_decide_true in Hix by done. by rewrite between_here, Hi.
  - rewrite between_S by done. rewrite H2, (bool_decide_false (i = ix)) in Hix by congruence. done.
Qed.

Lemma reset_params_stops m stack : mem_wf (M := shm_mem) m -> unique_uids m -> length stack = MAX_DEVICES ->
  exists m', run (Executor.reset_params stack) (Sys m sm) = Done (tt, Sys m' sm) /\ motors_stopped m m' /\ mem_wf (M := shm_mem) m'.
Proof.
  intros Hm Hu Hs. exists (halt_all MAX_DEVICES 0 m). unfold Executor.reset_params.
  rewrite (run_then (M := shm_mem) _ _ _ _ _ (get_catalog_run sm Hfree m)), (run_then (M := shm_mem) _ _ _ _ _ (get_ids_run sm Hfree m stack Hm Hs)).
  rewrite (reset_devices_run MAX_DEVICES 0 _ _ m Hm Hu (le_n _) eq_refl eq_refl). split; [reflexivity|].
  pose proof (halt_all_spec MAX_DEVICES 0 m Hm (le_n _)) as Hspec. cbv zeta in Hspec.
  generalize dependent (halt_all MAX_DEVICES 0 m). intros m' [(H1 & H2 & H3 & H4 & H5 & Hw) Hix]. split; [|exact Hw].
  constructor; try assumption; intros ix Hlt; specialize (Hix ix Hlt); rewrite between_all in Hix by done; apply Hix.
Qed.

End Resets.

(** ** The parent *)

(** There is no child in IDLE, and else only the one of the mode. *)
Definition children_ok (e : executor_t) : Prop :=
  procs e = if Executor.mode e =? val_index IDLE then [] else [pid e].

(** The next [fork] fails. *)
Definition fork_fails (e : executor_t) : bool := match forks e with [] => true | r :: _ => r <? 0 end.

Lemma kill_and_wait_own p : kill_and_wait p [p] = [].
Proof. unfold kill_and_wait. by rewrite filter_cons_False, filter_nil by (intros Hne; by apply Hne). Qed.

Lemma start_mode_spec new e : procs e = [] -> new ≠ val_index IDLE ->
  let e' := start_mode new e in
  children_ok e' /\ Executor.mode e' = if fork_fails e then val_index IDLE else new.
Proof.
  intros Hp Hn. unfold start_mode, start_mode_subprocess, fork_fails, children_ok. cbn [forks].
  destruct (forks e) as [|r fs]; [by cbn|]. destruct (Z.ltb_spec r 0); cbn [Executor.mode pid procs forks]; [done|].
  rewrite (proj2 (Z.eqb_neq r (-1))), (proj2 (Z.eqb_neq new _)) by (done || lia). by rewrite Hp.
Qed.

Section Parent.
Context (sm : gmap shm_sem nat) (Hfree : all_free sm).

(** Killing the child: the devices are reset unless it ran challenges. *)
Lemma kill_subprocess_run m stack e : mem_wf (M := shm_mem) m -> unique_uids m -> length stack = MAX_DEVICES ->
  children_ok e -> Executor.mode e ≠ val_index IDLE ->
  exists m', run (kill_subprocess stack e) (Sys m sm) =
      Done (Executor (val_index IDLE) (pid e) [] (forks e), Sys m' sm) /\ mem_wf (M := shm_mem) m' /\
    if Executor.mode e =? val_index CHALLENGE then m' = m else motors_stopped m m'.
Proof.
  intros Hm Hu Hs Hc Hn. unfold kill_subprocess. unfold children_ok in Hc.
  rewrite (proj2 (Z.eqb_neq (Executor.mode e) _)) in Hc by done. rewrite Hc, kill_and_wait_own.
  destruct (Executor.mode e =? val_index CHALLENGE); cbn [negb].
  - by exists m.
  - destruct (reset_params_stops sm Hfree m stack Hm Hu Hs) as (m' & Hr & Hstop & Hw).
    exists m'. by rewrite (run_then (M := shm_mem) _ _ _ _ _ Hr).
Qed.

Lemma main_step_run m stack e : mem_wf (M := shm_mem) m -> unique_uids m -> length stack = MAX_DEVICES -> children_ok e ->
  exists e' m', run (main_step stack e) (Sys m sm) = Done (e', Sys m' sm) /\ children_ok e' /\ mem_wf (M := shm_mem) m' /\
    if decide (field RUN_MODE m = Executor.mode e) then e' = e /\ m' = m
    else Executor.mode e' = (if fork_fails e then val_index IDLE else field RUN_MODE m) /\
      if bool_decide (Executor.mode e = val_index IDLE) || bool_decide (Executor.mode e = val_index CHALLENGE)
      then m' = m else motors_stopped m m'.
Proof.
  intros Hm Hu Hs Hc. destruct (Hm RFields) as [Hfl _]. cbn in Hfl. unfold main_step.
  rewrite (run_then (M := shm_mem) _ _ _ _ _ (robot_desc_read_run sm Hfree RUN_MODE m Hfl)).
  set (new := field RUN_MODE m). case_decide as Hd.
  { rewrite (proj2 (Z.eqb_eq _ _) Hd). by exists e, m. }
  rewrite (proj2 (Z.eqb_neq _ _) Hd). cbn [negb].
  assert (Hkill : exists e1 m1, run (if negb (Executor.mode e =? val_index IDLE) then kill_subprocess stack e else mret e) (Sys m sm) =
      Done (e1, Sys m1 sm) /\ mem_wf (M := shm_mem) m1 /\ procs e1 = [] /\ forks e1 = forks e /\ Executor.mode e1 = val_index IDLE /\
      if bool_decide (Executor.mode e = val_index IDLE) || bool_decide (Executor.mode e = val_index CHALLENGE)
      then m1 = m else motors_stopped m m1).
  { destruct (Z.eqb_spec (Executor.mode e) (val_index IDLE)) as [Hi|Hi]; cbn [negb].
    - exists e, m. rewrite bool_decide_true by done. unfold children_ok in Hc. by rewrite Hi in Hc.
    - destruct (kill_subprocess_run m stack e Hm Hu Hs Hc Hi) as (m1 & Hr & Hw & Hch).
      eexists _, m1. split; [exact Hr|]. rewrite bool_decide_false by done. cbn [orb].
      destruct (Z.eqb_spec (Executor.mode e) (val_index CHALLENGE)); [rewrite bool_decide_true by done | rewrite bool_decide_false by done]; done. }
  destruct Hkill as (e1 & m1 & Hr & Hw & Hp & Hf & Hi & Hch). rewrite (run_then (M := shm_mem) _ _ _ _ _ Hr).
  unfold fork_fails. rewrite <- Hf. fold (fork_fails e1).
  destruct (Z.eqb_spec new (val_index IDLE)) as [Hn|Hn]; cbn [negb].
  - exists e1, m1. rewrite Hn, Hi. split; [done|]. split; [unfold children_ok; by rewrite Hi|]. split; [done|].
    by destruct (fork_fails e1).
  - destruct (start_mode_spec new e1 Hp Hn) as [Hok Hmode]. by exists (start_mode new e1), m1.
Qed.

End Parent.

(** C11: one iteration of the executor's main loop. While the run mode in the shared memory is
    the current one, nothing happens. When it differs, the child of the old mode is killed and
    waited for, the velocities of every connected KoalaBear are commanded to be zero unless the
    old mode was IDLE or CHALLENGE, nothing else in the shared memory changes, and a child is
    started for the new mode, or, if it cannot be, the executor is in IDLE. There is never a
    child in IDLE, and never more than one. *)
Theorem executor_step_spec sm m stack e :
  all_free sm -> mem_wf (M := shm_mem) m -> unique_uids m -> length stack = MAX_DEVICES -> children_ok e ->
  exists e' m', run (main_step stack e) (Sys m sm) = Done (e', Sys m' sm) /\ children_ok e' /\ mem_wf (M := shm_mem) m' /\
    if decide (field RUN_MODE m = Executor.mode e) then e' = e /\ m' = m
    else Executor.mode e' = (if fork_fails e then val_index IDLE else field RUN_MODE m) /\
      if bool_decide (Executor.mode e = val_index IDLE) || bool_decide (Executor.mode e = val_index CHALLENGE)
      then m' = m else motors_stopped m m'.
Proof. intros Hf. by apply main_step_run. Qed.

(** A KoalaBear is connected, and the executor runs AUTO as process 42 when it is told to idle. *)
Definition auto_running : executor_t := Executor (val_index AUTO) 42 [42] [43].

Lemma executor_step_spec_witness :
  exists e' m', run (main_step (replicate MAX_DEVICES (DevId 0 0 0)) auto_running) (Sys demo sems_start) =
      Done (e', Sys m' sems_start) /\ children_ok e' /\ mem_wf (M := shm_mem) m' /\
    if decide (field RUN_MODE demo = Executor.mode auto_running) then e' = auto_running /\ m' = demo
    else Executor.mode e' = (if fork_fails auto_running then val_index IDLE else field RUN_MODE demo) /\
      if bool_decide (Executor.mode auto_running = val_index IDLE) || bool_decide (Executor.mode auto_running = val_index CHALLENGE)
      then m' = demo else motors_stopped demo m'.
Proof.
  apply (executor_step_spec sems_start demo (replicate MAX_DEVICES (DevId 0 0 0)) auto_running);
    [exact sems_start_ok | exact demo_wf | exact demo_unique | reflexivity | reflexivity].
Defined.

(** When a mode ends, the motors are told to stop. Let AUTO or TELEOP run and the run mode
    in the shared memory be another one. After one iteration of the executor's main loop its
    child is gone, and for every connected KoalaBear one look of the handler's sender puts a
    DEVICE_WRITE on the wire that carries both velocities with the value zero, together with
    what else was pending for the device. *)
Lemma stop_sent_run {H : Heap} {HR : ReliableHeap H} logger sm m stack e relay ix s ws wtail :
  all_free sm -> mem_wf (M := shm_mem) m -> unique_uids m -> length stack = MAX_DEVICES -> children_ok e ->
  Executor.mode e = val_index AUTO \/ Executor.mode e = val_index TELEOP -> field RUN_MODE m ≠ Executor.mode e ->
  (ix < MAX_DEVICES)%nat -> is_koala m ix = true ->
  get_device (id_type (dev_id relay)) = Some KoalaBear -> shm_dev_idx relay = Z.of_nat ix ->
  length (sn_pmap s) = S MAX_DEVICES -> params_wf (sn_params s) ->
  io_ws (sn_io s) = ws ++ wtail -> room ws (MAX_PAYLOAD_SIZE + 6) ->
  exists e' m1 s' m2 sent got,
    run (main_step stack e) (Sys m sm) = Done (e', Sys m1 sm) /\
    (field RUN_MODE m = val_index IDLE -> procs e' = []) /\
    run (write_command logger relay s) (Sys m1 sm) = Done (s', Sys m2 sm) /\
    io_out (sn_io s') = io_out (sn_io s) ++ frame (command_msg KoalaBear sent got) /\
    word32 sent /\ params_wf got /\
    (forall i, bit_on sent i = (bit_on velocities i || bit_on (nth (S ix) (cmds m) 0) i) && writable KoalaBear i) /\
    got !! 0%nat = Some 0 /\ got !! 8%nat = Some 0.
Proof.
  intros Hf Hm Hu Hs Hc Hmode Hne Hix Hk Hd Hsi Hpl Hps Hws Hroom.
  destruct (main_step_run sm Hf m stack e Hm Hu Hs Hc) as (e' & m1 & Hr & Hok & Hw & Hres).
  rewrite decide_False in Hres by done. destruct Hres as [Hnew Hstop].
  rewrite !bool_decide_false in Hstop by (destruct Hmode as [-> | ->]; done). cbn [orb] in Hstop.
  destruct Hstop as [Hcat _ _ _ _ Hvals Hpend Hflags].
  specialize (Hvals ix Hix). specialize (Hpend ix Hix). specialize (Hflags ix Hix). rewrite Hk in Hvals, Hpend, Hflags.
  assert (Hon : bit_on (cat m1) ix = true) by (rewrite Hcat; unfold is_koala in Hk; by apply andb_prop in Hk as [? _]).
  destruct (write_command_run logger sm KoalaBear relay ix s m1 ws wtail) as (sent & got & s' & ws' & Hsw & Hgw & Hbits & Hgot & _ & _ & Hout & Hrun);
    [done..|].
  exists e', m1, s'. eexists _, sent, got. split; [exact Hr|]. split.
  { intros Hi. rewrite Hi in Hnew. unfold children_ok in Hok. rewrite Hnew in Hok. by destruct (fork_fails e). }
  split; [exact Hrun|]. split; [exact Hout|]. do 2 (split; [done|]).
  assert (Hpb : forall i, bit_on (nth (S ix) (cmds m1) 0) i = bit_on velocities i || bit_on (nth (S ix) (cmds m) 0) i)
    by (intros i; by rewrite Hpend, bit_on_lor, orb_comm).
  split; [intros i; by rewrite Hbits, Hpb|].
  destruct (pars_wf m COMMAND ix Hm Hix) as [Hl _]. unfold MAX_PARAMS in Hl.
  rewrite !Hgot, Hvals by first [unfold MAX_PARAMS; lia | rewrite Hpb; apply orb_true_intro; left; reflexivity].
  unfold zeroed. rewrite list_lookup_insert_eq by (rewrite length_insert; lia).
  by rewrite list_lookup_insert_ne, list_lookup_insert_eq by (done || lia).
Qed.


(** ** A child that is stopped while it holds a semaphore *)

Section Killed.

(** The student's code writes a velocity; the parent resets the devices. *)
Definition student_write : prog (M := shm_mem) unit :=
  _ ← device_write_uid 77 EXECUTOR COMMAND 1 (replicate MAX_PARAMS 9); mret tt.
Definition parent_reset : prog (M := shm_mem) unit := Executor.reset_params (replicate MAX_DEVICES (DevId 0 0 0)).

(** The child has ended, the parent resets. *)
Definition child_killed (c : config (M := shm_mem)) : config (M := shm_mem) := Config (c_sys c) [parent_reset].

(** A thread has not finished, and none can go on. *)
Definition stuck (c : config (M := shm_mem)) : bool :=
  negb (forallb finished (c_threads c)) &&
  forallb (fun t => match advance t (c_sys c) with None => true | Some _ => false end) (c_threads c).

Lemma stuck_no_step c : stuck c = true -> forall c', ~ step c c'.
Proof.
  intros Hs c' Hstep. apply andb_prop in Hs as [_ Hs]. rewrite forallb_forall in Hs.
  destruct Hstep as [i p p' st st' ts Hi Ha]. cbn in Hs.
  specialize (Hs p (proj1 (list_elem_of_In _ _) (list_elem_of_lookup_2 _ _ _ Hi))). by rewrite Ha in Hs.
Qed.

(** Stopping a mode can block the executor for good. The child is ended by a signal whose
    handler calls [exit] wherever the child is. If it is just writing a command of the
    student's code, it has taken the semaphore of the device's commands and never gives it
    back: the parent, which then resets the devices, waits for this semaphore for ever, its
    reset not done. *)
Theorem killed_child_blocks_parent :
  exists c1 c2, rtc step (Config (M := shm_mem) (Sys demo sems_start) [student_write]) c1 /\
    rtc step (child_killed c1) c2 /\ (forall c, ~ step c2 c) /\
    forallb finished (c_threads c2) = false /\ c_threads c2 ≠ [] /\
    nth 0 (cmds (mem (c_sys c2))) 0 = nth 0 (cmds demo) 0.
Proof.
  assert (Hr : match run_schedule (replicate 3 0%nat) (Config (M := shm_mem) (Sys demo sems_start) [student_write]) with
    | Some c1 => match run_schedule (replicate 8 0%nat) (child_killed c1) with
                 | Some c2 => stuck c2 && negb (forallb finished (c_threads c2)) && negb (length (c_threads c2) =? 0)%nat &&
                     (nth 0 (cmds (mem (c_sys c2))) 0 =? nth 0 (cmds demo) 0)
                 | None => false end
    | None => false end = true) by (vm_compute; reflexivity).
  destruct (run_schedule (replicate 3 0%nat) _) as [c1|] eqn:E1; [|done].
  destruct (run_schedule (replicate 8 0%nat) _) as [c2|] eqn:E2; [|done].
  apply andb_prop in Hr as [[[H1 H2]%andb_prop H3]%andb_prop H4].
  exists c1, c2. split; [by eapply run_schedule_steps|]. split; [by eapply run_schedule_steps|].
  split; [by apply stuck_no_step|]. split; [by apply negb_true_iff|].
  split; [by intros Hn; rewrite Hn in H3 | by apply Z.eqb_eq].
Qed.
End Killed.

(** ** The student's functions *)

Section Functions.
Context {Py : Python}.

(** A call after which the loop goes on, and how the loop ends with one that is not. *)
Definition fine (run_mode : Z) (c : call_t) : bool :=
  match result c with
  | Returned _ => (run_mode =? val_index CHALLENGE) || match error_event c with EventSet false => true | _ => false end
  | _ => false
  end.

Definition ending (c : call_t) : py_end :=
  match result c, error_event c with
  | Raised, _ => Ends 2 None
  | RaisedTimeout, _ => Ends 3 None
  | Returned v, IsSetTimeout => Ends 3 (Some v)
  | Returned v, EventSet true => Ends 1 (Some v)
  | Returned v, EventSet false => Ends 0 (Some v)
  | Returned _, _ => Exits 2
  end.

Lemma run_calls_fine timeout run_mode c calls : fine run_mode c = true ->
  exists b, run_calls true timeout run_mode (c :: calls) =
    let '(e, bs) := run_calls true timeout run_mode calls in (e, b :: bs).
Proof.
  unfold fine. cbn [run_calls]. destruct (result c) as [v| |]; [|done..].
  destruct (run_mode =? val_index CHALLENGE); cbn [orb negb]; [by eexists|].
  destruct (error_event c) as [[|]| | |]; try done. by eexists.
Qed.

Lemma run_calls_ends loop timeout run_mode c calls : fine run_mode c = false ->
  exists b, run_calls loop timeout run_mode (c :: calls) = (ending c, [b]).
Proof.
  unfold fine, ending. cbn [run_calls]. destruct (result c) as [v| |]; [|by eexists..].
  destruct (run_mode =? val_index CHALLENGE); cbn [orb negb]; [done|].
  destruct (error_event c) as [[|]| | |]; try done; by eexists.
Qed.

(** Every iteration takes the minimal time, up to the microsecond that is cut off. *)
Definition paced (timeout : option Z) (c : call_t) (b : beat) : Prop :=
  (0 <= took c -> min_time - 1000 < took c + 1000 * default 0 (slept b)) /\
  warned b = match timeout with Some max_time => max_time <? took c | None => false end.

Lemma pause_paced timeout c : paced timeout c
  (Beat (match timeout with Some max_time => max_time <? took c | None => false end) (pause (took c))).
Proof.
  split; [|done]. intros Ht. unfold pause. cbn [slept]. destruct (Z.ltb_spec (took c) min_time); cbn [default from_option]; unfold id.
  - pose proof (Z.mod_pos_bound (min_time - took c) 1000 ltac:(lia)). pose proof (Z.div_mod (min_time - took c) 1000 ltac:(lia)).
    lia.
  - lia.
Qed.

Lemma run_calls_paced loop timeout run_mode calls : forall j b c,
  snd (run_calls loop timeout run_mode calls) !! j = Some b -> calls !! j = Some c -> paced timeout c b.
Proof.
  induction calls as [|c0 calls IH]; intros j b c Hb Hc; [done|]. destruct j as [|j].
  - injection Hc as <-. cbn [run_calls] in Hb.
    assert (Hb0 : Some (Beat (match timeout with Some max_time => max_time <? took c0 | None => false end) (pause (took c0))) = Some b).
    { rewrite <- Hb. destruct (run_calls loop timeout run_mode calls). by repeat (case_match; cbn). }
    injection Hb0 as <-. apply pause_paced.
  - cbn in Hc. cbn [run_calls] in Hb.
    assert (Hb' : snd (run_calls loop timeout run_mode calls) !! j = Some b).
    { destruct (run_calls loop timeout run_mode calls). by repeat (case_match; cbn in *). }
    by apply (IH j).
Qed.

Lemma run_calls_working timeout run_mode calls : Forall (fun c => fine run_mode c = true) calls ->
  fst (run_calls true timeout run_mode calls) = StillRunning.
Proof.
  induction 1 as [|c calls Hc _ IH]; [done|]. destruct (run_calls_fine timeout run_mode c calls Hc) as [b ->].
  by destruct (run_calls true timeout run_mode calls).
Qed.

Lemma run_calls_until timeout run_mode good c rest : Forall (fun c => fine run_mode c = true) good -> fine run_mode c = false ->
  fst (run_calls true timeout run_mode (good ++ c :: rest)) = ending c /\
  length (snd (run_calls true timeout run_mode (good ++ c :: rest))) = S (length good).
Proof.
  induction 1 as [|c0 good Hc _ IH]; intros Hf; cbn [app].
  - by destruct (run_calls_ends true timeout run_mode c rest Hf) as [b ->].
  - destruct (run_calls_fine timeout run_mode c0 (good ++ c :: rest) Hc) as [b ->].
    destruct (IH Hf) as [H1 H2]. destruct (run_calls true timeout run_mode (good ++ c :: rest)). cbn in *. by rewrite H2.
Qed.

End Functions.

(** C37: how the executor calls a function of the student. The main function is called again
    and again as long as it returns and no error has been reported by an action; the first
    call that raises ends it with 2, or 3 for a TimeoutError, an error in an action with 1, and
    what follows makes no difference; a function that is called once gives 0 if that call is
    fine; a function that does not exist gives 4. Each iteration is warned of exactly when it
    took longer than the limit, and takes at least a ten-thousandth of a second, less the
    microsecond that the division drops. *)
Theorem run_py_function_spec {Py : Python} timeout run_mode :
  (forall calls, Forall (fun c => fine run_mode c = true) calls ->
     fst (run_py_function (Some calls) timeout true run_mode) = StillRunning) /\
  (forall good c rest, Forall (fun c => fine run_mode c = true) good -> fine run_mode c = false ->
     let '(e, beats) := run_py_function (Some (good ++ c :: rest)) timeout true run_mode in
     e = ending c /\ length beats = S (length good)) /\
  (forall c rest, fst (run_py_function (Some (c :: rest)) timeout false run_mode) =
     if fine run_mode c then match result c with Returned v => Ends 0 (Some v) | _ => StillRunning end else ending c) /\
  fst (run_py_function None timeout true run_mode) = Ends 4 None /\
  (forall loop calls j b c, snd (run_py_function (Some calls) timeout loop run_mode) !! j = Some b ->
     calls !! j = Some c -> paced timeout c b).
Proof.
  split; [|split; [|split; [|split]]].
  - apply run_calls_working.
  - intros good c rest Hg Hc. pose proof (run_calls_until timeout run_mode good c rest Hg Hc) as Hr.
    unfold run_py_function. by destruct (run_calls true timeout run_mode _).
  - intros c rest. unfold run_py_function. destruct (fine run_mode c) eqn:Hf.
    + unfold fine in Hf. cbn [run_calls]. destruct (result c); try done.
      destruct (run_mode =? val_index CHALLENGE); cbn [negb orb] in *; [done|]. by destruct (error_event c) as [[|]| | |].
    + by destruct (run_calls_ends false timeout run_mode c rest Hf) as [b ->].
  - done.
  - intros loop calls. apply run_calls_paced.
Qed.

(** A concrete interpreter for examples: every object is a string. *)
Definition demo_python : Python := {|
  PyObject := string;
  PyObject_Str o := Some (default "<NULL>"%string o);
  PyUnicode_AsUTF8AndSize s := Some (s, String.length s);
  Py_BuildValue z := Some (pretty z);
  stale s := s
|}.

(** ** The challenges *)

Section Challenges.
Context {Py : Python} {H : Heap} {HR : ReliableHeap H} {P : Protos}.
Context (functions : nat -> string -> PyObject -> option (list call_t)).

(** The challenges from [i] on give these texts. *)
Definition answers (names : list PyObject) (inputs : list string) (i : nat) (texts : list string) : Prop :=
  forall j text, texts !! j = Some text -> exists input, inputs !! (i + j)%nat = Some input /\
    run_challenge functions (i + j) (names !! (i + j)%nat) input = Done (Some text).

Lemma answers_cons names inputs i text texts : answers names inputs i (text :: texts) ->
  (exists input, inputs !! i = Some input /\ run_challenge functions i (names !! i) input = Done (Some text)) /\
  answers names inputs (S i) texts.
Proof.
  intros Ha. split; [specialize (Ha 0%nat text eq_refl); by rewrite Nat.add_0_r in Ha|].
  intros j t Hj. specialize (Ha (S j) t Hj). by rewrite Nat.add_succ_r in Ha.
Qed.

(** Some challenges that answer, at the start of the loop's work. *)
Lemma challenge_loop_run names inputs texts : forall k i before,
  answers names inputs i texts -> length before = i -> (length texts <= k)%nat ->
  challenge_loop functions k i names inputs (before ++ replicate k None) =
  challenge_loop functions (k - length texts) (i + length texts) names inputs
    ((before ++ (Some <$> texts)) ++ replicate (k - length texts) None).
Proof.
  induction texts as [|text texts IH]; intros k i before Ha Hb Hk; cbn [length fmap list_fmap] in *.
  - by rewrite Nat.sub_0_r, Nat.add_0_r, app_nil_r.
  - destruct k as [|k]; [lia|]. apply answers_cons in Ha as [(input & Hi & Hr) Ha]. cbn [challenge_loop].
    rewrite (buf_get_done _ _ _ Hi), bind_done, Hr, bind_done. cbn [replicate].
    rewrite buf_set_app, bind_done by done.
    rewrite (cons_middle (Some text)), app_assoc, (IH k (S i)) by (done || lia || (rewrite length_app; cbn; lia)).
    replace (S k - S (length texts))%nat with (k - length texts)%nat by lia.
    by rewrite Nat.add_succ_r, <- (app_assoc before).
Qed.

Lemma follow_run texts : follow (Some <$> texts) = Done texts.
Proof. induction texts as [|t texts IH]; [done|]. cbn. fold (Some <$> texts). by rewrite IH. Qed.

Lemma follow_wild texts more : follow ((Some <$> texts) ++ None :: more) = Faulty WildPtr.
Proof. induction texts as [|t texts IH]; [done|]. cbn. fold (Some <$> texts). by rewrite IH. Qed.

(** A challenge that is timed out: its own entry is set again and again. *)
Lemma timed_out_run k : forall first before (x : option string) after i, length before = i ->
  for_range (S k) first (fun _ outputs => buf_set outputs i (Some "Timed out"%string)) (before ++ x :: after) =
  Done (before ++ Some "Timed out"%string :: after).
Proof.
  induction k as [|k IH]; intros first before x after i Hi; cbn [for_range]; rewrite buf_set_app, bind_done by done; [done|].
  by apply IH.
Qed.

End Challenges.

(** C38: what the challenges send back. Let the student's list have up to 255 names, the
    datagram be a message with as many inputs, and the first challenges give these texts. If
    these are all, one CHALLENGE_DATA message with the texts, in order, is sent. If the next
    one is the last and is timed out, its text is "Timed out". If a challenge is timed out
    before the last one, the entries of those behind it are never set, because the loop that
    should fill them sets the same entry again, and packing the message follows a pointer that
    was never set. *)
Theorem run_challenges_spec {Py : Python} {H : Heap} {HR : ReliableHeap H} {P : Protos} functions names datagram inputs texts :
  (length names <= 255)%nat -> take 256 datagram ≠ [] -> text__unpack (take 256 datagram) = Some inputs ->
  length inputs = length names -> (length texts <= length names)%nat -> answers functions names inputs 0 texts ->
  let n := length texts in
  let next := run_challenge functions n (names !! n) <$> inputs !! n in
  let sends texts := Z.of_nat (length (text__pack texts)) < 65533 ->
    run_challenges functions (Challenges names) (Some datagram) =
    Done (Some (net_frame (net_msg_num CHALLENGE_DATA_MSG) (text__pack texts))) in
  (n = length names -> sends texts) /\
  (next = Some (Done None) -> S n = length names -> sends (texts ++ ["Timed out"%string])) /\
  (next = Some (Done None) -> (S n < length names)%nat ->
   run_challenges functions (Challenges names) (Some datagram) = Faulty WildPtr).
Proof.
  intros Hn Hne Hu Hi Ht Ha n next sends.
  assert (Hstart : run_challenges functions (Challenges names) (Some datagram) =
    outputs ← challenge_loop functions (length names - n) n names inputs ((Some <$> texts) ++ replicate (length names - n) None);
    payload ← follow outputs;
    send_buf ← make_buf (net_msg_num CHALLENGE_DATA_MSG) (u16 (Z.of_nat (length (text__pack payload))));
    send_buf ← buf_write send_buf BUFFER_OFFSET (text__pack payload);
    d ← buf_read send_buf 0 (Z.to_nat (u16 (u16 (Z.of_nat (length (text__pack payload))) + Z.of_nat BUFFER_OFFSET)));
    mret (Some d)).
  { unfold run_challenges. rewrite u8_small, Nat2Z.id by lia. cbn [fmap option_fmap option_map].
    destruct (take 256 datagram) as [|b bs] eqn:E; [done|]. rewrite Hu, Hi, Nat.eqb_refl. cbn [negb].
    destruct (alloc_done (8 * length names)) as (blk & -> & _). rewrite bind_done.
    pose proof (challenge_loop_run functions names inputs texts (length names) 0 [] Ha eq_refl Ht) as Hl.
    cbn [app Nat.add] in Hl. by rewrite Hl. }
  assert (Hsend : forall all, Z.of_nat (length (text__pack all)) < 65533 ->
    (send_buf ← make_buf (net_msg_num CHALLENGE_DATA_MSG) (u16 (Z.of_nat (length (text__pack all))));
     send_buf ← buf_write send_buf BUFFER_OFFSET (text__pack all);
     d ← buf_read send_buf 0 (Z.to_nat (u16 (u16 (Z.of_nat (length (text__pack all))) + Z.of_nat BUFFER_OFFSET)));
     mret (Some d)) = Done (Some (net_frame (net_msg_num CHALLENGE_DATA_MSG) (text__pack all)))).
  { intros all Hlen. rewrite (u16_small (Z.of_nat (length (text__pack all)))) by lia.
    pose proof (packed_frame (net_msg_num CHALLENGE_DATA_MSG) (text__pack all)) as Hf.
    apply bind_done_inv in Hf as (b & -> & Hf); [|unfold byte_ok; cbn; lia | lia].
    rewrite bind_done, Hf, bind_done. unfold BUFFER_OFFSET. rewrite u16_small by lia.
    assert (Hfl : length (net_frame (net_msg_num CHALLENGE_DATA_MSG) (text__pack all)) = (length (text__pack all) + 3)%nat)
      by (unfold net_frame; list_lia).
    rewrite buf_read_prefix, bind_done by lia. by rewrite firstn_all2 by lia. }
  assert (Hout : forall k, next = Some (Done None) -> (length names - n)%nat = S k ->
    challenge_loop functions (length names - n) n names inputs ((Some <$> texts) ++ replicate (length names - n) None) =
    Done ((Some <$> texts ++ ["Timed out"%string]) ++ replicate k None)).
  { intros k Hnext ->. unfold next in Hnext. destruct (inputs !! n) as [input|] eqn:E; [|done]. injection Hnext as Hnext.
    cbn [challenge_loop]. rewrite (buf_get_done _ _ _ E), bind_done, Hnext, bind_done. cbn [replicate].
    rewrite timed_out_run by (by rewrite length_fmap). by rewrite fmap_app, <- app_assoc. }
  split; [|split].
  - intros Hall Hlen. rewrite Hstart, Hall, Nat.sub_diag. cbn [challenge_loop replicate].
    rewrite app_nil_r, bind_ret, follow_run, bind_done. by apply Hsend.
  - intros Hnext Hlast Hlen. rewrite Hstart, (Hout 0%nat Hnext), bind_done by lia. cbn [replicate].
    rewrite app_nil_r, follow_run, bind_done. by apply Hsend.
  - intros Hnext Hmore. rewrite Hstart, (Hout (S (length names - S (S n)))%nat Hnext), bind_done by lia.
    cbn [replicate]. by rewrite follow_wild.
Qed.

(** Two challenges: the first returns, the second raises a TimeoutError. *)
Definition demo_functions (i : nat) (name arg : string) : option (list (@call_t demo_python)) :=
  Some [@Call demo_python 5 (if (i =? 0)%nat then @Returned demo_python ("got " +:+ arg) else @RaisedTimeout demo_python) (EventSet false)].

Definition demo_names : list (@PyObject demo_python) := ["one"%string : @PyObject demo_python; "two"%string : @PyObject demo_python].

Lemma run_challenges_spec_witness :
  let run_ := @run_challenges demo_python zero_heap demo_protos demo_functions (Challenges (Py := demo_python) demo_names) (Some [2]) in
  let next := run_challenge (Py := demo_python) (H := zero_heap) demo_functions 1 (demo_names !! 1%nat) <$> (Some "7"%string : option string) in
  let sends texts := Z.of_nat (length (@text__pack demo_protos texts)) < 65533 ->
    run_ = Done (Some (net_frame (net_msg_num CHALLENGE_DATA_MSG) (@text__pack demo_protos texts))) in
  (1%nat = 2%nat -> sends ["got 7"%string]) /\
  (next = Some (Done None) -> 2%nat = 2%nat -> sends (["got 7"%string] ++ ["Timed out"%string])) /\
  (next = Some (Done None) -> (2 < 2)%nat -> run_ = Faulty WildPtr).
Proof.
  apply (run_challenges_spec (Py := demo_python) (H := zero_heap) (P := demo_protos) demo_functions demo_names
    [2] ["7"; "7"]%string ["got 7"]%string); try reflexivity.
  - cbn. lia.
  - discriminate.
  - cbn. lia.
  - intros [|j] text Hj; [|done]. injection Hj as <-. exists "7"%string. by split.
Defined.

(** ** The child for the challenges *)

(** The child for the challenges, once its interpreter is set up. When the challenges end within
    the time, what was sent is sent and the run mode is IDLE, so that the parent stops the child.
    When one of them never returns, or the inputs never come, or the time is over, the child
    exits with status 0 before any access to the shared memory: nothing is sent, and the run mode
    stays as it is, so that the parent is not told. *)
Theorem challenge_child_spec {Py : Python} {H : Heap} {P : Protos} functions sm m a list_ received seconds :
  all_free sm -> length (fields m) = NUM_DESC_FIELDS -> executor_init (val_index CHALLENGE) a = Done tt ->
  let ran := run_challenges functions list_ received in
  let child := challenge_child functions a list_ received seconds in
  (ran = Blocked \/ CHALLENGE_TIME <= seconds -> child = Exit 0) /\
  (forall sent, ran = Done sent -> seconds < CHALLENGE_TIME ->
     run child (Sys m sm) = Done (sent, Sys (set_field RUN_MODE (val_index IDLE) m) sm)).
Proof.
  intros Hf Hl Hi ran child. unfold child, challenge_child. rewrite Hi, local_done. fold ran. split.
  - intros Hr. assert (Hu : under_alarm seconds ran = Exited 0); [|by rewrite Hu].
    unfold under_alarm. destruct Hr as [->|Ht]; [done|]. rewrite (proj2 (Z.leb_le _ _)) by done. by destruct ran.
  - intros sent -> Ht. unfold under_alarm. rewrite (proj2 (Z.leb_gt _ _)), local_done by done.
    by rewrite (run_then (M := shm_mem) _ _ _ _ _ (robot_desc_write_run sm Hf RUN_MODE (val_index IDLE) m Hl)), val_index_u8.
Qed.

(** A child without a list of challenges, in time and too late. *)
Lemma challenge_child_spec_witness :
  let a := Api true true true true true true true true 0 0 0 true in
  let child seconds := challenge_child (Py := demo_python) (H := zero_heap) (P := demo_protos) demo_functions a
    (NoChallenges (Py := demo_python)) None seconds in
  child 5 = Exit 0 /\
  run (child 1) (Sys demo sems_start) = Done (None, Sys (set_field RUN_MODE (val_index IDLE) demo) sems_start).
Proof.
  intros a child. split.
  - apply (challenge_child_spec (Py := demo_python) (H := zero_heap) (P := demo_protos) demo_functions sems_start demo a
      (NoChallenges (Py := demo_python)) None 5 sems_start_ok eq_refl eq_refl). right. unfold CHALLENGE_TIME. lia.
  - apply (challenge_child_spec (Py := demo_python) (H := zero_heap) (P := demo_protos) demo_functions sems_start demo a
      (NoChallenges (Py := demo_python)) None 1 sems_start_ok eq_refl eq_refl); [reflexivity | unfold CHALLENGE_TIME; lia].
Defined.
