(* ===== verification/KoalaSpec.v ===== *)
(** * What the motor controller guarantees: the theorems on [KoalaBear].

    Whatever the student asks for and whatever the controllers compute, the pins are driven
    within bounds and never both in one direction at once; a motor that is told to stop stops;
    the executor's stop reaches the motors; and what happens to the motors when the handler
    falls silent. *)

From S2P Require Export ExecSpec LowcarSpec KoalaBear.

(** ** Driving *)

(** The pins of a motor: both within a byte, at least one at 255, which is a brake. *)
Definition pins_ok (p : Z * Z) : Prop :=
  0 <= fst p <= 255 /\ 0 <= snd p <= 255 /\ (fst p = 255 \/ snd p = 255).

Lemma drive_ok undefined target : pins_ok (drive undefined target).
Proof.
  unfold drive, pins_ok. set (x := f32_to_int _ _).
  destruct (f32_lt F_0 target).
  - change (f32_lt F_0 F_1) with true. cbv iota zeta. cbn [fst snd]. repeat case_match; lia.
  - change (f32_lt F_0 F_minus_1) with false. change (f32_lt F_minus_1 F_0) with true. cbv iota zeta. cbn [fst snd].
    repeat case_match; lia.
Qed.

(** Only the pin of the direction is lowered. *)
Lemma drive_direction undefined target :
  if f32_lt F_0 target then snd (drive undefined target) = 255 else fst (drive undefined target) = 255.
Proof. unfold drive. by destruct (f32_lt F_0 target). Qed.

Lemma drive_zero undefined : drive undefined F_0 = (255, 255).
Proof. reflexivity. Qed.

Section Motor.
Context (micros : nat -> Z) (undefined : Z -> Z).

Definition motor_pins (m : motor) : Z * Z := (pwm1 m, pwm2 m).

(** One motor in one iteration. *)
Definition motor_step (interval_secs : Z) (n : nat) (m : motor) : motor * nat :=
  let '(adjusted, m) := speed interval_secs m in
  let '(duty_cycle, m, n) := duty micros adjusted n m in
  (send undefined duty_cycle m, n).

(** The motor comes to a stop in an iteration of this length. *)
Definition stopping (interval_secs : Z) (m : motor) : bool := stops (adjust (accelerate interval_secs m) m) m.

Lemma send_spec d m : let m' := send undefined d m in
  velocity m' = velocity m /\ deadband m' = deadband m /\ invert m' = invert m /\ pid_enabled m' = pid_enabled m /\
  enc m' = enc m /\ curr_velocity m' = curr_velocity m /\ motor_pins m' = drive undefined d.
Proof. unfold send. by destruct (drive undefined d). Qed.

(** The controller's output for a velocity of zero is zero. *)
Lemma duty_spec v n m : let '(d, m', _) := duty micros v n m in
  velocity m' = velocity m /\ deadband m' = deadband m /\ invert m' = invert m /\ pid_enabled m' = pid_enabled m /\
  enc m' = enc m /\ curr_velocity m' = curr_velocity m /\ (v = F_0 -> d = F_0).
Proof.
  unfold duty. destruct (negb _); [|done]. unfold Pid.compute. cbn [Pid.velocity Pid.set_velocity].
  destruct (f32_eq v F_0) eqn:E; repeat split; try reflexivity. intros ->. vm_compute in E. discriminate.
Qed.

Lemma motor_step_spec dt n m : let m' := fst (motor_step dt n m) in
  pins_ok (motor_pins m') /\
  velocity m' = velocity m /\ deadband m' = deadband m /\ invert m' = invert m /\ pid_enabled m' = pid_enabled m /\
  enc m' = enc m /\
  (stopping dt m = true -> motor_pins m' = (255, 255) /\ curr_velocity m' = F_0).
Proof.
  unfold motor_step, speed, stopping. set (v := adjust _ _). destruct (stops v m).
  - pose proof (duty_spec F_0 n (set_curr_velocity F_0 m)) as Hd. destruct (duty _ _ _ _) as [[d m1] n1].
    destruct Hd as (H1 & H2 & H3 & H4 & H5 & H6 & H7). cbn [fst].
    destruct (send_spec d m1) as (G1 & G2 & G3 & G4 & G5 & G6 & G7). cbv zeta.
    rewrite G1, G2, G3, G4, G5, G6, G7, H1, H2, H3, H4, H5, H6, H7, drive_zero by done.
    split; [unfold pins_ok; cbn; lia | done].
  - set (w := accelerate dt m). pose proof (duty_spec v n (set_curr_velocity w m)) as Hd. destruct (duty _ _ _ _) as [[d m1] n1].
    destruct Hd as (H1 & H2 & H3 & H4 & H5 & _ & _). cbn [fst].
    destruct (send_spec d m1) as (G1 & G2 & G3 & G4 & G5 & _ & G7). cbv zeta.
    rewrite G1, G2, G3, G4, G5, G7, H1, H2, H3, H4, H5. split; [apply drive_ok | done].
Qed.

(** The time since the last iteration, in seconds. *)
Definition elapsed (now : Z) (s : state) : Z := f32_div (f32_of_Z (u32 (u32 now - prev_loop_time s))) F_1000.

Lemma actions_eq now s : online s = true ->
  let '(a, n) := motor_step (elapsed now s) (reads s) (motor_a s) in
  let '(b, n) := motor_step (elapsed now s) n (motor_b s) in
  fst (actions micros undefined now s) = [] /\
  motor_a (snd (actions micros undefined now s)) = a /\ motor_b (snd (actions micros undefined now s)) = b.
Proof.
  intros Ho. unfold actions, motor_step. rewrite Ho. cbn [negb]. fold (elapsed now s).
  destruct (speed _ (motor_a s)) as [va a]. destruct (duty micros va (reads s) a) as [[da a'] n].
  destruct (speed _ (motor_b s)) as [vb b]. destruct (duty micros vb n b) as [[db b'] n']. done.
Qed.

Lemma actions_offline now s : online s = false ->
  fst (actions micros undefined now s) = [] /\
  motor_a (snd (actions micros undefined now s)) = motor_a s /\ motor_b (snd (actions micros undefined now s)) = motor_b s.
Proof. intros Ho. unfold actions. by rewrite Ho. Qed.

Lemma actions_velocity now s :
  fst (actions micros undefined now s) = [] /\
  velocity (motor_a (snd (actions micros undefined now s))) = velocity (motor_a s) /\
  velocity (motor_b (snd (actions micros undefined now s))) = velocity (motor_b s).
Proof.
  destruct (online s) eqn:Ho.
  - pose proof (actions_eq now s Ho) as He. destruct (motor_step _ _ (motor_a s)) as [a n] eqn:Ha.
    destruct (motor_step _ n (motor_b s)) as [b n'] eqn:Hb. destruct He as (-> & -> & ->).
    pose proof (motor_step_spec (elapsed now s) (reads s) (motor_a s)) as Sa. rewrite Ha in Sa.
    pose proof (motor_step_spec (elapsed now s) n (motor_b s)) as Sb. rewrite Hb in Sb.
    split; [done|]. split; [apply Sa | apply Sb].
  - destruct (actions_offline now s Ho) as (-> & -> & ->). done.
Qed.

End Motor.

(** ** The parameters of the registry *)

Section Parameters.
Context (micros : nat -> Z) (undefined : Z -> Z).
Abbreviation koala := (KoalaBear.class micros undefined).

Definition motor_field (n : nat) (m : motor) : Z :=
  match n with
  | 0 => velocity m | 1 => deadband m
  | 2 => (if (invert m =? 0)%Z then 0 else 1)%Z | 3 => (if (pid_enabled m =? 0)%Z then 0 else 1)%Z
  | 4 => Pid.kp (controller m) | 5 => Pid.ki (controller m) | 6 => Pid.kd (controller m)
  | 7 => enc m | _ => 0%Z
  end%nat.

Definition koala_field (i : nat) (s : state) : Z :=
  if (i <? 8)%nat then motor_field i (motor_a s) else motor_field (i - 8) (motor_b s).

(** What a write assigns; a velocity is limited, a BOOL keeps its byte. *)
Definition put_motor (n : nat) (v : Z) (reads : nat) (m : motor) : motor * nat :=
  let c := controller m in
  match n with
  | 0 => (set_velocity (limit v) m, reads)
  | 1 => (set_deadband v m, reads)
  | 2 => (set_invert (u8 v) m, reads)
  | 3 => (set_pid_enabled (u8 v) m, reads)
  | 4 => (set_controller (Pid.set_coefficients v (Pid.ki c) (Pid.kd c) c) m, reads)
  | 5 => (set_controller (Pid.set_coefficients (Pid.kp c) v (Pid.kd c) c) m, reads)
  | 6 => (set_controller (Pid.set_coefficients (Pid.kp c) (Pid.ki c) v c) m, reads)
  | 7 => (set_controller (Pid.set_position micros reads (f32_of_Z (s32 v)) c) (set_enc v m), reads + 4)
  | _ => (m, reads)
  end%nat.

Definition koala_put (i : nat) (v : Z) (s : state) : state :=
  let b := negb (i <? 8)%nat in
  let '(m, n) := put_motor (if b then i - 8 else i) v (reads s) (if b then motor_b s else motor_a s) in
  set_motor b m n s.

#[export] Instance koala_params : LowcarSpec.Params koala RuntimeUtil.KoalaBear.
Proof.
  refine (LowcarSpec.Build_Params koala _ (fun i s => u32 (koala_field i s)) koala_put _ _ _ _).
  - cbn. lia.
  - intros. apply u32_word.
  - intros i p st Hi Hr. do 16 (destruct i as [|i];
      [injection Hi as <-; rewrite le_bytes_u32 by (cbn; lia);
       cbn -[le_bytes]; unfold KoalaBear.read; cbn -[le_bytes]; first [reflexivity | by destruct (_ =? 0)]|]).
    apply (lookup_replicate_1 16) in Hi as [-> _]. by destruct Hr.
  - intros i p v post st Hi Hw Hv. do 16 (destruct i as [|i];
      [injection Hi as <-; cbn [Lowcar.device_write KoalaBear.class]; unfold KoalaBear.write;
       cbn [Nat.ltb Nat.leb Nat.sub negb write_motor];
       first [change (param_size _) with 4%nat; rewrite take_word4_run by done; reflexivity
             |change (param_size _) with 1%nat; rewrite take_word_run; reflexivity]|]).
    apply (lookup_replicate_1 16) in Hi as [-> _]. by destruct Hw.
Defined.

Lemma koala_put_velocity_a i v s :
  velocity (motor_a (koala_put i v s)) = if decide (i = 0%nat) then limit v else velocity (motor_a s).
Proof.
  unfold koala_put. destruct (Nat.ltb_spec i 8) as [Hi|Hi]; cbn [negb].
  - do 8 (destruct i as [|i]; [reflexivity|]). lia.
  - rewrite decide_False by lia. by destruct (put_motor _ _ _ _).
Qed.

Lemma koala_put_velocity_b i v s :
  velocity (motor_b (koala_put i v s)) = if decide (i = 8%nat) then limit v else velocity (motor_b s).
Proof.
  unfold koala_put. destruct (Nat.ltb_spec i 8) as [Hi|Hi]; cbn [negb].
  - rewrite decide_False by lia. by destruct (put_motor _ _ _ _).
  - do 8 (destruct i as [|i]; [lia|]). replace (S _ - 8)%nat with i by lia.
    do 8 (destruct i as [|i]; [reflexivity|]). reflexivity.
Qed.

(** The velocities after all writes of a command. *)
Lemma put_params_velocities mask vals k : forall first s,
  let s' := put_params (D := koala) RuntimeUtil.KoalaBear k first mask vals s in
  velocity (motor_a s') = (if between first k 0 && bit_on mask 0 then limit (nth 0 vals 0) else velocity (motor_a s)) /\
  velocity (motor_b s') = (if between first k 8 && bit_on mask 8 then limit (nth 8 vals 0) else velocity (motor_b s)).
Proof.
  induction k as [|k IH]; intros first s; cbn [put_params]; [by rewrite !between_0|].
  cbv zeta in IH |- *. set (s1 := if bit_on mask first then koala_put first (nth first vals 0) s else s).
  change (if bit_on mask first then _ else s) with s1. destruct (IH (S first) s1) as [-> ->]. clear IH.
  assert (Ha : velocity (motor_a s1) = if decide (first = 0%nat) then (if bit_on mask 0 then limit (nth 0 vals 0) else velocity (motor_a s)) else velocity (motor_a s)).
  { unfold s1. pose proof (koala_put_velocity_a first (nth first vals 0) s) as Hp.
    destruct (decide (first = 0%nat)) as [->|Hne]; by destruct (bit_on mask _). }
  assert (Hb : velocity (motor_b s1) = if decide (first = 8%nat) then (if bit_on mask 8 then limit (nth 8 vals 0) else velocity (motor_b s)) else velocity (motor_b s)).
  { unfold s1. pose proof (koala_put_velocity_b first (nth first vals 0) s) as Hp.
    destruct (decide (first = 8%nat)) as [->|Hne]; by destruct (bit_on mask _). }
  rewrite Ha, Hb. clear. split.
  - destruct (decide (first = 0%nat)) as [->|Hne]; [by rewrite between_here, between_past | by rewrite between_S].
  - destruct (decide (first = 8%nat)) as [->|Hne]; [by rewrite between_here, between_past | by rewrite between_S].
Qed.

(** A command that sets both velocities to zero. *)
Lemma put_params_stop mask vals s : bit_on mask 0 = true -> bit_on mask 8 = true ->
  vals !! 0%nat = Some 0 -> vals !! 8%nat = Some 0 ->
  let s' := put_params (D := koala) RuntimeUtil.KoalaBear MAX_PARAMS 0 mask vals s in
  velocity (motor_a s') = F_0 /\ velocity (motor_b s') = F_0.
Proof.
  intros H0 H8 V0 V8. cbv zeta. destruct (put_params_velocities mask vals MAX_PARAMS 0 s) as [-> ->].
  rewrite !between_all, H0, H8 by (unfold MAX_PARAMS; lia).
  by rewrite (nth_lookup_Some _ _ _ _ V0), (nth_lookup_Some _ _ _ _ V8).
Qed.

End Parameters.

(** ** The theorems *)

(** A motor after the actions, which take place [dt] after the last: its pins are within bounds
    and never on in both directions, what the student sets is unchanged, and if it is stopping,
    both pins brake. *)
Definition driven (dt : Z) (m m' : motor) : Prop :=
  pins_ok (motor_pins m') /\
  velocity m' = velocity m /\ deadband m' = deadband m /\ invert m' = invert m /\ pid_enabled m' = pid_enabled m /\ enc m' = enc m /\
  (stopping dt m = true -> motor_pins m' = (255, 255) /\ curr_velocity m' = F_0).

(** C31: the motors are driven within bounds and can be stopped. Whatever the state, whatever
    the controllers compute, be it no number at all or beyond an [int], and whatever such a
    float is converted to: after the actions of a controller that is online every pin is told a
    value of 0..255, at least one pin of each motor 255, and the values that the student sets
    are unchanged. A motor whose velocity is to be 0.0 and that has come within its deadband is
    told 255 on both pins, its brake, with and without PID control. *)
Theorem koala_drives_safely micros undefined now s : online s = true ->
  let s' := snd (actions micros undefined now s) in
  driven (elapsed now s) (motor_a s) (motor_a s') /\ driven (elapsed now s) (motor_b s) (motor_b s').
Proof.
  intros Ho s'. pose proof (actions_eq micros undefined now s Ho) as He. set (dt := elapsed now s) in *.
  pose proof (motor_step_spec micros undefined dt (reads s) (motor_a s)) as Sa.
  destruct (motor_step _ _ _ _ (motor_a s)) as [a n].
  pose proof (motor_step_spec micros undefined dt n (motor_b s)) as Sb.
  destruct (motor_step _ _ _ n (motor_b s)) as [b1 n']. destruct He as (_ & Ea & Eb). cbv zeta in Sa, Sb. cbn [fst] in Sa, Sb.
  unfold s', driven. rewrite Ea, Eb. split; [exact Sa | exact Sb].
Qed.

(** A controller after its first iteration, its first motor at half its speed. *)
Definition clock (n : nat) : Z := 5000 * Z.of_nat n.
Definition rolling : state :=
  let s := start clock 100 in
  set_motor false (set_pwm 159 255 (set_curr_velocity 0x3F000000 (set_velocity 0x3F000000 (motor_a s)))) (reads s)
    (State (motor_a s) (motor_b s) 100 true (led s) 100 false (pins s) (reads s)).

Lemma koala_drives_safely_witness :
  let s' := snd (actions clock (fun _ => 7) 110 rolling) in
  driven (elapsed 110 rolling) (motor_a rolling) (motor_a s') /\ driven (elapsed 110 rolling) (motor_b rolling) (motor_b s').
Proof. apply (koala_drives_safely clock (fun _ => 7) 110 rolling). reflexivity. Defined.

(** *** The executor's stop *)

(** What happens to a controller's device that reads the command on the wire. *)
Lemma koala_stops_on_command {H : Heap} {St : Stack} micros undefined ack unrecognized error sent got noise now
    (dv : device (KoalaBear.class micros undefined)) :
  word32 sent -> (forall i, bit_on sent i = true -> writable RuntimeUtil.KoalaBear i = true) -> params_wf got ->
  bit_on sent 0 = true -> bit_on sent 8 = true -> got !! 0%nat = Some 0 -> got !! 8%nat = Some 0 ->
  in_contact now dv -> data_due now dv = false -> noiseless noise ->
  exists dv', Lowcar.loop ack unrecognized error now (arrives (noise ++ frame (command_msg RuntimeUtil.KoalaBear sent got)) dv) = Done dv' /\
    velocity (motor_a (driver dv')) = F_0 /\ velocity (motor_b (driver dv')) = F_0 /\ enabled dv' = true.
Proof.
  intros Hs Hw Hg S0 S8 G0 G8 Hc Hdue Hn.
  destruct (loop_command 6 RuntimeUtil.KoalaBear eq_refl ack unrecognized error now
    (arrives (noise ++ frame (command_msg RuntimeUtil.KoalaBear sent got)) dv) sent got noise) as (dv' & Hl & Hd & _ & _ & He);
    [done..|].
  exists dv'. split; [exact Hl|]. rewrite Hd. split_and!; [| |exact He].
  all: destruct (put_params_stop micros undefined sent got (driver dv) S0 S8 G0 G8) as [Ha Hb].
  - etransitivity; [apply (actions_velocity micros undefined now) | exact Ha].
  - etransitivity; [apply (actions_velocity micros undefined now) | exact Hb].
Qed.

(** C5: when a mode ends, the motors stop. Let AUTO or TELEOP run and the run mode in the
    shared memory be another one. One iteration of the executor's main loop, one look of the
    handler's sender for a connected KoalaBear and one iteration of the main loop of that
    device, if it is in contact and receives what was sent, and both velocities of the
    controller are 0.0, whatever the student's code had asked for before. *)
Theorem stop_reaches_motors {H : Heap} {HR : ReliableHeap H} {St : Stack} micros undefined ack unrecognized error
    logger sm m stack e relay ix s ws wtail now (dv : device (KoalaBear.class micros undefined)) noise :
  all_free sm -> mem_wf (M := shm_mem) m -> unique_uids m -> length stack = MAX_DEVICES -> children_ok e ->
  Executor.mode e = val_index AUTO \/ Executor.mode e = val_index TELEOP -> field RUN_MODE m ≠ Executor.mode e ->
  (ix < MAX_DEVICES)%nat -> is_koala m ix = true ->
  get_device (id_type (dev_id relay)) = Some RuntimeUtil.KoalaBear -> shm_dev_idx relay = Z.of_nat ix ->
  length (sn_pmap s) = S MAX_DEVICES -> params_wf (sn_params s) ->
  io_ws (sn_io s) = ws ++ wtail -> room ws (MAX_PAYLOAD_SIZE + 6) ->
  in_contact now dv -> data_due now dv = false -> noiseless noise ->
  exists e' m1 s' m2 dv',
    run (main_step stack e) (Sys m sm) = Done (e', Sys m1 sm) /\
    run (write_command logger relay s) (Sys m1 sm) = Done (s', Sys m2 sm) /\
    Lowcar.loop ack unrecognized error now
      (arrives (noise ++ drop (length (io_out (sn_io s))) (io_out (sn_io s'))) dv) = Done dv' /\
    velocity (motor_a (driver dv')) = F_0 /\ velocity (motor_b (driver dv')) = F_0 /\ enabled dv' = true.
Proof.
  intros Hf Hm Hu Hs Hc Hmode Hne Hix Hk Hd Hsi Hpl Hps Hws Hroom Hcon Hdue Hn.
  destruct (stop_sent_run logger sm m stack e relay ix s ws wtail)
    as (e' & m1 & s' & m2 & sent & got & Hmain & _ & Hwr & Hout & Hw & Hgw & Hbits & G0 & G8); [done..|].
  exists e', m1, s', m2. rewrite Hout, drop_app_length.
  destruct (koala_stops_on_command micros undefined ack unrecognized error sent got noise now dv) as (dv' & Hrest);
    [done | | done | by rewrite Hbits | by rewrite Hbits | done..|].
  { intros i Hi. rewrite Hbits in Hi. by apply andb_prop in Hi as [_ ?]. }
  by exists dv'.
Qed.

(** A KoalaBear in AUTO is told to idle. *)
Definition rolling_device : device (KoalaBear.class clock (fun _ => 7)) :=
  Dev (KoalaBear.class clock (fun _ => 7)) (DevId 6 13 77) 0 0 1000 true 100 100 100 (LcMessage NOP 0 LowcarSpec.cleared)
    (messenger_start (H := zero_heap) (Serial [] [] [] 500)) rolling.

Lemma rolling_in_contact : in_contact 110 rolling_device.
Proof.
  split; [done|]. split; [right; reflexivity|]. do 2 (split; [done|]).
  intros st. apply (actions_velocity clock (fun _ => 7) 110 st).
Qed.

Lemma stop_reaches_motors_witness :
  exists e' m1 s' m2 dv',
    run (main_step (replicate MAX_DEVICES (DevId 0 0 0)) auto_running) (Sys demo sems_start) = Done (e', Sys m1 sems_start) /\
    run (@write_command zero_heap logger_start demo_relay demo_sender) (Sys m1 sems_start) = Done (s', Sys m2 sems_start) /\
    Lowcar.loop (H := zero_heap) (fun _ _ => []) [] [] 110
      (arrives ([9] ++ drop 0 (io_out (sn_io s'))) rolling_device) = Done dv' /\
    velocity (motor_a (driver dv')) = F_0 /\ velocity (motor_b (driver dv')) = F_0 /\ enabled dv' = true.
Proof.
  apply (stop_reaches_motors (H := zero_heap) clock (fun _ => 7) (fun _ _ => []) [] [] logger_start sems_start demo
    (replicate MAX_DEVICES (DevId 0 0 0)) auto_running demo_relay 0 demo_sender [Wrote 100; Wrote 100] [] 110 rolling_device [9]);
    try reflexivity.
  - exact sems_start_ok.
  - exact demo_wf.
  - exact demo_unique.
  - by left.
  - discriminate.
  - unfold MAX_DEVICES. lia.
  - split; [reflexivity | apply Forall_replicate; unfold word32; lia].
  - exists [100; 100]%nat. split; [repeat constructor | vm_compute; lia].
  - exact rolling_in_contact.
  - repeat constructor; discriminate.
Defined.

(** *** When the handler falls silent *)

Section Silence.
Context {H : Heap} {St : Stack} (micros : nat -> Z) (undefined : Z -> Z).
Context (printf_ack : Z -> Z -> bytes) (printf_unrecognized printf_error : bytes).
Abbreviation koala := (KoalaBear.class micros undefined).
Abbreviation loop := (Lowcar.loop printf_ack printf_unrecognized printf_error).

(** Iterations of the main loop at these times. *)
Fixpoint loops (times : list Z) (dv : device koala) : outcome (device koala) :=
  match times with
  | [] => mret dv
  | now :: times => dv ← loop now dv; loops times dv
  end.

(** The device waits for the first ping, or has waited too long for one. *)
Definition off (now : Z) (dv : device koala) : Prop :=
  enabled dv = false \/ 0 < dv_timeout dv <= u64 (now - last_received_ping_time dv).

Definition same_pins (dv dv' : device koala) : Prop :=
  motor_pins (motor_a (driver dv')) = motor_pins (motor_a (driver dv)) /\
  motor_pins (motor_b (driver dv')) = motor_pins (motor_b (driver dv)).

(** Nothing has arrived. *)
Lemma loop_silent now dv : rx (serial (msngr dv)) = [] -> off now dv ->
  exists dv', loop now dv = Done dv' /\ enabled dv' = false /\ rx (serial (msngr dv')) = [] /\ same_pins dv dv' /\
    (0 < dv_timeout dv <= u64 (now - last_received_ping_time dv) ->
     velocity (motor_a (driver dv')) = F_0 /\ velocity (motor_b (driver dv')) = F_0).
Proof.
  intros Hrx Hoff. unfold Lowcar.loop, receive, lc_read_message. rewrite Hrx, !bind_done. cbv beta iota zeta.
  rewrite decide_False, decide_True, bind_done by done. unfold check_timeout.
  cbn [dv_timeout curr_time last_received_ping_time set_serial msngr].
  destruct (Z.ltb_spec 0 (dv_timeout dv)) as [H0|H0]; cbn [andb].
  1: destruct (Z.leb_spec (dv_timeout dv) (u64 (now - last_received_ping_time dv))) as [H1|H1].
  - unfold call_method. cbn [device_reset KoalaBear.class log_lines]. rewrite !bind_done. cbv beta iota.
    cbn [negb set_enabled enabled]. eexists. split; [reflexivity|]. by repeat split.
  - destruct Hoff as [Hen|Hto]; [|lia]. rewrite bind_done. cbn [enabled]. rewrite Hen. cbn [negb].
    eexists. split; [reflexivity|]. split; [reflexivity|]. split; [exact Hrx|]. split; [done | cbn; lia].
  - destruct Hoff as [Hen|Hto]; [|lia]. rewrite bind_done. cbn [enabled]. rewrite Hen. cbn [negb].
    eexists. split; [reflexivity|]. split; [reflexivity|]. split; [exact Hrx|]. split; [done | cbn; lia].
Qed.

Lemma loops_silent times : forall dv, rx (serial (msngr dv)) = [] -> enabled dv = false ->
  exists dv', loops times dv = Done dv' /\ enabled dv' = false /\ same_pins dv dv'.
Proof.
  induction times as [|now times IH]; intros dv Hrx Hen; cbn [loops]; [by exists dv|].
  destruct (loop_silent now dv Hrx (or_introl Hen)) as (dv1 & -> & He & Hr & [Ha Hb] & _). rewrite bind_done.
  destruct (IH dv1 Hr He) as (dv2 & Hl & He2 & [Ha2 Hb2]). exists dv2. split; [exact Hl|]. split; [exact He2|].
  split; congruence.
Qed.

End Silence.

(** C39: a robot that loses its handler keeps driving. When a KoalaBear has heard no ping for as
    long as its timeout, it sets the velocities that the student asked for to 0.0 and regards
    itself as disabled; but a disabled device performs no actions any more, and only the
    actions tell the pins anything. In this iteration and in all that follow, at any times,
    until something is received, every pin of the motors stays at what it was told last. *)
Theorem silence_keeps_motors_running {H : Heap} {St : Stack} micros undefined ack unrecognized error now later
    (dv : device (KoalaBear.class micros undefined)) :
  rx (serial (msngr dv)) = [] -> 0 < dv_timeout dv <= u64 (now - last_received_ping_time dv) ->
  exists dv1 dv2, Lowcar.loop ack unrecognized error now dv = Done dv1 /\
    velocity (motor_a (driver dv1)) = F_0 /\ velocity (motor_b (driver dv1)) = F_0 /\
    loops micros undefined ack unrecognized error later dv1 = Done dv2 /\ enabled dv2 = false /\
    motor_pins (motor_a (driver dv2)) = motor_pins (motor_a (driver dv)) /\
    motor_pins (motor_b (driver dv2)) = motor_pins (motor_b (driver dv)).
Proof.
  intros Hrx Hto.
  destruct (loop_silent micros undefined ack unrecognized error now dv Hrx (or_intror Hto)) as (dv1 & Hl & He & Hr & [Ha Hb] & Hv).
  destruct (Hv Hto) as [V0 V1].
  destruct (loops_silent micros undefined ack unrecognized error later dv1 Hr He) as (dv2 & Hl2 & He2 & [Ha2 Hb2]).
  exists dv1, dv2. split_and!; congruence.
Qed.

Lemma silence_keeps_motors_running_witness :
  exists dv1 dv2, Lowcar.loop (H := zero_heap) (fun _ _ => []) [] [] 1100 rolling_device = Done dv1 /\
    velocity (motor_a (driver dv1)) = F_0 /\ velocity (motor_b (driver dv1)) = F_0 /\
    loops (H := zero_heap) clock (fun _ => 7) (fun _ _ => []) [] [] [1110; 1120; 60000] dv1 = Done dv2 /\ enabled dv2 = false /\
    motor_pins (motor_a (driver dv2)) = (159, 255) /\ motor_pins (motor_b (driver dv2)) = (0, 0).
Proof.
  apply (silence_keeps_motors_running (H := zero_heap) clock (fun _ => 7) (fun _ _ => []) [] [] 1100 [1110; 1120; 60000]
    rolling_device); [reflexivity | split; [reflexivity | vm_compute; discriminate]].
Defined.
