(* ===== verification/NetSpec.v ===== *)
(** * What the main thread of the network handler guarantees: the theorems on [NetHandler]. *)

From stdpp Require Import gmap.
From S2P Require Export NetHandler UdpSpec.

(** ** The effects *)

(** What the end of a connection leaves. *)
Definition cleaned (client : robot_desc_field_t) (m : shm_t) : shm_t :=
  let m := set_field client (val_index DISCONNECTED) (set_field RUN_MODE (val_index IDLE) m) in
  if decide (client = DAWN)
  then set_field KEYBOARD (val_index DISCONNECTED) (set_field GAMEPAD (val_index DISCONNECTED) m) else m.

(** A thread is created. *)
Definition setup_ok (env : start_env) (send_logs : bool) : bool :=
  socket_ok env && bind_ok env && (negb send_logs || log_open_ok env && fdopen_ok env) && create_ok env.

Definition stopped (client : robot_desc_field_t) (alive : bool) (m : shm_t) : shm_t :=
  if alive then cleaned client m else m.

Definition served (client : robot_desc_field_t) (send_logs : bool) (r : request) (m : shm_t) : shm_t :=
  let m := if field client m =? val_index DISCONNECTED then m else stopped client (old_alive r) m in
  if setup_ok (env r) send_logs then set_field client (val_index CONNECTED) m else m.

(** Who a request is from. *)
Definition client_of (r : request) : option robot_desc_field_t :=
  if negb (inet r) then None
  else match id_read r with ReadId id => if id =? 0 then Some SHEPHERD else if id =? 1 then Some DAWN else None | _ => None end.

Definition is_client (client : robot_desc_field_t) : Prop := client = DAWN \/ client = SHEPHERD.

Lemma cleaned_length client m : length (fields (cleaned client m)) = length (fields m).
Proof. unfold cleaned. case_decide; by rewrite !fields_set_length. Qed.

(** The run mode is IDLE, the client disconnected, and for Dawn the inputs too; the other
    client's field is as it was. *)
Lemma cleaned_fields client m : is_client client -> length (fields m) = NUM_DESC_FIELDS ->
  field RUN_MODE (cleaned client m) = val_index IDLE /\ field client (cleaned client m) = val_index DISCONNECTED /\
  inputs_off client (cleaned client m) /\
  forall other, is_client other -> other ≠ client -> field other (cleaned client m) = field other m.
Proof.
  intros Hc Hl.
  assert (Heq : forall f v m', length (fields m') = NUM_DESC_FIELDS -> field f (set_field f v m') = v)
    by (intros f v m' Hm'; apply field_set_eq; rewrite Hm'; apply field_index_lt).
  unfold cleaned, inputs_off. destruct Hc as [-> | ->].
  - rewrite decide_True by done. split_and!.
    + rewrite !field_set_ne by done. by apply Heq.
    + rewrite !(field_set_ne DAWN) by done. apply Heq. by rewrite fields_set_length.
    + intros _. rewrite (field_set_ne GAMEPAD KEYBOARD) by done. rewrite !Heq by (by rewrite !fields_set_length). done.
    + intros other Ho Hne. rewrite !(field_set_ne other) by (destruct Ho as [-> | ->]; done). done.
  - rewrite decide_False by done. split_and!.
    + rewrite !field_set_ne by done. by apply Heq.
    + apply Heq. by rewrite fields_set_length.
    + done.
    + intros other Ho Hne. by rewrite !(field_set_ne other) by (destruct Ho as [-> | ->]; done).
Qed.

Section Runs.
Context {H : Heap} {HR : ReliableHeap H} (sm : gmap shm_sem nat) (Hfree : all_free sm).

Lemma cleanup_run client m : length (fields m) = NUM_DESC_FIELDS ->
  run (tcp_conn_cleanup client) (Sys m sm) = Done (tt, Sys (cleaned client m) sm).
Proof.
  intros Hl. unfold tcp_conn_cleanup, cleaned.
  rewrite (run_then (M := shm_mem) _ _ _ _ _ (robot_desc_write_run sm Hfree RUN_MODE (val_index IDLE) m Hl)), val_index_u8.
  set (m1 := set_field RUN_MODE _ m). assert (L1 : length (fields m1) = NUM_DESC_FIELDS) by (unfold m1; by rewrite fields_set_length).
  rewrite (run_then (M := shm_mem) _ _ _ _ _ (robot_desc_write_run sm Hfree client (val_index DISCONNECTED) m1 L1)), val_index_u8.
  set (m2 := set_field client _ m1). assert (L2 : length (fields m2) = NUM_DESC_FIELDS) by (unfold m2; by rewrite fields_set_length).
  case_decide; [|done].
  rewrite (run_then (M := shm_mem) _ _ _ _ _ (robot_desc_write_run sm Hfree GAMEPAD (val_index DISCONNECTED) m2 L2)), val_index_u8.
  set (m3 := set_field GAMEPAD _ m2). assert (L3 : length (fields m3) = NUM_DESC_FIELDS) by (unfold m3; by rewrite fields_set_length).
  by rewrite (robot_desc_write_run sm Hfree KEYBOARD (val_index DISCONNECTED) m3 L3), val_index_u8.
Qed.

Lemma stop_run client alive m : is_client client -> length (fields m) = NUM_DESC_FIELDS ->
  run (stop_tcp_conn client alive) (Sys m sm) = Done (tt, Sys (stopped client alive m) sm).
Proof.
  intros Hc Hl. unfold stop_tcp_conn, stopped.
  assert (Hb : bool_decide (client = DAWN) || bool_decide (client = SHEPHERD) = true) by (by destruct Hc as [-> | ->]).
  rewrite Hb. cbn [negb]. destruct alive; [by apply cleanup_run | done].
Qed.

Lemma start_setup_done env client send_logs : is_client client -> start_setup env client send_logs = Done (setup_ok env send_logs).
Proof.
  intros Hc. unfold start_setup, setup_ok.
  assert (Hb : bool_decide (client = DAWN) || bool_decide (client = SHEPHERD) = true) by (by destruct Hc as [-> | ->]).
  rewrite Hb. cbn [negb]. destruct (alloc_done 32) as [mem [-> _]]. rewrite bind_done.
  by destruct env as [[] [] [] [] []], send_logs.
Qed.

Lemma stopped_length client alive m : length (fields (stopped client alive m)) = length (fields m).
Proof. unfold stopped. destruct alive; [apply cleaned_length | done]. Qed.

Lemma serve_run client send_logs r m : is_client client -> length (fields m) = NUM_DESC_FIELDS ->
  run (serve client send_logs r) (Sys m sm) = Done (tt, Sys (served client send_logs r m) sm).
Proof.
  intros Hc Hl. unfold serve, served. rewrite (run_then (M := shm_mem) _ _ _ _ _ (robot_desc_read_run sm Hfree client m Hl)).
  set (m1 := if field client m =? val_index DISCONNECTED then m else _).
  assert (Hstop : run (if field client m =? val_index DISCONNECTED then mret tt else stop_tcp_conn client (old_alive r)) (Sys m sm) =
    Done (tt, Sys m1 sm)) by (unfold m1; destruct (_ =? _); [done | by apply stop_run]).
  assert (L1 : length (fields m1) = NUM_DESC_FIELDS) by (unfold m1; destruct (_ =? _); [done | by rewrite stopped_length]).
  rewrite (run_then (M := shm_mem) _ _ _ _ _ Hstop). unfold start_tcp_conn. rewrite (start_setup_done _ _ _ Hc), local_done.
  destruct (setup_ok _ _); [|done].
  assert (Hw : run (robot_desc_write client (val_index CONNECTED) ;; mret true) (Sys m1 sm) =
    Done (true, Sys (set_field client (val_index CONNECTED) m1) sm))
    by (by rewrite (run_then (M := shm_mem) _ _ _ _ _ (robot_desc_write_run sm Hfree client _ m1 L1)), val_index_u8).
  by rewrite (run_then (M := shm_mem) _ _ _ _ _ Hw).
Qed.

End Runs.

Lemma accept_step_run {H : Heap} {HR : ReliableHeap H} sm r m : all_free sm -> length (fields m) = NUM_DESC_FIELDS ->
  run (NetHandler.main_step (Some r)) (Sys m sm) =
  Done (tt, Sys (match client_of r with Some client => served client (bool_decide (client = DAWN)) r m | None => m end) sm).
Proof.
  intros Hf Hl. unfold NetHandler.main_step, client_of, determine_client.
  destruct r as [id [] alive env]; cbn [id_read inet negb]; [|by rewrite !andb_false_r].
  rewrite !andb_true_r. destruct id as [| | | |id]; try done.
  destruct (Z.eqb_spec id 0) as [->|H0]; [by rewrite serve_run by (done || by right)|].
  destruct (Z.eqb_spec id 1) as [->|H1]; [by rewrite serve_run by (done || by left)|]. done.
Qed.

(** C17: how a client takes its place. Whoever connects, the main thread's step ends. A
    connection without an identity in time, with an unknown one, or from a strange network
    changes nothing. Shepherd or Dawn is marked connected if its thread can be started; if it
    was marked connected before and its old thread was still alive, that connection is ended
    first, so that the robot is idle and, for Dawn, the inputs are off; and in no case does it
    change the status of the other client. When the process is interrupted and a client is
    connected with its thread alive, the robot is left idle and the client disconnected. *)
Theorem client_takes_place {H : Heap} {HR : ReliableHeap H} sm m r :
  all_free sm -> mem_wf (M := shm_mem) m ->
  exists m', run (NetHandler.main_step (Some r)) (Sys m sm) = Done (tt, Sys m' sm) /\
    (client_of r = None -> m' = m) /\
    (forall client, client_of r = Some client ->
       (setup_ok (env r) (bool_decide (client = DAWN)) = true -> field client m' = val_index CONNECTED) /\
       (field client m ≠ val_index DISCONNECTED -> old_alive r = true ->
          field RUN_MODE m' = val_index IDLE /\ inputs_off client m' /\
          (setup_ok (env r) (bool_decide (client = DAWN)) = false -> field client m' = val_index DISCONNECTED)) /\
       (forall other, is_client other -> other ≠ client -> field other m' = field other m)) /\
    (forall client, is_client client -> field client m = val_index CONNECTED ->
       exists m2, run (stop_clients true true) (Sys m sm) = Done (tt, Sys m2 sm) /\
         field RUN_MODE m2 = val_index IDLE /\ field client m2 = val_index DISCONNECTED).
Proof.
  intros Hf Hm. destruct (Hm RFields) as [Hl _]. cbn in Hl.
  eexists. split; [by apply accept_step_run|]. split; [by intros ->|]. split.
  - intros client Hc. rewrite Hc.
    assert (His : is_client client).
    { unfold client_of in Hc. repeat case_match; try done; injection Hc as <-; [by right | by left]. }
    unfold served. set (m1 := if field client m =? _ then _ else _).
    assert (L1 : length (fields m1) = NUM_DESC_FIELDS) by (unfold m1; destruct (_ =? _); [done | by rewrite stopped_length]).
    assert (Hkeep : forall other, is_client other -> other ≠ client -> field other m1 = field other m).
    { intros other Ho Hne. unfold m1, stopped. destruct (_ =? _); [done|]. destruct (old_alive r); [|done].
      by apply (cleaned_fields client m His Hl). }
    split; [|split].
    + intros ->. apply field_set_eq. rewrite L1. apply field_index_lt.
    + intros Hon Ha. assert (Hm1 : m1 = cleaned client m) by (unfold m1, stopped; by rewrite (proj2 (Z.eqb_neq _ _)), Ha).
      destruct (cleaned_fields client m His Hl) as (C1 & C2 & C3 & _). rewrite <- Hm1 in C1, C2, C3.
      destruct (setup_ok _ _); [|done].
      split; [by rewrite field_set_ne by (by destruct His as [-> | ->])|]. split; [|done].
      intros Hd. rewrite !field_set_ne by (by subst client). by apply C3.
    + intros other Ho Hne. destruct (setup_ok _ _); [rewrite field_set_ne by done|]; by apply Hkeep.
  - intros client Hc Hon. unfold stop_clients.
    rewrite (run_then (M := shm_mem) _ _ _ _ _ (robot_desc_read_run sm Hf SHEPHERD m Hl)).
    set (m1 := if field SHEPHERD m =? val_index CONNECTED then stopped SHEPHERD true m else m).
    assert (R1 : run (if field SHEPHERD m =? val_index CONNECTED then stop_tcp_conn SHEPHERD true else mret tt) (Sys m sm) = Done (tt, Sys m1 sm))
      by (unfold m1; destruct (_ =? _); [apply stop_run; (done || by right) | done]).
    assert (L1 : length (fields m1) = NUM_DESC_FIELDS) by (unfold m1; destruct (_ =? _); [by rewrite stopped_length | done]).
    rewrite (run_then (M := shm_mem) _ _ _ _ _ R1), (run_then (M := shm_mem) _ _ _ _ _ (robot_desc_read_run sm Hf DAWN m1 L1)).
    destruct (cleaned_fields SHEPHERD m (or_intror eq_refl) Hl) as (S1 & S2 & _ & S4).
    destruct (cleaned_fields DAWN m1 (or_introl eq_refl) L1) as (D1 & D2 & _ & D4).
    destruct Hc as [-> | ->].
    + assert (Hd : field DAWN m1 = val_index CONNECTED)
        by (unfold m1, stopped; destruct (_ =? _); [rewrite S4 by (done || by left); done | done]).
      rewrite Hd, Z.eqb_refl. exists (cleaned DAWN m1). split; [by apply (stop_run sm Hf DAWN true m1 (or_introl eq_refl) L1)|]. done.
    + assert (Hm1 : m1 = cleaned SHEPHERD m) by (unfold m1; by rewrite Hon, Z.eqb_refl).
      destruct (field DAWN m1 =? val_index CONNECTED).
      * exists (cleaned DAWN m1). split; [by apply (stop_run sm Hf DAWN true m1 (or_introl eq_refl) L1)|].
        split; [exact D1|]. rewrite D4 by (done || by right). rewrite Hm1. exact S2.
      * exists m1. split; [done|]. rewrite Hm1. done.
Qed.

(** Dawn connects again while its old connection is still alive. *)
Definition dawn_again : request := Request (ReadId 1) true true (StartEnv true true true true true).

Lemma client_takes_place_witness :
  exists m', run (NetHandler.main_step (H := zero_heap) (Some dawn_again)) (Sys with_dawn sems_start) = Done (tt, Sys m' sems_start) /\
    (client_of dawn_again = None -> m' = with_dawn) /\
    (forall client, client_of dawn_again = Some client ->
       (setup_ok (env dawn_again) (bool_decide (client = DAWN)) = true -> field client m' = val_index CONNECTED) /\
       (field client with_dawn ≠ val_index DISCONNECTED -> old_alive dawn_again = true ->
          field RUN_MODE m' = val_index IDLE /\ inputs_off client m' /\
          (setup_ok (env dawn_again) (bool_decide (client = DAWN)) = false -> field client m' = val_index DISCONNECTED)) /\
       (forall other, is_client other -> other ≠ client -> field other m' = field other with_dawn)) /\
    (forall client, is_client client -> field client with_dawn = val_index CONNECTED ->
       exists m2, run (stop_clients true true) (Sys with_dawn sems_start) = Done (tt, Sys m2 sems_start) /\
         field RUN_MODE m2 = val_index IDLE /\ field client m2 = val_index DISCONNECTED).
Proof. apply (client_takes_place (H := zero_heap) sems_start with_dawn dawn_again sems_start_ok with_dawn_wf). Defined.
