(* ===== verification/GameSpec.v ===== *)
(** * What the game states do: the theorems on [GameState].

    How long poison ivy and dehydration last, and what the filter makes of a student's
    command. *)

From stdpp Require Import gmap.
From S2P Require Export GameState UdpSpec ExecSpec.

(** ** The thread *)

Definition is_debuff (f : robot_desc_field_t) : Prop := f = POISON_IVY \/ f = DEHYDRATION.

(** Whether the state is on for the filter, and since when. *)
Definition debuff_on (f : robot_desc_field_t) (h : handler_t) : bool :=
  if decide (f = POISON_IVY) then poison_ivy (gamestate h) else dehydration (gamestate h).
Definition debuff_start (f : robot_desc_field_t) (h : handler_t) : Z :=
  if decide (f = POISON_IVY) then poison_ivy_start h else dehydration_start h.

(** One look at a state. *)
Definition look (f : robot_desc_field_t) (now : Z) (on : bool) (start : Z) (m : shm_t) : (bool * Z) * shm_t :=
  if on then
    if DEBUFF_DURATION <? u64 (now - start) then ((false, 0), set_field f (val_index INACTIVE) m) else ((true, start), m)
  else if field f m =? val_index ACTIVE then ((true, now), m) else ((false, start), m).

Section Handler.
Context (sm : gmap shm_sem nat) (Hfree : all_free sm).

Lemma debuff_run f now on start m : length (fields m) = NUM_DESC_FIELDS ->
  run (debuff f now on start) (Sys m sm) = Done (fst (look f now on start m), Sys (snd (look f now on start m)) sm).
Proof.
  intros Hl. unfold debuff, look. destruct on; cbn [negb andb].
  - rewrite (run_then (M := shm_mem) _ _ _ _ _ (run_ret (M := shm_mem) false _)). destruct (_ <? _); [|done].
    by rewrite (run_then (M := shm_mem) _ _ _ _ _ (robot_desc_write_run sm Hfree f _ m Hl)), val_index_u8.
  - assert (Hr : run (v ← robot_desc_read f; mret (v =? val_index ACTIVE)) (Sys m sm) =
      Done (field f m =? val_index ACTIVE, Sys m sm))
      by (by rewrite (run_then (M := shm_mem) _ _ _ _ _ (robot_desc_read_run sm Hfree f m Hl))).
    rewrite (run_then (M := shm_mem) _ _ _ _ _ Hr). by destruct (_ =? _).
Qed.

(** One look at the other state leaves this one as it was. *)
Lemma look_fields f now on start m : length (fields (snd (look f now on start m))) = length (fields m) /\
  forall g, g ≠ f -> field g (snd (look f now on start m)) = field g m.
Proof.
  unfold look. destruct on; [destruct (_ <? _)|destruct (_ =? _)]; try done. cbn [snd].
  split; [apply fields_set_length | intros g Hg; by apply field_set_ne].
Qed.

Lemma look_ext f now on start m m' : field f m = field f m' ->
  length (fields m) = NUM_DESC_FIELDS -> length (fields m') = NUM_DESC_FIELDS ->
  fst (look f now on start m) = fst (look f now on start m') /\
  field f (snd (look f now on start m)) = field f (snd (look f now on start m')).
Proof.
  intros He Hm Hm'. pose proof (field_index_lt f). unfold look. rewrite <- He.
  destruct on; [destruct (_ <? _)|destruct (_ =? _)]; try done. cbn [fst snd]. by rewrite !field_set_eq by lia.
Qed.

Lemma look_wf f now on start m : mem_wf (M := shm_mem) m -> mem_wf (M := shm_mem) (snd (look f now on start m)).
Proof.
  intros Hm. unfold look. destruct on; [destruct (_ <? _)|destruct (_ =? _)]; try done. cbn [snd].
  apply set_field_wf; [done | unfold byte_ok; cbn; lia].
Qed.

Lemma handler_run now h m : mem_wf (M := shm_mem) m ->
  exists h' m', run (gamestate_handler now h) (Sys m sm) = Done (h', Sys m' sm) /\ mem_wf (M := shm_mem) m' /\
    hypothermia (gamestate h') = (field HYPOTHERMIA m =? val_index ACTIVE) /\
    forall f, is_debuff f ->
      let r := look f now (debuff_on f h) (debuff_start f h) m in
      debuff_on f h' = fst (fst r) /\ debuff_start f h' = snd (fst r) /\ field f m' = field f (snd r).
Proof.
  intros Hm. destruct (Hm RFields) as [Hl _]. cbn in Hl. unfold gamestate_handler.
  rewrite (run_then (M := shm_mem) _ _ _ _ _ (robot_desc_read_run sm Hfree HYPOTHERMIA m Hl)).
  pose proof (look_fields POISON_IVY now (poison_ivy (gamestate h)) (poison_ivy_start h) m) as [L1 F1].
  pose proof (look_wf POISON_IVY now (poison_ivy (gamestate h)) (poison_ivy_start h) m Hm) as W1.
  pose proof (debuff_run POISON_IVY now (poison_ivy (gamestate h)) (poison_ivy_start h) m Hl) as R1.
  destruct (look POISON_IVY _ _ _ m) as [[on1 s1] m1] eqn:E1. cbn [fst snd] in *.
  rewrite (run_then (M := shm_mem) _ _ _ _ _ R1).
  pose proof (look_fields DEHYDRATION now (dehydration (gamestate h)) (dehydration_start h) m1) as [L2 F2].
  pose proof (look_wf DEHYDRATION now (dehydration (gamestate h)) (dehydration_start h) m1 W1) as W2.
  pose proof (debuff_run DEHYDRATION now (dehydration (gamestate h)) (dehydration_start h) m1 (eq_trans L1 Hl)) as R2.
  destruct (look DEHYDRATION _ _ _ m1) as [[on2 s2] m2] eqn:E2. cbn [fst snd] in *.
  rewrite (run_then (M := shm_mem) _ _ _ _ _ R2). eexists _, m2. split; [reflexivity|]. split; [exact W2|]. split; [done|].
  intros f [-> | ->]; unfold debuff_on, debuff_start; cbn [decide].
  - rewrite !decide_True, E1 by done. cbn. rewrite F2 by done. done.
  - rewrite !decide_False by done. cbn [gamestate poison_ivy_start dehydration_start dehydration].
    destruct (look_ext DEHYDRATION now (dehydration (gamestate h)) (dehydration_start h) m1 m) as [G1 G2];
      [by apply F1 | exact (eq_trans L1 Hl) | exact Hl |].
    rewrite E2 in G1, G2. cbn [fst snd] in G1, G2. rewrite <- G1. done.
Qed.

(** While a state is on, and has not been on for too long, it stays. *)
Lemma loop_stays f times : is_debuff f -> forall h m, mem_wf (M := shm_mem) m -> debuff_on f h = true ->
  Forall (fun t => 0 <= t - debuff_start f h <= DEBUFF_DURATION) times ->
  exists h' m', run (gamestate_loop times h) (Sys m sm) = Done (h', Sys m' sm) /\ mem_wf (M := shm_mem) m' /\
    debuff_on f h' = true /\ debuff_start f h' = debuff_start f h /\ field f m' = field f m.
Proof.
  intros Hf. induction times as [|now times IH]; intros h m Hm Hon Ht; cbn [gamestate_loop]; [by exists h, m|].
  apply Forall_cons_1 in Ht as [Hnow Ht].
  destruct (handler_run now h m Hm) as (h1 & m1 & Hr & Hw & _ & Hd). specialize (Hd f Hf). cbv zeta in Hd. unfold look in Hd.
  rewrite Hon in Hd. unfold DEBUFF_DURATION in *. rewrite u64_small, (proj2 (Z.ltb_ge _ _)) in Hd by lia.
  destruct Hd as (D1 & D2 & D3). cbn [fst snd] in *. rewrite (run_then (M := shm_mem) _ _ _ _ _ Hr).
  destruct (IH h1 m1 Hw D1) as (h2 & m2 & Hr2 & Hw2 & D4 & D5 & D6); [by rewrite D2|].
  exists h2, m2. split; [exact Hr2|]. split; [exact Hw2|]. split; [exact D4|]. split; congruence.
Qed.
End Handler.

(** Polls are made one after the other. *)
Lemma gamestate_loop_app ts : forall us h st,
  run (gamestate_loop (ts ++ us) h) st = (run (gamestate_loop ts h) st ≫= fun '(h', st') => run (gamestate_loop us h') st').
Proof.
  induction ts as [|t ts IH]; intros us h st; cbn [gamestate_loop app]; [done|].
  rewrite !(run_bind (M := shm_mem)). destruct (run (gamestate_handler t h) st) as [[h1 st1]| | | |]; try done. apply IH.
Qed.

(** C33: a game state lasts ten seconds. When poison ivy or dehydration becomes active, the
    thread's next look switches it on for the filter; it stays on, and marked active, at every
    look in the following ten seconds, whatever the other game states do; and the first look
    after them switches it off and marks it inactive in the shared memory. *)
Theorem game_state_lasts sm m f h now times last :
  all_free sm -> mem_wf (M := shm_mem) m -> is_debuff f -> debuff_on f h = false -> field f m = val_index ACTIVE ->
  Forall (fun t => 0 <= t - now <= DEBUFF_DURATION) times -> DEBUFF_DURATION < last - now < 2 ^ 64 ->
  exists h1 m1 h2 m2,
    run (gamestate_loop (now :: times) h) (Sys m sm) = Done (h1, Sys m1 sm) /\
    debuff_on f h1 = true /\ field f m1 = val_index ACTIVE /\
    run (gamestate_loop ((now :: times) ++ [last]) h) (Sys m sm) = Done (h2, Sys m2 sm) /\
    debuff_on f h2 = false /\ field f m2 = val_index INACTIVE.
Proof.
  intros Hfree Hm Hf Hoff Hact Ht Hlast.
  destruct (handler_run sm Hfree now h m Hm) as (h0 & m0 & Hr0 & Hw0 & _ & Hd). specialize (Hd f Hf). cbv zeta in Hd.
  unfold look in Hd. rewrite Hoff, (proj2 (Z.eqb_eq _ _) Hact) in Hd. destruct Hd as (D1 & D2 & D3). cbn [fst snd] in *.
  destruct (loop_stays sm Hfree f times Hf h0 m0 Hw0 D1) as (h1 & m1 & Hr1 & Hw1 & E1 & E2 & E3); [by rewrite D2|].
  destruct (handler_run sm Hfree last h1 m1 Hw1) as (h2 & m2 & Hr2 & _ & _ & Hd2). specialize (Hd2 f Hf). cbv zeta in Hd2.
  unfold look in Hd2. rewrite E1, E2, D2, u64_small, (proj2 (Z.ltb_lt _ _)) in Hd2 by (unfold DEBUFF_DURATION in *; lia).
  destruct Hd2 as (G1 & _ & G3). cbn [fst snd] in *.
  assert (Hfirst : run (gamestate_loop (now :: times) h) (Sys m sm) = Done (h1, Sys m1 sm))
    by (cbn [gamestate_loop]; by rewrite (run_then (M := shm_mem) _ _ _ _ _ Hr0)).
  exists h1, m1, h2, m2. split; [exact Hfirst|]. split; [exact E1|]. split; [congruence|].
  rewrite gamestate_loop_app, Hfirst, bind_done. cbn [gamestate_loop].
  rewrite (run_then (M := shm_mem) _ _ _ _ _ Hr2). split; [done|]. split; [exact G1|].
  rewrite G3. apply field_set_eq. destruct (Hw1 RFields) as [Hl1 _]. cbn in Hl1. rewrite Hl1. apply field_index_lt.
Qed.

(** Poison ivy becomes active; the clock goes from 50000 to 61000. *)
Definition ivy : shm_t := set_field POISON_IVY (val_index ACTIVE) demo.

Lemma ivy_wf : mem_wf (M := shm_mem) ivy.
Proof. apply set_field_wf; [exact demo_wf | unfold byte_ok; cbn; lia]. Qed.

Lemma game_state_lasts_witness :
  let h := Handler (GameState false false true) 0 49000 in
  exists h1 m1 h2 m2,
    run (gamestate_loop [50000; 55000; 60000] h) (Sys ivy sems_start) = Done (h1, Sys m1 sems_start) /\
    debuff_on POISON_IVY h1 = true /\ field POISON_IVY m1 = val_index ACTIVE /\
    run (gamestate_loop ([50000; 55000; 60000] ++ [61000]) h) (Sys ivy sems_start) = Done (h2, Sys m2 sems_start) /\
    debuff_on POISON_IVY h2 = false /\ field POISON_IVY m2 = val_index INACTIVE.
Proof.
  intros h. apply (game_state_lasts sems_start ivy POISON_IVY h 50000 [55000; 60000] 61000).
  - exact sems_start_ok.
  - exact ivy_wf.
  - by left.
  - reflexivity.
  - reflexivity.
  - repeat constructor; discriminate.
  - split; reflexivity.
Defined.

(** ** The filter *)

(** What the filter makes of a velocity. *)
Definition filtered (g : gamestate_t) (v : Z) : Z :=
  let v := bound v in
  let v := if hypothermia g then f32_mul v SLOW_SCALAR else v in
  let v := if poison_ivy g then f32_mul v F_minus_1 else v in
  if dehydration g then f32_mul v F_0 else v.

Definition filter_params (g : gamestate_t) (ps : list param_val_t) : list param_val_t :=
  <[8%nat := filtered g (nth 8 ps 0)]> (<[0%nat := filtered g (nth 0 ps 0)]> ps).

(** A pass over the two velocities. *)
Lemma two_params (fn : Z -> Z) ps : length ps = MAX_PARAMS ->
  (a ← buf_get ps IDX_VELOCITY_A; ps ← buf_set ps IDX_VELOCITY_A (fn a);
   b ← buf_get ps IDX_VELOCITY_B; buf_set ps IDX_VELOCITY_B (fn b)) =
  Done (<[8%nat := fn (nth 8 ps 0)]> (<[0%nat := fn (nth 0 ps 0)]> ps)).
Proof.
  intros Hl. unfold MAX_PARAMS, IDX_VELOCITY_A, IDX_VELOCITY_B in *.
  destruct (lookup_lt_is_Some_2 ps 0) as [a Ha]; [lia|]. destruct (lookup_lt_is_Some_2 ps 8) as [b Hb]; [lia|].
  rewrite (buf_get_done _ _ _ Ha), bind_done, buf_set_done by lia. rewrite bind_done, (nth_lookup_Some _ _ _ _ Ha), (nth_lookup_Some _ _ _ _ Hb).
  rewrite (buf_get_done _ _ b) by (by rewrite list_lookup_insert_ne). rewrite bind_done, buf_set_done by (rewrite length_insert; lia). done.
Qed.

Lemma two_twice (fn gn : Z -> Z) ps : length ps = MAX_PARAMS ->
  let qs := <[8%nat := fn (nth 8 ps 0)]> (<[0%nat := fn (nth 0 ps 0)]> ps) in
  <[8%nat := gn (nth 8 qs 0)]> (<[0%nat := gn (nth 0 qs 0)]> qs) =
  <[8%nat := gn (fn (nth 8 ps 0))]> (<[0%nat := gn (fn (nth 0 ps 0))]> ps).
Proof.
  intros Hl qs. unfold MAX_PARAMS in Hl.
  do 9 (destruct ps as [|? ps]; [cbn in Hl; lia|]). reflexivity.
Qed.

Lemma scale_if_run (b : bool) k ps : length ps = MAX_PARAMS ->
  scale_if b k ps = Done (<[8%nat := if b then f32_mul (nth 8 ps 0) k else nth 8 ps 0]>
    (<[0%nat := if b then f32_mul (nth 0 ps 0) k else nth 0 ps 0]> ps)).
Proof.
  intros Hl. destruct b; cbn [scale_if]; [exact (two_params (fun v => f32_mul v k) ps Hl)|].
  unfold MAX_PARAMS in Hl. by do 9 (destruct ps as [|? ps]; [cbn in Hl; lia|]).
Qed.

Lemma nth_filter g ps i : length ps = MAX_PARAMS -> i = 0%nat \/ i = 8%nat ->
  nth i (filter_params g ps) 0 = filtered g (nth i ps 0).
Proof.
  intros Hl Hi. unfold MAX_PARAMS, filter_params in *. do 9 (destruct ps as [|? ps]; [cbn in Hl; lia|]).
  by destruct Hi as [-> | ->].
Qed.

Lemma filter_steps_run g ps : length ps = MAX_PARAMS ->
  (ps ← bound_velocity ps; ps ← scale_if (hypothermia g) SLOW_SCALAR ps; ps ← scale_if (poison_ivy g) F_minus_1 ps;
   scale_if (dehydration g) F_0 ps) = Done (filter_params g ps).
Proof.
  intros Hl. pose proof (two_params bound ps Hl) as Hb. unfold bound_velocity. rewrite Hb, bind_done. clear Hb.
  assert (Hlen : forall a b (qs : list param_val_t), length qs = MAX_PARAMS -> length (<[8%nat := a]> (<[0%nat := b]> qs)) = MAX_PARAMS)
    by (intros; by rewrite !length_insert).
  rewrite scale_if_run, bind_done by auto. rewrite scale_if_run, bind_done by auto. rewrite scale_if_run by auto.
  unfold filter_params, filtered, MAX_PARAMS in *. do 9 (destruct ps as [|? ps]; [cbn in Hl; lia|]). reflexivity.
Qed.

(** A velocity within the bounds, when it is a number. *)
Lemma bound_unit v : word32 v -> f32_nan v = false ->
  word32 (bound v) /\ f32_le F_minus_1 (bound v) = true /\ f32_le (bound v) F_1 = true.
Proof.
  intros Hv Hn. unfold bound, f32_lt, f32_le. rewrite Hn.
  change (f32_nan F_1) with false. change (f32_nan F_minus_1) with false. cbn [negb andb].
  destruct (Z.ltb_spec (f32_key F_1) (f32_key v)); [by vm_compute|].
  destruct (Z.ltb_spec (f32_key v) (f32_key F_minus_1)); [by vm_compute|].
  rewrite Hn. cbn [negb andb]. split; [done|]. split; apply Z.leb_le; lia.
Qed.

(** Whatever the other states, dehydration leaves no velocity. *)
Lemma filtered_dehydrated g v : word32 v -> f32_nan v = false -> dehydration g = true ->
  f32_eq (filtered g v) F_0 = true.
Proof.
  intros Hv Hn Hd. unfold filtered. rewrite Hd. destruct (bound_unit v Hv Hn) as (Hw & Hl & Hu).
  pose proof (unit_small (bound v) Hw Hl Hu) as H0.
  assert (H1 : f32_small 0 (if hypothermia g then f32_mul (bound v) SLOW_SCALAR else bound v)).
  { destruct (hypothermia g).
    - apply (f32_mul_small (-23) (-23) (-1)); [lia | lia | lia | exact H0 | vm_compute; intuition discriminate].
    - revert H0. unfold f32_small. destruct (f32_decode (bound v)); cbn [sf_small]; [done | done | done | lia]. }
  set (x := if hypothermia g then _ else _) in *.
  assert (H2 : f32_small 2 (if poison_ivy g then f32_mul x F_minus_1 else x)).
  { destruct (poison_ivy g).
    - apply (f32_mul_small 0 (-23) 1); [lia | lia | lia | exact H1 | vm_compute; intuition discriminate].
    - revert H1. unfold f32_small. destruct (f32_decode x); cbn [sf_small]; [done | done | done | lia]. }
  by apply (f32_mul_zero 2).
Qed.

Lemma filtered_word g v : word32 v -> word32 (filtered g v).
Proof.
  intros Hv. unfold filtered.
  assert (Hb : word32 (bound v)) by (unfold bound; repeat case_match; done).
  destruct (hypothermia g), (poison_ivy g), (dehydration g); by first [apply f32_mul_word | exact Hb].
Qed.

Lemma filter_params_wf g ps : params_wf ps -> params_wf (filter_params g ps).
Proof.
  intros [Hl Hw]. unfold filter_params, MAX_PARAMS in *. split; [by rewrite !length_insert|].
  destruct (lookup_lt_is_Some_2 ps 0) as [a Ha]; [lia|]. destruct (lookup_lt_is_Some_2 ps 8) as [b Hb]; [lia|].
  rewrite (nth_lookup_Some _ _ _ _ Ha), (nth_lookup_Some _ _ _ _ Hb).
  do 2 (apply Forall_insert; [|apply filtered_word; by eapply (Forall_lookup_1 word32)]). done.
Qed.

(** What the filter lets through of a command for a device of the type [t]. *)
Definition let_through (g : gamestate_t) (t : Z) (ps : list param_val_t) : list param_val_t :=
  if t =? KOALABEAR then filter_params g ps else ps.

Lemma let_through_wf g t ps : params_wf ps -> params_wf (let_through g t ps).
Proof. unfold let_through. destruct (_ =? _); [apply filter_params_wf | done]. Qed.

Lemma filter_let_through g t ps {A} (k : list param_val_t -> prog (M := shm_mem) A) : length ps = MAX_PARAMS ->
  ((if t =? KOALABEAR then local (
      ps ← bound_velocity ps; ps ← scale_if (hypothermia g) SLOW_SCALAR ps; ps ← scale_if (poison_ivy g) F_minus_1 ps;
      scale_if (dehydration g) F_0 ps) else mret ps) ≫= k) = k (let_through g t ps).
Proof. intros Hl. unfold let_through. destruct (t =? KOALABEAR); [|done]. by rewrite (filter_steps_run g ps Hl), local_done. Qed.

(** The memory with a command for the device [ix] stored and pending. *)
Definition commanded (ix : nat) (mask : Z) (to : list param_val_t) (m : shm_t) : shm_t :=
  shm_store RCmdMap (cmd_pended ix mask (cmds m)) (shm_store (RParams COMMAND ix) to m).

Lemma commanded_wf ix mask to m : mem_wf (M := shm_mem) m -> (ix < MAX_DEVICES)%nat -> word32 mask -> params_wf to ->
  mem_wf (M := shm_mem) (commanded ix mask to m).
Proof.
  intros Hm Hix Hmask Hto. apply command_stored_wf; [done | done |]. apply cmd_pended_wf; [done | done |].
  exact (Hm RCmdMap).
Qed.

Lemma commanded_pars ix mask to m : mem_wf (M := shm_mem) m -> (ix < MAX_DEVICES)%nat ->
  pars (commanded ix mask to m) COMMAND ix = to.
Proof. exact (pars_store COMMAND ix to m). Qed.

Section Filter.
Context (sm : gmap shm_sem nat) (Hfree : all_free sm).

(** A command for a connected device. *)
Lemma device_write_uid_run m ix id mask ps : mem_wf (M := shm_mem) m -> unique_uids m -> (ix < MAX_DEVICES)%nat ->
  bit_on (cat m) ix = true -> ids m !! ix = Some id -> word32 mask -> params_wf ps ->
  exists to, params_wf to /\
    run (device_write_uid (id_uid id) EXECUTOR COMMAND mask ps) (Sys m sm) = Done (0, Sys (commanded ix mask to m) sm) /\
    forall i, (i < MAX_PARAMS)%nat -> to !! i = if bit_on mask i then ps !! i else pars m COMMAND ix !! i.
Proof.
  intros Hm Hu Hix Hon Hid Hmask Hps. pose proof (Hm RCmdMap) as [Hl _]. cbn in Hl.
  pose proof (pars_wf m COMMAND ix Hm Hix) as Hcw.
  destruct (copy_params_wf mask ps (pars m COMMAND ix) Hps Hcw) as (to & Hc & Hto).
  destruct (copy_params_spec mask ps (pars m COMMAND ix)) as (to' & Hc' & _ & Hspec); [apply Hps | apply Hcw |].
  assert (to' = to) as -> by (rewrite Hc in Hc'; by apply done_inj in Hc').
  exists to. split; [done|]. split; [|exact Hspec]. unfold device_write_uid.
  rewrite (run_then (M := shm_mem) _ _ _ _ _ (find_run sm m (id_uid id) Hm)), (Hu ix Hix Hon id Hid).
  change sm with (taken (M := shm_mem) [] sm) at 1.
  by rewrite (run_then (M := shm_mem) _ _ _ _ _ (write_helper_run sm Hfree m ix EXECUTOR COMMAND mask ps to Hix Hl Hc)).
Qed.

Lemma filter_run m g t ix id mask ps : mem_wf (M := shm_mem) m -> unique_uids m -> (ix < MAX_DEVICES)%nat ->
  bit_on (cat m) ix = true -> ids m !! ix = Some id -> word32 mask -> params_wf ps ->
  exists to, params_wf to /\
    run (filter_device_write_uid g t (id_uid id) EXECUTOR COMMAND mask ps) (Sys m sm) =
      Done ((0, let_through g t ps), Sys (commanded ix mask to m) sm) /\
    forall i, (i < MAX_PARAMS)%nat -> to !! i = if bit_on mask i then let_through g t ps !! i else pars m COMMAND ix !! i.
Proof.
  intros Hm Hu Hix Hon Hid Hmask Hps. pose proof (let_through_wf g t ps Hps) as Hf.
  unfold filter_device_write_uid. rewrite filter_let_through by apply Hps.
  destruct (device_write_uid_run m ix id mask (let_through g t ps) Hm Hu Hix Hon Hid Hmask Hf) as (to & Hto & Hr & Hs).
  exists to. split; [done|]. split; [|exact Hs]. by rewrite (run_then (M := shm_mem) _ _ _ _ _ Hr).
Qed.

End Filter.

(** C6: what the filter makes of a student's command for a connected KoalaBear. Of the
    parameters that are written, all but the two velocities are stored as given; a velocity is
    first limited to -1.0..1.0, then scaled by the game states that are on, and so stored, and
    the caller's array holds the changed values too. Without game states the velocity stored is
    the limited one; and whatever the other states, a robot that is dehydrated is given no
    velocity but zero, if the student's velocity was a number at all. *)
Theorem filter_spec sm m g ix id mask ps :
  all_free sm -> mem_wf (M := shm_mem) m -> unique_uids m -> (ix < MAX_DEVICES)%nat ->
  bit_on (cat m) ix = true -> ids m !! ix = Some id -> word32 mask -> params_wf ps ->
  exists m' ps', run (filter_device_write_uid g KOALABEAR (id_uid id) EXECUTOR COMMAND mask ps) (Sys m sm) =
      Done ((0, ps'), Sys m' sm) /\
    cmds m' = cmd_pended ix mask (cmds m) /\
    (forall i, (i < MAX_PARAMS)%nat -> pars m' COMMAND ix !! i = if bit_on mask i then ps' !! i else pars m COMMAND ix !! i) /\
    (forall i, i ≠ 0%nat -> i ≠ 8%nat -> ps' !! i = ps !! i) /\
    (forall i, i = 0%nat \/ i = 8%nat -> let v := nth i ps 0 in let v' := nth i ps' 0 in
      v' = filtered g v /\
      (f32_nan v = false ->
        (g = GameState false false false -> f32_le F_minus_1 v' = true /\ f32_le v' F_1 = true) /\
        (dehydration g = true -> f32_eq v' F_0 = true))).
Proof.
  intros Hf Hm Hu Hix Hon Hid Hmask Hps.
  destruct (filter_run sm Hf m g KOALABEAR ix id mask ps Hm Hu Hix Hon Hid Hmask Hps) as (to & _ & Hr & Hs).
  exists (commanded ix mask to m), (filter_params g ps). split; [exact Hr|]. split; [done|].
  split; [by rewrite commanded_pars|]. destruct Hps as [Hl Hw].
  split; [intros i H0 H8; unfold filter_params; by rewrite !list_lookup_insert_ne by congruence|].
  intros i Hi. cbv zeta. rewrite nth_filter by done. split; [done|]. intros Hn.
  assert (Hv : word32 (nth i ps 0)).
  { destruct (lookup_lt_is_Some_2 ps i) as [v Hv]; [unfold MAX_PARAMS in Hl; lia|].
    rewrite (nth_lookup_Some _ _ _ _ Hv). exact (Forall_lookup_1 _ _ _ _ Hw Hv). }
  split; [|by apply filtered_dehydrated]. intros ->. apply (bound_unit _ Hv Hn).
Qed.

Lemma filter_spec_witness :
  let ps := <[0%nat := 0x40000000]> (replicate MAX_PARAMS 0) in
  exists m' ps', run (filter_device_write_uid (GameState true false true) KOALABEAR 77 EXECUTOR COMMAND 1 ps) (Sys demo sems_start) =
      Done ((0, ps'), Sys m' sems_start) /\
    cmds m' = cmd_pended 0 1 (cmds demo) /\
    (forall i, (i < MAX_PARAMS)%nat -> pars m' COMMAND 0 !! i = if bit_on 1 i then ps' !! i else pars demo COMMAND 0 !! i) /\
    (forall i, i ≠ 0%nat -> i ≠ 8%nat -> ps' !! i = ps !! i) /\
    (forall i, i = 0%nat \/ i = 8%nat -> let v := nth i ps 0 in let v' := nth i ps' 0 in
      v' = filtered (GameState true false true) v /\
      (f32_nan v = false ->
        (GameState true false true = GameState false false false -> f32_le F_minus_1 v' = true /\ f32_le v' F_1 = true) /\
        (dehydration (GameState true false true) = true -> f32_eq v' F_0 = true))).
Proof.
  apply (filter_spec sems_start demo (GameState true false true) 0 (DevId 6 1 77)); try reflexivity.
  - exact sems_start_ok.
  - exact demo_wf.
  - exact demo_unique.
  - unfold MAX_DEVICES. lia.
  - unfold word32. lia.
  - split; [reflexivity|]. apply Forall_insert; [apply Forall_replicate|]; unfold word32; lia.
Defined.
