(* ===== verification/Battery.v ===== *)
(** * The battery monitor (src/lowcar/devices/BatteryBuzzer/) and the EEPROM it keeps its
    calibration in (src/lowcar/lib/EEPROM/EEPROM.h).

    The clock, the button and the voltages at the pins are the environment: [millis n],
    [pressed n] and [analog p n] are what the call with number [n] to the outside finds, and the
    state counts these calls. What the display, the buzzer and the pins are told is recorded. *)

From stdpp Require Import strings.
From S2P Require Export F32.

(** ** The EEPROM *)

Module EEPROM.

(** The contents of the memory, of [E2END + 1] bytes. *)
Definition read (idx : nat) (m : bytes) : outcome Z := buf_get m idx.
Definition write (idx : nat) (val : Z) (m : bytes) : outcome bytes := buf_set m idx val.
Definition update (idx : nat) (val : Z) (m : bytes) : outcome bytes :=
  old ← read idx m;
  if negb (val =? old) then write idx val m else mret m.

Definition length (m : bytes) : nat := List.length m.

(** [n] bytes from [idx]. *)
Fixpoint get (n idx : nat) (m : bytes) : outcome bytes :=
  match n with
  | O => mret []
  | S n => b ← read idx m; bs ← get n (S idx) m; mret (b :: bs)
  end.

Fixpoint put (idx : nat) (bs : bytes) (m : bytes) : outcome bytes :=
  match bs with
  | [] => mret m
  | b :: bs => m ← update idx b m; put (S idx) bs m
  end.

End EEPROM.

(** ** Constants (pdb_defs.h, pitches.h, BatteryBuzzer.h) *)

Definition R2 : Z := Eval vm_compute in f32_of_Z 10.
Definition R3 : Z := Eval vm_compute in f32_of_Z 30.
Definition R4 : Z := Eval vm_compute in f32_of_Z 51.
Definition R5 : Z := Eval vm_compute in f32_of_Z 10.
Definition R6 : Z := Eval vm_compute in f32_of_Z 10.
Definition R7 : Z := Eval vm_compute in f32_of_Z 10.
Definition ADC_REF_NOM : Z := Eval vm_compute in f32_div (f32_of_Z 256) (f32_of_Z 100).
Definition ADC_COUNTS : Z := Eval vm_compute in f32_of_Z 1024.
Definition EXT_CALIB_VOLT : Z := Eval vm_compute in f32_of_Z 5.
Definition F_3 : Z := Eval vm_compute in f32_of_Z 3.

Definition min_cell : Z := Eval vm_compute in f32_div (f32_of_Z 33) (f32_of_Z 10).
Definition end_undervolt : Z := Eval vm_compute in f32_div (f32_of_Z 36) (f32_of_Z 10).
Definition max_cell : Z := Eval vm_compute in f32_div (f32_of_Z 44) (f32_of_Z 10).
Definition d_cell : Z := Eval vm_compute in f32_div (f32_of_Z 3) (f32_of_Z 10).
Definition end_d_cell : Z := Eval vm_compute in f32_div (f32_of_Z 1) (f32_of_Z 10).

Definition ENABLE : nat := 16.
Definition CALIB_BUTTON : nat := 21.
Definition DECIMAL_POINT : nat := 1.
Definition NOTE_A5 : nat := 880.
Definition buzzer : nat := 10.
Definition digitPins : list nat := [6; 5; 4; 3]%nat.

Inductive SEQ_NUM : Set := NORMAL_VOLT_READ | CLEAR_CALIB | NEW_CALIB.

#[export] Instance SEQ_NUM_eq_dec : EqDecision SEQ_NUM.
Proof. solve_decision. Defined.

(** ** State *)

Record cells_t : Set := Cells {
  v_cell1 : Z; v_cell2 : Z; v_cell3 : Z; v_batt : Z; dv_cell2 : Z; dv_cell3 : Z
}.

(** The flags are [uint8_t]. *)
Record safety_t : Set := Safety { unsafe_status : Z; under_volt : Z; imbalance : Z }.

Record display_t : Set := Display { sequence : Z; segment_8_run : SEQ_NUM; last_LED_time : Z }.

(** What the outside is told. *)
Inductive event : Set :=
| Digits (pins : list nat)
| DPPin (pin : nat)
| Text (text : string)
| Number (v : Z) (digits : nat)
| ClearDisp
| PinMode (pin : nat) (output : bool)
| Reference
| DigitalWrite (pin : nat) (high : bool)
| Delay (ms : nat)
| Tone (pin freq : nat)
| NoTone (pin : nat).

Record state : Set := State {
  triple_calibration : bool;
  cells : cells_t;
  calib : list Z; vref_guess : Z;
  safety : safety_t;
  last_check_time : Z;
  display : display_t;
  eeprom : bytes;
  ticks : nat;                 (* the calls to the outside so far *)
  outs : list event
}.

Definition set_cells (c : cells_t) (s : state) : state :=
  State (triple_calibration s) c (calib s) (vref_guess s) (safety s) (last_check_time s) (display s) (eeprom s) (ticks s) (outs s).
Definition set_calib (c : list Z) (s : state) : state :=
  State (triple_calibration s) (cells s) c (vref_guess s) (safety s) (last_check_time s) (display s) (eeprom s) (ticks s) (outs s).
Definition set_vref (v : Z) (s : state) : state :=
  State (triple_calibration s) (cells s) (calib s) v (safety s) (last_check_time s) (display s) (eeprom s) (ticks s) (outs s).
Definition set_safety (f : safety_t) (s : state) : state :=
  State (triple_calibration s) (cells s) (calib s) (vref_guess s) f (last_check_time s) (display s) (eeprom s) (ticks s) (outs s).
Definition set_last_check (t : Z) (s : state) : state :=
  State (triple_calibration s) (cells s) (calib s) (vref_guess s) (safety s) t (display s) (eeprom s) (ticks s) (outs s).
Definition set_display (d : display_t) (s : state) : state :=
  State (triple_calibration s) (cells s) (calib s) (vref_guess s) (safety s) (last_check_time s) d (eeprom s) (ticks s) (outs s).
Definition set_eeprom (m : bytes) (s : state) : state :=
  State (triple_calibration s) (cells s) (calib s) (vref_guess s) (safety s) (last_check_time s) (display s) m (ticks s) (outs s).
Definition tick (s : state) : state :=
  State (triple_calibration s) (cells s) (calib s) (vref_guess s) (safety s) (last_check_time s) (display s) (eeprom s) (S (ticks s)) (outs s).
Definition tell (e : event) (s : state) : state :=
  State (triple_calibration s) (cells s) (calib s) (vref_guess s) (safety s) (last_check_time s) (display s) (eeprom s) (ticks s) (outs s ++ [e]).

(** The constructor, on what the memory and the EEPROM happened to hold. *)
Definition start (flags : safety_t) (m : bytes) : state :=
  State true (Cells F_0 F_0 F_0 F_0 F_0 F_0) [F_0; F_0; F_0] F_0 flags 0 (Display 0 NORMAL_VOLT_READ 0) m 0 [].

(** ** Calibration *)

Definition C_ : Z := 67.
Definition A_ : Z := 65.
Definition L_ : Z := 76.
Definition colon : Z := 58.
Definition digit (i : nat) : Z := Z.of_nat i + 48.

(** The value in the EEPROM, -1.0 without one. *)
Definition get_calibration (m : bytes) : outcome Z :=
  c ← EEPROM.read 0 m;
  if negb (c =? C_) then mret F_minus_1 else
  a ← EEPROM.read 1 m;
  if negb (a =? A_) then mret F_minus_1 else
  l ← EEPROM.read 2 m;
  if negb (l =? L_) then mret F_minus_1 else
  k ← EEPROM.read 3 m;
  if negb (k =? colon) then mret F_minus_1 else
  f ← EEPROM.get 4 4 m; mret (le_word f).

(** The entries from number [i] on, of which there are [k]. *)
Fixpoint triple_loop (k i next_addr : nat) (m : bytes) (calib : list Z) : outcome (list Z) :=
  match k with
  | O => mret calib
  | S k =>
      first ← EEPROM.read next_addr m;
      second ← EEPROM.read (next_addr + 1) m;
      third ← EEPROM.read (next_addr + 2) m;
      fourth ← EEPROM.read (next_addr + 3) m;
      fifth ← EEPROM.read (next_addr + 4) m;
      if (first =? C_) && (second =? A_) && (third =? L_) && (fourth =? digit i) && (fifth =? colon) then
        f ← EEPROM.get 4 (next_addr + 5) m;
        calib ← buf_set calib (i - 1) (le_word f);
        triple_loop k (S i) (next_addr + 5 + 4) m calib
      else mret calib
  end.

Definition update_triple_calibration (s : state) : outcome state :=
  c ← triple_loop 3 1 0 (eeprom s) (calib s); mret (set_calib c s).

Definition write_single_eeprom (val : Z) (m : bytes) : outcome bytes :=
  m ← EEPROM.write 0 C_ m;
  m ← EEPROM.write 1 A_ m;
  m ← EEPROM.write 2 L_ m;
  m ← EEPROM.write 3 colon m;
  EEPROM.put 4 (le_bytes 4 val) m.

(** The entries with these values, the first with number [i]. *)
Fixpoint write_entries (vals : list Z) (i next_addr : nat) (m : bytes) : outcome bytes :=
  match vals with
  | [] => mret m
  | val :: vals =>
      m ← EEPROM.write next_addr C_ m;
      m ← EEPROM.write (next_addr + 1) A_ m;
      m ← EEPROM.write (next_addr + 2) L_ m;
      m ← EEPROM.write (next_addr + 3) (digit i) m;
      m ← EEPROM.write (next_addr + 4) colon m;
      m ← EEPROM.put (next_addr + 5) (le_bytes 4 val) m;
      write_entries vals (S i) (next_addr + 5 + 4) m
  end.

Definition write_triple_eeprom (val1 val2 val3 : Z) (m : bytes) : outcome bytes :=
  write_entries [val1; val2; val3] 1 0 m.

Definition clear_eeprom (m : bytes) : outcome bytes :=
  for_range (EEPROM.length m) 0 (fun i m => EEPROM.write i 0 m) m.

(** The calibration values are the nominal one. *)
Definition nominal (c : list Z) : bool := forallb (fun v => f32_eq v ADC_REF_NOM) c.

Definition is_calibrated (s : state) : outcome Z :=
  if triple_calibration s && nominal (calib s) then mret 0 else
  if negb (triple_calibration s) then
    v ← get_calibration (eeprom s); mret (if f32_eq v F_minus_1 then 0 else 1)
  else mret 1.

(** ** Parameters *)

(** The number of bytes that [device_read] returns, and the buffer. The declaration of
    [float_buf] stands between the labels of the switch: a jump to a label behind it enters its
    scope without initialising it. *)
Definition device_read (param : nat) (data_buf : bytes) (s : state) : outcome (nat * bytes) :=
  match param with
  | 0 => b ← buf_set data_buf 0 (unsafe_status (safety s)); mret (1, b)
  | 1 => v ← is_calibrated s; b ← buf_set data_buf 0 v; mret (1, b)
  | 2 | 3 | 4 | 5 | 6 | 7 => Faulty WildPtr
  | _ => mret (4, data_buf)
  end%nat.

(** ** Safety *)

(** The macro of the Arduino. *)
Definition f32_abs (v : Z) : Z := if f32_lt F_0 v then v else f32_neg v.

Definition any_cell (p : Z -> bool) (c : cells_t) : bool := p (v_cell1 c) || p (dv_cell2 c) || p (dv_cell3 c).
Definition all_cells (p : Z -> bool) (c : cells_t) : bool := p (v_cell1 c) && p (dv_cell2 c) && p (dv_cell3 c).

(** The differences between the cells. *)
Definition differences (c : cells_t) : list Z :=
  [f32_abs (f32_sub (v_cell1 c) (dv_cell2 c)); f32_abs (f32_sub (dv_cell2 c) (dv_cell3 c));
   f32_abs (f32_sub (dv_cell3 c) (v_cell1 c))].

Definition compute_safety (c : cells_t) (f : safety_t) : Z * safety_t :=
  if any_cell (fun v => f32_lt v min_cell) c then (1, Safety (unsafe_status f) 1 (imbalance f))
  else if any_cell (f32_lt max_cell) c then (1, f)
  else if existsb (f32_lt d_cell) (differences c) then (1, Safety (unsafe_status f) (under_volt f) 1)
  else if negb (under_volt f =? 0) && all_cells (f32_lt end_undervolt) c then (0, Safety (unsafe_status f) 0 (imbalance f))
  else if negb (imbalance f =? 0) && forallb (fun d => f32_lt d end_d_cell) (differences c)
    then (0, Safety (unsafe_status f) (under_volt f) 0)
  else (0, f).

Definition buzz (should_buzz : Z) (s : state) : state :=
  tell (if negb (should_buzz =? 0) then Tone buzzer NOTE_A5 else NoTone buzzer) s.

Definition handle_safety (s : state) : state :=
  let '(unsafe, f) := compute_safety (cells s) (safety s) in
  buzz unsafe (set_safety (Safety unsafe (under_volt f) (imbalance f)) s).

(** ** The display *)

Definition setup_display (s : state) : state := tell (DPPin DECIMAL_POINT) (tell (Digits digitPins) s).

Definition test_display (s : state) : state :=
  tell ClearDisp (Nat.iter 250 (tell (Text "8.8.8.8.")) s).

(** What the display shows in each step of each sequence. *)
Definition screen (s : state) : option event :=
  let c i := nth i (calib s) F_0 in
  match segment_8_run (display s), sequence (display s) with
  | NORMAL_VOLT_READ, 0 => Some (Text "ALL")
  | NORMAL_VOLT_READ, 1 => Some (Number (v_batt (cells s)) 2)
  | NORMAL_VOLT_READ, 2 => Some (Text "CEL.1")
  | NORMAL_VOLT_READ, 3 => Some (Number (v_cell1 (cells s)) 2)
  | NORMAL_VOLT_READ, 4 => Some (Text "CEL.2")
  | NORMAL_VOLT_READ, 5 => Some (Number (dv_cell2 (cells s)) 2)
  | NORMAL_VOLT_READ, 6 => Some (Text "CEL.3")
  | NORMAL_VOLT_READ, 7 => Some (Number (dv_cell3 (cells s)) 2)
  | CLEAR_CALIB, 0 => Some (Text "CAL")
  | CLEAR_CALIB, 1 => Some (Text "CLR")
  | NEW_CALIB, 0 => Some (Text "CAL")
  | NEW_CALIB, 1 => Some (Text "DONE")
  | NEW_CALIB, 2 => Some (Text (if triple_calibration s then "CAL.1" else "CAL"))
  | NEW_CALIB, 3 => Some (Number (if triple_calibration s then c 0%nat else vref_guess s) 3)
  | NEW_CALIB, 4 => if triple_calibration s then Some (Text "CAL.2") else None
  | NEW_CALIB, 5 => if triple_calibration s then Some (Number (c 1%nat) 3) else None
  | NEW_CALIB, 6 => if triple_calibration s then Some (Text "CAL.3") else None
  | NEW_CALIB, 7 => if triple_calibration s then Some (Number (c 2%nat) 3) else None
  | _, _ => None
  end.

(** The duration of a step of the sequence, and the number of its steps. *)
Definition step_time (q : SEQ_NUM) : Z := match q with NORMAL_VOLT_READ => 1000 | _ => 750 end.
Definition steps (q : SEQ_NUM) (triple : bool) : Z :=
  match q with NORMAL_VOLT_READ => 8 | CLEAR_CALIB => 2 | NEW_CALIB => if triple then 8 else 4 end.

Section BatteryBuzzer.
Context (millis : nat -> Z) (pressed : nat -> bool) (analog : nat -> nat -> Z).

Definition now (s : state) : Z * state := (millis (ticks s), tick s).
Definition button (s : state) : bool * state := (pressed (ticks s), tick s).
Definition analogRead (pin : nat) (s : state) : Z * state := (analog pin (ticks s), tick s).

Definition start_8_seg_sequence (sequence_num : SEQ_NUM) (s : state) : state :=
  let s := set_display (Display 0 sequence_num (last_LED_time (display s))) s in
  let '(t, s) := now s in
  set_display (Display 0 sequence_num t) s.

Definition handle_8_segment (s : state) : state :=
  let s := match screen s with Some e => tell e s | None => s end in
  let q := segment_8_run (display s) in
  let '(t, s) := now s in
  if u32 (last_LED_time (display s) + step_time q) <? t then
    let s := set_display (Display (sequence (display s) + 1) q (last_LED_time (display s))) s in
    let s := if sequence (display s) =? steps q (triple_calibration s) then
               match q with
               | NORMAL_VOLT_READ => set_display (Display 0 q (last_LED_time (display s))) s
               | _ => start_8_seg_sequence NORMAL_VOLT_READ s
               end
             else s in
    let '(t, s) := now s in
    set_display (Display (sequence (display s)) (segment_8_run (display s)) t) s
  else s.

(** ** Sensing *)

Definition setup_sensing (s : state) : outcome state :=
  let s := tell (DigitalWrite ENABLE true) (tell Reference (tell (PinMode CALIB_BUTTON false) (tell (PinMode ENABLE true) s))) in
  if triple_calibration s then update_triple_calibration s
  else val ← get_calibration (eeprom s); mret (if f32_lt F_0 val then set_vref val s else s).

Definition read_cells (s : state) : (Z * Z * Z) * state :=
  let '(r1, s) := analogRead 0 s in
  let '(r2, s) := analogRead 1 s in
  let '(r3, s) := analogRead 2 s in
  (f32_of_Z r1, f32_of_Z r2, f32_of_Z r3, s).

(** The voltage of a cell behind a divider. *)
Definition voltage (r upper lower calib : Z) : Z :=
  f32_div (f32_mul (f32_div (f32_mul r (f32_add upper lower)) lower) calib) ADC_COUNTS.

Definition measure (r1 r2 r3 : Z) (calib : list Z) : cells_t :=
  let v1 := voltage r1 R2 R5 (nth 0 calib F_0) in
  let v2 := voltage r2 R3 R6 (nth 1 calib F_0) in
  let v3 := voltage r3 R4 R7 (nth 2 calib F_0) in
  Cells v1 v2 v3 v3 (f32_sub v2 v1) (f32_sub v3 v2).

Definition measure_cells (s : state) : state :=
  let '(r1, r2, r3, s) := read_cells s in set_cells (measure r1 r2 r3 (calib s)) s.

(** The reference voltage from a reading at 5 V. *)
Definition vref (r upper lower : Z) : Z :=
  f32_mul (f32_div (f32_mul (f32_div ADC_COUNTS r) lower) (f32_add upper lower)) EXT_CALIB_VOLT.

Fixpoint wait_release (fuel : nat) (s : state) : outcome state :=
  match fuel with
  | O => OutOfFuel
  | S fuel => let '(b, s) := button s in if b then wait_release fuel (tell (Delay 1) s) else mret s
  end.

Definition calibrate (fuel : nat) (s : state) : outcome (Z * state) :=
  s ← wait_release fuel s;
  let s := tell (Delay 100) s in
  let '(r1, r2, r3, s) := read_cells s in
  let vref1 := vref r1 R2 R5 in
  let vref2 := vref r2 R3 R6 in
  let vref3 := vref r3 R4 R7 in
  let guess := f32_div (f32_add (f32_add vref1 vref2) vref3) F_3 in
  mret (guess, set_vref guess (set_calib [vref1; vref2; vref3] s)).

(** [None] is the end of the function without a return statement. *)
Definition handle_calibration (fuel : nat) (s : state) : outcome (option SEQ_NUM * state) :=
  let '(b, s) := button s in
  if negb b then mret (None, s) else
  if triple_calibration s && nominal (calib s) then
    '(_, s) ← calibrate fuel s;
    m ← write_triple_eeprom (nth 0 (calib s) F_0) (nth 1 (calib s) F_0) (nth 2 (calib s) F_0) (eeprom s);
    mret (Some NEW_CALIB, set_eeprom m s)
  else
    single ← (if negb (triple_calibration s) then v ← get_calibration (eeprom s); mret (f32_eq v F_minus_1) else mret false);
    if (single : bool) then
      '(vref_new, s) ← calibrate fuel s;
      m ← write_single_eeprom vref_new (eeprom s);
      mret (Some NEW_CALIB, set_eeprom m s)
    else
      let s := set_calib [ADC_REF_NOM; ADC_REF_NOM; ADC_REF_NOM] (set_vref ADC_REF_NOM (tell (Delay 1) s)) in
      m ← clear_eeprom (eeprom s);
      mret (Some CLEAR_CALIB, set_eeprom m s).

(** ** The methods *)

Definition device_enable (s : state) : outcome state :=
  let s := tell (PinMode buzzer true) s in
  let s := set_calib [ADC_REF_NOM; ADC_REF_NOM; ADC_REF_NOM] (set_vref ADC_REF_NOM s) in
  setup_sensing (test_display (tell ClearDisp (setup_display s))).

(** The check of the cells, every quarter of a second. *)
Definition check_cells (s : state) : state :=
  let '(t, s) := now s in
  if 250 <? u32 (t - last_check_time s) then
    let s := measure_cells s in
    let '(t, s) := now s in
    handle_safety (set_last_check t s)
  else s.

Definition device_actions (fuel : nat) (s : state) : outcome state :=
  let s := handle_8_segment (tell ClearDisp (setup_display s)) in
  '(_, s) ← handle_calibration fuel s;
  s ← setup_sensing s;
  mret (tell ClearDisp (check_cells s)).

End BatteryBuzzer.
