(* ===== verification/BatterySpec.v ===== *)
(** * The battery monitor: calibration, its storage, and the judgement of the cells. *)

From stdpp Require Import strings.
From Stdlib Require Import SpecFloat.
From S2P Require Export Battery.

(** ** The EEPROM *)

(** The format of a calibration: ["CAL1:<float>CAL2:<float>CAL3:<float>"]. *)
Definition entry (i : nat) (val : Z) : bytes := [C_; A_; L_; digit i; colon] ++ le_bytes 4 val.
Fixpoint image (i : nat) (vals : list Z) : bytes :=
  match vals with [] => [] | val :: vals => entry i val ++ image (S i) vals end.

Lemma length_image i vals : length (image i vals) = (9 * length vals)%nat.
Proof. revert i. induction vals as [|v vals IH]; intros i; cbn [image length]; [done|]. rewrite length_app, IH. cbn. lia. Qed.

Lemma update_write i v (m : list Z) : EEPROM.update i v m = EEPROM.write i v m.
Proof.
  unfold EEPROM.update, EEPROM.read, EEPROM.write, buf_get, buf_set. destruct (m !! i) as [old|] eqn:Hi.
  - rewrite bind_ret, (proj2 (Nat.ltb_lt _ _)) by (by apply lookup_lt_Some in Hi).
    destruct (Z.eqb_spec v old) as [->|]; [|done]. cbn [negb]. by rewrite list_insert_id.
  - apply lookup_ge_None in Hi. by rewrite (proj2 (Nat.ltb_ge _ _)).
Qed.

Lemma put_app bs (pre mid post : list Z) i : i = length pre -> length mid = length bs ->
  EEPROM.put i bs (pre ++ mid ++ post) = Done (pre ++ bs ++ post).
Proof.
  revert pre mid i. induction bs as [|b bs IH]; intros pre [|x mid] i -> Hl; try done.
  cbn [EEPROM.put]. rewrite update_write. unfold EEPROM.write.
  change ((x :: mid) ++ post) with (x :: mid ++ post). rewrite buf_set_app, bind_done by done.
  change (b :: mid ++ post) with ([b] ++ mid ++ post). rewrite app_assoc, IH; [by rewrite <- app_assoc | | by injection Hl].
  rewrite length_app. cbn. lia.
Qed.

Lemma read_app (pre m : list Z) n : EEPROM.read (length pre + n) (pre ++ m) = EEPROM.read n m.
Proof. unfold EEPROM.read, buf_get. rewrite lookup_app_r by lia. by rewrite Nat.add_comm, Nat.add_sub. Qed.

Lemma get_app bs (pre post : list Z) n i : i = length pre -> n = length bs -> EEPROM.get n i (pre ++ bs ++ post) = Done bs.
Proof.
  intros -> ->. revert pre. induction bs as [|b bs IH]; intros pre; [done|]. cbn [length EEPROM.get].
  rewrite <- (Nat.add_0_r (length pre)) at 1. rewrite read_app.
  change (EEPROM.read 0 ((b :: bs) ++ post)) with (Done b). rewrite bind_done.
  change ((b :: bs) ++ post) with ([b] ++ bs ++ post). rewrite app_assoc.
  replace (S (length pre)) with (length (pre ++ [b])) by (rewrite length_app; cbn; lia). by rewrite IH.
Qed.

(** An entry is written like a value of nine bytes. *)
Lemma write_entries_put val vals i a m : write_entries (val :: vals) i a m =
  (m ← EEPROM.put a (entry i val) m; write_entries vals (S i) (a + 9) m).
Proof.
  unfold entry. cbn [write_entries]. replace (a + 5 + 4)%nat with (a + 9)%nat by lia.
  rewrite (Nat.add_comm a 1), (Nat.add_comm a 2), (Nat.add_comm a 3), (Nat.add_comm a 4), (Nat.add_comm a 5).
  cbn [app EEPROM.put Nat.add].
  do 5 (rewrite !update_write, ?bind_assoc; destruct (EEPROM.write _ _ _); try done; rewrite !bind_done).
Qed.

Lemma write_entries_done vals : forall i (pre m : list Z) a, a = length pre -> (9 * length vals <= length m)%nat ->
  write_entries vals i a (pre ++ m) = Done (pre ++ image i vals ++ drop (9 * length vals) m).
Proof.
  induction vals as [|v vals IH]; intros i pre m a -> Hl; [done|].
  replace (9 * length (v :: vals))%nat with (9 + 9 * length vals)%nat in * by (cbn; lia).
  rewrite write_entries_put, <- (take_drop 9 m), put_app, bind_done by (unfold entry; list_lia).
  rewrite app_assoc, (IH (S i)), <- app_assoc by (rewrite ?length_app, ?length_drop; unfold entry; cbn; lia).
  cbn [image]. by rewrite take_drop, <- app_assoc, drop_drop.
Qed.

Lemma write_triple_done v1 v2 v3 (m : list Z) : (27 <= length m)%nat ->
  write_triple_eeprom v1 v2 v3 m = Done (image 1 [v1; v2; v3] ++ drop 27 m).
Proof. intros Hm. by apply (write_entries_done [v1; v2; v3] 1 [] m 0). Qed.

Lemma read_entry k i v (r : list Z) b : entry i v !! k = Some b -> EEPROM.read k (entry i v ++ r) = Done b.
Proof. intros Hk. unfold EEPROM.read, buf_get. by rewrite (lookup_app_l_Some _ _ _ _ Hk). Qed.

(** The entries that are found are put into the array. *)
Lemma triple_loop_image vals : forall i (pre post c : list Z) a, a = length pre -> Forall word32 vals ->
  (i - 1 + length vals <= length c)%nat -> (0 < i)%nat ->
  triple_loop (length vals) i a (pre ++ image i vals ++ post) c =
  Done (take (i - 1) c ++ vals ++ drop (i - 1 + length vals) c).
Proof.
  induction vals as [|v vals IH]; intros i pre post c a -> Hw Hl Hi; cbn [length triple_loop image].
  { by rewrite Nat.add_0_r, app_nil_l, take_drop. }
  apply Forall_cons_1 in Hw as [Hv Hw]. cbn [length] in Hl. rewrite <- (app_assoc (entry i v)).
  rewrite <- (Nat.add_0_r (length pre)) at 1. rewrite !read_app.
  rewrite (read_entry 0 i v _ C_), (read_entry 1 i v _ A_), (read_entry 2 i v _ L_), (read_entry 3 i v _ (digit i)),
    (read_entry 4 i v _ colon), !bind_done, !Z.eqb_refl by done. cbn [andb].
  unfold entry. rewrite <- app_assoc, app_assoc, (get_app (le_bytes 4 v)), bind_done, le_word32 by (done || list_lia).
  rewrite buf_set_done, bind_done by lia. rewrite (app_assoc (pre ++ _)), (IH (S i)); [|list_lia|done|list_lia|lia].
  rewrite Nat.sub_succ, Nat.sub_0_r. f_equal.
  replace i with (S (i - 1)) at 1 by lia. rewrite (take_S_r _ _ v), take_insert_ge by (rewrite ?list_lookup_insert_eq; (done || lia)).
  rewrite drop_insert_lt, <- app_assoc by lia. replace (i - 1 + S (length vals))%nat with (i + length vals)%nat by lia. done.
Qed.

(** Reading a calibration always ends, and keeps the size of the array. *)
Lemma read_done i (m : list Z) : (i < length m)%nat -> exists b, EEPROM.read i m = Done b.
Proof. intros [b Hb]%lookup_lt_is_Some_2. exists b. by apply buf_get_done. Qed.

Lemma get_done n : forall i (m : list Z), (i + n <= length m)%nat -> exists bs, EEPROM.get n i m = Done bs.
Proof.
  induction n as [|n IH]; intros i m Hl; [by eexists|]. cbn [EEPROM.get].
  destruct (read_done i m) as [b ->]; [lia|]. destruct (IH (S i) m) as [bs Hbs]; [lia|]. rewrite bind_done, Hbs. by eexists.
Qed.

Lemma triple_loop_done k : forall i a (m c : list Z), (a + 9 * k <= length m)%nat -> (0 < i)%nat -> (i - 1 + k <= length c)%nat ->
  exists c', triple_loop k i a m c = Done c' /\ length c' = length c.
Proof.
  induction k as [|k IH]; intros i a m c Hl Hi Hc; cbn [triple_loop]; [by eexists|].
  destruct (read_done a m) as [b0 ->]; [lia|]. destruct (read_done (a + 1) m) as [b1 ->]; [lia|].
  destruct (read_done (a + 2) m) as [b2 ->]; [lia|]. destruct (read_done (a + 3) m) as [b3 ->]; [lia|].
  destruct (read_done (a + 4) m) as [b4 ->]; [lia|]. rewrite !bind_done. destruct (_ && _); [|by eexists].
  destruct (get_done 4 (a + 5) m) as [bs Hbs]; [lia|]. rewrite Hbs, bind_done, buf_set_done, bind_done by lia.
  destruct (IH (S i) (a + 5 + 4)%nat m (<[(i - 1)%nat := le_word bs]> c)) as (c' & -> & Hl'); [lia|lia|rewrite length_insert; lia|].
  eexists. split; [done|]. by rewrite Hl', length_insert.
Qed.

(** An erased memory holds no calibration. *)
Lemma write_at (pre post : list Z) x y i : i = length pre -> EEPROM.write i y (pre ++ x :: post) = Done (pre ++ y :: post).
Proof. apply buf_set_app. Qed.

Lemma clear_from (m : list Z) : forall first,
  for_range (length m) first (fun i m => EEPROM.write i 0 m) (replicate first 0 ++ m) = Done (replicate (first + length m) 0).
Proof.
  induction m as [|x m IH]; intros first; cbn [length for_range]; [by rewrite app_nil_r, Nat.add_0_r|].
  rewrite write_at, bind_done by (by rewrite length_replicate).
  change (0 :: m) with ([0] ++ m). rewrite app_assoc, <- replicate_S_end, IH. by rewrite Nat.add_succ_r.
Qed.

Lemma clear_done (m : list Z) : clear_eeprom m = Done (replicate (length m) 0).
Proof. apply (clear_from m 0). Qed.

Lemma erased_loop n c : (9 <= n)%nat -> triple_loop 3 1 0 (replicate n 0) c = Done c.
Proof. intros Hn. do 9 (destruct n as [|n]; [lia|]). done. Qed.

(** ** One iteration *)

Section Battery.
Context (millis : nat -> Z) (pressed : nat -> bool) (analog : nat -> nat -> Z).

(** What neither the display nor the clock changes. *)
Definition keeps (s s' : state) : Prop :=
  triple_calibration s' = triple_calibration s /\ cells s' = cells s /\ calib s' = calib s /\
  vref_guess s' = vref_guess s /\ safety s' = safety s /\ last_check_time s' = last_check_time s /\ eeprom s' = eeprom s.

Lemma keeps_trans s1 s2 s3 : keeps s1 s2 -> keeps s2 s3 -> keeps s1 s3.
Proof. unfold keeps. intros (?&?&?&?&?&?&?) (?&?&?&?&?&?&?). repeat split; congruence. Qed.

(** The display runs the sequence of the voltages. *)
Definition display_ok (d : display_t) : Prop := segment_8_run d = NORMAL_VOLT_READ /\ 0 <= sequence d < 8.

(** The state of a monitor in use: three calibration values, and room to store them. *)
Definition wf (s : state) : Prop :=
  triple_calibration s = true /\ length (calib s) = 3%nat /\ (27 <= length (eeprom s))%nat /\ display_ok (display s).

Lemma handle_8_segment_keeps s : display_ok (display s) ->
  keeps s (handle_8_segment millis s) /\ display_ok (display (handle_8_segment millis s)).
Proof.
  intros [Hq Hs]. unfold handle_8_segment. set (s0 := match screen s with Some _ => _ | None => _ end).
  assert (H0 : keeps s s0 /\ display s0 = display s) by (unfold s0; destruct (screen s); by repeat split).
  clearbody s0. destruct H0 as [Hk Hd]. unfold display_ok. cbn. rewrite Hd, Hq. destruct (_ <? _); cbn.
  - destruct (Z.eqb_spec (sequence (display s) + 1) 8) as [He|He]; cbn; (split; [exact Hk|]); (split; [done|lia]).
  - split; [exact Hk|]. by rewrite Hd.
Qed.

(** What the button does not change. *)
Definition same_checks (s s' : state) : Prop :=
  cells s' = cells s /\ safety s' = safety s /\ last_check_time s' = last_check_time s.

(** The state at the check of the button, and the number of that check. *)
Definition at_check (s : state) : state := handle_8_segment millis (tell ClearDisp (setup_display s)).

Lemma at_check_keeps s : display_ok (display s) -> keeps s (at_check s) /\ display_ok (display (at_check s)).
Proof. intros Hd. apply (handle_8_segment_keeps (tell ClearDisp (setup_display s))). exact Hd. Qed.

(** The button is released [k] checks after the call number [t]. *)
Definition released (t k : nat) : Prop :=
  (forall i, (i < k)%nat -> pressed (t + i) = true) /\ pressed (t + k) = false.

Lemma wait_release_done k : forall fuel s, released (ticks s) k -> (k < fuel)%nat ->
  exists s', wait_release pressed fuel s = Done s' /\ keeps s s' /\ display s' = display s /\ ticks s' = (ticks s + k + 1)%nat.
Proof.
  induction k as [|k IH]; intros fuel s [Hp Hr] Hf; (destruct fuel as [|fuel]; [lia|]); cbn [wait_release]; unfold button.
  - rewrite Nat.add_0_r in Hr. rewrite Hr. eexists. split; [done|]. split; [by repeat split|]. split; [done|]. cbn. lia.
  - assert (H0 : pressed (ticks s) = true) by (rewrite <- (Nat.add_0_r (ticks s)); apply Hp; lia). rewrite H0.
    destruct (IH fuel (tell (Delay 1) (tick s))) as (s' & -> & Hk & Hd & Ht); [|lia|].
    { split; [intros i Hi|]; cbn [ticks tick tell]; rewrite Nat.add_succ_l, <- Nat.add_succ_r; [apply Hp; lia | exact Hr]. }
    eexists. split; [done|]. split; [exact Hk|]. split; [exact Hd|]. rewrite Ht. cbn. lia.
Qed.

(** The reference voltages from the readings that start with number [t]. *)
Definition vrefs (t : nat) : list Z :=
  [vref (f32_of_Z (analog 0 t)) R2 R5; vref (f32_of_Z (analog 1 (t + 1))) R3 R6; vref (f32_of_Z (analog 2 (t + 2))) R4 R7].

Lemma vrefs_words t : Forall word32 (vrefs t).
Proof. repeat constructor; apply f32_mul_word. Qed.

Lemma calibrate_done k fuel s : released (ticks s) k -> (k < fuel)%nat ->
  exists v s', calibrate pressed analog fuel s = Done (v, s') /\ calib s' = vrefs (ticks s + k + 1) /\
    triple_calibration s' = triple_calibration s /\ eeprom s' = eeprom s /\ display s' = display s /\ same_checks s s'.
Proof.
  intros Hr Hf. unfold calibrate. destruct (wait_release_done k fuel s Hr Hf) as (s1 & -> & Hk & Hd & Ht).
  rewrite bind_done. eexists _, _. split; [reflexivity|].
  destruct Hk as (H1 & H2 & _ & _ & H5 & H6 & H7). cbn. rewrite Ht. split; [|by repeat split].
  unfold vrefs. do 3 f_equal; [|f_equal]; by rewrite ?(Nat.add_comm _ 2), ?(Nat.add_comm _ 1).
Qed.

(** What pressing the button does. *)
Lemma button_calibrates k fuel s : wf s -> nominal (calib s) = true -> pressed (ticks s) = true ->
  released (S (ticks s)) k -> (k < fuel)%nat ->
  exists s', handle_calibration pressed analog fuel s = Done (Some NEW_CALIB, s') /\ wf s' /\ display s' = display s /\
    calib s' = vrefs (ticks s + k + 2) /\ eeprom s' = image 1 (calib s') ++ drop 27 (eeprom s) /\ same_checks s s'.
Proof.
  intros (Ht & Hc & Hm & Hd) Hn Hp Hr Hf. unfold handle_calibration, button. rewrite Hp. cbn [negb].
  cbn [triple_calibration calib tick]. rewrite Ht, Hn. cbn [andb].
  destruct (calibrate_done k fuel (tick s) Hr Hf) as (v & s1 & -> & Hc1 & Ht1 & He1 & Hd1 & Hk). rewrite bind_done.
  rewrite He1. cbn [eeprom tick]. rewrite write_triple_done, bind_done by done.
  eexists. split; [reflexivity|]. unfold wf. cbn [triple_calibration calib eeprom display set_eeprom].
  rewrite Hc1, Ht1, Hd1. cbn [ticks tick]. replace (S (ticks s) + k + 1)%nat with (ticks s + k + 2)%nat by lia.
  split; [|split; [done|split; [done|split; done]]]. split; [done|]. split; [done|]. split; [|done].
  rewrite length_app, length_drop, length_image. cbn. lia.
Qed.

Lemma button_clears fuel s : wf s -> nominal (calib s) = false -> pressed (ticks s) = true ->
  exists s', handle_calibration pressed analog fuel s = Done (Some CLEAR_CALIB, s') /\ wf s' /\ display s' = display s /\
    calib s' = replicate 3 ADC_REF_NOM /\ eeprom s' = replicate (length (eeprom s)) 0 /\ same_checks s s'.
Proof.
  intros (Ht & Hc & Hm & Hd) Hn Hp. unfold handle_calibration, button. rewrite Hp. cbn [negb].
  cbn [triple_calibration calib tick]. rewrite Ht, Hn. cbn [andb negb]. rewrite bind_ret.
  cbn [eeprom set_calib set_vref tell tick]. rewrite clear_done, bind_done. eexists. split; [reflexivity|].
  split; [|by repeat split]. split; [done|]. split; [done|]. split; [cbn; by rewrite length_replicate | done].
Qed.

Lemma button_up fuel s : pressed (ticks s) = false -> handle_calibration pressed analog fuel s = Done (None, tick s).
Proof. intros Hp. unfold handle_calibration, button. by rewrite Hp. Qed.

(** In every case. *)
Lemma button_done fuel s : wf s ->
  (pressed (ticks s) = true -> nominal (calib s) = true -> exists k, released (S (ticks s)) k /\ (k < fuel)%nat) ->
  exists r s', handle_calibration pressed analog fuel s = Done (r, s') /\ wf s' /\ same_checks s s'.
Proof.
  intros Hw Hr. destruct (pressed (ticks s)) eqn:Hp; [destruct (nominal (calib s)) eqn:Hn|].
  - destruct (Hr eq_refl eq_refl) as (k & Hk & Hf). destruct (button_calibrates k fuel s) as (s' & ? & ? & _ & _ & _ & ?); eauto.
  - destruct (button_clears fuel s) as (s' & ? & ? & _ & _ & _ & ?); eauto.
  - exists None, (tick s). by rewrite button_up.
Qed.

(** Reading the calibration back. *)
Lemma setup_sensing_done s : wf s ->
  exists c s', triple_loop 3 1 0 (eeprom s) (calib s) = Done c /\ setup_sensing s = Done s' /\ wf s' /\
    calib s' = c /\ eeprom s' = eeprom s /\ cells s' = cells s /\ safety s' = safety s /\
    last_check_time s' = last_check_time s /\ ticks s' = ticks s.
Proof.
  intros (Ht & Hc & Hm & Hd).
  destruct (triple_loop_done 3 1 0 (eeprom s) (calib s)) as (c & Hl & Hc'); [lia|lia|rewrite Hc; cbn; lia|].
  exists c. unfold setup_sensing, update_triple_calibration. cbn [triple_calibration tell eeprom calib]. rewrite Ht, Hl, bind_done.
  eexists. split; [done|]. split; [done|]. split; [|done]. by split; [|split; [cbn; congruence|]].
Qed.

Lemma triple_loop_own c r : length c = 3%nat -> Forall word32 c -> triple_loop 3 1 0 (image 1 c ++ r) c = Done c.
Proof.
  intros Hc Hw. pose proof (triple_loop_image c 1 [] r c 0 eq_refl Hw ltac:(cbn; lia) ltac:(lia)) as E.
  rewrite Hc in E. etransitivity; [exact E|]. cbn [Nat.sub take Nat.add app]. by rewrite <- Hc, drop_all, app_nil_r.
Qed.

(** The float that is no number. *)
Definition F_NAN : Z := 0x7FC00000.

(** The verdict on the cells: one of them is out of its range, or two of them differ too much. *)
Definition out_of_range (c : cells_t) : bool :=
  let a := v_cell1 c in let b := dv_cell2 c in let d := dv_cell3 c in
  existsb (fun v => f32_lt v min_cell || f32_lt max_cell v) [a; b; d] ||
  existsb (fun '(x, y) => f32_lt d_cell (f32_abs (f32_sub x y))) [(a, b); (b, d); (d, a)].

Lemma compute_safety_verdict c f : fst (compute_safety c f) = if out_of_range c then 1 else 0.
Proof.
  assert (Hv : out_of_range c = any_cell (fun v => f32_lt v min_cell) c || any_cell (f32_lt max_cell) c || existsb (f32_lt d_cell) (differences c)).
  { unfold out_of_range, any_cell, differences. cbn [existsb]. by repeat destruct (f32_lt _ _). }
  rewrite Hv. unfold compute_safety. destruct (any_cell _ c); [done|]. destruct (any_cell _ c); [done|].
  destruct (existsb _ _); [done|]. by repeat case_match.
Qed.

(** What the check of the cells does to a state whose next call has number [t]. *)
Lemma check_cells_spec s (t := ticks s) :
  let s' := check_cells millis analog s in
  calib s' = calib s /\ eeprom s' = eeprom s /\ triple_calibration s' = triple_calibration s /\ display s' = display s /\
  if 250 <? u32 (millis t - last_check_time s) then
    cells s' = measure (f32_of_Z (analog 0 (t + 1))) (f32_of_Z (analog 1 (t + 2))) (f32_of_Z (analog 2 (t + 3))) (calib s) /\
    unsafe_status (safety s') = (if out_of_range (cells s') then 1 else 0) /\
    last_check_time s' = millis (t + 4) /\
    outs s' = outs s ++ [if out_of_range (cells s') then Tone buzzer NOTE_A5 else NoTone buzzer]
  else cells s' = cells s /\ safety s' = safety s /\ last_check_time s' = last_check_time s /\ outs s' = outs s.
Proof.
  unfold check_cells, now. cbn [last_check_time tick]. fold t. destruct (_ <? _); [|by repeat split].
  unfold handle_safety, measure_cells, read_cells, analogRead. cbn [tick ticks set_cells set_last_check cells safety calib].
  fold t. rewrite !(Nat.add_comm t). cbn [Nat.add]. set (c := measure _ _ _ _).
  pose proof (compute_safety_verdict c (safety s)) as Hv. destruct (compute_safety c (safety s)) as [u f]. cbn [fst] in Hv. subst u.
  cbn. repeat split; by destruct (out_of_range c).
Qed.

Lemma check_cells_wf s : wf s -> wf (tell ClearDisp (check_cells millis analog s)).
Proof.
  intros (Ht & Hc & Hm & Hd). pose proof (check_cells_spec s) as (H1 & H2 & H3 & H4 & _). unfold wf.
  cbn [triple_calibration calib eeprom display tell]. by rewrite H1, H2, H3, H4.
Qed.

(** An iteration from what the button does in it. *)
Lemma iteration fuel s r s1 c : handle_calibration pressed analog fuel (at_check s) = Done (r, s1) -> wf s1 ->
  triple_loop 3 1 0 (eeprom s1) (calib s1) = Done c ->
  exists s2 s', device_actions millis pressed analog fuel s = Done s' /\ wf s' /\ calib s' = c /\ eeprom s' = eeprom s1 /\
    s' = tell ClearDisp (check_cells millis analog s2) /\ calib s2 = c /\ cells s2 = cells s1 /\ safety s2 = safety s1 /\
    last_check_time s2 = last_check_time s1 /\ ticks s2 = ticks s1.
Proof.
  intros Hh Hw Hl. destruct (setup_sensing_done s1 Hw) as (c' & s2 & Hl' & Hs & Hw2 & H1 & H2 & H3 & H4 & H5 & H6).
  rewrite Hl in Hl'. apply done_inj in Hl' as <-. exists s2. eexists. unfold device_actions.
  change (handle_8_segment millis _) with (at_check s). rewrite Hh, bind_done, Hs, bind_done. split; [reflexivity|].
  pose proof (check_cells_spec s2) as (E1 & E2 & _).
  split; [by apply check_cells_wf|]. cbn [calib eeprom tell]. rewrite E1, E2, H1, H2. by repeat split.
Qed.

Lemma at_check_wf s : wf s -> wf (at_check s) /\ calib (at_check s) = calib s /\ eeprom (at_check s) = eeprom s /\
  cells (at_check s) = cells s /\ safety (at_check s) = safety s /\ last_check_time (at_check s) = last_check_time s.
Proof.
  intros (Ht & Hc & Hm & Hd). destruct (at_check_keeps s Hd) as [(E1 & E2 & E3 & E4 & E5 & E6 & E7) Hd'].
  split; [|done]. unfold wf. rewrite E1, E3, E7. done.
Qed.

End Battery.

(** ** Restarts *)

(** What is left of the monitor when its power is cut: the EEPROM. *)
Lemma restart_wf flags (m : list Z) : (27 <= length m)%nat -> wf (start flags m).
Proof. intros Hm. split; [done|]. split; [done|]. split; [done|]. by split. Qed.

Lemma enable_done s c : wf s -> triple_loop 3 1 0 (eeprom s) (replicate 3 ADC_REF_NOM) = Done c ->
  exists s', device_enable s = Done s' /\ wf s' /\ calib s' = c /\ eeprom s' = eeprom s.
Proof.
  intros (Ht & Hc & Hm & Hd) Hl. unfold device_enable. set (s1 := test_display _).
  assert (H1 : triple_calibration s1 = true /\ calib s1 = replicate 3 ADC_REF_NOM /\ eeprom s1 = eeprom s /\ display s1 = display s).
  { unfold s1, test_display. set (s0 := tell ClearDisp _).
    assert (Hi : forall n, triple_calibration (Nat.iter n (tell (Text "8.8.8.8.")) s0) = true /\
      calib (Nat.iter n (tell (Text "8.8.8.8.")) s0) = replicate 3 ADC_REF_NOM /\
      eeprom (Nat.iter n (tell (Text "8.8.8.8.")) s0) = eeprom s /\ display (Nat.iter n (tell (Text "8.8.8.8.")) s0) = display s)
      by (intros n; induction n as [|n IH]; [by repeat split | exact IH]).
    exact (Hi 250%nat). }
  clearbody s1. destruct H1 as (E1 & E2 & E3 & E4).
  destruct (setup_sensing_done s1) as (c' & s' & Hl' & Hs & Hw & Hc' & He & _).
  { unfold wf. by rewrite E1, E2, E3, E4. }
  rewrite E2, E3, Hl in Hl'. apply done_inj in Hl' as <-. exists s'. by rewrite He.
Qed.

Lemma calibrated_spec s : wf s -> is_calibrated s = Done (if nominal (calib s) then 0 else 1).
Proof. intros (Ht & _). unfold is_calibrated. rewrite Ht. by destruct (nominal (calib s)). Qed.

(** ** Properties *)

(** C23: a calibration lasts. When the button of a monitor that is not calibrated is pressed, at
    whatever time, one iteration ends once it is released: the calibration values are the
    reference voltages that make the readings taken then 5 volts, they are in the EEPROM in the
    format of its comment, behind which nothing is changed, and the monitor is well-formed.
    Whatever the memory holds after the power was cut, the next start reads the same values
    from the EEPROM and reports them as a calibration unless all three are the nominal value. *)
Theorem battery_calibration_lasts millis pressed analog s k fuel flags (t := ticks (at_check millis s)) :
  wf s -> nominal (calib s) = true -> pressed t = true -> released pressed (S t) k -> (k < fuel)%nat ->
  exists s' s'', device_actions millis pressed analog fuel s = Done s' /\ wf s' /\
    calib s' = vrefs analog (t + k + 2) /\ eeprom s' = image 1 (calib s') ++ drop 27 (eeprom s) /\
    device_enable (start flags (eeprom s')) = Done s'' /\ wf s'' /\ calib s'' = calib s' /\ eeprom s'' = eeprom s' /\
    is_calibrated s'' = Done (if nominal (calib s') then 0 else 1).
Proof.
  intros Hw Hn Hp Hr Hf. destruct (at_check_wf millis s Hw) as (Hw1 & Hc1 & He1 & _).
  destruct (button_calibrates pressed analog k fuel (at_check millis s)) as (s1 & Hh & Hws & _ & Hcs & Hes & _); [done | by rewrite Hc1 | done..|].
  pose proof (vrefs_words analog (t + k + 2)) as Hv. fold t in Hcs. rewrite He1 in Hes. rewrite Hcs in Hes.
  destruct (iteration millis pressed analog fuel s _ s1 (vrefs analog (t + k + 2)) Hh Hws) as (s2 & s' & Ha & Hw' & Hc' & He' & _).
  { rewrite Hes, Hcs. by apply triple_loop_own. }
  assert (Hl : (27 <= length (eeprom s'))%nat) by apply Hw'.
  destruct (enable_done (start flags (eeprom s')) (vrefs analog (t + k + 2))) as (s'' & Hen & Hw'' & Hc'' & He'').
  { by apply restart_wf. }
  { cbn [eeprom start]. rewrite He', Hes. exact (triple_loop_image (vrefs analog (t + k + 2)) 1 [] _ (replicate 3 ADC_REF_NOM) 0 eq_refl Hv ltac:(cbn; lia) ltac:(lia)). }
  exists s', s''. rewrite calibrated_spec, Hc', Hc'' by done. do 3 (split; [done|]). split; [by rewrite He'|].
  do 4 (split; [done|]). done.
Qed.

(** The button resets the calibration, and a long press undoes the reset. On a calibrated
    monitor, one iteration with the button pressed makes the three values nominal and erases
    the whole EEPROM, so that the next start finds no calibration. If the button is still held
    at the check of the next iteration, that iteration waits for its release and calibrates the
    monitor to whatever voltages it reads then, also in the EEPROM. *)
Theorem battery_reset_recalibrates millis pressed analog s fuel flags :
  wf s -> nominal (calib s) = false -> pressed (ticks (at_check millis s)) = true ->
  exists s1 s'', device_actions millis pressed analog fuel s = Done s1 /\ wf s1 /\
    calib s1 = replicate 3 ADC_REF_NOM /\ eeprom s1 = replicate (length (eeprom s)) 0 /\
    device_enable (start flags (eeprom s1)) = Done s'' /\ is_calibrated s'' = Done 0 /\
    let t := ticks (at_check millis s1) in
    forall k, pressed t = true -> released pressed (S t) k -> (k < fuel)%nat ->
    exists s2, device_actions millis pressed analog fuel s1 = Done s2 /\
      calib s2 = vrefs analog (t + k + 2) /\ take 27 (eeprom s2) = image 1 (calib s2).
Proof.
  intros Hw Hn Hp. destruct (at_check_wf millis s Hw) as (Hw1 & Hc1 & He1 & _).
  destruct (button_clears pressed analog fuel (at_check millis s)) as (s0 & Hh & Hw0 & _ & Hc0 & He0 & _); [done | by rewrite Hc1 | done |].
  assert (Hl : (27 <= length (eeprom s))%nat) by apply Hw. rewrite He1 in He0.
  destruct (iteration millis pressed analog fuel s _ s0 (replicate 3 ADC_REF_NOM) Hh Hw0) as (s2 & s1 & Ha & Hws & Hcs & Hes & _).
  { rewrite He0, Hc0. apply erased_loop. lia. }
  rewrite He0 in Hes.
  destruct (enable_done (start flags (eeprom s1)) (replicate 3 ADC_REF_NOM)) as (s'' & Hen & Hw'' & Hc'' & _).
  { apply restart_wf, Hws. }
  { cbn [eeprom start]. rewrite Hes. apply erased_loop. lia. }
  exists s1, s''. split; [done|]. split; [done|]. split; [done|]. split; [done|]. split; [done|].
  split; [rewrite calibrated_spec, Hc'' by done; vm_compute; done|]. intros t k Hp1 Hr Hf.
  destruct (at_check_wf millis s1 Hws) as (Hw2 & Hc2 & He2 & _).
  destruct (button_calibrates pressed analog k fuel (at_check millis s1)) as (s3 & Hh3 & Hw3 & _ & Hc3 & He3 & _);
    [done | rewrite Hc2, Hcs; vm_compute; done | done..|].
  pose proof (vrefs_words analog (t + k + 2)) as Hv. fold t in Hc3.
  destruct (iteration millis pressed analog fuel s1 _ s3 (vrefs analog (t + k + 2)) Hh3 Hw3) as (? & s4 & Ha4 & _ & Hc4 & He4 & _).
  { rewrite He3, Hc3. by apply triple_loop_own. }
  exists s4. rewrite Hc4, He4, He3, Hc3. done.
Qed.

(** C24: what the monitor says of the battery. Unless the button makes it wait for ever, an
    iteration ends, and then: when more than 250 ms have gone by since the last check, by the
    clock's 32 bits, the cells are what was read in this iteration, by the calibration values in
    use; the status is 1 exactly when a cell is below 3.3 V or above 4.4 V or two of them differ by
    more than 0.3 V, whatever the flags of earlier readings say, and the buzzer sounds exactly
    then; otherwise readings, status and buzzer are left alone. *)
Theorem battery_safety_spec (millis : nat -> Z) (pressed : nat -> bool) (analog : nat -> nat -> Z) s fuel (n := ticks (at_check millis s)) :
  wf s ->
  (pressed n = true -> nominal (calib s) = true -> exists k, released pressed (S n) k /\ (k < fuel)%nat) ->
  exists s' (t : nat) o, device_actions millis pressed analog fuel s = Done s' /\ wf s' /\
    if 250 <? u32 (millis t - last_check_time s) then
      cells s' = measure (f32_of_Z (analog 0%nat (t + 1)%nat)) (f32_of_Z (analog 1%nat (t + 2)%nat)) (f32_of_Z (analog 2%nat (t + 3)%nat)) (calib s') /\
      unsafe_status (safety s') = (if out_of_range (cells s') then 1 else 0) /\ last_check_time s' = millis (t + 4)%nat /\
      outs s' = o ++ [if out_of_range (cells s') then Tone buzzer NOTE_A5 else NoTone buzzer; ClearDisp]
    else cells s' = cells s /\ safety s' = safety s /\ last_check_time s' = last_check_time s /\ outs s' = o ++ [ClearDisp].
Proof.
  intros Hw Hr. destruct (at_check_wf millis s Hw) as (Hw1 & Hc1 & He1 & Hv1 & Hf1 & Ht1).
  destruct (button_done pressed analog fuel (at_check millis s)) as (r & s1 & Hh & Hw2 & Hv2 & Hf2 & Ht2); [done | by rewrite Hc1|].
  destruct (setup_sensing_done s1 Hw2) as (c & _ & Hl & _).
  destruct (iteration millis pressed analog fuel s r s1 c Hh Hw2 Hl) as (s2 & s' & Ha & Hw' & Hc' & _ & -> & Hc2 & Hv & Hf & Ht & _).
  exists (tell ClearDisp (check_cells millis analog s2)), (ticks s2), (outs s2). split; [done|]. split; [done|].
  pose proof (check_cells_spec millis analog s2) as (_ & _ & _ & _ & H). rewrite Ht, Ht2, Ht1 in H.
  cbn [calib cells safety last_check_time outs tell] in *. rewrite Hc'. destruct (_ <? _); destruct H as (H1 & H2 & H3 & H4).
  - rewrite H4, <- app_assoc, <- Hc2. done.
  - rewrite H4, H1, H2, H3. split; [congruence|]. split; [congruence|]. split; [congruence|done].
Qed.

Lemma f32_sub_nan_r x : f32_sub x F_NAN = F_NAN.
Proof. unfold f32_sub, f32_op. change (f32_decode F_NAN) with S754_nan. by destruct (f32_decode x). Qed.
Lemma f32_sub_nan_l x : f32_sub F_NAN x = F_NAN.
Proof. unfold f32_sub, f32_op. change (f32_decode F_NAN) with S754_nan. by destruct (f32_decode x). Qed.

(** A cell that is not connected during calibration is never missed again. The reference
    voltage of a first cell that reads 0 is infinite; afterwards, while the cell reads 0, its
    voltage and that of the second are no numbers, whatever the others read, and the verdict
    is that of the third cell alone: with that in range the battery is reported safe. Without a
    calibration the same readings are unsafe. *)
Theorem battery_blind_calibration r2 r3 c2 c3 f :
  let blind := measure (f32_of_Z 0) r2 r3 [vref (f32_of_Z 0) R2 R5; c2; c3] in
  let fresh := measure (f32_of_Z 0) r2 r3 [ADC_REF_NOM; c2; c3] in
  f32_nan (v_cell1 blind) = true /\ f32_nan (dv_cell2 blind) = true /\
  fst (compute_safety blind f) = (if f32_lt (dv_cell3 blind) min_cell || f32_lt max_cell (dv_cell3 blind) then 1 else 0) /\
  fst (compute_safety fresh f) = 1.
Proof.
  intros blind fresh.
  assert (Hv : v_cell1 blind = F_NAN) by (vm_compute; done).
  assert (Hd : dv_cell2 blind = F_NAN) by (change (dv_cell2 blind) with (f32_sub (v_cell2 blind) (v_cell1 blind)); rewrite Hv; exact (f32_sub_nan_r _)).
  assert (Hf : v_cell1 fresh = F_0) by (vm_compute; done).
  clearbody blind fresh. split; [by rewrite Hv|]. split; [by rewrite Hd|]. split; rewrite compute_safety_verdict; unfold out_of_range.
  - rewrite Hv, Hd. generalize (dv_cell3 blind). intros v. 
    cbn [existsb]. rewrite !f32_sub_nan_r, !f32_sub_nan_l.
    change (f32_lt d_cell (f32_abs F_NAN)) with false.
    change (f32_lt F_NAN min_cell) with false. change (f32_lt max_cell F_NAN) with false. cbn [orb]. by rewrite !orb_false_r.
  - rewrite Hf. change (f32_lt F_0 min_cell) with true. done.
Qed.

(** ** Concrete runs *)

(** A monitor with an erased EEPROM of 32 bytes and these calibration values; a clock that
    runs 100 ms at every call; readings of 500, 501 and 502. *)
Definition sample (c : list Z) : state := set_calib c (start (Safety 7 7 7) (replicate 32 0)).
Definition sample_clock (n : nat) : Z := 100 * Z.of_nat n.
Definition sample_voltages (p _ : nat) : Z := 500 + Z.of_nat p.
(** The button is down in these calls. *)
Definition held (calls : list nat) (n : nat) : bool := existsb (Nat.eqb n) calls.

Lemma sample_wf c : length c = 3%nat -> wf (sample c).
Proof. intros Hc. split; [done|]. split; [done|]. split; [cbn; lia|]. by split. Defined.

Lemma battery_calibration_lasts_witness : exists s' s'',
  device_actions sample_clock (held [1; 2]%nat) sample_voltages 3 (sample (replicate 3 ADC_REF_NOM)) = Done s' /\
  device_enable (start (Safety 1 2 3) (eeprom s')) = Done s'' /\ calib s'' = vrefs sample_voltages 4.
Proof.
  destruct (battery_calibration_lasts sample_clock (held [1; 2]%nat) sample_voltages (sample (replicate 3 ADC_REF_NOM)) 1 3 (Safety 1 2 3))
    as (s' & s'' & H1 & _ & H2 & _ & H3 & _ & H4 & _).
  - by apply sample_wf.
  - vm_compute. reflexivity.
  - vm_compute. reflexivity.
  - split; [intros [|i] Hi; [vm_compute; reflexivity | lia] | vm_compute; reflexivity].
  - lia.
  - exists s', s''. split; [exact H1|]. split; [exact H3|]. rewrite H4. exact H2.
Defined.

Lemma battery_reset_recalibrates_witness : exists s1,
  device_actions sample_clock (held [1; 4]%nat) sample_voltages 3 (sample (replicate 3 F_1)) = Done s1 /\
  calib s1 = replicate 3 ADC_REF_NOM /\ eeprom s1 = replicate 32 0.
Proof.
  destruct (battery_reset_recalibrates sample_clock (held [1; 4]%nat) sample_voltages (sample (replicate 3 F_1)) 3 (Safety 1 2 3))
    as (s1 & s'' & H1 & _ & H2 & H3 & _).
  - by apply sample_wf.
  - vm_compute. reflexivity.
  - vm_compute. reflexivity.
  - exists s1. split; [exact H1|]. split; [exact H2 | exact H3].
Defined.

Lemma battery_safety_spec_witness : exists s' t o,
  device_actions sample_clock (held []) sample_voltages 0 (sample (replicate 3 ADC_REF_NOM)) = Done s' /\
  if 250 <? u32 (sample_clock t - 0) then outs s' = o ++ [if out_of_range (cells s') then Tone buzzer NOTE_A5 else NoTone buzzer; ClearDisp]
  else outs s' = o ++ [ClearDisp].
Proof.
  destruct (battery_safety_spec sample_clock (held []) sample_voltages (sample (replicate 3 ADC_REF_NOM)) 0)
    as (s' & t & o & H1 & _ & H2).
  - by apply sample_wf.
  - intros Hp. vm_compute in Hp. discriminate Hp.
  - exists s', t, o. split; [exact H1|]. change (last_check_time (sample (replicate 3 ADC_REF_NOM))) with 0 in H2.
    destruct (_ <? _); apply H2.
Defined.
