(* ===== verification/DeviceTypes.v ===== *)
(** * The device classes agree with the registry on the sizes of the parameters.

    The runtime knows the parameters of a device from its registry, the Arduino from its class:
    nothing in the code makes the two agree, and a parameter of another size than the runtime
    expects shifts every parameter behind it in the message. Here each class is checked against
    the entry of its type. *)

From stdpp Require Import strings.
From S2P Require Import BatterySpec.
From S2P Require Export KoalaSpec.

(** [ok] is what the class maintains of its own data, [rejects] says which payloads a write
    leaves alone. A readable parameter is read as as many bytes as its registered type has; a
    write of a writable one takes that many, or none if it rejects the value. *)
Record class_sized (D : Driver) (d : device_t) (ok : @dstate D -> Prop) (rejects : nat -> bytes -> bool) : Prop := {
  ct_read : forall i p st, ok st -> params d !! i = Some p -> pd_read p ≠ 0 ->
    exists bs st', Lowcar.device_read i st = Done (bs, st') /\ length bs = param_size (pd_type p) /\ ok st';
  ct_write : forall i p st buf, ok st -> params d !! i = Some p -> pd_write p ≠ 0 ->
    (param_size (pd_type p) <= length buf)%nat ->
    exists n st', Lowcar.device_write i buf st = Done (n, st') /\ n = (if rejects i buf then 0%nat else param_size (pd_type p)) /\ ok st';
  ct_enable : forall st, ok st -> ok (snd (device_enable st));
  ct_reset : forall st, ok st -> ok (snd (device_reset st));
  ct_actions : forall now st, ok st -> ok (snd (device_actions now st))
}.

(** No value is rejected; a servo is not moved beyond its ends. *)
Definition never (i : nat) (buf : bytes) : bool := false.
Definition beyond_ends (i : nat) (buf : bytes) : bool :=
  match take_word 4 buf with Done v => f32_lt v F_minus_1 || f32_lt F_1 v | _ => false end.

(** The data of the classes that have arrays. *)
Definition servo_ok : ServoControl.state -> Prop := Servo.state_wf.
Definition pid_ok (c : Pid.pid) : Prop := length (Pid.prev_error c) = Pid.SAMPLES /\ length (Pid.prev_time c) = Pid.SAMPLES.
Definition koala_ok (s : state) : Prop := pid_ok (controller (motor_a s)) /\ pid_ok (controller (motor_b s)).

Lemma take_word_done n buf : (n <= length buf)%nat -> exists v, take_word n buf = Done v.
Proof.
  intros Hn. unfold take_word, buf_read. rewrite (proj2 (Nat.leb_le _ _)) by lia. rewrite bind_done. by eexists.
Qed.

(** A parameter that exists is one of the first [n]; the rest of the table is empty. *)
Tactic Notation "each_param" ident(i) integer(n) constr(k) "by" tactic3(tac) :=
  do n (destruct i as [|i]; [match goal with H : params _ !! _ = Some _ |- _ => injection H as <- end; solve [tac]|]);
  match goal with H : params _ !! _ = Some _ |- _ => apply (lookup_replicate_1 k) in H as [-> _]; (congruence || done) end.

(** The value that a write takes from the payload. *)
Ltac take_value Hl :=
  match goal with |- context [take_word ?n ?buf] =>
    let v := fresh "v" in let Hv := fresh "Hv" in
    destruct (take_word_done n buf Hl) as [v Hv]; rewrite Hv, !bind_done
  end.

Ltac value_taken Hl write :=
  cbn in Hl; unfold write; take_value Hl; eexists _, _; split; [reflexivity|]; split; [done | done].

(** *** The classes *)

Lemma dummy_sized : class_sized DummyDevice.class RuntimeUtil.DummyDevice (fun _ => True) never.
Proof.
  constructor; try done.
  - intros i p st _ Hi Hr. rewrite (@read_param DummyDevice.class _ DummyParams.params i p st Hi Hr).
    eexists _, _. split; [reflexivity|]. by rewrite length_le_bytes.
  - intros i p st buf _ Hi Hw Hl. cbn [Lowcar.device_write DummyDevice.class].
    each_param i 16 16%nat by (first [by destruct Hw | value_taken Hl DummyDevice.write]).
Qed.

Lemma limit_switch_sized low : class_sized (LimitSwitch.class low) RuntimeUtil.LimitSwitch (fun _ => True) never.
Proof.
  constructor; try done.
  - intros i p st _ Hi Hr. each_param i 3 29%nat by (by eexists _, _).
  - intros i p st buf _ Hi Hw Hl. each_param i 3 29%nat by (by destruct Hw).
Qed.

Lemma line_follower_sized analog : class_sized (LineFollower.class analog) RuntimeUtil.LineFollower (fun _ => True) never.
Proof.
  constructor; try done.
  - intros i p st _ Hi Hr. each_param i 3 29%nat by (by eexists _, _).
  - intros i p st buf _ Hi Hw Hl. each_param i 3 29%nat by (by destruct Hw).
Qed.

Lemma polar_bear_sized feedback undefined : class_sized (PolarBear.class feedback undefined) RuntimeUtil.PolarBear (fun _ => True) never.
Proof.
  constructor; try done.
  - intros i p st _ Hi Hr. each_param i 3 29%nat by (by eexists _, _).
  - intros i p st buf _ Hi Hw Hl. cbn [Lowcar.device_write PolarBear.class].
    each_param i 3 29%nat by (first [by destruct Hw | value_taken Hl PolarBear.write]).
Qed.

Lemma servo_sized : class_sized ServoControl.class RuntimeUtil.ServoControl servo_ok beyond_ends.
Proof.
  constructor; try done.
  - intros i p st (H1 & H2 & H3) Hi Hr. cbn [Lowcar.device_read ServoControl.class]. unfold ServoControl.read.
    destruct (lookup_lt_is_Some_2 (ServoControl.positions st) i) as [v Hv].
    { rewrite H1. unfold ServoControl.NUM_SERVOS. each_param i 2 30%nat by lia. }
    rewrite (buf_get_done _ _ _ Hv), bind_done. eexists _, _. split; [reflexivity|]. rewrite length_le_bytes.
    split; [each_param i 2 30%nat by done | done].
  - intros i p st buf Hok Hi Hw Hl. cbn [Lowcar.device_write ServoControl.class]. unfold ServoControl.write.
    assert (Hs : param_size (pd_type p) = 4%nat) by (each_param i 2 30%nat by done). rewrite Hs in Hl |- *.
    assert (Hlt : (i < ServoControl.NUM_SERVOS)%nat) by (unfold ServoControl.NUM_SERVOS; each_param i 2 30%nat by lia).
    unfold beyond_ends. take_value Hl. destruct (_ || _).
    + eexists _, _. split; [reflexivity|]. split; [done | exact Hok].
    + destruct Hok as (H1 & H2 & H3). rewrite !buf_set_done by congruence. rewrite !bind_done.
      eexists _, _. split; [reflexivity|]. split; [done|]. by repeat split; cbn; rewrite length_insert.
  - intros st (H1 & H2 & H3). by repeat split.
Qed.

(** The controller keeps the lengths of its arrays. *)
Lemma compute_ok t pos c : pid_ok c -> pid_ok (snd (Pid.compute t pos c)).
Proof.
  intros [He Ht]. unfold Pid.compute. destruct (f32_eq _ _); unfold pid_ok; cbn [snd Pid.prev_error Pid.prev_time];
    rewrite !length_app, !length_drop, He, Ht; done.
Qed.

Lemma set_position_ok micros n pos c : pid_ok c -> pid_ok (Pid.set_position micros n pos c).
Proof.
  intros [He Ht]. unfold pid_ok, Pid.set_position. cbn [Pid.prev_error Pid.prev_time].
  rewrite !length_app, !length_drop, length_replicate, length_fmap, length_seq, He, Ht. done.
Qed.

Lemma motor_step_ok micros undefined dt n m : pid_ok (controller m) ->
  pid_ok (controller (fst (motor_step micros undefined dt n m))).
Proof.
  intros Hm. unfold motor_step, speed.
  assert (Hsend : forall d m, controller (send undefined d m) = controller m)
    by (intros d m0; unfold send; by destruct (drive undefined d)).
  assert (Hduty : forall v n m, pid_ok (controller m) -> pid_ok (controller (snd (fst (duty micros v n m))))).
  { intros v k m0 Hok. unfold duty. destruct (negb _); [|done].
    pose proof (compute_ok (Pid.seconds micros k) (f32_of_Z (s32 (enc m0))) (Pid.set_velocity v (controller m0)) Hok) as Hc.
    by destruct (Pid.compute _ _ _). }
  destruct (stops _ m).
  - specialize (Hduty F_0 n (set_curr_velocity F_0 m) Hm). destruct (duty _ _ _ _) as [[d m1] k]. cbn [fst]. by rewrite Hsend.
  - set (v := adjust _ _). specialize (Hduty v n (set_curr_velocity (accelerate dt m) m) Hm).
    destruct (duty _ _ _ _) as [[d m1] k]. cbn [fst]. by rewrite Hsend.
Qed.

Lemma write_motor_ok micros i buf n m p : pid_ok (controller m) -> params RuntimeUtil.KoalaBear !! i = Some p \/
  params RuntimeUtil.KoalaBear !! (i + 8)%nat = Some p -> (i < 8)%nat -> (param_size (pd_type p) <= length buf)%nat ->
  exists m' k, write_motor micros i buf n m = Done (param_size (pd_type p), m', k) /\ pid_ok (controller m').
Proof.
  intros Hm Hp Hi Hl.
  do 8 (destruct i as [|i]; [destruct Hp as [Hp|Hp]; injection Hp as <-; cbn in Hl; unfold write_motor; take_value Hl;
    eexists _, _; (split; [reflexivity|]); first [exact Hm | by apply set_position_ok]|]). lia.
Qed.

Lemma koala_sized micros undefined : class_sized (KoalaBear.class micros undefined) RuntimeUtil.KoalaBear koala_ok never.
Proof.
  constructor; try done.
  - intros i p st Hok Hi Hr. rewrite (@read_param (KoalaBear.class micros undefined) _ (koala_params micros undefined) i p st Hi Hr).
    eexists _, _. split; [reflexivity|]. by rewrite length_le_bytes.
  - intros i p st buf [Ha Hb] Hi Hw Hl. cbn [Lowcar.device_write KoalaBear.class]. unfold KoalaBear.write.
    destruct (Nat.ltb_spec i 8) as [H8|H8]; cbn [negb].
    + destruct (write_motor_ok micros i buf (reads st) (motor_a st) p Ha (or_introl Hi) H8 Hl) as (m' & k & -> & Hm').
      rewrite bind_done. eexists _, _. split; [reflexivity|]. split; [done | by split].
    + assert (H16 : (i < 16)%nat).
      { destruct (Nat.lt_ge_cases i 16); [done|]. exfalso.
        do 16 (destruct i as [|i]; [lia|]). apply (lookup_replicate_1 16) in Hi as [-> _]. by destruct Hw. }
      destruct (write_motor_ok micros (i - 8) buf (reads st) (motor_b st) p Hb) as (m' & k & -> & Hm');
        [right; by replace (i - 8 + 8)%nat with i by lia | lia | done |].
      rewrite bind_done. eexists _, _. split; [reflexivity|]. split; [done | by split].
  - intros now st [Ha Hb]. change (koala_ok (snd (actions micros undefined now st))). destruct (online st) eqn:Ho.
    + pose proof (actions_eq micros undefined now st Ho) as He.
      pose proof (motor_step_ok micros undefined (elapsed now st) (reads st) (motor_a st) Ha) as Sa.
      destruct (motor_step _ _ _ _ (motor_a st)) as [a n].
      pose proof (motor_step_ok micros undefined (elapsed now st) n (motor_b st) Hb) as Sb.
      destruct (motor_step _ _ _ n (motor_b st)) as [b n']. destruct He as (_ & Ea & Eb). unfold koala_ok. by rewrite Ea, Eb.
    + destruct (actions_offline micros undefined now st Ho) as (_ & Ea & Eb). unfold koala_ok. by rewrite Ea, Eb.
Qed.

(** The battery monitor, which writes into the caller's buffer and has no writable parameter. *)
Lemma battery_sized s buf i p : BatterySpec.wf s -> (0 < length buf)%nat ->
  params RuntimeUtil.BatteryBuzzer !! i = Some p -> pd_read p ≠ 0 ->
  if (i <? 2)%nat then exists b, Battery.device_read i buf s = Done (param_size (pd_type p), b) /\ length b = length buf
  else Battery.device_read i buf s = Faulty WildPtr.
Proof.
  intros Hs Hb Hi Hr. destruct i as [|[|i]]; [injection Hi as <-..|].
  - cbn. rewrite buf_set_done, bind_done by done. eexists. split; [reflexivity | apply length_insert].
  - cbn [Nat.ltb Nat.leb Battery.device_read]. rewrite calibrated_spec, bind_done, buf_set_done, bind_done by done.
    eexists. split; [reflexivity | apply length_insert].
  - cbn [Nat.ltb Nat.leb]. do 6 (destruct i as [|i]; [done|]). apply (lookup_replicate_1 24) in Hi as [-> _]. done.
Qed.

(** C32: the devices agree with the registry on the size of every parameter. For each of the
    modelled classes but the battery monitor, whatever its pins and clocks give: a readable
    parameter of the registry's entry is read, without a fault, as as many bytes as its
    registered type has; a write of a writable parameter takes exactly that many bytes from a
    payload that holds them, or none when it rejects the value, which only the servos do, for
    a position beyond their ends; and every method keeps the class's own data well-formed, in
    particular the arrays of the motor controller, which it starts with. (Only sizes: whether
    four bytes are an integer or a float is not recorded on the wire.) The battery monitor
    agrees on its two flags, each read as one byte; reading any of its other six registered
    parameters goes through a pointer that was never set. *)
Theorem device_classes_sized micros undefined feedback low analog now :
  class_sized DummyDevice.class RuntimeUtil.DummyDevice (fun _ => True) never /\
  class_sized (LimitSwitch.class low) RuntimeUtil.LimitSwitch (fun _ => True) never /\
  class_sized (LineFollower.class analog) RuntimeUtil.LineFollower (fun _ => True) never /\
  class_sized (PolarBear.class feedback undefined) RuntimeUtil.PolarBear (fun _ => True) never /\
  class_sized ServoControl.class RuntimeUtil.ServoControl servo_ok beyond_ends /\ servo_ok ServoControl.start /\
  class_sized (KoalaBear.class micros undefined) RuntimeUtil.KoalaBear koala_ok never /\ koala_ok (KoalaBear.start micros now) /\
  (forall s buf i p, BatterySpec.wf s -> (0 < length buf)%nat ->
     params RuntimeUtil.BatteryBuzzer !! i = Some p -> pd_read p ≠ 0 ->
     if (i <? 2)%nat then exists b, Battery.device_read i buf s = Done (param_size (pd_type p), b) /\ length b = length buf
     else Battery.device_read i buf s = Faulty WildPtr).
Proof.
  split; [apply dummy_sized|]. split; [apply limit_switch_sized|]. split; [apply line_follower_sized|].
  split; [apply polar_bear_sized|]. split; [apply servo_sized|]. split; [by repeat split|]. split; [apply koala_sized|].
  split; [by repeat split | exact battery_sized].
Qed.

(** A monitor as it starts, and a servo written a position within its ends and one beyond. *)
Lemma device_classes_sized_witness :
  (exists b, Battery.device_read 1 [9] (sample [F_0; F_0; F_0]) = Done (1%nat, b) /\ length b = 1%nat) /\
  Battery.device_read 2 [9; 9; 9; 9] (sample [F_0; F_0; F_0]) = Faulty WildPtr /\
  (exists st, @Lowcar.device_write ServoControl.class 1 (le_bytes 4 F_1) ServoControl.start = Done (4%nat, st)) /\
  (exists st, @Lowcar.device_write ServoControl.class 1 (le_bytes 4 F_1_9) ServoControl.start = Done (0%nat, st)).
Proof.
  destruct (device_classes_sized (fun _ => 0) (fun _ => 0) 0 (fun _ => false) (fun _ => 0) 0)
    as (_ & _ & _ & _ & Hservo & Hok & _ & _ & Hbattery).
  split; [|split; [|split]].
  - exact (Hbattery (sample [F_0; F_0; F_0]) [9] 1%nat (Param "calibrated"%string BOOL 1 0) (sample_wf [F_0; F_0; F_0] eq_refl) ltac:(simpl; lia) eq_refl ltac:(discriminate)).
  - exact (Hbattery (sample [F_0; F_0; F_0]) [9; 9; 9; 9] 2%nat (Param "v_cell1"%string FLOAT 1 0) (sample_wf [F_0; F_0; F_0] eq_refl) ltac:(simpl; lia) eq_refl ltac:(discriminate)).
  - destruct (ct_write _ _ _ _ Hservo 1%nat _ ServoControl.start (le_bytes 4 F_1) Hok eq_refl ltac:(discriminate) ltac:(simpl; lia))
      as (n & st & Hw & Hn & _). vm_compute in Hn. subst n. exists st. exact Hw.
  - destruct (ct_write _ _ _ _ Hservo 1%nat _ ServoControl.start (le_bytes 4 F_1_9) Hok eq_refl ltac:(discriminate) ltac:(simpl; lia))
      as (n & st & Hw & Hn & _). vm_compute in Hn. subst n. exists st. exact Hw.
Defined.
