(* ===== verification/Converter.v ===== *)
(** * The converter between UDP and TCP (src/net_handler/udp_tcp_converter.c).

    A process that carries the datagrams of the network handler over a TCP connection, framed
    like all messages, and the messages that come in on it back as datagrams. The sockets are
    the environment: a TCP connection is a pair of scripts like those of [readn] and [writen],
    the UDP socket the datagrams that arrive and those that are sent. *)

From S2P Require Export NetUtil Udp.

(** What the loop of [forward] works on. *)
Record relay_state : Set := RelayState {
  rl_in : list chunk;           (* what the client sends *)
  rl_answers : list write_res;  (* how the connection takes what is written *)
  rl_out : bytes;               (* what the client has been sent *)
  rl_udp : list bytes;          (* the datagrams sent to the network handler *)
  rl_leaked : nat                   (* payloads that were never freed *)
}.

(** What [sendto] does with a datagram. *)
Inductive send_res : Set := SentAll | Sent (k : nat) | SendErr.

Definition sys_sendto (r : send_res) (datagram : bytes) : Z * list bytes :=
  match r with
  | SentAll => (Z.of_nat (length datagram), [datagram])
  | Sent k => (Z.of_nat (k `min` length datagram), [take k datagram])
  | SendErr => (-1, [])
  end.

(** [recvfrom] into [count] bytes: what does not fit of the datagram is lost; [None] is an
    error. *)
Definition sys_recvfrom (count : nat) (received : option bytes) : Z * bytes :=
  match received with
  | Some d => (Z.of_nat (length (take count d)), take count d)
  | None => (-1, [])
  end.

Section Converter.
Context {H : Heap}.

Definition BUF_SIZE : nat := 1024.

(** [recv_buffer] is what the array finds on the stack. *)
Definition udp_to_tcp (received : option bytes) (recv_buffer : bytes) (s : relay_state) : outcome (Z * relay_state) :=
  let '(recvlen, data) := sys_recvfrom (BUF_SIZE - BUFFER_OFFSET) received in
  recv_buffer ← buf_write recv_buffer BUFFER_OFFSET data;
  if recvlen =? Z.of_nat (BUF_SIZE - BUFFER_OFFSET) then mret (-1, s)
  else if recvlen <? 0 then mret (-2, s)
  else
    recv_buffer ← buf_set recv_buffer 0 (u8 (net_msg_num DEVICE_DATA_MSG));
    recv_buffer ← buf_write recv_buffer 1 (le_bytes 2 (u16 recvlen));
    '(r, sink, ws) ← writen (recvlen + Z.of_nat BUFFER_OFFSET) recv_buffer (rl_answers s) (rl_out s);
    mret (if r <? 0 then -3 else 0, RelayState (rl_in s) ws sink (rl_udp s) (rl_leaked s)).

Definition tcp_to_udp (answer : send_res) (s : relay_state) : outcome (Z * relay_state) :=
  '(err, msg, fd) ← parse_msg (rl_in s);
  let s' := RelayState fd (rl_answers s) (rl_out s) (rl_udp s) (rl_leaked s) in
  match msg with
  | None => mret (if err =? 0 then -1 else -2, s')
  | Some msg =>
      buf ← buf_read (pm_buf msg) 0 (Z.to_nat (pm_len msg));
      let '(err, datagrams) := sys_sendto answer buf in
      let out := rl_udp s ++ datagrams in
      if err <? 0 then mret (-2, RelayState fd (rl_answers s) (rl_out s) out (S (rl_leaked s)))
      else if negb (err =? pm_len msg) then mret (-2, RelayState fd (rl_answers s) (rl_out s) out (S (rl_leaked s)))
      else mret (0, RelayState fd (rl_answers s) (rl_out s) out (rl_leaked s))
  end.

(** What [select] finds: the datagram of the UDP socket if that is ready, with what the stack
    holds then; and whether the connection is ready, with the answer of [sendto]. A failing
    [select] leaves both sets full, which is the case that both are taken for ready. *)
Record ready : Set := Ready { on_udp : option (option bytes * bytes); on_tcp : option send_res }.

(** An iteration: whether the connection has been closed. *)
Definition forward_udp (r : ready) (s : relay_state) : outcome (Z * relay_state) :=
  match on_udp r with Some (received, stack) => udp_to_tcp received stack s | None => mret (0, s) end.

Definition forward_step (r : ready) (s : relay_state) : outcome (bool * relay_state) :=
  '(_, s) ← forward_udp r s;
  match on_tcp r with
  | Some answer => '(ret, s) ← tcp_to_udp answer s; mret (ret =? -1, s)
  | None => mret (false, s)
  end.

(** The loop, for the rounds given, until the client is gone. *)
Fixpoint forward (rs : list ready) (s : relay_state) : outcome (bool * relay_state) :=
  match rs with
  | [] => mret (false, s)
  | r :: rs => '(closed, s) ← forward_step r s; if (closed : bool) then mret (true, s) else forward rs s
  end.

(** ** The message that announces the converter *)

(** The generated function that packs the inputs. *)
Class InputsPack (P : Protos) : Type := {
  user_inputs__pack : list pb_input -> bytes
}.

Context {P : Protos} {IP : InputsPack P}.

(** [exit(1)] without memory. *)
Definition alloc_or_exit (n : nat) : outcome bytes :=
  match malloc n with Some b => mret b | None => Exited 1 end.

Definition disconnected_gamepad : pb_input := PbInput SOURCE__GAMEPAD false 0 [0; 0; 0; 0].

(** The datagrams sent; the result of [sendto] is ignored, and there is none of its own. *)
Definition send_gamepad_disconnected (answer : send_res) : outcome (list bytes) :=
  _ ← alloc_or_exit 8;
  _ ← alloc_or_exit (8 * 4);
  let packed := user_inputs__pack [disconnected_gamepad] in
  let len := u16 (Z.of_nat (length packed)) in
  send_buf ← alloc_or_exit (Z.to_nat len);
  send_buf ← buf_write send_buf 0 packed;
  mret (snd (sys_sendto answer send_buf)).

End Converter.
