(* ===== verification/ConverterSpec.v ===== *)
(** * The converter relays both ways. *)

From stdpp Require Import strings.
From S2P Require Export Converter UdpSpec.

(** ** The two directions *)

(** The longest datagram that is passed on. *)
Definition LIMIT : nat := 1020.

Definition device_frame (d : bytes) : bytes := net_frame (net_msg_num DEVICE_DATA_MSG) d.

Section Converter.
Context {H : Heap} {HR : ReliableHeap H}.

(** Only the first [n] bytes of a buffer are written. *)
Lemma writen_prefix n buf ws sink : Forall takes_some ws -> 0 <= n < 65536 -> (Z.to_nat n <= length ws)%nat -> (Z.to_nat n <= length buf)%nat ->
  exists ws', writen n buf ws sink = Done (n, sink ++ take (Z.to_nat n) buf, ws') /\ Forall takes_some ws' /\
    (length ws <= length ws' + Z.to_nat n)%nat.
Proof.
  intros Hw Hn Hl Hb. unfold writen. rewrite u16_small by lia. apply (writen_loop_takes ws n n 0%nat buf sink); [done | lia..].
Qed.

Lemma udp_to_tcp_run (d : bytes) (stack : bytes) s : (length d <= LIMIT)%nat -> length stack = BUF_SIZE -> Forall takes_some (rl_answers s) ->
  (length (device_frame d) <= length (rl_answers s))%nat ->
  exists ws', udp_to_tcp (Some d) stack s =
      Done (0, RelayState (rl_in s) ws' (rl_out s ++ device_frame d) (rl_udp s) (rl_leaked s)) /\
    Forall takes_some ws' /\ (length (rl_answers s) <= length ws' + length (device_frame d))%nat.
Proof.
  unfold LIMIT. intros Hd Hs Hw Hl. unfold udp_to_tcp, sys_recvfrom. change (BUF_SIZE - BUFFER_OFFSET)%nat with 1021%nat.
  rewrite firstn_all2 by lia. destruct stack as [|x0 [|x1 [|x2 rest]]]; [done..|]. unfold BUF_SIZE in Hs. cbn [length] in Hs.
  assert (Hfl : length (device_frame d) = (3 + length d)%nat) by (unfold device_frame, net_frame; list_lia).
  rewrite <- (take_drop (length d) rest). change (x0 :: x1 :: x2 :: ?r) with ([x0; x1; x2] ++ r).
  rewrite buf_write_app, bind_done by (done || (rewrite length_take; lia)).
  rewrite (proj2 (Z.eqb_neq _ _)), (proj2 (Z.ltb_ge _ 0)) by lia.
  cbn [app]. rewrite buf_set_done, bind_done by (cbn; lia). cbn [insert list_insert].
  rewrite u16_small by lia.
  change (?a :: x1 :: x2 :: ?r) with ([a] ++ [x1; x2] ++ r). rewrite buf_write_app, bind_done by done.
  assert (Hbuf : [u8 (net_msg_num DEVICE_DATA_MSG)] ++ le_bytes 2 (Z.of_nat (length d)) ++ d ++ drop (length d) rest =
    device_frame d ++ drop (length d) rest) by (unfold device_frame, net_frame; cbn [app]; by rewrite <- app_assoc).
  rewrite Hbuf. replace (Z.of_nat (length d) + Z.of_nat BUFFER_OFFSET) with (Z.of_nat (length (device_frame d))) by (rewrite Hfl; unfold BUFFER_OFFSET; lia).
  destruct (writen_prefix (Z.of_nat (length (device_frame d))) (device_frame d ++ drop (length d) rest) (rl_answers s) (rl_out s))
    as (ws' & -> & Hw' & Hl'); [done | lia | lia | rewrite length_app; lia |].
  rewrite bind_done, (proj2 (Z.ltb_ge _ 0)) by lia. rewrite Nat2Z.id, take_app_length in *.
  by exists ws'.
Qed.

(** A longer one is dropped, as is what cannot be received. *)
Lemma udp_to_tcp_dropped (received : option bytes) (stack : bytes) s : (BUF_SIZE <= length stack)%nat ->
  match received with Some d => (LIMIT < length d)%nat | None => True end ->
  exists r, udp_to_tcp received stack s = Done (r, s) /\ r < 0.
Proof.
  unfold BUF_SIZE, LIMIT. intros Hs Hd. unfold udp_to_tcp, sys_recvfrom. change (BUF_SIZE - BUFFER_OFFSET)%nat with 1021%nat.
  unfold BUFFER_OFFSET, buf_write. destruct received as [d|].
  - rewrite length_take, Nat.min_l, (proj2 (Nat.leb_le _ _)) by lia. rewrite bind_ret, Z.eqb_refl. by exists (-1).
  - rewrite (proj2 (Nat.leb_le _ _)), bind_ret by (cbn; lia). by exists (-2).
Qed.

Lemma tcp_to_udp_run t p rest cs tail s : sendable (t, p) -> Forall is_data cs -> stream cs = net_frame t p ++ rest ->
  rl_in s = cs ++ tail ->
  exists cs', Forall is_data cs' /\ stream cs' = rest /\
    tcp_to_udp SentAll s = Done (0, RelayState (cs' ++ tail) (rl_answers s) (rl_out s) (rl_udp s ++ [p]) (rl_leaked s)).
Proof.
  intros Hm Hcs Hs Hin. unfold tcp_to_udp. rewrite Hin.
  destruct (parse_msg_run t p rest cs tail Hm Hcs Hs) as (cs' & Hd & Hs' & ->). rewrite bind_done.
  exists cs'. split; [done|]. split; [done|]. cbn [as_parsed pm_buf pm_len fst snd]. rewrite Nat2Z.id, buf_read_prefix, bind_done by lia.
  rewrite firstn_all. cbn [sys_sendto]. by rewrite (proj2 (Z.ltb_ge _ 0)), Z.eqb_refl by lia.
Qed.

(** ** Rounds *)

(** The datagram of a round that is passed on. *)
Definition relayed_of (r : ready) : list bytes :=
  match on_udp r with
  | Some (Some d, _) => if (length d <=? LIMIT)%nat then [d] else []
  | _ => []
  end.
Definition relayed (rs : list ready) : list bytes := rs ≫= relayed_of.

(** The rounds in which the connection is ready. *)
Definition turns (rs : list ready) : nat := length (List.filter (fun r => match on_tcp r with Some _ => true | None => false end) rs).

(** The buffer has its size, and the UDP socket takes what it is given. *)
Definition round_ok (r : ready) : Prop :=
  match on_udp r with Some (_, stack) => length stack = BUF_SIZE | None => True end /\
  match on_tcp r with Some a => a = SentAll | None => True end.

Definition device_frames (ds : list bytes) : bytes := ds ≫= device_frame.

(** The datagram of a round. *)
Lemma udp_round u t s : match u with Some (_, stack) => length stack = BUF_SIZE | None => True end ->
  Forall takes_some (rl_answers s) -> (length (device_frames (relayed_of (Ready u t))) <= length (rl_answers s))%nat ->
  exists r ws, forward_udp (Ready u t) s =
      Done (r, RelayState (rl_in s) ws (rl_out s ++ device_frames (relayed_of (Ready u t))) (rl_udp s) (rl_leaked s)) /\
    Forall takes_some ws /\ (length (rl_answers s) <= length ws + length (device_frames (relayed_of (Ready u t))))%nat.
Proof.
  intros Hu Hw Hl. unfold forward_udp, relayed_of in *. cbn [on_udp] in *.
  assert (Hskip : forall r : Z, exists (r' : Z) ws, Done (r, s) = Done (r', RelayState (rl_in s) ws (rl_out s ++ device_frames []) (rl_udp s) (rl_leaked s)) /\
    Forall takes_some ws /\ (length (rl_answers s) <= length ws + length (device_frames []))%nat).
  { intros r. exists r, (rl_answers s). rewrite app_nil_r. split; [by destruct s|]. split; [done | lia]. }
  destruct u as [[[d|] stack]|]; cbv beta iota in *.
  - destruct (Nat.leb_spec (length d) LIMIT) as [Hd|Hd].
    + unfold device_frames in *. cbn [mbind list_bind] in *. rewrite app_nil_r in *.
      destruct (udp_to_tcp_run d stack s) as (ws & -> & Hw' & Hl'); [done..|]. by exists 0, ws.
    + destruct (udp_to_tcp_dropped (Some d) stack s) as (r & -> & _); [lia | done |]. apply Hskip.
  - destruct (udp_to_tcp_dropped None stack s) as (r & -> & _); [lia | done |]. apply Hskip.
  - apply Hskip.
Qed.

Lemma forward_run rs : forall ms rest cs tail ws sink out l,
  Forall round_ok rs -> length ms = turns rs -> Forall sendable ms ->
  Forall is_data cs -> stream cs = net_frames ms ++ rest ->
  Forall takes_some ws -> (length (device_frames (relayed rs)) <= length ws)%nat ->
  exists cs' ws', Forall is_data cs' /\ stream cs' = rest /\ Forall takes_some ws' /\
    forward rs (RelayState (cs ++ tail) ws sink out l) =
    Done (false, RelayState (cs' ++ tail) ws' (sink ++ device_frames (relayed rs)) (out ++ ms.*2) l).
Proof.
  induction rs as [|[u t] rs IH]; intros ms rest cs tail ws sink out l Hrs Hms Hsend Hcs Hs Hw Hl.
  { apply nil_length_inv in Hms as ->. exists cs, ws. cbn. by rewrite !app_nil_r. }
  apply Forall_cons_1 in Hrs as [[Hu Ht] Hrs]. cbn [on_udp on_tcp] in Hu, Ht.
  change (relayed (Ready u t :: rs)) with (relayed_of (Ready u t) ++ relayed rs) in *.
  assert (Hfr : device_frames (relayed_of (Ready u t) ++ relayed rs) = device_frames (relayed_of (Ready u t)) ++ device_frames (relayed rs))
    by apply bind_app. rewrite Hfr, length_app in *.
  cbn [forward]. unfold forward_step. cbn [on_tcp].
  destruct (udp_round u t (RelayState (cs ++ tail) ws sink out l)) as (r & ws1 & -> & Hw1 & Hl1); [done | done | cbn; lia |].
  rewrite bind_done. cbn [rl_in rl_out rl_udp rl_leaked rl_answers] in *. destruct t as [a|].
  - subst a. destruct ms as [|[t p] ms]; [done|]. apply Forall_cons_1 in Hsend as [Hm Hsend].
    set (s1 := RelayState (cs ++ tail) ws1 _ out l).
    destruct (tcp_to_udp_run t p (net_frames ms ++ rest) cs tail s1) as (cs1 & Hcs1 & Hs1 & ->);
      [done | done | rewrite Hs; unfold net_frames; cbn; by rewrite <- app_assoc | done |].
    rewrite !bind_done. cbn [Z.eqb]. cbn [rl_answers rl_out rl_udp rl_leaked s1].
    destruct (IH ms rest cs1 tail ws1 (sink ++ device_frames (relayed_of (Ready u (Some SentAll)))) (out ++ [p]) l) as (cs2 & ws2 & H1 & H2 & H3 & ->);
      [done | cbn in Hms; by injection Hms | done | done | done | done | lia |].
    exists cs2, ws2. split; [done|]. split; [done|]. split; [done|]. cbn. by rewrite <- !app_assoc.
  - rewrite bind_done.
    destruct (IH ms rest cs tail ws1 (sink ++ device_frames (relayed_of (Ready u None))) out l) as (cs2 & ws2 & H1 & H2 & H3 & ->);
      [done | done | done | done | done | done | lia |].
    exists cs2, ws2. split; [done|]. split; [done|]. split; [done|]. by rewrite <- !app_assoc.
Qed.

Lemma forward_app rs rs' s : forward (rs ++ rs') s =
  ('(closed, s) ← forward rs s; if (closed : bool) then mret (true, s) else forward rs' s).
Proof.
  revert s. induction rs as [|r rs IH]; intros s; cbn [app forward]; [done|]. rewrite bind_assoc.
  destruct (forward_step r s) as [[[|] s']| | | |]; try done. rewrite !bind_done. apply IH.
Qed.

Lemma no_data cs : Forall is_data cs -> stream cs = [] -> cs = [].
Proof. destruct cs as [|c cs]; [done|]. by intros [(b & bs & ->) _]%Forall_cons_1 Hs. Qed.

(** ** Properties *)

(** C26: the converter is transparent. In whatever order the two sockets become ready,
    however the connection cuts what the client sends into pieces and however little it takes
    at a time: each message of the client becomes one datagram with exactly its payload, in
    order; each datagram of up to 1020 bytes becomes one device data message, in order, which
    the client's reading gives back exactly, however the stream is cut on its way; longer
    datagrams are dropped whole; nothing leaks. When the client closes the connection after a
    whole message, the loop ends. *)
Theorem converter_relays rs ms rest cs tail ws sink out l :
  Forall round_ok rs -> length ms = turns rs -> Forall sendable ms ->
  Forall is_data cs -> stream cs = net_frames ms ++ rest ->
  Forall takes_some ws -> (length (device_frames (relayed rs)) <= length ws)%nat ->
  exists cs' ws' new, stream cs' = rest /\
    forward rs (RelayState (cs ++ tail) ws sink out l) =
      Done (false, RelayState (cs' ++ tail) ws' (sink ++ new) (out ++ ms.*2) l) /\
    (forall cut after, Forall is_data cut -> stream cut = new ->
       exists cut', parse_msgs (length (relayed rs)) (cut ++ after) =
         Done ((fun d => ParsedMsg 4 (Z.of_nat (length d)) d) <$> relayed rs, cut' ++ after) /\ stream cut' = []) /\
    (forall a after, rest = [] -> tail = Eof :: after ->
       forward (rs ++ [Ready None (Some a)]) (RelayState (cs ++ tail) ws sink out l) =
       Done (true, RelayState tail ws' (sink ++ new) (out ++ ms.*2) l)).
Proof.
  intros Hrs Hms Hsend Hcs Hs Hw Hl.
  destruct (forward_run rs ms rest cs tail ws sink out l) as (cs' & ws' & Hcs' & Hs' & Hw' & Hrun); [done..|].
  exists cs', ws', (device_frames (relayed rs)). split; [done|]. split; [done|]. split.
  - intros cut after Hcut Hnew. set (msgs := (fun d => (4, d)) <$> relayed rs).
    assert (Hframes : forall ds, net_frames ((fun d => (4, d)) <$> ds) = device_frames ds).
    { induction ds as [|d ds IH]; [done|]. unfold net_frames, device_frames in *. cbn. by rewrite IH. }
    destruct (parse_msgs_run msgs [] cut after) as (cut' & _ & Hc' & Hp).
    + apply Forall_fmap, Forall_forall. intros d Hd%list_elem_of_In. apply list_elem_of_bind in Hd as (r & Hd & _). unfold relayed_of in Hd.
      destruct (on_udp r) as [[[d'|] ?]|]; [|by apply not_elem_of_nil in Hd..]. destruct (Nat.leb_spec (length d') LIMIT) as [Hle|]; [|by apply not_elem_of_nil in Hd].
      apply list_elem_of_singleton in Hd as ->. unfold LIMIT in Hle. split; [unfold byte_ok; cbn; lia | cbn; lia].
    + done.
    + unfold msgs. by rewrite Hframes, app_nil_r.
    + exists cut'. split; [|done]. unfold msgs in Hp. rewrite length_fmap in Hp. rewrite Hp. by rewrite <- list_fmap_compose.
  - intros a after -> ->. apply no_data in Hs' as ->; [|done]. rewrite forward_app, Hrun, bind_done. done.
Qed.

(** When the client goes in the middle of a payload, the rest of the datagram that the network
    handler is sent is whatever the heap held. *)
Lemma converter_garbage t len got cs after a s : byte_ok t -> 0 <= len < 65536 -> Forall is_data cs ->
  stream cs = t :: le_bytes 2 len ++ got -> Z.of_nat (length got) < len -> rl_in s = cs ++ Eof :: after -> a = SentAll ->
  tcp_to_udp a s = Done (0, RelayState (Eof :: after) (rl_answers s) (rl_out s)
    (rl_udp s ++ [got ++ drop (length got) (default [] (malloc (Z.to_nat len)))]) (rl_leaked s)).
Proof.
  intros Ht Hlen Hcs Hs Hgot Hin ->. unfold tcp_to_udp. rewrite Hin.
  destruct (proj2 parse_msg_truncated t len got cs after Ht Hlen Hcs Hs Hgot) as (garbage & -> & ->). rewrite bind_done.
  set (g := drop _ _). assert (Hl : length (got ++ g) = Z.to_nat len).
  { unfold g. rewrite length_app, length_drop, malloc_block. lia. }
  cbn [pm_buf pm_len]. rewrite buf_read_prefix, bind_done by lia. rewrite <- Hl, firstn_all. cbn [sys_sendto].
  rewrite Hl, Z2Nat.id, (proj2 (Z.ltb_ge _ 0)), Z.eqb_refl by lia. done.
Qed.

End Converter.

Lemma converter_relays_witness : exists s',
  @forward zero_heap [Ready (Some (Some [7; 8], replicate BUF_SIZE 0)) (Some SentAll)]
    (RelayState ([Data [6; 2]; Data [0; 1; 2]] ++ [Eof]) (replicate 5 (Wrote 1)) [] [] 0) = Done (false, s') /\
  rl_udp s' = [[1; 2]].
Proof.
  destruct (@converter_relays zero_heap zero_heap_reliable
    [Ready (Some (Some [7; 8], replicate BUF_SIZE 0)) (Some SentAll)] [(6, [1; 2])] [] [Data [6; 2]; Data [0; 1; 2]] [Eof]
    (replicate 5 (Wrote 1)) [] [] 0) as (cs' & ws' & new & _ & H & _).
  - repeat constructor.
  - reflexivity.
  - repeat constructor; vm_compute; (congruence || reflexivity).
  - repeat constructor; eexists _, _; reflexivity.
  - reflexivity.
  - repeat constructor; exists 0%nat; reflexivity.
  - vm_compute. lia.
  - eexists. split; [exact H | reflexivity].
Defined.

(** ** The announcement *)

(** Unpacking gives back what was packed. *)
Class InputsPackLaw {P : Protos} (IP : InputsPack P) : Prop :=
  inputs_roundtrip : forall ins, user_inputs__unpack (user_inputs__pack ins) = Some ins.

Section Announce.
Context {H : Heap} {HR : ReliableHeap H} {P : Protos} {IP : InputsPack P} {IL : InputsPackLaw IP}.

(** With a packed message that fits the network handler's buffer, the datagram that starts the
    converter marks the gamepad as disconnected, and does nothing else. *)
Lemma converter_announces sm m : all_free sm -> mem_wf (M := shm_mem) m ->
  (length (user_inputs__pack [disconnected_gamepad]) <= UDP_SIZE)%nat ->
  exists d, send_gamepad_disconnected SentAll = Done [d] /\
    run (update_inputs (Some d)) (Sys m sm) = Done (tt, Sys (set_field GAMEPAD (val_index DISCONNECTED) m) sm).
Proof.
  intros Hf Hm Hl. set (d := user_inputs__pack [disconnected_gamepad]) in *. exists d. split.
  - unfold send_gamepad_disconnected, alloc_or_exit. destruct (malloc_ok 8) as (b1 & -> & _). destruct (malloc_ok (8 * 4)) as (b2 & -> & _).
    rewrite !bind_ret. fold d. rewrite u16_small, Nat2Z.id by (unfold UDP_SIZE in Hl; lia).
    destruct (malloc_ok (length d)) as (b3 & -> & Hb). rewrite bind_ret, buf_write_prefix, bind_done by lia.
    rewrite <- Hb, drop_all, app_nil_r. done.
  - unfold update_inputs. rewrite firstn_all2 by done. unfold d. rewrite inputs_roundtrip, (inputs_from_run sm Hf) by done.
    cbn [foldl]. unfold apply_input, usable, source_of. cbn [disconnected_gamepad in_source in_connected andb].
    by rewrite Z.eqb_refl.
Qed.
End Announce.
