(* ===== verification/EndToEnd.v ===== *)
(** * From the network to the motors.

    The theorems of the parts meet: the thread of a connection ([TcpSpec], [NetSpec]), the executor's main
    loop ([ExecSpec]), the handler's sender ([DevSpec]) and the motor controller ([KoalaSpec]),
    one after the other on the same shared memory. *)

From stdpp Require Import gmap strings.
From S2P Require Export KoalaSpec NetSpec.

Section Lost.
Context {H : Heap} {HR : ReliableHeap H} {P : Protos} (logger : logger_t) (sm : gmap shm_sem nat) (Hf : all_free sm).

(** A connection that the client has closed, when its thread looks. *)
Lemma closed_run client send_logs cancelled r rounds c fd m : length (fields m) = NUM_DESC_FIELDS ->
  conn_in c = Eof :: fd -> log_ready r = None -> challenge_ready r = None -> conn_ready r = true ->
  exists c', run (tcp_process logger client send_logs cancelled (r :: rounds) c) (Sys m sm) = Done (c', Sys (cleaned client m) sm).
Proof.
  intros Hl Hin Hlog Hch Hready. cbn [tcp_process]. rewrite Hlog, Hch, Hready. destruct send_logs; cbn [if_ready].
  all: rewrite !(run_then (M := shm_mem) _ _ _ _ _ (run_ret (M := shm_mem) c (Sys (M := shm_mem) m sm))).
  all: assert (Hrecv : run (recv_new_msg logger (round_env r) c) (Sys m sm) = Done ((-1, set_in (Eof :: fd) c), Sys m sm))
    by (unfold recv_new_msg; by rewrite Hin).
  all: rewrite (run_then (M := shm_mem) _ _ _ _ _ Hrecv); cbv beta iota; change (-1 =? -1) with true; cbv iota.
  all: rewrite (run_then (M := shm_mem) _ _ _ _ _ (cleanup_run sm Hf client m Hl)); eexists; apply run_ret.
Qed.

End Lost.

Lemma cleaned_wf client m : mem_wf (M := shm_mem) m -> mem_wf (M := shm_mem) (cleaned client m).
Proof.
  assert (Hset : forall f v m, mem_wf (M := shm_mem) m -> mem_wf (M := shm_mem) (set_field f (val_index v) m)).
  { intros f v m0 Hm. apply (store_wf (M := shm_mem) RFields); [done|]. destruct (Hm RFields) as [Hl Hb].
    split; [by rewrite length_insert|]. apply Forall_insert; [done | unfold byte_ok; destruct v; cbn; lia]. }
  intros Hm. unfold cleaned. case_decide; auto.
Qed.

(** Nothing else of the shared memory has changed. *)
Lemma cleaned_devices client m : dev_shm (cleaned client m) = dev_shm m.
Proof. unfold cleaned. by case_decide. Qed.

(** C4: a lost connection stops the motors. While AUTO or TELEOP runs, the connection of Dawn or
    Shepherd is closed by the client. When its thread looks at the socket, and the executor's
    main loop, the handler's sender of a connected KoalaBear and the main loop of that device
    (in contact, and receiving what was sent) have each gone round once after that, both
    velocities of the controller are 0.0, whatever the student's code had asked for, and
    the run mode is IDLE. *)
Theorem lost_connection_stops_motors {H : Heap} {HR : ReliableHeap H} {St : Stack} {P : Protos} micros undefined
    ack unrecognized error logger sm m client send_logs cancelled r rounds c fd stack e relay ix s ws wtail now
    (dv : device (KoalaBear.class micros undefined)) noise :
  all_free sm -> mem_wf (M := shm_mem) m -> unique_uids m ->
  client = DAWN \/ client = SHEPHERD ->
  conn_in c = Eof :: fd -> log_ready r = None -> challenge_ready r = None -> conn_ready r = true ->
  length stack = MAX_DEVICES -> children_ok e ->
  Executor.mode e = val_index AUTO \/ Executor.mode e = val_index TELEOP ->
  (ix < MAX_DEVICES)%nat -> is_koala m ix = true ->
  get_device (id_type (dev_id relay)) = Some RuntimeUtil.KoalaBear -> shm_dev_idx relay = Z.of_nat ix ->
  length (sn_pmap s) = S MAX_DEVICES -> params_wf (sn_params s) ->
  io_ws (sn_io s) = ws ++ wtail -> room ws (MAX_PAYLOAD_SIZE + 6) ->
  in_contact now dv -> data_due now dv = false -> noiseless noise ->
  exists c' m0 e' m1 s' m2 dv',
    run (tcp_process logger client send_logs cancelled (r :: rounds) c) (Sys m sm) = Done (c', Sys m0 sm) /\
    field RUN_MODE m0 = val_index IDLE /\
    run (Executor.main_step stack e) (Sys m0 sm) = Done (e', Sys m1 sm) /\ procs e' = [] /\
    run (write_command logger relay s) (Sys m1 sm) = Done (s', Sys m2 sm) /\
    Lowcar.loop ack unrecognized error now
      (arrives (noise ++ drop (length (io_out (sn_io s))) (io_out (sn_io s'))) dv) = Done dv' /\
    velocity (motor_a (driver dv')) = F_0 /\ velocity (motor_b (driver dv')) = F_0 /\ enabled dv' = true.
Proof.
  intros Hf Hm Hu Hcl Hin Hlog Hch Hready Hs Hc Hmode Hix Hk Hd Hsi Hpl Hps Hws Hroom Hcon Hdue Hn.
  destruct (Hm RFields) as [Hl _].
  destruct (closed_run logger sm Hf client send_logs cancelled r rounds c fd m Hl Hin Hlog Hch Hready) as (c' & Hrun).
  set (m0 := cleaned client m) in *. pose proof (cleaned_wf client m Hm) as Hm0. fold m0 in Hm0.
  destruct (cleaned_fields client m Hcl Hl) as [Hidle _]. pose proof (cleaned_devices client m) as Hdev. fold m0 in Hidle, Hdev.
  destruct (stop_sent_run logger sm m0 stack e relay ix s ws wtail)
    as (e' & m1 & s' & m2 & sent & got & Hmain & Hprocs & Hwr & Hout & Hw & Hgw & Hbits & G0 & G8); try done.
  { unfold unique_uids, cat, ids. by rewrite Hdev. }
  { rewrite Hidle. by destruct Hmode as [-> | ->]. }
  { unfold is_koala, cat, ids. by rewrite Hdev. }
  exists c', m0, e', m1, s', m2. rewrite Hout, drop_app_length.
  destruct (koala_stops_on_command micros undefined ack unrecognized error sent got noise now dv) as (dv' & Hrest);
    [done | | done | by rewrite Hbits | by rewrite Hbits | done..|].
  { intros i Hi. rewrite Hbits in Hi. by apply andb_prop in Hi as [_ ?]. }
  exists dv'. do 3 (split; [done|]). split; [by apply Hprocs | done].
Qed.

#[local] Existing Instance demo_protos.

Lemma lost_connection_stops_motors_witness :
  exists c' m0 e' m1 s' m2 dv',
    run (@tcp_process zero_heap demo_protos logger_start DAWN true false [Round None None true dawn_env] (quiet_conn [Eof]))
      (Sys (M := shm_mem) demo sems_start) = Done (c', Sys m0 sems_start) /\
    field RUN_MODE m0 = val_index IDLE /\
    run (Executor.main_step (replicate MAX_DEVICES (DevId 0 0 0)) auto_running) (Sys m0 sems_start) = Done (e', Sys m1 sems_start) /\
    procs e' = [] /\
    run (@write_command zero_heap logger_start demo_relay demo_sender) (Sys m1 sems_start) = Done (s', Sys m2 sems_start) /\
    Lowcar.loop (H := zero_heap) (fun _ _ => []) [] [] 110
      (arrives ([9] ++ drop 0 (io_out (sn_io s'))) rolling_device) = Done dv' /\
    velocity (motor_a (driver dv')) = F_0 /\ velocity (motor_b (driver dv')) = F_0 /\ enabled dv' = true.
Proof.
  apply (lost_connection_stops_motors (H := zero_heap) clock (fun _ => 7) (fun _ _ => []) [] [] logger_start sems_start demo
    DAWN true false (Round None None true dawn_env) [] (quiet_conn [Eof]) [] (replicate MAX_DEVICES (DevId 0 0 0)) auto_running
    demo_relay 0 demo_sender [Wrote 100; Wrote 100] [] 110 rolling_device [9]); try reflexivity.
  - exact sems_start_ok.
  - exact demo_wf.
  - exact demo_unique.
  - by left.
  - by left.
  - unfold MAX_DEVICES. lia.
  - split; [reflexivity | apply Forall_replicate; unfold word32; lia].
  - exists [100; 100]%nat. split; [repeat constructor | vm_compute; lia].
  - exact rolling_in_contact.
  - repeat constructor; discriminate.
Defined.
