(* ===== verification/Runtime.v ===== *)
(** * The whole runtime: the threads of all processes together.

    Every thread that the runtime starts, on both of its memories: the connections, the inputs
    and the accept loop of the network handler, the parent of the executor, the student's
    thread and the game states, the relayers, senders, receivers and the polling loop of the
    device handler. The theorem is that they are safe together, in any number and under any
    interleaving, as long as their environment keeps to what [task_ok] says. *)

From stdpp Require Import gmap strings.
From S2P Require Export TcpSpec UdpSpec NetSpec DevSpec ExecSpec GameSpec.

(** ** Threads of the network handler *)

Section Network.
Context {H : Heap} {HR : ReliableHeap H} {P : Protos}.

(** The thread that receives the inputs, for the datagrams given. *)
Fixpoint input_thread (datagrams : list (option bytes)) : prog (M := shm_mem) unit :=
  match datagrams with
  | [] => mret tt
  | d :: datagrams => update_inputs d ;; input_thread datagrams
  end.

Lemma disc_input_write_from b axes source :
  (source = GAMEPAD -> length axes = 4%nat) ->
  disc (M := shm_mem) [] (input_write b axes source) [] (fun _ => True).
Proof.
  intros Hax. destruct (decide (source = GAMEPAD)) as [->|Hne]; [by apply disc_input_write, Hax|].
  unfold input_write. destruct (negb (is_input source)); [done|]. disc_bind_sem.
  eapply disc_bind; [apply disc_connected; held|]. intros c _.
  destruct (negb c); disc_bind_sem; [by apply disc_ret|]. disc_bind_sem. eapply disc_bind.
  { apply disc_upd; [held|]. intros ins [Hl Hjs].
    destruct (lookup_lt_is_Some_2 ins (input_index source)) as [inp Hi]; [rewrite Hl; unfold input_index; case_decide; lia|].
    rewrite (buf_get_done _ _ _ Hi), bind_done, decide_False, bind_done, buf_set_done
      by (done || by apply lookup_lt_Some in Hi).
    eexists. split; [done|]. split; [by rewrite length_insert|]. apply Forall_insert; [done|].
    exact (Forall_lookup_1 _ _ _ _ Hjs Hi). }
  intros _ _. disc_bind_sem. by apply disc_ret.
Qed.

Lemma disc_input_from input : disc (M := shm_mem) [] (input_from input) [] (fun _ => True).
Proof.
  unfold input_from. set (source := if _ =? _ then GAMEPAD else KEYBOARD).
  eapply disc_bind; [apply disc_robot_desc_write|]. intros _ _.
  destruct (in_connected input); [|by apply disc_ret].
  destruct (bool_decide (source = GAMEPAD) && negb (length (in_axes input) =? 4)%nat) eqn:Hc; [by apply disc_ret|].
  eapply disc_then_tt, disc_input_write_from. intros Hs. rewrite bool_decide_true in Hc by done. cbn [andb] in Hc.
  apply negb_false_iff, Nat.eqb_eq in Hc. done.
Qed.

Lemma disc_update_inputs d : disc (M := shm_mem) [] (update_inputs d) [] (fun _ => True).
Proof.
  unfold update_inputs. destruct d as [d|]; [|by apply disc_ret].
  destruct (user_inputs__unpack _) as [ins|]; [|by apply disc_ret].
  induction ins as [|i ins IH]; cbn [inputs_from]; [by apply disc_ret|].
  eapply disc_bind; [apply disc_input_from|]. intros _ _. exact IH.
Qed.

Lemma disc_input_thread ds : disc (M := shm_mem) [] (input_thread ds) [] (fun _ => True).
Proof.
  induction ds as [|d ds IH]; cbn [input_thread]; [by apply disc_ret|].
  eapply disc_bind; [apply disc_update_inputs|]. intros _ _. exact IH.
Qed.

Lemma disc_stop_tcp_conn client alive : disc (M := shm_mem) [] (stop_tcp_conn client alive) [] (fun _ => True).
Proof.
  unfold stop_tcp_conn. destruct (negb _); [by apply disc_ret|]. destruct alive; [apply disc_cleanup | by apply disc_ret].
Qed.

Lemma disc_start_tcp_conn env client send_logs :
  disc (M := shm_mem) [] (start_tcp_conn env client send_logs) [] (fun _ => True).
Proof.
  unfold start_tcp_conn. eapply (disc_bind _ _ _ _ _ (fun _ => True)).
  { unfold start_setup. destruct (negb _); [by apply disc_ret|]. destruct (alloc_done 32) as (b & -> & _). rewrite bind_done.
    by repeat case_match. }
  intros [] _; [|by apply disc_ret]. eapply disc_bind; [apply disc_robot_desc_write|]. intros _ _. by apply disc_ret.
Qed.

Lemma disc_serve client send_logs r : disc (M := shm_mem) [] (NetHandler.serve client send_logs r) [] (fun _ => True).
Proof.
  unfold NetHandler.serve. eapply disc_bind; [apply disc_robot_desc_read|]. intros v _.
  eapply (disc_bind _ _ _ _ _ (fun _ => True)); [destruct (v =? _); [by apply disc_ret | apply disc_stop_tcp_conn]|].
  intros _ _. eapply disc_then_tt, disc_start_tcp_conn.
Qed.

Lemma disc_accept_loop requests : disc (M := shm_mem) [] (NetHandler.main_loop requests) [] (fun _ => True).
Proof.
  induction requests as [|r requests IH]; cbn [NetHandler.main_loop]; [done|].
  eapply (disc_bind _ _ _ _ _ (fun _ => True)); [|intros _ _; exact IH]. unfold NetHandler.main_step. destruct r as [r|]; [|by apply disc_ret].
  destruct (_ && _); [apply disc_serve|]. destruct (_ && _); [apply disc_serve | by apply disc_ret].
Qed.

End Network.

(** ** Threads of the executor *)

Section ExecutorThreads.

(** No device's velocities take the mask out of its word. *)
Lemma mask_words : registry_forall (fun _ d =>
  match velocity_mask (params d) (num_params d) 0 0 with Done m => (0 <=? m) && (m <? 2 ^ 32) | _ => false end) DEVICES = true.
Proof. vm_compute. reflexivity. Qed.

Lemma velocity_mask_word t d : get_device t = Some d ->
  exists m, velocity_mask (params d) (num_params d) 0 0 = Done m /\ word32 m.
Proof.
  intros [_ E]%get_device_Some. pose proof (registry_forall_lookup _ _ _ _ mask_words E) as Hv. cbn beta in Hv.
  destruct (velocity_mask _ _ _ _) as [m| | | |]; try done. exists m. split; [done|].
  apply andb_prop in Hv as [H1%Z.leb_le H2%Z.ltb_lt]. done.
Qed.

Lemma zero_params_wf : params_wf (replicate MAX_PARAMS 0).
Proof. split; [done|]. apply Forall_replicate, word32_0. Qed.

Lemma disc_reset_device id : disc (M := shm_mem) [] (reset_device id) [] (fun _ => True).
Proof.
  unfold reset_device. destruct (get_device (id_type id)) as [d|] eqn:Hd; [|by apply disc_ret].
  destruct (String.eqb _ _); [|by apply disc_ret]. destruct (velocity_mask_word _ _ Hd) as (m & -> & Hm).
  rewrite local_done. eapply disc_then_tt, disc_device_write_uid; [apply zero_params_wf | done].
Qed.

Lemma disc_reset_devices catalog ids k : forall i, length ids = MAX_DEVICES -> (i + k <= MAX_DEVICES)%nat ->
  disc (M := shm_mem) [] (reset_devices k i catalog ids) [] (fun _ => True).
Proof.
  induction k as [|k IH]; intros i Hl Hk; cbn [reset_devices]; [by apply disc_ret|].
  eapply (disc_bind _ _ _ _ _ (fun _ => True)); [|intros _ _; apply IH; (done || lia)].
  destruct (bit_on catalog i); [|by apply disc_ret]. destruct (lookup_lt_is_Some_2 ids i) as [id Hid]; [lia|].
  rewrite (buf_get_done _ _ _ Hid), local_done. apply disc_reset_device.
Qed.

Lemma disc_kill_subprocess stack e : length stack = MAX_DEVICES ->
  disc (M := shm_mem) [] (kill_subprocess stack e) [] (fun _ => True).
Proof.
  intros Hl. unfold kill_subprocess. eapply (disc_bind _ _ _ _ _ (fun _ => True)); [|intros _ _; by apply disc_ret].
  destruct (negb _); [|by apply disc_ret]. unfold Executor.reset_params.
  eapply disc_bind; [apply disc_get_catalog|]. intros c _.
  eapply disc_bind; [by apply disc_get_device_identifiers|]. intros ids Hids. apply disc_reset_devices; [done | lia].
Qed.

Lemma disc_executor_loop stacks : forall e, Forall (fun stack => length stack = MAX_DEVICES) stacks ->
  disc (M := shm_mem) [] (Executor.main_loop stacks e) [] (fun _ => True).
Proof.
  induction stacks as [|stack stacks IH]; intros e Hs; cbn [Executor.main_loop]; [by apply disc_ret|].
  apply Forall_cons_1 in Hs as [Hl Hs]. eapply (disc_bind _ _ _ _ _ (fun _ => True)); [|intros e' _; by apply IH].
  unfold Executor.main_step. eapply disc_bind; [apply disc_robot_desc_read|]. intros m _.
  destruct (negb (m =? mode e)); [|by apply disc_ret].
  eapply (disc_bind _ _ _ _ _ (fun _ => True)); [|intros e' _; by apply disc_ret].
  destruct (negb _); [by apply disc_kill_subprocess | by apply disc_ret].
Qed.

Lemma disc_debuff f now on since : disc (M := shm_mem) [] (debuff f now on since) [] (fun _ => True).
Proof.
  unfold debuff. eapply (disc_bind _ _ _ _ _ (fun _ => True)).
  { destruct (negb on); [|by apply disc_ret]. eapply disc_bind; [apply disc_robot_desc_read|]. intros v _. by apply disc_ret. }
  intros [] _; [by apply disc_ret|]. destruct (_ && _); [|by apply disc_ret].
  eapply disc_bind; [apply disc_robot_desc_write|]. intros _ _. by apply disc_ret.
Qed.

Lemma disc_gamestate_loop times : forall h, disc (M := shm_mem) [] (gamestate_loop times h) [] (fun _ => True).
Proof.
  induction times as [|t times IH]; intros h; cbn [gamestate_loop]; [by apply disc_ret|].
  eapply (disc_bind _ _ _ _ _ (fun _ => True)); [|intros h' _; apply IH]. unfold gamestate_handler.
  eapply disc_bind; [apply disc_robot_desc_read|]. intros v _.
  eapply disc_bind; [apply disc_debuff|]. intros [p ps] _. eapply disc_bind; [apply disc_debuff|]. intros [d ds] _. by apply disc_ret.
Qed.

(** The writes of the student's code, each with the game states it meets. *)
Record student_write : Set := StudentWrite {
  sw_state : gamestate_t; sw_type : Z; sw_uid : Z; sw_mask : Z; sw_params : list param_val_t
}.

Fixpoint student_thread (writes : list student_write) : prog (M := shm_mem) unit :=
  match writes with
  | [] => mret tt
  | w :: writes =>
      _ ← filter_device_write_uid (sw_state w) (sw_type w) (sw_uid w) EXECUTOR COMMAND (sw_mask w) (sw_params w);
      student_thread writes
  end.

Definition student_write_ok (w : student_write) : Prop := params_wf (sw_params w) /\ word32 (sw_mask w).

Lemma disc_student_thread writes : Forall student_write_ok writes ->
  disc (M := shm_mem) [] (student_thread writes) [] (fun _ => True).
Proof.
  induction 1 as [|w writes [Hp Hm] _ IH]; cbn [student_thread]; [by apply disc_ret|].
  eapply (disc_bind _ _ _ _ _ (fun _ => True)); [|intros _ _; exact IH]. unfold filter_device_write_uid.
  eapply (disc_bind _ _ _ _ _ params_wf).
  - destruct (_ =? _); [|by apply disc_ret]. rewrite filter_steps_run by apply Hp. apply disc_ret. by apply filter_params_wf.
  - intros ps Hps. eapply disc_bind; [by apply disc_device_write_uid|]. intros r _. by apply disc_ret.
Qed.

End ExecutorThreads.

(** ** Threads of the device handler *)

Section Devices.
Context {H : Heap} {HR : ReliableHeap H} (logger : logger_t).

(** A thread that waits for its device holds nothing meanwhile. *)
Lemma disc_local_or {M : SharedMem} {A} (o : outcome A) (Q : A -> Prop) :
  o = Blocked \/ (exists a, o = Done a /\ Q a) -> disc (M := M) [] (local o) [] Q.
Proof. intros [->|(a & -> & HQ)]; done. Qed.

(** A device that takes what it is sent, a byte at a time if it must. *)
Definition device_takes (io : dev_io) : Prop := Forall takes_some (io_ws io).

Lemma send_message_takes msg io :
  message_ok msg -> (payload_length msg <= MAX_PAYLOAD_SIZE)%nat -> device_takes io ->
  send_message logger (Some msg) io = Blocked \/
  exists r, send_message logger (Some msg) io = Done r /\ fst r = 0 /\ io_in (snd r) = io_in io /\ device_takes (snd r).
Proof.
  intros (_ & _ & Hl) Hm Hw. unfold send_message. cbv zeta.
  set (len := calc_max_cobs_msg_length msg). destruct (alloc_done len) as (b & -> & Hb). rewrite bind_done.
  rewrite message_to_bytes_frame, bind_done by (done || lia). pose proof (frame_length_max msg Hl Hm) as Hf.
  unfold MAX_PAYLOAD_SIZE in Hf. cbv beta iota.
  match goal with |- context [writen ?n ?buf ?ws ?out] => destruct (writen_takes_any n buf ws out Hw) as [->|(out' & ws' & -> & Hw')] end.
  - lia.
  - rewrite Nat2Z.id, length_app. lia.
  - by left.
  - right. rewrite bind_done. cbv beta iota. rewrite Z.eqb_refl, bind_ret. by eexists.
Qed.

Lemma disc_send_message msg io :
  message_ok msg -> (payload_length msg <= MAX_PAYLOAD_SIZE)%nat -> device_takes io ->
  disc (M := shm_mem) [] (local (send_message logger (Some msg) io)) [] (fun r => device_takes (snd r)).
Proof.
  intros Hok Hm Hw. apply disc_local_or. destruct (send_message_takes msg io Hok Hm Hw) as [->|(r & -> & _ & _ & Hr)]; eauto.
Qed.

(** The sender of a device of a registered type, at an index of the shared memory. *)
Definition registered (relay : relay_t) : Prop :=
  (exists d, get_device (id_type (dev_id relay)) = Some d) /\
  exists ix, (ix < MAX_DEVICES)%nat /\ shm_dev_idx relay = Z.of_nat ix.

Definition sender_ok (s : sender_t) : Prop :=
  map_sized (sn_pmap s) /\ params_wf (sn_params s) /\ map_wf (sn_sub_map s) /\ device_takes (sn_io s).

(** The flag and the entry of a device in a map. *)
Lemma map_flag m ix : map_wf m -> (ix < MAX_DEVICES)%nat ->
  exists f v, buf_get m 0 = Done f /\ flag_on f (Z.of_nat ix) = Done (bit_on f ix) /\
    buf_get m (Z.to_nat (1 + Z.of_nat ix)) = Done v /\ word32 v.
Proof.
  intros Hm Hix. destruct (map_wf_lookup m 0 Hm) as (f & Hf & Hw); [lia|].
  destruct (map_wf_lookup m (S ix) Hm) as (v & Hv & Hwv); [lia|]. exists f, v.
  replace (Z.to_nat (1 + Z.of_nat ix)) with (S ix) by lia.
  rewrite (buf_get_done _ _ _ Hf), (buf_get_done _ _ _ Hv).
  split; [done|]. split; [by apply flag_on_nat | done].
Qed.

Lemma disc_write_command relay s : registered relay -> sender_ok s ->
  disc (M := shm_mem) [] (write_command logger relay s) [] sender_ok.
Proof.
  intros [(d & Hd) Hix] (Hp & Hps & Hsm & Hio). unfold write_command.
  destruct Hix as (ix & Hlt & ->).
  eapply disc_bind; [by apply disc_get_cmd_map|]. intros pmap Hpm.
  destruct (map_flag pmap ix Hpm Hlt) as (f & v & -> & Hf & Hg & Hv). rewrite local_done, Hf, local_done.
  destruct (bit_on f ix); [|apply disc_ret; split; [by destruct Hpm | done]].
  rewrite Hg, local_done. eapply disc_bind; [apply disc_device_read; [unfold MAX_DEVICES in Hlt; lia | done]|]. intros [r params] Hpw. cbn [snd] in Hpw.
  pose proof Hpw as [Hpl _].
  destruct (make_device_write_image _ d v params Hd Hv Hpl) as (mask & Hmask & _ & ->). rewrite local_done.
  destruct (command_msg_ok d mask params) as [Hok Hmax].
  eapply disc_bind; [by apply disc_send_message|]. intros [r' io] Hio'. apply disc_ret. split; [by destruct Hpm | done].
Qed.

Lemma disc_ping_device now after s : sender_ok s ->
  disc (M := shm_mem) [] (ping_device logger now after s) [] sender_ok.
Proof.
  intros Hs. unfold ping_device. destruct (_ <=? _); [|by apply disc_ret]. destruct Hs as (Hp & Hps & Hsm & Hio).
  unfold make_ping. destruct (alloc_done sizeof_message_t) as (b & -> & _). rewrite bind_done, local_done.
  eapply disc_bind; [apply disc_send_message|].
  - unfold message_ok, byte_ok, DEVICE_PING. cbn. split; [lia|]. split; [done | lia].
  - cbn. lia.
  - done.
  - intros [r' io] Hio'. by apply disc_ret.
Qed.

Lemma disc_send_subscription relay s : registered relay -> sender_ok s ->
  disc (M := shm_mem) [] (send_subscription logger relay s) [] sender_ok.
Proof.
  intros [(d & Hd) Hix] (Hp & Hps & Hsm & Hio). unfold send_subscription.
  destruct Hix as (ix & Hlt & ->).
  eapply disc_bind; [by apply disc_get_sub_requests|]. intros sub_map Hsw.
  destruct (map_flag sub_map ix Hsw Hlt) as (f & v & -> & Hf & Hg & Hv). rewrite local_done, Hf, local_done.
  destruct (bit_on f ix); [|by apply disc_ret].
  rewrite Hg, local_done. destruct (make_subscription_image _ d v SUB_INTERVAL Hd Hv) as (mask & _ & _ & ->). rewrite local_done.
  eapply disc_bind; [apply disc_send_message; [|cbn; unfold MAX_PAYLOAD_SIZE; lia|done]|].
  - unfold message_ok, byte_ok, SUBSCRIPTION_REQUEST. cbn [message_id payload payload_length].
    split; [lia|]. split; [apply Forall_app_2; apply le_bytes_ok | by rewrite length_app, !length_le_bytes].
  - intros [r' io] Hio'. by apply disc_ret.
Qed.

Lemma disc_sender_loop relay times : forall s, registered relay -> sender_ok s ->
  disc (M := shm_mem) [] (sender_loop logger relay times s) [] (fun _ => True).
Proof.
  induction times as [|t times IH]; intros s Hr Hs; cbn [sender_loop]; [by apply disc_ret|].
  eapply disc_bind; [|intros s' Hs'; by apply IH]. unfold sender_step.
  eapply disc_bind; [by apply disc_write_command|]. intros s1 H1.
  eapply disc_bind; [by apply disc_ping_device|]. intros s2 H2. by apply disc_send_subscription.
Qed.

(** *** The receiver *)

(** What the handling of an event leaves. *)
Definition handled (r : receiver_t) : Prop := length (payload (rc_msg r)) = MAX_PAYLOAD_SIZE /\ params_wf (rc_vals r).

Lemma disc_handle_event d relay now e r : registered relay -> get_device (id_type (dev_id relay)) = Some d ->
  event_ok d e -> idle r ->
  let got := delivered (event_msg d e) (rc_msg r) in
  disc (M := shm_mem) [] (handle_device_msg logger relay now (Receiver got (rc_vals r) (rc_last r) (rc_logged r) (rc_io r))) []
    (fun r' => handled r' /\ rc_io r' = rc_io r).
Proof.
  intros [_ (ix & Hlt & Hi)] Hd He [Hpay Hrv] got. pose proof (event_msg_ok d e He) as [(_ & _ & Hlen) Hmax].
  assert (Hgl : length (payload got) = MAX_PAYLOAD_SIZE).
  { unfold got, delivered. cbn [payload]. rewrite Hpay. list_lia. }
  unfold handle_device_msg. cbn [rc_msg]. destruct e as [mask sent|text|]; cbn [event_ok] in He.
  - destruct He as [Hmask Hsent]. change (message_id got =? DEVICE_DATA) with true. cbv iota.
    destruct (report_parsed d _ got mask sent (rc_vals r) (drop (payload_length (event_msg d (Report mask sent))) (payload (rc_msg r)))
      Hd Hrv Hmask Hsent) as (vals & Hvw & Hpd & Hbr & _).
    { unfold got, delivered. cbn [payload event_msg payload_length]. by rewrite firstn_all, <- app_assoc. }
    cbn [rc_vals]. rewrite Hpd, Hbr, !local_done, le_word32, Hi by done.
    eapply disc_bind; [apply disc_device_write; [unfold MAX_DEVICES in Hlt; lia | done..]|]. intros _ _. by apply disc_ret.
  - destruct He as (Hnz & _ & Hl). change (message_id got =? DEVICE_DATA) with false.
    change (message_id got =? LOG) with true. cbv iota. cbn [rc_logged].
    assert (Hp : payload got = text ++ drop (length text) (replicate MAX_PAYLOAD_SIZE 0)).
    { unfold got, delivered. cbn [payload event_msg payload_length]. by rewrite firstn_all, Hpay. }
    rewrite Hp, log_payload_line, local_done by done. by apply disc_ret.
  - change (message_id got =? DEVICE_DATA) with false. change (message_id got =? LOG) with false. by apply disc_ret.
Qed.

Lemma disc_receiver_step d relay now noise e rest r : registered relay -> get_device (id_type (dev_id relay)) = Some d ->
  verified relay -> idle r -> item_ok d (noise, e) -> Forall is_data (rc_io r) ->
  stream (rc_io r) = noise ++ frame (event_msg d e) ++ rest ->
  disc (M := shm_mem) [] (receiver_step logger relay now r) []
    (fun r' => idle r' /\ Forall is_data (rc_io r') /\ stream (rc_io r') = rest).
Proof.
  intros Hr Hd Hv Hidle [Hn He] Hdata Hs. cbn [fst snd] in *. pose proof Hidle as [Hpay _].
  destruct (event_msg_ok d e He) as [Hok Hmax].
  assert (Hl : length (payload (rc_msg r)) = MAX_PAYLOAD_SIZE) by (by rewrite Hpay, length_replicate).
  destruct (receive_message_run relay noise (event_msg d e) rest (rc_io r) [] (rc_msg r)) as (cs' & Hrun & Hs' & Hd');
    [done.. | lia | done | done |].
  rewrite !app_nil_r in Hrun. unfold receiver_step. rewrite Hrun, local_done. cbv beta iota.
  change (negb (0 =? 0)) with false. cbv iota. cbn [rc_vals rc_last rc_logged].
  pose proof (disc_handle_event d relay now e (Receiver (rc_msg r) (rc_vals r) (rc_last r) (rc_logged r) cs') Hr Hd He Hidle) as Hh.
  cbv zeta in Hh. cbn [rc_msg rc_vals rc_last rc_logged rc_io] in Hh.
  eapply (disc_bind (M := shm_mem) _ _ _ [] _ (fun r' => handled r' /\ rc_io r' = cs')).
  - change (message_id (delivered (event_msg d e) (rc_msg r))) with (message_id (event_msg d e)).
    destruct e; cbn [event_msg message_id]; exact Hh.
  - intros r1 [[H1 H2] H3]. destruct (clear_message_run r1 H1 H2) as (r2 & -> & Hi & _ & _ & _ & Hio).
    apply disc_ret. rewrite Hio, H3. done.
Qed.

(** Between two messages of a device that has sent events, the last of which may be awaited. *)
Lemma disc_receiver_loop d relay items : forall times r, registered relay -> get_device (id_type (dev_id relay)) = Some d ->
  verified relay -> idle r -> Forall (item_ok d) items -> Forall is_data (rc_io r) -> stream (rc_io r) = sent_by d items ->
  disc (M := shm_mem) [] (receiver_loop logger relay times r) [] (fun _ => True).
Proof.
  induction items as [|[noise e] items IH]; intros times r Hr Hd Hv Hi Hok Hdata Hs;
    destruct times as [|now times]; cbn [receiver_loop]; try (by apply disc_ret).
  - apply is_data_nil in Hs; [|done]. unfold receiver_step, receive_message. by rewrite Hs, (proj2 (Z.eqb_neq _ _)) by exact Hv.
  - apply Forall_cons_1 in Hok as [Hit Hok].
    eapply disc_bind; [by apply (disc_receiver_step d relay now noise e (sent_by d items))|]. intros r' (Hi' & Hd' & Hs'). by apply IH.
Qed.

(** *** The relayer *)

(** A device that has said nothing wrong: if it starts with a delimiter, a message follows. *)
Definition greets (cs : list chunk) : Prop := forall bs tail, cs = Data (0 :: bs) :: tail ->
  exists msg cs' rest tail', cs = cs' ++ tail' /\ Forall is_data cs' /\ stream cs' = frame msg ++ rest /\
    message_ok msg /\ (payload_length msg <= MAX_PAYLOAD_SIZE)%nat.

Lemma first_byte_other cs : (forall bs tail, cs ≠ Data (0 :: bs) :: tail) ->
  first_byte cs = Blocked \/ exists ret cs', first_byte cs = Done (Some ret, cs') /\ ret ≠ 0.
Proof.
  intros Hne. destruct cs as [|c cs]; [by left|]. right. apply first_byte_refuses. intros bs ->. by apply (Hne bs cs).
Qed.

Lemma receive_greeting relay cs target : id_uid (dev_id relay) = NO_UID -> greets cs -> length (payload target) = MAX_PAYLOAD_SIZE ->
  receive_message relay cs target = Blocked \/
  exists ret msg cs', receive_message relay cs target = Done (ret, msg, cs') /\ (ret = 0 -> length (payload msg) = MAX_PAYLOAD_SIZE).
Proof.
  intros Hu Hg Ht.
  assert (Hc : (exists bs tail, cs = Data (0 :: bs) :: tail) \/ forall bs tail, cs ≠ Data (0 :: bs) :: tail).
  { destruct cs as [|[[|b bs]| |e] cs]; try (by right). destruct (decide (b = 0)) as [->|Hb]; [left; by eexists _, _|].
    right. congruence. }
  destruct Hc as [(bs & tail & Hc)|Hne].
  - destruct (Hg bs tail Hc) as (msg & cs' & rest & tail' & -> & Hd & Hs & Hok & Hmax). pose proof Hok as (_ & _ & Hl).
    destruct (receive_first_run relay msg rest cs' tail' target Hu Hok Hmax) as (cs2 & Hr & _); [lia | done | done |].
    right. eexists 0, _, _. split; [exact Hr|]. intros _. cbn [payload delivered]. list_lia.
  - unfold receive_message. rewrite Hu, Z.eqb_refl. destruct (first_byte_other cs Hne) as [->|(ret & cs' & -> & Hret)]; [by left|].
    right. rewrite bind_done. eexists ret, _, _. split; [done|]. done.
Qed.

Definition same_port (relay relay' : relay_t) : Prop :=
  file_descriptor relay' = file_descriptor relay /\ shm_dev_idx relay' = shm_dev_idx relay.

Lemma verify_device_total env relay io : id_uid (dev_id relay) = NO_UID -> device_takes io -> greets (io_in io) ->
  verify_device logger env relay io = Blocked \/
  exists ret relay' io', verify_device logger env relay io = Done (ret, relay', io') /\ same_port relay relay'.
Proof.
  intros Hu Hio Hg. unfold verify_device, make_ping. destruct (alloc_done sizeof_message_t) as (b & -> & _). rewrite bind_done, bind_ret.
  destruct (send_message_takes (Message DEVICE_PING [] 0 0) io) as [->|([r io'] & -> & Hr & Hin & _)];
    [unfold message_ok, byte_ok, DEVICE_PING; cbn; split; [lia | split; [done | lia]] | cbn; lia | done | by left |].
  cbn [fst snd] in Hr, Hin. subst r. rewrite bind_done. change (negb (0 =? 0)) with false. cbv iota.
  destruct (make_empty_run MAX_PAYLOAD_SIZE) as (p & -> & Hp). rewrite bind_done, Hin.
  destruct (receive_greeting relay (io_in io) (Message NOP p 0 MAX_PAYLOAD_SIZE) Hu Hg Hp) as [->|(ret & msg & cs' & -> & Hl)]; [by left|].
  right. rewrite bind_done. cbv beta iota zeta. destruct (Z.eqb_spec ret 0) as [Hret|Hret]; cbn [negb]; [|by eexists _, _, _].
  specialize (Hl Hret). unfold MAX_PAYLOAD_SIZE in Hl.
  destruct (message_id msg =? ACKNOWLEDGEMENT); cbn [negb]; [|by eexists _, _, _].
  destruct (_ && _); [by eexists _, _, _|].
  unfold buf_read. rewrite !(proj2 (Nat.leb_le _ (length (payload msg)))), !bind_ret by lia. by eexists _, _, _.
Qed.

(** The clean-up of a relay whose device could be opened. *)
Lemma word32_port virt (m : ports_t) : mem_wf (M := ports_mem) m -> word32 (load_ports virt m).
Proof. intros Hm. exact (Hm virt). Qed.

Lemma disc_release_port relay : disc (M := ports_mem) [used_ports_lock] (release_port relay) [used_ports_lock] (fun _ => True).
Proof.
  unfold release_port. eapply disc_bind.
  { apply (disc_get (M := ports_mem) _ _ _ word32); [left; by left|]. intros v Hv. by exists v. }
  intros v Hv. apply disc_upd; [by left|]. intros v' _. eexists. split; [done|]. by apply word32_clear.
Qed.

Lemma disc_clean_up relay : file_descriptor relay ≠ -1 -> shm_dev_idx relay = -1 \/ 0 <= shm_dev_idx relay < 32 ->
  disc (M := dev_mem) [] (relay_clean_up relay) [] (fun _ => True).
Proof.
  intros Hfd Hix. unfold relay_clean_up. rewrite (proj2 (Z.eqb_neq _ _)) by done.
  eapply (disc_bind (M := dev_mem) _ _ _ [] _ (fun _ => True)).
  - destruct (Z.eqb_spec (shm_dev_idx relay) (-1)); cbn [negb]; [by apply disc_ret|].
    apply disc_inl_nil, disc_device_disconnect. lia.
  - intros _ _. apply disc_inr_nil. eapply disc_bind; [by apply disc_wait|]. intros _ _.
    eapply disc_bind; [apply disc_release_port|]. intros _ _. by apply disc_post_eq; [left|].
Qed.

Definition relayer_ok (relay : relay_t) (io : dev_io) : Prop :=
  id_uid (dev_id relay) = NO_UID /\ file_descriptor relay ≠ -1 /\ shm_dev_idx relay = -1 /\ device_takes io /\ greets (io_in io).

Lemma disc_relayer env looks relay io : relayer_ok relay io ->
  disc (M := dev_mem) [] (relayer logger env looks relay io) [] (fun _ => True).
Proof.
  intros (Hu & Hfd & Hix & Hio & Hg). unfold relayer.
  destruct (verify_device_total env relay io Hu Hio Hg) as [->|(ret & relay' & io' & -> & Hsame & Hsi)]; [done|].
  rewrite local_done. rewrite <- Hsame in Hfd. rewrite <- Hsi in Hix. clear Hsame Hsi.
  destruct (negb (ret =? 0)); [apply disc_clean_up; auto|].
  eapply disc_bind; [apply disc_inl_nil, disc_device_connect|]. intros [ix|] Hr; [|apply disc_clean_up; auto].
  destruct (monitor looks); [|done]. apply disc_clean_up; [done|]. right. specialize (Hr ix eq_refl).
  unfold MAX_DEVICES in Hr. cbn [shm_dev_idx with_idx]. lia.
Qed.

(** *** The polling *)

Lemma disc_scan_ports exists_ virt k : forall i found n, (i + k <= MAX_DEVICES)%nat ->
  disc (M := ports_mem) [] (scan_ports exists_ virt k i found n) [] (fun _ => True).
Proof.
  induction k as [|k IH]; intros i found n Hk; cbn [scan_ports]; [by apply disc_ret|].
  eapply disc_bind; [by apply disc_wait|]. intros _ _.
  eapply disc_bind; [apply (disc_get (M := ports_mem) _ _ _ word32); [left; by left|]; intros v Hv; by exists v|].
  intros used Hu. destruct (_ && _).
  - eapply disc_bind.
    { apply disc_upd; [by left|]. intros v Hv. eexists. split; [done|]. unfold MAX_DEVICES in Hk. by apply word32_set; [|lia]. }
    intros _ _. eapply disc_bind; [by apply (disc_post_eq _ _ []); [left|]|]. intros _ _. apply IH. lia.
  - eapply disc_bind; [by apply (disc_post_eq _ _ []); [left|]|]. intros _ _. apply IH. lia.
Qed.

Lemma disc_get_new_devices exists_ b1 b2 : disc (M := ports_mem) [] (get_new_devices exists_ b1 b2) [] (fun _ => True).
Proof.
  unfold get_new_devices. eapply disc_bind; [by apply disc_scan_ports|]. intros [l n1] _.
  eapply disc_bind; [by apply disc_scan_ports|]. intros [v n2] _. by apply disc_ret.
Qed.

(** Every file that the scan finds can be opened. *)
Definition opens (open_ : string -> Z) : Prop := forall virt port, (port < MAX_DEVICES)%nat -> open_ (port_name virt port) ≠ -1.

Lemma disc_communicate_all open_ virt bitmap k : forall i, opens open_ -> (i + k <= MAX_DEVICES)%nat ->
  disc (M := dev_mem) [] (communicate_all open_ virt bitmap k i) [] (fun _ => True).
Proof.
  induction k as [|k IH]; intros i Ho Hk; cbn [communicate_all]; [by apply disc_ret|].
  destruct (_ >? 0); [|by apply disc_ret]. eapply (disc_bind (M := dev_mem) _ _ _ [] _ (fun _ => True)).
  - destruct (bit_on bitmap i); [|by apply disc_ret]. unfold communicate.
    destruct (alloc_done 200) as (b & -> & _). rewrite local_done. cbv zeta.
    rewrite (proj2 (Z.eqb_neq _ _)) by (apply Ho; lia). by apply disc_ret.
  - intros r _. eapply disc_bind; [apply IH; [done | lia]|]. intros rs _. by apply disc_ret.
Qed.

Lemma disc_poll rounds : Forall (fun round => opens (snd round)) rounds ->
  disc (M := dev_mem) [] (poll_connected_devices rounds) [] (fun _ => True).
Proof.
  induction 1 as [|[exists_ open_] rounds Ho _ IH]; cbn [poll_connected_devices]; [by apply disc_ret|].
  eapply (disc_bind (M := dev_mem) _ _ _ [] _ (fun _ => True)).
  - unfold poll_once. eapply disc_bind; [apply disc_inr_nil, disc_get_new_devices|]. intros [[l v] n] _.
    destruct (n >? 0); [|by apply disc_ret]. eapply disc_bind; [by apply disc_communicate_all|]. intros rs _.
    eapply disc_bind; [by apply disc_communicate_all|]. intros rs' _. by apply disc_ret.
  - intros rs _. eapply disc_bind; [exact IH|]. intros rs' _. by apply disc_ret.
Qed.

End Devices.

(** ** All threads together *)

(** A thread of the runtime, with all that its environment will do to it. *)
Inductive task `{Protos} : Type :=
(* the network handler: a connection, the receiver of inputs, the accept loop *)
| Connection (t : robot_desc_field_t * bool * bool * list round * conn)
| Inputs (datagrams : list (option bytes))
| Accept (requests : list (option request))
(* the executor: its main loop, the game states, the student's writes *)
| Modes (stacks : list (list dev_id_t)) (e : executor_t)
| GameStates (times : list Z) (h : handler_t)
| Student (writes : list student_write)
(* the device handler: the three threads of a device, the polling loop *)
| DevRelayer (env : verify_env) (looks : list DevRelay.look) (relay : relay_t) (io : dev_io)
| DevSender (relay : relay_t) (times : list (Z * Z)) (s : sender_t)
| DevReceiver (relay : relay_t) (times : list Z) (r : receiver_t)
| Polling (rounds : list ((string -> bool) * (string -> Z)))
(* any other client of the shared memory *)
| Calls (calls : list shm_call).

Section Tasks.
Context {H : Heap} {HR : ReliableHeap H} {P : Protos} (logger : logger_t).

Definition thread_of (t : task) : prog (M := dev_mem) unit :=
  match t with
  | Connection t => on_shm (tcp_thread logger t)
  | Inputs datagrams => on_shm (input_thread datagrams)
  | Accept requests => on_shm (NetHandler.main_loop requests)
  | Modes stacks e => on_shm (_ ← Executor.main_loop stacks e; mret tt)
  | GameStates times h => on_shm (_ ← gamestate_loop times h; mret tt)
  | Student writes => on_shm (student_thread writes)
  | DevRelayer env looks relay io => relayer logger env looks relay io
  | DevSender relay times s => on_shm (_ ← sender_loop logger relay times s; mret tt)
  | DevReceiver relay times r => on_shm (_ ← receiver_loop logger relay times r; mret tt)
  | Polling rounds => _ ← poll_connected_devices rounds; mret tt
  | Calls calls => on_shm (client calls)
  end.

(** What a thread relies on: sockets and devices that do not fail, messages whose handling is
    defined, arrays of the declared sizes, ports that can be opened. *)
Definition task_ok (t : task) : Prop :=
  match t with
  | Connection t => tcp_thread_ok t
  | Modes stacks _ => Forall (fun stack => length stack = MAX_DEVICES) stacks
  | Student writes => Forall student_write_ok writes
  | DevRelayer _ _ relay io => relayer_ok relay io
  | DevSender relay _ s => registered relay /\ sender_ok s
  | DevReceiver relay _ r => registered relay /\ verified relay /\ idle r /\
      exists d items, get_device (id_type (dev_id relay)) = Some d /\ Forall (item_ok d) items /\
        Forall is_data (rc_io r) /\ stream (rc_io r) = sent_by d items
  | Polling rounds => Forall (fun round => opens (snd round)) rounds
  | Calls calls => Forall call_ok calls
  | Inputs _ | Accept _ | GameStates _ _ => True
  end.

Lemma thread_of_ok t : task_ok t -> thread_ok (M := dev_mem) [] (thread_of t).
Proof.
  unfold thread_ok. destruct t as [t|ds|rs|stacks e|times h|ws|env looks relay io|relay times s|relay times r|rounds|calls];
    cbn [task_ok thread_of]; intros Hok; try (apply disc_inl_nil).
  - by apply disc_tcp_thread.
  - apply disc_input_thread.
  - apply disc_accept_loop.
  - eapply disc_then_tt. by apply disc_executor_loop.
  - eapply disc_then_tt. apply disc_gamestate_loop.
  - by apply disc_student_thread.
  - by apply disc_relayer.
  - destruct Hok. eapply disc_then_tt. by apply disc_sender_loop.
  - destruct Hok as (Hr & Hv & Hi & d & items & Hd & Hit & Hdata & Hs). eapply disc_then_tt.
    by apply (disc_receiver_loop logger d relay items).
  - eapply disc_bind; [by apply disc_poll|]. intros rs _. by apply disc_ret.
  - by apply client_disc.
Qed.

Lemma dev_start_wf old p : mem_wf (M := shm_mem) old -> word32 (used_lowcar_ports p) -> word32 (used_virtual_ports p) ->
  mem_wf (M := dev_mem) (shm_start old, p).
Proof.
  intros Ho H1 H2 [r|[]]; [exact (shm_start_wf old Ho r) | exact H2 | exact H1].
Qed.

Definition runtime_start (old : shm_t) : sys (M := dev_mem) :=
  Sys (M := dev_mem) (shm_start old, ports_start) (sum_sems shm_mem ports_mem sems_start ports_sems).

Lemma runtime_sems s : sem_ok (SharedMem := dev_mem) s ->
  sum_sems shm_mem ports_mem sems_start ports_sems !! s = Some 1%nat.
Proof.
  destruct s as [s|[]]; cbn; intros Hs.
  - etrans; [apply (sum_sems_inl shm_mem ports_mem sems_start ports_sems s) | by apply sems_start_ok].
  - apply (sum_sems_inr shm_mem ports_mem sems_start ports_sems tt).
Qed.

(** C13: the threads of the runtime are safe together when their environment keeps to its part.
    Any number of connections of the network handler with its receiver of inputs and its accept
    loop, of executors with the game states and the student's writes, of relayers, senders and
    receivers of devices with the polling loop, and of other clients of the shared memory, on
    the blocks that [shm_init] sets up in whatever memory it finds and on the fresh bitmaps of
    ports: in every interleaving memory stays well-formed, nobody faults, two access one region
    at the same time only where the code reads the catalog or the identifiers without a
    semaphore, as long as somebody is not finished (nor waiting for its environment) somebody
    can move, and a schedule that can go no further has brought everybody to that point.

    The environment's part is [task_ok]. Network: the sockets do not fail, a log payload fits
    the framing, the messages that arrive are ones whose handling is defined ([message_safe]).
    Devices: every port that the scan finds can be opened in each round (a port that cannot is
    given back in [relay_clean_up] without the mutex, a race with the relayers); writes to a
    device take at least a byte; what a device says to the first ping either does not begin with
    a delimiter or is a whole, undamaged message; a verified device sends events of its type,
    each behind bytes that are no delimiter. The threads of a device have the index and the type
    of a device connected. The arrays handed over have the declared sizes. Neither [Robot.log]
    nor [log_data_write] is called, and the thread that sends device data over UDP is no task. *)
Theorem runtime_safe old (tasks : list task) c :
  mem_wf (M := shm_mem) old -> Forall task_ok tasks ->
  rtc (step (M := dev_mem)) (Config (M := dev_mem) (runtime_start old) (thread_of <$> tasks)) c ->
  safe (M := dev_mem) c /\ ((forall c', ~ step (M := dev_mem) c c') -> forallb finished (c_threads c) = true).
Proof.
  intros Hold Ht Hc. assert (Hs : safe (M := dev_mem) c).
  { revert Hc. apply disciplined_safe; [by apply dev_start_wf | apply runtime_sems |].
    apply Forall_fmap. eapply Forall_impl; [|exact Ht]. apply thread_of_ok. }
  split; [done | by apply safe_stopped].
Qed.

End Tasks.

(** ** Witness *)

#[local] Existing Instance zero_heap.
#[local] Existing Instance demo_protos.

(** Dawn disconnects; a KoalaBear is verified, commanded and reports, while the student drives
    it, the next device is looked for and another process reads the catalog. *)
Definition demo_tasks : list task := [
  Connection (DAWN, false, false, [Round None None true dawn_env], quiet_conn [Eof]);
  Inputs [None];
  Accept [Some (Request (ReadId 1) true true (StartEnv true true true true true)); None];
  Modes [replicate MAX_DEVICES (DevId 0 0 0)] (executor_start [7]);
  GameStates [0; 20000] (Handler (GameState false false false) 0 0);
  Student [StudentWrite (GameState true true true) 6 77 5 (replicate 32 9)];
  DevRelayer (VerifyEnv true true 5) [Look false 6 5] new_relay (DevIO [Data (frame demo_ack)] [Wrote 100] []);
  DevSender demo_relay [(500, 501)] demo_sender;
  DevReceiver demo_relay [10; 20; 30; 40] (demo_receiver demo_stream);
  Polling [((fun _ => true), (fun _ => 4))];
  Calls [CallGetCatalog]
].

Lemma runtime_safe_witness :
  let start := Config (M := dev_mem) (runtime_start zero_shm) (thread_of logger_start <$> demo_tasks) in
  safe (M := dev_mem) start /\ ((forall c', ~ step (M := dev_mem) start c') -> forallb finished (c_threads start) = true).
Proof.
  apply (runtime_safe logger_start zero_shm demo_tasks); [apply zero_shm_wf | | apply rtc_refl].
  assert (Hw : forall x, 0 <= x < 2 ^ 32 -> params_wf (replicate 32 x)) by (intros x Hx; split; [done | by apply Forall_replicate]).
  assert (Hr : registered demo_relay).
  { split; [by eexists | exists 0%nat]. unfold MAX_DEVICES. split; [lia | done]. }
  assert (Ht : takes_some (Wrote 100)) by (by exists 99%nat).
  unfold demo_tasks. repeat apply (Forall_cons_2 task_ok); [..|apply Forall_nil_2]; cbn [task_ok]; try exact I.
  - split; [|split].
    + apply Forall_cons_2; [|apply Forall_nil_2]. intros log_file payload [=].
    + split; repeat constructor.
    + intros [|k] ms fd' Hk; cbn in Hk; injection Hk as <- <-; apply Forall_nil_2.
  - apply Forall_cons_2; [done | apply Forall_nil_2].
  - apply Forall_cons_2; [|apply Forall_nil_2]. split; [apply Hw; lia | unfold word32; cbn; lia].
  - split; [done|]. split; [done|]. split; [done|]. split; [by apply Forall_cons_2; [|apply Forall_nil_2]|].
    intros bs tail Hbs. exists demo_ack, [Data (frame demo_ack)], [], []. split; [done|]. split; [|split; [|split]].
    + apply Forall_cons_2; [|apply Forall_nil_2]. eexists _, _. vm_compute. reflexivity.
    + cbn [stream]. vm_compute. reflexivity.
    + unfold message_ok, byte_ok. cbn. unfold ACKNOWLEDGEMENT. split; [lia|]. split; [repeat constructor; lia | lia].
    + vm_compute. lia.
  - split; [exact Hr|]. split; [done|]. split; [apply Hw; lia|]. split; [apply map_wf_replicate; unfold word32; lia|].
    by repeat apply Forall_cons_2; [..|apply Forall_nil_2].
  - split; [exact Hr|]. split; [discriminate|]. split; [split; [done | apply Hw; lia]|].
    exists KoalaBear, demo_events. split; [reflexivity|]. split; [|split].
    + repeat constructor; cbn; unfold byte_ok, word32; try lia; apply Hw; lia.
    + repeat constructor; eexists _, _; vm_compute; reflexivity.
    + vm_compute. reflexivity.
  - apply Forall_cons_2; [by intros virt port _ | apply Forall_nil_2].
  - apply Forall_cons_2; [exact I | apply Forall_nil_2].
Defined.
