(* ===== verification/Descriptors.v ===== *)
(** * Descriptors: opening the ports, the sockets and the log
    (serialport_open, connect_socket and the terminal settings of src/dev_handler/dev_handler.c;
    start_udp_conn and stop_udp_conn of src/net_handler/udp_conn.c; socket_setup and the
    handler of SIGINT of src/net_handler/net_handler.c; the set-up and [main] of
    src/net_handler/udp_tcp_converter.c; [main] of src/executor/executor.c; logger_exit of
    src/logger/logger.c).

    A process has a table of descriptors with a limit, of which the kernel hands out the lowest
    that is free. Terminals have settings; a name is a terminal, a socket or another file. The
    functions are programs on this state; which calls the kernel refuses is a parameter. *)

From stdpp Require Import gmap strings vector.
From S2P Require Export DevRelay NetHandler Converter.
From S2P Require Executor.

(** ** Terminals *)

Definition NCCS : nat := 32.

Record termios : Set := Termios {
  c_iflag : Z; c_oflag : Z; c_cflag : Z; c_lflag : Z;
  c_ispeed : Z; c_ospeed : Z;
  c_cc : vec Z NCCS
}.

(** The numbers of the C library on Linux. *)
Definition VTIME : fin NCCS := 5%fin.
Definition VMIN : fin NCCS := 6%fin.
Definition B115200 : Z := 4098.
Definition CSIZE : Z := 48.
Definition CS8 : Z := 48.
Definition CSTOPB : Z := 64.
Definition PARENB : Z := 256.
(** IGNBRK, BRKINT, PARMRK, ISTRIP, INLCR, IGNCR, ICRNL, IXON. *)
Definition RAW_IFLAGS : Z := 1 + 2 + 8 + 32 + 64 + 128 + 256 + 1024.
(** OPOST. *)
Definition RAW_OFLAGS : Z := 1.
(** ISIG, ICANON, ECHO, ECHONL, IEXTEN. *)
Definition RAW_LFLAGS : Z := 1 + 2 + 8 + 64 + 32768.

(** [x & ~mask]. *)
Definition andnot (x mask : Z) : Z := Z.land x (Z.lnot mask).

Definition set_cflag (f : Z -> Z) (t : termios) : termios :=
  Termios (c_iflag t) (c_oflag t) (f (c_cflag t)) (c_lflag t) (c_ispeed t) (c_ospeed t) (c_cc t).
Definition set_cc (i : fin NCCS) (v : Z) (t : termios) : termios :=
  Termios (c_iflag t) (c_oflag t) (c_cflag t) (c_lflag t) (c_ispeed t) (c_ospeed t) (vinsert i v (c_cc t)).
Definition cfsetspeed (speed : Z) (t : termios) : termios :=
  Termios (c_iflag t) (c_oflag t) (c_cflag t) (c_lflag t) speed speed (c_cc t).
Definition cfmakeraw (t : termios) : termios :=
  set_cc VTIME 0 (set_cc VMIN 1 (Termios (andnot (c_iflag t) RAW_IFLAGS) (andnot (c_oflag t) RAW_OFLAGS)
    (Z.lor (andnot (c_cflag t) (Z.lor CSIZE PARENB)) CS8) (andnot (c_lflag t) RAW_LFLAGS)
    (c_ispeed t) (c_ospeed t) (c_cc t))).

#[global] Arguments vinsert : simpl never.

(** How long a [read] of a raw terminal may wait without a byte, in tenths of a second; [None]
    is for ever. *)
Definition read_timeout (t : termios) : option Z :=
  if c_cc t !!! VMIN =? 0 then Some (c_cc t !!! VTIME) else None.

(** ** The kernel *)

Inductive sock_type : Set := SOCK_STREAM | SOCK_DGRAM.

Inductive object : Set :=
| File (name : string)
| UnixSock (peer : option string) (rcvtimeo : option Z)      (* the timeout in seconds *)
| NamedSock (name : string)                                  (* bound to a name *)
| InetSock (type : sock_type) (reuse : bool) (port : option Z) (listening : bool)
| Client.                                                     (* a connection accepted *)

Record kernel : Set := Kernel {
  fds : gmap nat object;
  fd_limit : nat;
  ttys : gmap string termios;        (* the files that are terminals *)
  removed : list string              (* the files that have been removed *)
}.

Inductive tc_action : Set := TCSANOW | TCSAFLUSH.
Inductive thread_kind : Set := InputThread | DeviceThread.

Inductive call : Set :=
| Open (name : string) | Tcsetattr (a : tc_action) (name : string)
| Socket | Connect (name : string) | SetSockOpt | Bind (port : Z) | BindName (name : string) | Listen (port : Z)
| PthreadCreate (t : thread_kind).

Definition kio (A : Type) : Type := kernel -> outcome (A * kernel).
#[export] Instance kio_ret : MRet kio := fun A a k => Done (a, k).
#[export] Instance kio_bind : MBind kio := fun A B f m k => m k ≫= fun '(a, k) => f a k.
(** A computation that does not concern the kernel. *)
Definition pure_io {A} (o : outcome A) : kio A := fun k => o ≫= fun a => Done (a, k).

(** The lowest descriptor that is free, if one is. *)
Definition free_fd (k : kernel) : option nat :=
  head (filter (fun i => fds k !! i = None) (seq 0 (fd_limit k))).

Definition set_fds (m : gmap nat object) (k : kernel) : kernel := Kernel m (fd_limit k) (ttys k) (removed k).

(** What is behind a descriptor. *)
Definition object_of (fd : Z) (k : kernel) : option object := if fd <? 0 then None else fds k !! Z.to_nat fd.

Definition new_fd (o : object) : kio Z := fun k =>
  match free_fd k with
  | Some fd => Done (Z.of_nat fd, set_fds (<[fd := o]> (fds k)) k)
  | None => Done (-1, k)
  end.

Definition update_fd (fd : Z) (o : object) (k : kernel) : kernel := set_fds (<[Z.to_nat fd := o]> (fds k)) k.

Definition sys_close (fd : Z) : kio Z := fun k =>
  match object_of fd k with
  | Some _ => Done (0, set_fds (delete (Z.to_nat fd) (fds k)) k)
  | None => Done (-1, k)
  end.

Section Calls.
Context (refuses : call -> bool).

Definition sys_open (name : string) : kio Z := if refuses (Open name) then mret (-1) else new_fd (File name).

(** [None]: the file is not a terminal. *)
Definition tcgetattr (fd : Z) : kio (option termios) := fun k =>
  Done (match object_of fd k with Some (File name) => ttys k !! name | _ => None end, k).

Definition tcsetattr (fd : Z) (a : tc_action) (t : termios) : kio Z := fun k =>
  match object_of fd k with
  | Some (File name) =>
      if refuses (Tcsetattr a name) then Done (-1, k)
      else match ttys k !! name with
           | Some _ => Done (0, Kernel (fds k) (fd_limit k) (<[name := t]> (ttys k)) (removed k))
           | None => Done (-1, k)
           end
  | _ => Done (-1, k)
  end.

Definition socket (o : object) : kio Z := if refuses Socket then mret (-1) else new_fd o.

Definition connect (fd : Z) (name : string) : kio Z := fun k =>
  match object_of fd k with
  | Some (UnixSock _ t) => if refuses (Connect name) then Done (-1, k) else Done (0, update_fd fd (UnixSock (Some name) t) k)
  | _ => Done (-1, k)
  end.

Definition set_rcvtimeo (fd : Z) (seconds : Z) : kio Z := fun k =>
  match object_of fd k with
  | Some (UnixSock p _) => if refuses SetSockOpt then Done (-1, k) else Done (0, update_fd fd (UnixSock p (Some seconds)) k)
  | _ => Done (-1, k)
  end.

Definition set_reuseport (fd : Z) : kio Z := fun k =>
  match object_of fd k with
  | Some (InetSock ty _ p l) => if refuses SetSockOpt then Done (-1, k) else Done (0, update_fd fd (InetSock ty true p l) k)
  | _ => Done (-1, k)
  end.

Definition bind (fd : Z) (port : Z) : kio Z := fun k =>
  match object_of fd k with
  | Some (InetSock ty r None l) => if refuses (Bind port) then Done (-1, k) else Done (0, update_fd fd (InetSock ty r (Some port) l) k)
  | _ => Done (-1, k)
  end.

Definition bind_name (fd : Z) (name : string) : kio Z := fun k =>
  match object_of fd k with
  | Some (UnixSock _ _) => if refuses (BindName name) then Done (-1, k) else Done (0, update_fd fd (NamedSock name) k)
  | _ => Done (-1, k)
  end.

Definition listen (fd : Z) : kio Z := fun k =>
  match object_of fd k with
  | Some (InetSock SOCK_STREAM r (Some p) _) =>
      if refuses (Listen p) then Done (-1, k) else Done (0, update_fd fd (InetSock SOCK_STREAM r (Some p) true) k)
  | _ => Done (-1, k)
  end.

(** [arrives]: a client connects, and the call does not fail before. *)
Definition accept (fd : Z) (arrives : bool) : kio Z := fun k =>
  match object_of fd k with
  | Some (InetSock SOCK_STREAM _ _ true) => if arrives then new_fd Client k else Done (-1, k)
  | _ => Done (-1, k)
  end.

Definition sys_remove (name : string) : kio unit := fun k =>
  Done (tt, Kernel (fds k) (fd_limit k) (ttys k) (name :: removed k)).

(** ** The ports of the device handler *)

Definition connect_socket (socket_name : string) : kio Z :=
  fd ← socket (UnixSock None None);
  if fd =? -1 then mret (-1)
  else
    r ← connect fd socket_name;
    if negb (r =? 0) then sys_remove socket_name ;; mret (-1)
    else
      _ ← set_rcvtimeo fd (TIMEOUT / 1000);
      mret fd.

(** The settings of a port, from those that it has. *)
Definition port_settings (toptions : termios) : termios :=
  let toptions := cfsetspeed B115200 toptions in
  let toptions := set_cflag (fun c => andnot c CSIZE) toptions in
  let toptions := set_cflag (fun c => Z.lor c CS8) toptions in
  let toptions := set_cflag (fun c => andnot c PARENB) toptions in
  let toptions := set_cflag (fun c => andnot c CSTOPB) toptions in
  let toptions := cfmakeraw toptions in
  set_cc VTIME (u8 (TIMEOUT / 100)) (set_cc VMIN 0 toptions).

Definition serialport_open (port_name : string) : kio Z :=
  fd ← sys_open port_name;
  if fd =? -1 then mret (-1)
  else
    toptions ← tcgetattr fd;
    match toptions with
    | None => mret (-1)
    | Some toptions =>
        let toptions := port_settings toptions in
        _ ← tcsetattr fd TCSANOW toptions;
        r ← tcsetattr fd TCSAFLUSH toptions;
        mret (if r <? 0 then -1 else fd)
    end.

Definition serialport_close (fd : Z) : kio Z := sys_close fd.

(** The end of [verify_device]: reads of the port wait for a byte; -1 if that cannot be set. *)
Definition block_reads (relay : relay_t) : kio Z :=
  if negb (is_virtual relay) then
    toptions ← tcgetattr (file_descriptor relay);
    match toptions with
    | None => mret (-1)
    | Some toptions =>
        let toptions := set_cc VMIN 1 toptions in
        _ ← tcsetattr (file_descriptor relay) TCSANOW toptions;
        r ← tcsetattr (file_descriptor relay) TCSAFLUSH toptions;
        mret (if r <? 0 then -1 else 0)
    end
  else mret 0.

(** The port of a new device, as [communicate] opens it. *)
Definition open_port (virt : bool) (port : nat) : kio Z :=
  if virt then connect_socket (port_name virt port) else serialport_open (port_name virt port).

(** [sprintf] into [port_name[15]]. *)
Definition sprint_port_name (size : nat) (virt : bool) (port : nat) : outcome string := strcpy size (port_name virt port).

(** ** The UDP connection *)

Definition RASPI_UDP_PORT : Z := 9000.

(** A [pthread_t]: never set, the thread that was created, or that thread after it was joined. *)
Inductive thread_id : Set := NoThread | Running | Joined.

Record udp_t : Set := UdpT { socket_fd : Z; input_thread : thread_id; device_thread : thread_id; start_time : Z }.
Definition udp_globals : udp_t := UdpT (-1) NoThread NoThread 0.

(** A thread that does not exist is no argument for these calls. *)
Definition pthread_cancel (t : thread_id) : outcome unit :=
  match t with Running => mret tt | _ => Faulty WildPtr end.
Definition pthread_join (t : thread_id) : outcome thread_id :=
  match t with Running => mret Joined | _ => Faulty WildPtr end.

Definition stop_udp_conn (u : udp_t) : kio udp_t :=
  _ ← pure_io (pthread_cancel (input_thread u));
  _ ← pure_io (pthread_cancel (device_thread u));
  input ← pure_io (pthread_join (input_thread u));
  device ← pure_io (pthread_join (device_thread u));
  _ ← sys_close (socket_fd u);
  mret (UdpT (socket_fd u) input device (start_time u)).

Definition start_udp_conn (now : Z) (u : udp_t) : kio udp_t :=
  fd ← socket (InetSock SOCK_DGRAM false None false);
  let u := UdpT fd (input_thread u) (device_thread u) (start_time u) in
  if fd <? 0 then mret u
  else
    r ← bind fd RASPI_UDP_PORT;
    if r <? 0 then mret u
    else
      if refuses (PthreadCreate InputThread) then mret (UdpT fd (input_thread u) (device_thread u) now)
      else if refuses (PthreadCreate DeviceThread) then stop_udp_conn (UdpT fd Running (device_thread u) now)
      else mret (UdpT fd Running Running now).

(** ** The main thread of the network handler *)

Definition RASPI_TCP_PORT : Z := 8101.

(** The result, and the listening socket stored through the pointer. *)
Definition socket_setup : kio (Z * Z) :=
  sockfd ← socket (InetSock SOCK_STREAM false None false);
  if sockfd =? -1 then mret (1, sockfd)
  else
    _ ← set_reuseport sockfd;
    r ← bind sockfd RASPI_TCP_PORT;
    if negb (r =? 0) then sys_close sockfd ;; mret (1, sockfd)
    else
      r ← listen sockfd;
      if negb (r =? 0) then sys_close sockfd ;; mret (1, sockfd) else mret (0, sockfd).

(** [main] up to its loop: the listening socket and the UDP connection; [None] ends the
    process with 1. *)
Definition net_setup (now : Z) : kio (option (Z * udp_t)) :=
  '(ret, sockfd) ← socket_setup;
  if negb (ret =? 0) then
    (if negb (sockfd =? -1) then sys_close sockfd ;; mret None else mret None)
  else
    u ← start_udp_conn now udp_globals;
    mret (Some (sockfd, u)).

(** The connections given are those that arrive; the shared memory is attached before the UDP
    threads start. *)
Definition net_main {H : Heap} (now : Z) (requests : list (option request)) (k : kernel) : prog (M := shm_mem) unit :=
  '(started, _) ← local (net_setup now k);
  match started with
  | None => Exit 1
  | Some _ => main_loop requests
  end.

(** The handler of SIGINT: the UDP connection, then the clients. *)
Definition net_sigint (u : udp_t) (k : kernel) (shepherd_alive dawn_alive : bool) : prog (M := shm_mem) unit :=
  _ ← local (stop_udp_conn u k);
  sigint_handler shepherd_alive dawn_alive.

(** ** The parent of the executor *)

Definition CHALLENGE_SOCKET : string := "/tmp/challenge.sock".

(** [main] up to its loop: the challenge socket; [None] ends the process with 1. *)
Definition challenge_setup : kio (option Z) :=
  sys_remove CHALLENGE_SOCKET ;;
  challenge_fd ← socket (UnixSock None None);
  if challenge_fd <? 0 then mret None
  else
    r ← bind_name challenge_fd CHALLENGE_SOCKET;
    mret (if r <? 0 then None else Some challenge_fd).

(** [forks]: what [fork] will return, for as many iterations as there are arrays on the stack. *)
Definition executor_main (stacks : list (list dev_id_t)) (forks : list Z) (k : kernel) : prog (M := shm_mem) Executor.executor_t :=
  '(started, _) ← local (challenge_setup k);
  match started with
  | None => Exit 1
  | Some _ => Executor.main_loop stacks (Executor.executor_start forks)
  end.

(** ** The converter *)

Definition FWD_TCP_PORT : Z := 1234.

Definition start_udp_relay : kio Z :=
  udp_fd ← socket (InetSock SOCK_DGRAM false None false);
  mret (if udp_fd <? 0 then -1 else udp_fd).

Definition start_tcp_exposed_port : kio Z :=
  tcp_fd ← socket (InetSock SOCK_STREAM false None false);
  if tcp_fd =? -1 then mret (-1)
  else
    _ ← set_reuseport tcp_fd;
    r ← bind tcp_fd FWD_TCP_PORT;
    if negb (r =? 0) then sys_close tcp_fd ;; mret (-1)
    else
      r ← listen tcp_fd;
      if negb (r =? 0) then sys_close tcp_fd ;; mret (-1) else mret tcp_fd.

(** [FD_SET]: the bit of a set of 1024. *)
Definition FD_SETSIZE : Z := 1024.
Definition FD_SET (fd : Z) : outcome unit := if (0 <=? fd) && (fd <? FD_SETSIZE) then mret tt else Faulty OutOfBounds.

Section ConverterMain.
Context {H : Heap}.

(** [forward] with its descriptors: the client's is closed when it has gone. *)
Definition forward_fds (udp_fd tcp_fd : Z) (rs : list ready) (s : relay_state) : kio (bool * relay_state) :=
  _ ← pure_io (FD_SET udp_fd);
  _ ← pure_io (FD_SET tcp_fd);
  '(closed, s) ← pure_io (forward rs s);
  if (closed : bool) then sys_close tcp_fd ;; mret (true, s) else mret (false, s).

(** The loop of [main]: what every connection meets ([None] when [accept] fails), and how each
    that was served ended. The last may still be open; without another, [accept] waits. *)
Fixpoint serve_clients (udp_fd tcp_server_fd : Z) (clients : list (option (list ready * relay_state)))
  : kio (list relay_state) :=
  match clients with
  | [] => mret []
  | c :: clients =>
      tcp_fd ← accept tcp_server_fd (match c with Some _ => true | None => false end);
      let '(rs, s) := match c with Some c => c | None => ([], RelayState [] [] [] [] 0) end in
      '(closed, s) ← forward_fds udp_fd tcp_fd rs s;
      if (closed : bool) then
        ss ← serve_clients udp_fd tcp_server_fd clients;
        mret (s :: ss)
      else mret [s]
  end.

Context {P : Protos} {IP : InputsPack P}.

(** The datagrams of the announcement, and the connections. *)
Definition converter_main (answer : send_res) (clients : list (option (list ready * relay_state)))
  : kio (list bytes * list relay_state) :=
  udp_fd ← start_udp_relay;
  tcp_server_fd ← start_tcp_exposed_port;
  datagrams ← pure_io (send_gamepad_disconnected (if udp_fd <? 0 then SendErr else answer));
  ss ← serve_clients udp_fd tcp_server_fd clients;
  mret (datagrams, ss).

End ConverterMain.

(** ** The logger's files *)

Definition LOG_FIFO : string := "/tmp/log-fifo".

(** The descriptor behind [log_file] and that of the FIFO. *)
Record log_files : Set := LogFiles { log_file : Z; fifo_fd : Z }.

(** [open] of the FIFO is refused while nobody reads it. *)
Definition open_fifo_fd (l : logger_t) (f : log_files) : kio (logger_t * log_files) :=
  fd ← sys_open LOG_FIFO;
  mret (open_fifo (negb (fd =? -1)) l, LogFiles (log_file f) fd).

Definition logger_exit (l : logger_t) (f : log_files) : kio unit :=
  (if bit_on (OUTPUTS l) LOG_FILE then sys_close (log_file f) ;; mret tt else mret tt) ;;
  (if bit_on (OUTPUTS l) LOG_NETWORK && fifo_up l then sys_close (fifo_fd f) ;; mret tt else mret tt).

(** What [logger_init] opens, after the configuration is read: the log file, opened once to
    create it and once to append, and the FIFO. *)
Definition logger_open (l : logger_t) (f : log_files) : kio (logger_t * log_files) :=
  f ← (if bit_on (OUTPUTS l) LOG_FILE then
         temp_fd ← sys_open (log_file_path l);
         if temp_fd =? -1 then pure_io (Exited 1)
         else
           _ ← sys_close temp_fd;
           fd ← sys_open (log_file_path l);
           if fd =? -1 then pure_io (Exited 1) else mret (LogFiles fd (fifo_fd f))
       else mret f);
  if bit_on (OUTPUTS l) LOG_NETWORK then open_fifo_fd l f else mret (l, f).

(** A reader of the FIFO goes, which the next message finds out, and another comes, for which
    the message after that opens the FIFO again. *)
Definition reader_returns (l : logger_t) (f : log_files) : kio (logger_t * log_files) :=
  open_fifo_fd (sigpipe_handler l) f.

Fixpoint readers_return (n : nat) (l : logger_t) (f : log_files) : kio (logger_t * log_files) :=
  match n with
  | O => mret (l, f)
  | S n' => '(l, f) ← reader_returns l f; readers_return n' l f
  end.

End Calls.
