(* ===== verification/DescriptorsSpec.v ===== *)
(** * What becomes of descriptors: ports, sockets, the log.

    Theorems on [Descriptors]: the settings of a port through its life, ports that cannot be
    set up, the UDP connection from its start to the interrupt, the converter's clients, and
    the logger's FIFO. *)

From stdpp Require Import gmap strings vector.
From S2P Require Export Lifecycle ConverterSpec NetSpec Descriptors.

(** ** The free descriptors *)

Definition free_fds (k : kernel) : list nat := filter (fun i => fds k !! i = None) (seq 0 (fd_limit k)).

Lemma free_fds_spec k fd : fd ∈ free_fds k <-> fds k !! fd = None /\ (fd < fd_limit k)%nat.
Proof. unfold free_fds. rewrite list_elem_of_filter, elem_of_seq. intuition lia. Qed.

Lemma filter_ext_elem {A} (P Q : A -> Prop) `{forall x, Decision (P x)} `{forall x, Decision (Q x)} (l : list A) :
  (forall x, x ∈ l -> P x <-> Q x) -> filter P l = filter Q l.
Proof.
  induction l as [|x l IH]; intros He; [done|]. rewrite !filter_cons, IH by (intros; apply He; by right).
  destruct (decide (P x)) as [Hp|Hp]; [rewrite decide_True | rewrite decide_False]; try done; [apply He | rewrite <- He]; try done; by left.
Qed.

Lemma filter_ne_head (P : nat -> Prop) `{forall x, Decision (P x)} fd rest l :
  NoDup l -> filter P l = fd :: rest -> filter (fun x => P x /\ x ≠ fd) l = rest.
Proof.
  intros Hnd. revert fd rest. induction Hnd as [|x l Hx Hnd IH]; intros fd rest Hl; [done|].
  rewrite filter_cons in Hl |- *. destruct (decide (P x)) as [Hp|Hp].
  - injection Hl as <- <-. rewrite decide_False by naive_solver. apply filter_ext_elem.
    intros y Hy. split; [naive_solver|]. intros ?. split; [done|]. by intros ->.
  - rewrite decide_False by naive_solver. by apply IH.
Qed.

Lemma free_after_insert k fd o rest : free_fds k = fd :: rest ->
  free_fds (set_fds (<[fd := o]> (fds k)) k) = rest.
Proof.
  intros Hf. rewrite <- (filter_ne_head (fun i => fds k !! i = None) fd rest (seq 0 (fd_limit k)) (NoDup_seq _ _) Hf).
  unfold free_fds. cbn. apply filter_ext_elem. intros i _. rewrite lookup_insert_None. intuition congruence.
Qed.

Lemma free_head k fd rest : free_fds k = fd :: rest -> free_fd k = Some fd /\ fds k !! fd = None /\ (fd < fd_limit k)%nat.
Proof.
  intros Hf. split.
  - unfold free_fd. unfold free_fds in Hf. by rewrite Hf.
  - apply free_fds_spec. rewrite Hf. by left.
Qed.

Lemma new_fd_run o k : new_fd o k =
  match free_fds k with
  | [] => Done (-1, k)
  | fd :: _ => Done (Z.of_nat fd, set_fds (<[fd := o]> (fds k)) k)
  end.
Proof. unfold new_fd, free_fd, free_fds. by destruct (filter _ _). Qed.

Lemma object_at fd k : object_of (Z.of_nat fd) k = fds k !! fd.
Proof. unfold object_of. rewrite (proj2 (Z.ltb_ge _ _)) by lia. by rewrite Nat2Z.id. Qed.

Lemma nat_not_minus_1 fd : (Z.of_nat fd =? -1) = false.
Proof. apply Z.eqb_neq. lia. Qed.

Lemma nat_not_negative fd : (Z.of_nat fd <? 0) = false.
Proof. apply Z.ltb_ge. lia. Qed.

Lemma close_run fd k o : fds k !! fd = Some o -> sys_close (Z.of_nat fd) k = Done (0, set_fds (delete fd (fds k)) k).
Proof. intros Ho. unfold sys_close. by rewrite object_at, Ho, Nat2Z.id. Qed.

Lemma kio_bind_run {A B} (m : kio A) (f : A -> kio B) k a k' : m k = Done (a, k') -> (m ≫= f) k = f a k'.
Proof. intros Hm. unfold mbind, kio_bind. by rewrite Hm. Qed.

Create Rewrite HintDb fds.
#[export] Hint Rewrite object_at nat_not_minus_1 nat_not_negative Nat2Z.id : fds.

(** ** The settings of a port *)

(** Eight bits, no parity, one stop bit, 115200 baud in both directions; bytes pass as they are
    both ways, nothing is echoed and no byte is a signal; all other flags are as they were. *)
Record raw_8n1 (t t' : termios) : Prop := {
  raw_speed : c_ispeed t' = B115200 /\ c_ospeed t' = B115200;
  raw_size : Z.land (c_cflag t') CSIZE = CS8;
  raw_parity : Z.land (c_cflag t') PARENB = 0;
  raw_stop : Z.land (c_cflag t') CSTOPB = 0;
  raw_in : Z.land (c_iflag t') RAW_IFLAGS = 0;
  raw_out : Z.land (c_oflag t') RAW_OFLAGS = 0;
  raw_local : Z.land (c_lflag t') RAW_LFLAGS = 0;
  raw_rest : forall i, (bit_on (Z.lor (Z.lor CSIZE PARENB) CSTOPB) i = false -> bit_on (c_cflag t') i = bit_on (c_cflag t) i) /\
    (bit_on RAW_IFLAGS i = false -> bit_on (c_iflag t') i = bit_on (c_iflag t) i) /\
    (bit_on RAW_OFLAGS i = false -> bit_on (c_oflag t') i = bit_on (c_oflag t) i) /\
    (bit_on RAW_LFLAGS i = false -> bit_on (c_lflag t') i = bit_on (c_lflag t) i);
  raw_cc : forall i, i ≠ VMIN -> i ≠ VTIME -> c_cc t' !!! i = c_cc t !!! i
}.

Lemma land_andnot x m m' : Z.land m' (Z.lnot m) = 0 -> Z.land (andnot x m) m' = 0.
Proof. intros Hm. unfold andnot. by rewrite <- Z.land_assoc, (Z.land_comm _ m'), Hm, Z.land_0_r. Qed.

Lemma andnot_twice x m m' : andnot (andnot x m) m' = andnot (andnot x m') m.
Proof. unfold andnot. by rewrite <- !Z.land_assoc, (Z.land_comm (Z.lnot m)). Qed.

Lemma bit_on_andnot_off x m i : bit_on m i = false -> bit_on (andnot x m) i = bit_on x i.
Proof. intros Hm. unfold andnot. by rewrite bit_on_andnot, Hm, andb_true_r. Qed.

Lemma port_settings_raw t : raw_8n1 t (port_settings t).
Proof.
  split; try done; unfold port_settings; cbn [set_cc set_cflag cfmakeraw cfsetspeed c_cflag c_iflag c_oflag c_lflag c_cc].
  - by rewrite Z.land_lor_distr_l, land_andnot.
  - by rewrite Z.land_lor_distr_l, land_andnot.
  - by rewrite Z.land_lor_distr_l, andnot_twice, land_andnot.
  - by apply land_andnot.
  - by apply land_andnot.
  - by apply land_andnot.
  - intros i. split; [|split; [|split]]; intros Hi; try by apply bit_on_andnot_off.
    rewrite !bit_on_lor, !orb_false_iff in Hi. destruct Hi as [[H1 H2] H3].
    rewrite bit_on_lor. change CS8 with CSIZE. rewrite H1, orb_false_r.
    rewrite !bit_on_andnot_off, bit_on_lor by (rewrite ?bit_on_lor, ?H1, ?H2, ?H3; done).
    change CS8 with CSIZE. rewrite H1, orb_false_r. by apply bit_on_andnot_off.
  - intros i H1 H2. rewrite !vlookup_insert_ne by congruence. done.
Qed.

Lemma raw_set_min t t' v : raw_8n1 t t' -> raw_8n1 t (set_cc VMIN v t').
Proof.
  destruct t' as [f1 f2 f3 f4 s1 s2 ccs]. intros [? ? ? ? ? ? ? ? Hcc]. cbn in *. split; cbn; try assumption.
  intros i H1 H2. rewrite vlookup_insert_ne by congruence. by apply Hcc.
Qed.

Lemma read_timeout_min0 v t : read_timeout (set_cc VTIME v (set_cc VMIN 0 t)) = Some v.
Proof.
  unfold read_timeout. cbn [set_cc c_cc]. by rewrite vlookup_insert_ne, !vlookup_insert.
Qed.

Lemma port_settings_timeout t : read_timeout (port_settings t) = Some 10.
Proof. apply read_timeout_min0. Qed.

Lemma read_timeout_min1 t : read_timeout (set_cc VMIN 1 t) = None.
Proof. unfold read_timeout. cbn [set_cc c_cc]. by rewrite vlookup_insert. Qed.

(** ** Opening and closing ports *)

Lemma insert_then_delete (k : kernel) fd o : fds k !! fd = None -> delete fd (<[fd := o]> (fds k)) = fds k.
Proof. intros Hn. rewrite delete_insert_id; done. Qed.

Lemma tcgetattr_run fd k name : fds k !! fd = Some (File name) -> tcgetattr (Z.of_nat fd) k = Done (ttys k !! name, k).
Proof. intros Hf. unfold tcgetattr. by rewrite object_at, Hf. Qed.

Lemma tcsetattr_run refuses fd k name a t t0 : fds k !! fd = Some (File name) -> ttys k !! name = Some t0 ->
  tcsetattr refuses (Z.of_nat fd) a t k =
  if refuses (Tcsetattr a name) then Done (-1, k) else Done (0, Kernel (fds k) (fd_limit k) (<[name := t]> (ttys k)) (removed k)).
Proof. intros Hf Ht. unfold tcsetattr. by rewrite object_at, Hf, Ht. Qed.

(** The two settings of a terminal's attributes: the second, which waits for the output and
    drops the input, decides; that of the first is enough for the settings to be changed. *)
Lemma set_twice_run refuses {A} fd k name t t0 (f : Z -> kio A) :
  fds k !! fd = Some (File name) -> ttys k !! name = Some t0 ->
  (_ ← tcsetattr refuses (Z.of_nat fd) TCSANOW t; r ← tcsetattr refuses (Z.of_nat fd) TCSAFLUSH t; f r) k =
  f (if refuses (Tcsetattr TCSAFLUSH name) then -1 else 0)
    (Kernel (fds k) (fd_limit k)
      (if refuses (Tcsetattr TCSANOW name) && refuses (Tcsetattr TCSAFLUSH name) then ttys k else <[name := t]> (ttys k)) (removed k)).
Proof.
  intros Hf Ht. unfold mbind, kio_bind. rewrite (tcsetattr_run refuses fd k name TCSANOW t t0) by done.
  destruct (refuses (Tcsetattr TCSANOW name)); rewrite bind_done; cbv beta iota.
  - rewrite (tcsetattr_run refuses fd k name TCSAFLUSH t t0) by done.
    destruct (refuses _); rewrite bind_done; cbn [andb]; by destruct k.
  - rewrite (tcsetattr_run refuses fd _ name TCSAFLUSH t t); [|done | apply lookup_insert_eq].
    destruct (refuses _); rewrite bind_done; [done|]. cbn. by rewrite insert_insert_eq.
Qed.

Lemma serialport_open_run refuses name k :
  serialport_open refuses name k =
  match free_fds k with
  | [] => Done (-1, k)
  | fd :: _ =>
      if refuses (Open name) then Done (-1, k)
      else
        let k1 := set_fds (<[fd := File name]> (fds k)) k in
        match ttys k !! name with
        | None => Done (-1, k1)
        | Some t =>
            Done (if refuses (Tcsetattr TCSAFLUSH name) then -1 else Z.of_nat fd,
              Kernel (fds k1) (fd_limit k)
                (if refuses (Tcsetattr TCSANOW name) && refuses (Tcsetattr TCSAFLUSH name) then ttys k
                 else <[name := port_settings t]> (ttys k)) (removed k))
        end
  end.
Proof.
  unfold serialport_open, sys_open. destruct (refuses (Open name)).
  { rewrite (kio_bind_run _ _ k (-1) k) by done. by destruct (free_fds k). }
  unfold mbind at 1, kio_bind at 1. rewrite new_fd_run. destruct (free_fds k) as [|fd rest]; [done|].
  rewrite bind_done. cbv beta iota zeta. autorewrite with fds.
  assert (Hf : fds (set_fds (<[fd := File name]> (fds k)) k) !! fd = Some (File name)) by apply lookup_insert_eq.
  rewrite (kio_bind_run _ _ _ _ _ (tcgetattr_run fd _ name Hf)). cbn [set_fds ttys].
  destruct (ttys k !! name) as [t|] eqn:Ht; [|done].
  rewrite (set_twice_run refuses fd _ name (port_settings t) t) by done.
  by destruct (refuses (Tcsetattr TCSAFLUSH name)).
Qed.

Lemma connect_socket_run refuses name k :
  connect_socket refuses name k =
  match free_fds k with
  | [] => Done (-1, k)
  | fd :: _ =>
      if refuses Socket then Done (-1, k)
      else if refuses (Connect name) then Done (-1, Kernel (<[fd := UnixSock None None]> (fds k)) (fd_limit k) (ttys k) (name :: removed k))
      else Done (Z.of_nat fd, set_fds (<[fd := UnixSock (Some name) (if refuses SetSockOpt then None else Some (TIMEOUT / 1000))]> (fds k)) k)
  end.
Proof.
  unfold connect_socket, socket. destruct (refuses Socket).
  { rewrite (kio_bind_run _ _ k (-1) k) by done. by destruct (free_fds k). }
  unfold mbind at 1, kio_bind at 1. rewrite new_fd_run. destruct (free_fds k) as [|fd rest]; [done|].
  rewrite bind_done. cbv beta iota. autorewrite with fds.
  unfold mbind, kio_bind, connect. rewrite object_at. cbn [set_fds fds]. rewrite lookup_insert_eq.
  destruct (refuses (Connect name)); rewrite bind_done; [done|]. cbv beta iota. cbn [Z.eqb negb].
  unfold set_rcvtimeo. rewrite object_at. unfold update_fd. cbn [set_fds fds]. rewrite Nat2Z.id, lookup_insert_eq.
  destruct (refuses SetSockOpt); rewrite bind_done; cbn [update_fd set_fds fds fd_limit ttys removed];
    unfold set_fds; cbn; rewrite ?Nat2Z.id, !insert_insert_eq; done.
Qed.

(** The name of a port fits the arrays that it is printed into (15 and 14 bytes). *)
Lemma port_names_fit virt port : (port < MAX_DEVICES)%nat -> sprint_port_name 14 virt port = Done (port_name virt port).
Proof.
  intros Hp. assert (Hall : forallb (fun i => match sprint_port_name 14 virt i with Done s => String.eqb s (port_name virt i) | _ => false end)
    (seq 0 MAX_DEVICES) = true) by (destruct virt; vm_compute; reflexivity).
  rewrite forallb_forall in Hall. specialize (Hall port). rewrite in_seq in Hall. specialize (Hall ltac:(lia)).
  destruct (sprint_port_name 14 virt port) as [s| | | |]; try done. apply String.eqb_eq in Hall. by subst.
Qed.

(** The life of a port. [serialport_open], when the kernel refuses nothing, hands out the lowest
    free descriptor; whatever settings the terminal had, it now passes bytes unchanged, eight
    bits without parity at 115200 baud, and a [read] gives up after TIMEOUT milliseconds, which
    is what waiting for an acknowledgement needs. After the device is verified a [read] waits
    for ever, and the rest of the settings is as it was. [serialport_close] leaves the table of
    descriptors as before. A virtual device's socket is connected, with the same time limit,
    which stays. *)
Theorem port_life refuses port k fd rest t relay :
  (forall c, refuses c = false) -> free_fds k = fd :: rest -> ttys k !! port_name false port = Some t ->
  is_virtual relay = false -> file_descriptor relay = Z.of_nat fd ->
  exists k1 k2 t1 t2,
    open_port refuses false port k = Done (Z.of_nat fd, k1) /\
    ttys k1 !! port_name false port = Some t1 /\ raw_8n1 t t1 /\
    (exists tenths, read_timeout t1 = Some tenths /\ 100 * tenths = TIMEOUT) /\
    block_reads refuses relay k1 = Done (0, k2) /\
    ttys k2 !! port_name false port = Some t2 /\ raw_8n1 t t2 /\ read_timeout t2 = None /\
    (exists k3, serialport_close (file_descriptor relay) k2 = Done (0, k3) /\ fds k3 = fds k) /\
    (exists k4 k5, open_port refuses true port k = Done (Z.of_nat fd, k4) /\
      fds k4 !! fd = Some (UnixSock (Some (port_name true port)) (Some 1)) /\ 1000 * 1 = TIMEOUT /\
      block_reads refuses (Relay true port (Z.of_nat fd) (-1) (dev_id relay) 0) k4 = Done (0, k4) /\
      serialport_close (Z.of_nat fd) k4 = Done (0, k5) /\ fds k5 = fds k).
Proof.
  intros Hno Hfree Ht Hv Hfd. destruct (free_head k fd rest Hfree) as (_ & Hnone & _).
  set (name := port_name false port) in *.
  set (k1 := Kernel (<[fd := File name]> (fds k)) (fd_limit k) (<[name := port_settings t]> (ttys k)) (removed k)).
  set (t2 := set_cc VMIN 1 (port_settings t)).
  set (k2 := Kernel (fds k1) (fd_limit k) (<[name := t2]> (ttys k1)) (removed k)).
  assert (Hf : fds k1 !! fd = Some (File name)) by apply lookup_insert_eq.
  assert (Ht1 : ttys k1 !! name = Some (port_settings t)) by apply lookup_insert_eq.
  exists k1, k2, (port_settings t), t2.
  split. { unfold open_port. fold name. rewrite serialport_open_run, Hfree, !Hno, Ht. done. }
  split; [done|]. split; [apply port_settings_raw|]. split; [exists 10; by rewrite port_settings_timeout|].
  split. { unfold block_reads. rewrite Hv, Hfd. cbn [negb].
    rewrite (kio_bind_run _ _ _ _ _ (tcgetattr_run fd k1 name Hf)), Ht1. cbv beta iota zeta.
    rewrite (set_twice_run refuses fd k1 name _ (port_settings t)) by done. by rewrite !Hno. }
  split; [apply lookup_insert_eq|]. split.
  { apply raw_set_min, port_settings_raw. }
  split; [apply read_timeout_min1|]. split.
  { eexists. split; [rewrite Hfd; by apply (close_run fd k2 (File name))|]. by apply insert_then_delete. }
  eexists _, _. split. { unfold open_port. by rewrite connect_socket_run, Hfree, !Hno. }
  split; [apply lookup_insert_eq|]. split; [reflexivity|]. split; [reflexivity|]. split.
  - apply (close_run fd _ (UnixSock (Some (port_name true port)) (Some 1))), lookup_insert_eq.
  - by apply insert_then_delete.
Qed.

Lemma port_life_witness :
  let name := port_name false 3 in
  let t := Termios (-1) (-1) (-1) (-1) 0 0 (vreplicate 32 7) in
  let k := Kernel {[ 0%nat := File "console" ]} 64 {[ name := t ]} [] in
  let relay := Relay false 3 1 (-1) (DevId 0 0 0) 0 in
  exists k1 k2 t1 t2,
    open_port (fun _ => false) false 3 k = Done (Z.of_nat 1, k1) /\
    ttys k1 !! port_name false 3 = Some t1 /\ raw_8n1 t t1 /\
    (exists tenths, read_timeout t1 = Some tenths /\ 100 * tenths = TIMEOUT) /\
    block_reads (fun _ => false) relay k1 = Done (0, k2) /\
    ttys k2 !! port_name false 3 = Some t2 /\ raw_8n1 t t2 /\ read_timeout t2 = None /\
    (exists k3, serialport_close (file_descriptor relay) k2 = Done (0, k3) /\ fds k3 = fds k) /\
    (exists k4 k5, open_port (fun _ => false) true 3 k = Done (Z.of_nat 1, k4) /\
      fds k4 !! 1%nat = Some (UnixSock (Some (port_name true 3)) (Some 1)) /\ 1000 * 1 = TIMEOUT /\
      block_reads (fun _ => false) (Relay true 3 (Z.of_nat 1) (-1) (dev_id relay) 0) k4 = Done (0, k4) /\
      serialport_close (Z.of_nat 1) k4 = Done (0, k5) /\ fds k5 = fds k).
Proof.
  intros name t k relay. apply (port_life (fun _ => false) 3 k 1 (seq 2 62) t relay); reflexivity.
Defined.

(** ** Ports that cannot be set up *)

(** A port whose file or socket is there but cannot be used: it is no terminal, its settings
    cannot be changed, or nobody answers. *)
Definition bad_port (refuses : call -> bool) (virt : bool) (port : nat) (k : kernel) : bool :=
  let name := port_name virt port in
  if virt then negb (refuses Socket) && refuses (Connect name)
  else negb (refuses (Open name)) &&
       match ttys k !! name with None => true | Some _ => refuses (Tcsetattr TCSAFLUSH name) end.

(** A call of [communicate]; what the kernel refuses at that time. *)
Record attempt : Set := Attempt { at_refuses : call -> bool; at_virt : bool; at_port : nat }.

Fixpoint open_all (attempts : list attempt) : kio (list Z) :=
  match attempts with
  | [] => mret []
  | a :: attempts =>
      fd ← open_port (at_refuses a) (at_virt a) (at_port a);
      fds ← open_all attempts;
      mret (fd :: fds)
  end.

Lemma open_full refuses virt port k : free_fds k = [] -> open_port refuses virt port k = Done (-1, k).
Proof. intros Hf. unfold open_port. destruct virt; rewrite ?serialport_open_run, ?connect_socket_run; by rewrite Hf. Qed.


(** The file of a port: what the outside puts there, less what the program has removed. *)
Definition on_disk (present : string -> bool) (k : kernel) (name : string) : bool :=
  present name && negb (bool_decide (name ∈ removed k)).

(** The files removed by failed attempts, of which [n] got a descriptor. *)
Definition unlinked (n : nat) (attempts : list attempt) (name : string) : Prop :=
  exists a, a ∈ take n attempts /\ at_virt a = true /\ name = port_name true (at_port a).

Lemma serial_not_unlinked n attempts port : ~ unlinked n attempts (port_name false port).
Proof. intros (a & _ & _ & Hn). discriminate Hn. Qed.

(** An attempt at such a port fails and takes a descriptor, if there still is one; that of a
    socket then removes the file. *)
Lemma open_bad refuses virt port k : bad_port refuses virt port k = true ->
  exists k', open_port refuses virt port k = Done (-1, k') /\ free_fds k' = tail (free_fds k) /\
    removed k' = match free_fds k with [] => [] | _ => if virt then [port_name true port] else [] end ++ removed k /\
    (forall name, is_Some (ttys k' !! name) <-> is_Some (ttys k !! name)).
Proof.
  intros Hb. destruct (free_fds k) as [|fd rest] eqn:Hf; [exists k; by rewrite open_full|].
  unfold bad_port, open_port in *. destruct virt.
  - apply andb_true_iff in Hb as [H1 H2]. apply negb_true_iff in H1.
    rewrite connect_socket_run, Hf, H1, H2. eexists. split; [done|]. split; [|by split].
    exact (free_after_insert k fd (UnixSock None None) rest Hf).
  - apply andb_true_iff in Hb as [H1 H2]. apply negb_true_iff in H1.
    rewrite serialport_open_run, Hf, H1. cbv zeta.
    assert (Hrest := free_after_insert k fd (File (port_name false port)) rest Hf).
    destruct (ttys k !! port_name false port) as [t|] eqn:Ht.
    + rewrite H2. eexists. split; [done|]. split; [exact Hrest|]. split; [done|]. intros name. cbn [ttys].
      destruct (_ && _); [done|]. destruct (decide (port_name false port = name)) as [<-|Hne].
      * rewrite lookup_insert_eq, Ht. split; by eexists.
      * by rewrite lookup_insert_ne.
    + eexists. split; [done|]. by split.
Qed.

Lemma bad_same refuses virt port k k' : (forall name, is_Some (ttys k' !! name) <-> is_Some (ttys k !! name)) ->
  bad_port refuses virt port k = true -> bad_port refuses virt port k' = true.
Proof.
  intros Hs. unfold bad_port. destruct virt; [done|]. destruct (refuses (Open _)); [done|]. cbn [negb andb].
  specialize (Hs (port_name false port)).
  destruct (ttys k' !! _) as [t'|], (ttys k !! _) as [t|]; try done.
  destruct Hs as [Hs _]. by destruct Hs as [x Hx].
Qed.

Lemma open_all_bad attempts : forall k,
  Forall (fun a => bad_port (at_refuses a) (at_virt a) (at_port a) k = true) attempts ->
  exists k', open_all attempts k = Done (replicate (length attempts) (-1), k') /\
    free_fds k' = drop (length attempts) (free_fds k) /\
    (forall name, name ∈ removed k' <-> name ∈ removed k \/ unlinked (length (free_fds k)) attempts name).
Proof.
  induction attempts as [|a attempts IH]; intros k Hb.
  { exists k. split; [done|]. split; [done|]. intros name. split; [by left|]. intros [?|(a & Ha & _)]; [done|].
    rewrite take_nil in Ha. by apply not_elem_of_nil in Ha. }
  inversion Hb as [|? ? Ha Hbs]; subst.
  destruct (open_bad _ _ _ k Ha) as (k1 & Hr & Hf & Hrem & Hs). destruct (IH k1) as (k' & Hr' & Hf' & Hrem').
  { revert Hbs. apply Forall_impl. intros a'. by apply bad_same. }
  exists k'. split.
  - cbn [open_all]. rewrite (kio_bind_run _ _ _ _ _ Hr). by rewrite (kio_bind_run _ _ _ _ _ Hr').
  - split; [rewrite Hf', Hf; destruct (free_fds k); [apply drop_nil | done]|].
    intros name. rewrite Hrem', Hrem, Hf. unfold unlinked. destruct (free_fds k) as [|fd rest]; cbn [length tail take app]; [done|].
    rewrite elem_of_app. setoid_rewrite elem_of_cons. split.
    + intros [[Hn|?]|(a' & Hin & Hv & ->)]; [|by left|right; by exists a'; auto].
      destruct (at_virt a) eqn:Hv; [|by apply not_elem_of_nil in Hn]. apply list_elem_of_singleton in Hn as ->. right. by exists a; auto.
    + intros [?|(a' & [->|Hin] & Hv & ->)]; [by left; right | left; left; rewrite Hv; by apply list_elem_of_singleton | right; by exists a'].
Qed.

(** *** Polling when nothing can be opened *)

Section FailedPoll.
Context {H : Heap} {HR : ReliableHeap H} (m : shm_t) (sm : gmap shm_sem nat).

Definition no_port : string -> Z := fun _ => -1.

Lemma load_store virt v p : load_ports virt (store_ports virt v p) = v.
Proof. by destruct virt. Qed.

Lemma load_store_other virt v p : load_ports (negb virt) (store_ports virt v p) = load_ports (negb virt) p.
Proof. by destruct virt. Qed.

Lemma communicate_failed virt port p :
  run (communicate no_port virt port) (world m p sm) =
  Done (None, world m (store_ports virt (bit_clear (load_ports virt p) port) p) sm).
Proof.
  unfold communicate. destruct (alloc_done 200) as (b & -> & _). rewrite local_done. cbv zeta. unfold no_port. rewrite Z.eqb_refl.
  unfold relay_clean_up. cbn [file_descriptor]. rewrite Z.eqb_refl.
  rewrite (run_then (M := dev_mem) _ _ _ _ _ (run_inr shm_mem ports_mem (release_port (Relay virt port (-1) (-1) (DevId 0 0 0) 0))
    m sm p ports_sems tt (store_ports virt (bit_clear (load_ports virt p) port) p) ports_sems ltac:(by destruct virt))).
  done.
Qed.

(** The loop over the new devices gives every port of the bitmap back. *)
Lemma communicate_all_failed virt bitmap k : forall i p, 0 <= bitmap ->
  (forall j, bit_on bitmap j = true -> (j < i + k)%nat) ->
  exists p', run (communicate_all no_port virt bitmap k i) (world m p sm) = Done ([], world m p' sm) /\
    load_ports (negb virt) p' = load_ports (negb virt) p /\
    forall j, bit_on (load_ports virt p') j = bit_on (load_ports virt p) j && negb ((i <=? j)%nat && bit_on bitmap j).
Proof.
  induction k as [|k IH]; intros i p Hn Hb; cbn [communicate_all].
  - exists p. split; [done|]. split; [done|]. intros j. destruct (Nat.leb_spec i j); [|by rewrite andb_true_r].
    destruct (bit_on bitmap j) eqn:Hj; [|by rewrite andb_true_r]. apply Hb in Hj. lia.
  - destruct (Z.gtb_spec (Z.shiftr bitmap (Z.of_nat i)) 0) as [Hgt|Hle].
    2: { exists p. split; [done|]. split; [done|]. intros j. destruct (Nat.leb_spec i j) as [Hij|]; [|by rewrite andb_true_r].
      assert (Hz : Z.shiftr bitmap (Z.of_nat i) = 0) by (assert (0 <= Z.shiftr bitmap (Z.of_nat i)) by (by apply Z.shiftr_nonneg); lia).
      assert (Hj : bit_on bitmap j = false); [|by rewrite Hj, andb_true_r].
      rewrite bit_on_testbit. replace (Z.of_nat j) with (Z.of_nat (j - i) + Z.of_nat i) by lia.
      rewrite <- Z.shiftr_spec, Hz by lia. apply Z.bits_0. }
    set (p1 := if bit_on bitmap i then store_ports virt (bit_clear (load_ports virt p) i) p else p).
    assert (Hfirst : run (if bit_on bitmap i then communicate no_port virt i else mret None) (world m p sm) = Done (None, world m p1 sm)).
    { subst p1. destruct (bit_on bitmap i); [apply communicate_failed | done]. }
    destruct (IH (S i) p1 Hn) as (p' & Hr & Ho & Hl). { intros j Hj. apply Hb in Hj. lia. }
    exists p'. split; [|split].
    + rewrite (run_then (M := dev_mem) _ _ _ _ _ Hfirst). by rewrite (run_then (M := dev_mem) _ _ _ _ _ Hr).
    + rewrite Ho. subst p1. destruct (bit_on bitmap i); [apply load_store_other | done].
    + intros j. rewrite Hl. subst p1. destruct (decide (j = i)) as [->|Hj].
      * rewrite (proj2 (Nat.leb_gt (S i) i)), (proj2 (Nat.leb_le i i)) by lia. cbn [andb]. rewrite andb_true_r.
        destruct (bit_on bitmap i); [by rewrite load_store, bit_on_clear_eq, andb_false_r | by rewrite andb_true_r].
      * assert (Hle : (S i <=? j)%nat = (i <=? j)%nat) by (destruct (Nat.leb_spec (S i) j), (Nat.leb_spec i j); lia).
        rewrite Hle. destruct (bit_on bitmap i); [|done]. by rewrite load_store, bit_on_clear_ne by congruence.
Qed.

Lemma bits_nonneg x n : (forall j, (n <= j)%nat -> bit_on x j = false) -> 0 <= x.
Proof.
  intros Hb. apply Z.bits_iff_nonneg_ex. exists (Z.of_nat n). intros j Hj.
  replace j with (Z.of_nat (Z.to_nat j)) by lia. rewrite <- bit_on_testbit. apply Hb. lia.
Qed.

Lemma bits_ext x y : (forall j, bit_on x j = bit_on y j) -> x = y.
Proof.
  intros Hb. apply Z.bits_inj'. intros j Hj. replace j with (Z.of_nat (Z.to_nat j)) by lia. rewrite <- !bit_on_testbit. apply Hb.
Qed.

Lemma ports_ext p p' : (forall virt j, bit_on (load_ports virt p') j = bit_on (load_ports virt p) j) -> p' = p.
Proof.
  intros Hb. destruct p as [l v], p' as [l' v']. f_equal; apply bits_ext; [apply (Hb false) | apply (Hb true)].
Qed.

(** The scan of one kind: new ports and their number. *)
Lemma scan_run exists_ virt p :
  let new j := (j <? MAX_DEVICES)%nat && new_port exists_ virt (load_ports virt p) j in
  exists found p', run (get_new_devices_helper exists_ virt 0) (Sys (M := ports_mem) p ports_sems) =
      Done (found, Z.of_nat (length (filter (fun j => new_port exists_ virt (load_ports virt p) j = true) (seq 0 MAX_DEVICES))),
            Sys (M := ports_mem) p' ports_sems) /\
    (forall j, bit_on found j = new j) /\ load_ports (negb virt) p' = load_ports (negb virt) p /\
    (forall j, bit_on (load_ports virt p') j = bit_on (load_ports virt p) j || new j).
Proof.
  intros new. destruct (scan_ports_run exists_ virt MAX_DEVICES 0 0 0 p) as (f & p' & Hr & Ho & Hf & Hp).
  assert (Hbt : forall j, between 0 MAX_DEVICES j = (j <? MAX_DEVICES)%nat) by (intros j; unfold between; by rewrite Nat.add_0_l).
  exists f, p'. split; [exact Hr|]. split; [|split; [done|]].
  - intros j. by rewrite Hf, bit_on_0, Hbt.
  - intros j. rewrite Hp, Hbt. unfold new, new_port. destruct (bit_on (load_ports virt p) j); [done|].
    by destruct (j <? MAX_DEVICES)%nat.
Qed.

Lemma filter_none (f : nat -> bool) n : length (filter (fun j => f j = true) (seq 0 n)) = 0%nat ->
  forall j, (j <? n)%nat && f j = false.
Proof.
  intros Hl j. apply andb_false_iff. destruct (Nat.ltb_spec j n) as [Hj|Hj]; [right | by left].
  destruct (f j) eqn:Hf; [|done]. apply nil_length_inv in Hl.
  assert (Hin : j ∈ filter (fun j => f j = true) (seq 0 n)) by (apply list_elem_of_filter; split; [done | apply elem_of_seq; lia]).
  rewrite Hl in Hin. by apply not_elem_of_nil in Hin.
Qed.

Lemma filter_le (f : nat -> bool) n : (length (filter (fun j => f j = true) (seq 0 n)) <= n)%nat.
Proof. etrans; [apply length_filter|]. by rewrite length_seq. Qed.

(** A round of polling in which no port can be opened leaves both memories as they were, so
    the next one finds the same ports. *)
Lemma poll_failed exists_ p : run (poll_once exists_ no_port) (world m p sm) = Done ([], world m p sm).
Proof.
  destruct (scan_run exists_ false p) as (f1 & p1 & R1 & F1 & O1 & U1).
  destruct (scan_run exists_ true p1) as (f2 & p2 & R2 & F2 & O2 & U2).
  cbn [negb] in *. set (l1 := length _) in R1. set (l2 := length _) in R2.
  assert (Hl1 : (l1 <= 32)%nat) by apply filter_le. assert (Hl2 : (l2 <= 32)%nat) by apply filter_le.
  assert (Hnew : run (get_new_devices exists_ 0 0) (Sys (M := ports_mem) p ports_sems) =
    Done (f1, f2, Z.of_nat l1 + Z.of_nat l2, Sys (M := ports_mem) p2 ports_sems)).
  { unfold get_new_devices. rewrite (run_then (M := ports_mem) _ _ _ _ _ R1), (run_then (M := ports_mem) _ _ _ _ _ R2).
    by rewrite (u8_small (Z.of_nat l1)), u8_small by lia. }
  unfold poll_once. rewrite (run_then (M := dev_mem) _ _ _ _ _ (run_inr shm_mem ports_mem _ m sm _ _ _ _ _ Hnew)).
  assert (Hback : forall p', (forall j, bit_on (load_ports false p') j = bit_on (load_ports false p) j) ->
    (forall j, bit_on (load_ports true p') j = bit_on (load_ports true p1) j) -> p' = p).
  { intros p' Hlow Hvirt. apply ports_ext. intros [] j; [by rewrite Hvirt, O1 | apply Hlow]. }
  destruct (Z.gtb_spec (Z.of_nat l1 + Z.of_nat l2) 0) as [Hgt|Hle].
  2: { rewrite (Hback p2); [done | |]; intros j.
    - by rewrite O2, U1, (filter_none (new_port exists_ false (load_ports false p)) MAX_DEVICES), orb_false_r by (unfold l1 in *; lia).
    - by rewrite U2, (filter_none (new_port exists_ true (load_ports true p1)) MAX_DEVICES), orb_false_r by (unfold l2 in *; lia). }
  assert (Hhigh : forall f g, (forall j, bit_on f j = (j <? MAX_DEVICES)%nat && g j) -> 0 <= f /\ forall j, bit_on f j = true -> (j < 0 + MAX_DEVICES)%nat).
  { intros f g Hf. split.
    - apply (bits_nonneg f MAX_DEVICES). intros j Hj. by rewrite Hf, (proj2 (Nat.ltb_ge _ _)).
    - intros j. rewrite Hf. by intros [Hj%Nat.ltb_lt _]%andb_true_iff. }
  destruct (Hhigh f1 _ F1) as [N1 B1]. destruct (Hhigh f2 _ F2) as [N2 B2].
  destruct (communicate_all_failed false f1 MAX_DEVICES 0 p2 N1 B1) as (p3 & R3 & O3 & L3).
  destruct (communicate_all_failed true f2 MAX_DEVICES 0 p3 N2 B2) as (p4 & R4 & O4 & L4). cbn [negb] in *.
  rewrite (run_then (M := dev_mem) _ _ _ _ _ R3), (run_then (M := dev_mem) _ _ _ _ _ R4). cbn [app].
  rewrite (Hback p4); [done | |]; intros j.
  - rewrite O4, L3, O2, U1, F1. unfold new_port. cbn [Nat.leb andb].
    by destruct (bit_on (load_ports false p) j), (j <? MAX_DEVICES)%nat, (exists_ _).
  - rewrite L4, O3, U2, F2. unfold new_port. cbn [Nat.leb andb].
    by destruct (bit_on (load_ports true p1) j), (j <? MAX_DEVICES)%nat, (exists_ _).
Qed.

End FailedPoll.

(** A new serial port whose file is there is found by the next scan. *)
Lemma scan_finds exists_ p port : (port < MAX_DEVICES)%nat ->
  bit_on (used_lowcar_ports p) port = false -> exists_ (port_name false port) = true ->
  exists low virt n p', run (get_new_devices exists_ 0 0) (Sys (M := ports_mem) p ports_sems) =
    Done (low, virt, n, Sys (M := ports_mem) p' ports_sems) /\ bit_on low port = true.
Proof.
  intros Hport Hfree Hex.
  destruct (scan_run exists_ false p) as (f1 & p1 & R1 & F1 & _). destruct (scan_run exists_ true p1) as (f2 & p2 & R2 & _).
  eexists f1, f2, _, p2. split.
  - unfold get_new_devices. rewrite (run_then (M := ports_mem) _ _ _ _ _ R1). by rewrite (run_then (M := ports_mem) _ _ _ _ _ R2).
  - rewrite F1, (proj2 (Nat.ltb_lt _ _)) by done. unfold new_port. cbn [load_ports]. by rewrite Hfree, Hex.
Qed.

(** C29: a port that cannot be set up (its file is no terminal, its settings cannot be changed,
    or its socket is not answered) uses up the descriptors. Every attempt to open such a port
    fails and takes a descriptor, which neither [serialport_open] nor [connect_socket] closes
    and the clean-up does not know; once as many attempts have been made as there were free
    descriptors, no port of any device can be opened. A round of polling in which nothing can
    be opened leaves both memories as they were. So a serial port, whose file stays, is found
    new by the next scan and tried again; of an unanswered socket the file is removed by the
    attempt that got a descriptor (and by no other), so that it is not tried again before a
    device puts its file back. *)
Theorem ports_exhausted attempts k :
  Forall (fun a => bad_port (at_refuses a) (at_virt a) (at_port a) k = true) attempts ->
  exists k', open_all attempts k = Done (replicate (length attempts) (-1), k') /\
    free_fds k' = drop (length attempts) (free_fds k) /\
    ((length (free_fds k) <= length attempts)%nat ->
     forall refuses virt port, open_port refuses virt port k' = Done (-1, k')) /\
    (forall name, name ∈ removed k' <-> name ∈ removed k \/ unlinked (length (free_fds k)) attempts name) /\
    (forall (H : Heap) (HR : ReliableHeap H) present m sm p,
       run (poll_once (on_disk present k') (fun _ => -1)) (world m p sm) = Done ([], world m p sm) /\
       forall port, (port < MAX_DEVICES)%nat -> bit_on (used_lowcar_ports p) port = false ->
         on_disk present k (port_name false port) = true ->
         exists low virt n p', run (get_new_devices (on_disk present k') 0 0) (Sys (M := ports_mem) p ports_sems) =
           Done (low, virt, n, Sys (M := ports_mem) p' ports_sems) /\ bit_on low port = true).
Proof.
  intros Hb. destruct (open_all_bad attempts k Hb) as (k' & Hr & Hf & Hrem). exists k'. split; [done|]. split; [done|]. split.
  { intros Hl refuses virt port. apply open_full. by rewrite Hf, drop_ge. }
  split; [exact Hrem|]. intros H HR present m sm p. split; [apply poll_failed|]. intros port Hport Hfree Hex.
  apply scan_finds; [done..|]. unfold on_disk in *. apply andb_true_iff in Hex as [-> Hin]. apply negb_true_iff in Hin.
  rewrite bool_decide_eq_false in Hin. rewrite bool_decide_eq_false_2; [done|].
  intros [?|Hu]%Hrem; [done | by apply serial_not_unlinked in Hu].
Qed.

(** Two descriptors are left; port 5 is no terminal, nobody answers socket 6. *)
Lemma ports_exhausted_witness :
  let k := Kernel {[ 0%nat := File "console" ]} 3 ∅ [] in
  let bad := [Attempt (fun _ => false) false 5; Attempt (fun c => match c with Connect _ => true | _ => false end) true 6] in
  exists k', open_all bad k = Done ([-1; -1], k') /\ free_fds k' = [] /\
    (forall refuses virt port, open_port refuses virt port k' = Done (-1, k')) /\
    on_disk (fun _ => true) k' (port_name true 6) = false /\
    exists low virt n p', run (get_new_devices (on_disk (fun _ => true) k') 0 0) (Sys (M := ports_mem) ports_start ports_sems) =
      Done (low, virt, n, Sys (M := ports_mem) p' ports_sems) /\ bit_on low 5 = true.
Proof.
  intros k bad. destruct (ports_exhausted bad k) as (k' & Hr & Hf & Hfull & Hrem & Hpoll); [repeat constructor|].
  exists k'. split; [exact Hr|]. split; [exact Hf|]. split; [apply Hfull; vm_compute; lia|]. split.
  - unfold on_disk. rewrite bool_decide_eq_true_2; [reflexivity|]. apply Hrem. right.
    assert (Hl : length (free_fds k) = 2%nat) by (vm_compute; reflexivity). rewrite Hl.
    exists (Attempt (fun c => match c with Connect _ => true | _ => false end) true 6). split; [|split; reflexivity].
    right. left.
  - apply (Hpoll zero_heap _ (fun _ => true) demo sems_start ports_start); [unfold MAX_DEVICES; lia | reflexivity | reflexivity].
Defined.

(** ** Server sockets *)

Lemma socket_run refuses o k : socket refuses o k =
  match free_fds k with
  | [] => Done (-1, k)
  | fd :: _ => if refuses Socket then Done (-1, k) else Done (Z.of_nat fd, set_fds (<[fd := o]> (fds k)) k)
  end.
Proof. unfold socket. destruct (refuses Socket); [by destruct (free_fds k)|]. by rewrite new_fd_run. Qed.

Lemma bind_socket_run refuses fd port k ty r : fds k !! fd = Some (InetSock ty r None false) ->
  bind refuses (Z.of_nat fd) port k =
  if refuses (Bind port) then Done (-1, k) else Done (0, set_fds (<[fd := InetSock ty r (Some port) false]> (fds k)) k).
Proof. intros Hf. unfold bind, update_fd. by rewrite object_at, Hf, Nat2Z.id. Qed.

Lemma listen_run refuses fd port k r : fds k !! fd = Some (InetSock SOCK_STREAM r (Some port) false) ->
  listen refuses (Z.of_nat fd) k =
  if refuses (Listen port) then Done (-1, k) else Done (0, set_fds (<[fd := InetSock SOCK_STREAM r (Some port) true]> (fds k)) k).
Proof. intros Hf. unfold listen, update_fd. by rewrite object_at, Hf, Nat2Z.id. Qed.

Lemma reuse_run refuses fd k ty : fds k !! fd = Some (InetSock ty false None false) ->
  exists r, set_reuseport refuses (Z.of_nat fd) k = Done (r, set_fds (<[fd := InetSock ty (negb (refuses SetSockOpt)) None false]> (fds k)) k).
Proof.
  intros Hf. unfold set_reuseport, update_fd. rewrite object_at, Hf, Nat2Z.id.
  destruct (refuses SetSockOpt); [exists (-1) | by exists 0]. cbn [negb]. rewrite insert_id by done. by destruct k.
Qed.

(** What [socket_setup] and [start_tcp_exposed_port] have in common: a listening socket on the
    port, or the descriptors as before. *)
Definition listening_at (refuses : call -> bool) (fd : nat) (port : Z) (k : kernel) : kernel :=
  set_fds (<[fd := InetSock SOCK_STREAM (negb (refuses SetSockOpt)) (Some port) true]> (fds k)) k.

Definition server_refused (refuses : call -> bool) (port : Z) (k : kernel) : bool :=
  match free_fds k with [] => true | _ => refuses Socket || refuses (Bind port) || refuses (Listen port) end.

Lemma set_set_fds m m' k : set_fds m (set_fds m' k) = set_fds m k.
Proof. done. Qed.

Lemma set_fds_id k : set_fds (fds k) k = k.
Proof. by destruct k. Qed.

(** The common steps after [socket]: reuse, [bind] and [listen]; [f] and [g] go on without
    and with the listening socket. *)
Lemma listen_steps refuses {A} fd rest port k (f g : kio A) :
  free_fds k = fd :: rest ->
  (_ ← set_reuseport refuses (Z.of_nat fd);
   r ← bind refuses (Z.of_nat fd) port;
   if negb (r =? 0) then sys_close (Z.of_nat fd) ;; f
   else r ← listen refuses (Z.of_nat fd); if negb (r =? 0) then sys_close (Z.of_nat fd) ;; f else g)
    (set_fds (<[fd := InetSock SOCK_STREAM false None false]> (fds k)) k) =
  if refuses (Bind port) || refuses (Listen port) then f k else g (listening_at refuses fd port k).
Proof.
  intros Hfree. destruct (free_head k fd rest Hfree) as (_ & Hnone & _).
  set (k1 := set_fds _ k). destruct (reuse_run refuses fd k1 SOCK_STREAM) as (r & Hr); [apply lookup_insert_eq|].
  rewrite (kio_bind_run _ _ _ _ _ Hr). cbn [k1 set_fds fds]. rewrite insert_insert_eq. set (k2 := set_fds _ k1).
  assert (H2 : fds k2 !! fd = Some (InetSock SOCK_STREAM (negb (refuses SetSockOpt)) None false)) by apply lookup_insert_eq.
  assert (Hclose : forall o, (sys_close (Z.of_nat fd) ;; f) (set_fds (<[fd := o]> (fds k)) k) = f k).
  { intros o. rewrite (kio_bind_run _ _ _ _ _ (close_run fd _ o (lookup_insert_eq _ _ _))). cbn [set_fds fds].
    rewrite insert_then_delete by done. by destruct k. }
  unfold mbind at 1, kio_bind at 1. rewrite (bind_socket_run refuses fd port k2 _ _ H2).
  destruct (refuses (Bind port)); rewrite bind_done; cbn [orb]; cbv beta iota; cbn [Z.eqb negb].
  - apply Hclose.
  - cbn [k2 set_fds fds]. rewrite insert_insert_eq. unfold mbind at 1, kio_bind at 1.
    erewrite listen_run by apply lookup_insert_eq.
    destruct (refuses (Listen port)); rewrite bind_done; cbv beta iota; cbn [Z.eqb negb].
    + apply Hclose.
    + cbn [set_fds fds]. rewrite insert_insert_eq. done.
Qed.

Lemma socket_setup_run refuses k : exists sockfd, socket_setup refuses k =
  match free_fds k with
  | fd :: _ => if server_refused refuses RASPI_TCP_PORT k then Done ((1, sockfd), k)
               else Done ((0, Z.of_nat fd), listening_at refuses fd RASPI_TCP_PORT k)
  | [] => Done ((1, sockfd), k)
  end /\ object_of sockfd k = None.
Proof.
  unfold socket_setup, server_refused. destruct (free_fds k) as [|fd rest] eqn:Hf.
  { exists (-1). split; [|done]. by rewrite (kio_bind_run _ _ k (-1) k) by (by rewrite socket_run, Hf). }
  destruct (free_head k fd rest Hf) as (_ & Hnone & _).
  destruct (refuses Socket) eqn:Hs.
  { exists (-1). split; [|done]. by rewrite (kio_bind_run _ _ k (-1) k) by (by rewrite socket_run, Hf, Hs). }
  exists (Z.of_nat fd). split; [|by rewrite object_at].
  erewrite kio_bind_run by (by rewrite socket_run, Hf, Hs). autorewrite with fds. cbn [orb].
  rewrite (listen_steps refuses fd rest RASPI_TCP_PORT k (mret (1, Z.of_nat fd)) (mret (0, Z.of_nat fd)) Hf).
  by destruct (_ || _).
Qed.

Lemma tcp_port_run refuses k : start_tcp_exposed_port refuses k =
  match free_fds k with
  | fd :: _ => if server_refused refuses FWD_TCP_PORT k then Done (-1, k) else Done (Z.of_nat fd, listening_at refuses fd FWD_TCP_PORT k)
  | [] => Done (-1, k)
  end.
Proof.
  unfold start_tcp_exposed_port, server_refused. destruct (free_fds k) as [|fd rest] eqn:Hf.
  { by rewrite (kio_bind_run _ _ k (-1) k) by (by rewrite socket_run, Hf). }
  destruct (refuses Socket) eqn:Hs.
  { by rewrite (kio_bind_run _ _ k (-1) k) by (by rewrite socket_run, Hf, Hs). }
  erewrite kio_bind_run by (by rewrite socket_run, Hf, Hs). autorewrite with fds. cbn [orb].
  rewrite (listen_steps refuses fd rest FWD_TCP_PORT k (mret (-1)) (mret (Z.of_nat fd)) Hf).
  by destruct (_ || _).
Qed.

(** ** The UDP connection *)

(** A step before the threads run is refused; the socket is then left as it is. *)
Definition udp_refused (refuses : call -> bool) : bool :=
  refuses Socket || refuses (Bind RASPI_UDP_PORT) || refuses (PthreadCreate InputThread).

Lemma udp_start_run refuses now k fd rest : free_fds k = fd :: rest ->
  start_udp_conn refuses now udp_globals k =
  if refuses Socket then Done (UdpT (-1) NoThread NoThread 0, k)
  else if refuses (Bind RASPI_UDP_PORT) then
    Done (UdpT (Z.of_nat fd) NoThread NoThread 0, set_fds (<[fd := InetSock SOCK_DGRAM false None false]> (fds k)) k)
  else
    let k' := set_fds (<[fd := InetSock SOCK_DGRAM false (Some RASPI_UDP_PORT) false]> (fds k)) k in
    if refuses (PthreadCreate InputThread) then Done (UdpT (Z.of_nat fd) NoThread NoThread now, k')
    else if refuses (PthreadCreate DeviceThread) then Faulty WildPtr
    else Done (UdpT (Z.of_nat fd) Running Running now, k').
Proof.
  intros Hf. unfold start_udp_conn. unfold mbind at 1, kio_bind at 1. rewrite socket_run, Hf.
  destruct (refuses Socket); rewrite bind_done; cbv beta iota zeta; cbn [udp_globals input_thread device_thread start_time]; [done|].
  autorewrite with fds. unfold mbind at 1, kio_bind at 1. erewrite bind_socket_run by apply lookup_insert_eq.
  destruct (refuses (Bind RASPI_UDP_PORT)); rewrite bind_done; cbv beta iota zeta; cbn [Z.ltb Z.compare]; [done|].
  cbn [set_fds fds]. rewrite insert_insert_eq.
  destruct (refuses (PthreadCreate InputThread)); [done|]. by destruct (refuses (PthreadCreate DeviceThread)).
Qed.

(** An interrupt of a handler whose UDP threads do not run faults before it gets to the
    clients. *)
Lemma sigint_without_udp fd t k shepherd dawn st :
  run (net_sigint (UdpT fd NoThread NoThread t) k shepherd dawn) st = Faulty WildPtr.
Proof. by destruct st. Qed.

Lemma sigint_with_udp fd t k shepherd dawn st :
  run (net_sigint (UdpT fd Running Running t) k shepherd dawn) st = run (sigint_handler shepherd dawn) st.
Proof.
  unfold net_sigint. assert (Hs : exists a, stop_udp_conn (UdpT fd Running Running t) k = Done a).
  { unfold stop_udp_conn. cbn [input_thread device_thread socket_fd start_time]. unfold mbind, kio_bind, pure_io.
    cbn [pthread_cancel pthread_join mret outcome_ret mbind outcome_bind]. unfold sys_close.
    destruct (object_of fd k); by eexists. }
  destruct Hs as [a ->]. by rewrite local_done.
Qed.

(** C28: the start of the network handler and its end. If the listening socket cannot be had, [main] ends
    with nothing left open. Otherwise it listens on RASPI_TCP_PORT, and: with a UDP socket and
    both threads it serves UDP on RASPI_UDP_PORT until the interrupt, which joins both threads
    and closes the socket before it ends the clients' connections; when the socket, its
    address or the first thread is refused, the handler goes on without UDP, and an interrupt
    then cancels a thread that never was, a fault before any client's connection is ended;
    when the second thread is refused, starting faults in the same way. *)
Theorem net_handler_starts refuses now k fd fd' rest : free_fds k = fd :: fd' :: rest ->
  (server_refused refuses RASPI_TCP_PORT k = true -> net_setup refuses now k = Done (None, k) /\
     forall (H : Heap) requests st, run (net_main refuses now requests k) st = Exited 1) /\
  (server_refused refuses RASPI_TCP_PORT k = false ->
   let k1 := listening_at refuses fd RASPI_TCP_PORT k in
   (udp_refused refuses = true -> exists u k2, net_setup refuses now k = Done (Some (Z.of_nat fd, u), k2) /\
      fds k2 !! fd = fds k1 !! fd /\
      forall k3 shepherd dawn st, run (net_sigint u k3 shepherd dawn) st = Faulty WildPtr) /\
   (udp_refused refuses = false -> refuses (PthreadCreate DeviceThread) = true -> net_setup refuses now k = Faulty WildPtr) /\
   (udp_refused refuses = false -> refuses (PthreadCreate DeviceThread) = false ->
    exists u k2 u' k3, net_setup refuses now k = Done (Some (Z.of_nat fd, u), k2) /\
      fds k2 = <[fd' := InetSock SOCK_DGRAM false (Some RASPI_UDP_PORT) false]> (fds k1) /\
      stop_udp_conn u k2 = Done (u', k3) /\ fds k3 = fds k1 /\
      (forall k4 shepherd dawn st, run (net_sigint u k4 shepherd dawn) st = run (sigint_handler shepherd dawn) st))).
Proof.
  intros Hfree. destruct (socket_setup_run refuses k) as (sockfd & Hr & Hno). rewrite Hfree in Hr.
  destruct (free_head k fd (fd' :: rest) Hfree) as (_ & Hnone & _).
  split.
  - intros Hs. rewrite Hs in Hr.
    assert (Hnet : net_setup refuses now k = Done (None, k)).
    { unfold net_setup. rewrite (kio_bind_run _ _ _ _ _ Hr). cbv beta iota. cbn [Z.eqb negb].
      destruct (sockfd =? -1); cbn [negb]; [done|]. unfold mbind, kio_bind, sys_close. by rewrite Hno. }
    split; [done|]. intros H requests st. unfold net_main. rewrite Hnet, local_done. by destruct st.
  - intros Hs k1. rewrite Hs in Hr. fold k1 in Hr.
    assert (Hnet : net_setup refuses now k =
      (start_udp_conn refuses now udp_globals k1 ≫= fun '(u, k2) => Done (Some (Z.of_nat fd, u), k2))).
    { unfold net_setup. by rewrite (kio_bind_run _ _ _ _ _ Hr). }
    assert (Hf1 : free_fds k1 = fd' :: rest) by exact (free_after_insert k fd _ _ Hfree).
    destruct (free_head k1 fd' rest Hf1) as (_ & Hnone1 & _).
    assert (Hne : fd' ≠ fd). { intros ->. unfold k1, listening_at in Hnone1. cbn [set_fds fds] in Hnone1. by rewrite lookup_insert_eq in Hnone1. }
    rewrite (udp_start_run refuses now k1 fd' rest Hf1) in Hnet. unfold udp_refused. rewrite Hnet. clear Hnet.
    assert (Hother : forall o, fds (set_fds (<[fd' := o]> (fds k1)) k1) !! fd = fds k1 !! fd) by (intros o; by apply lookup_insert_ne).
    destruct (refuses Socket); cbn [orb].
    { split; [|done]. intros _. eexists _, _. split; [done|]. split; [done|]. intros. apply sigint_without_udp. }
    destruct (refuses (Bind RASPI_UDP_PORT)); cbn [orb].
    { split; [|done]. intros _. eexists _, _. split; [done|]. split; [apply Hother|]. intros. apply sigint_without_udp. }
    destruct (refuses (PthreadCreate InputThread)); cbn [orb].
    { split; [|done]. intros _. eexists _, _. split; [done|]. split; [apply Hother|]. intros. apply sigint_without_udp. }
    split; [done|]. destruct (refuses (PthreadCreate DeviceThread)); [done|]. split; [done|]. intros _ _.
    eexists _, _, _, _. split; [done|]. split; [done|]. split.
    + unfold stop_udp_conn. cbn [input_thread device_thread socket_fd start_time].
      unfold mbind, kio_bind, pure_io. cbn [pthread_cancel pthread_join mret outcome_ret mbind outcome_bind].
      erewrite close_run by apply lookup_insert_eq. done.
    + split; [by apply insert_then_delete|]. intros k4 shepherd dawn st. apply sigint_with_udp.
Qed.

Lemma net_handler_starts_witness : exists u k2,
  net_setup (fun c => match c with Bind 9000 => true | _ => false end) 5 (Kernel ∅ 8 ∅ []) = Done (Some (0, u), k2) /\
  forall k3 shepherd dawn st, run (net_sigint u k3 shepherd dawn) st = Faulty WildPtr.
Proof.
  destruct (net_handler_starts (fun c => match c with Bind 9000 => true | _ => false end) 5 (Kernel ∅ 8 ∅ []) 0 1 (seq 2 6))
    as [_ Hs]; [reflexivity|]. destruct (Hs eq_refl) as [Hudp _]. destruct (Hudp eq_refl) as (u & k2 & Hn & _ & Hi). exists u, k2. split; [exact Hn | exact Hi].
Defined.

(** ** The converter's clients *)

Section Clients.
Context {H : Heap} {HR : ReliableHeap H}.

Lemma FD_SET_ok fd : Z.of_nat fd < FD_SETSIZE -> FD_SET (Z.of_nat fd) = Done tt.
Proof. intros Hf. unfold FD_SET. by rewrite (proj2 (Z.leb_le _ _)), (proj2 (Z.ltb_lt _ _)) by lia. Qed.

(** A kernel with a listening socket, and a free descriptor below that of [FD_SET]'s limit. *)
Definition ready_for_clients (tcp_server_fd fd : nat) (rest : list nat) (k : kernel) : Prop :=
  free_fds k = fd :: rest /\ Z.of_nat fd < FD_SETSIZE /\
  exists r p, fds k !! tcp_server_fd = Some (InetSock SOCK_STREAM r p true).

(** The clients are served one after the other; each is given the same descriptor, which is
    closed when the client has gone. *)
Lemma serve_clients_run udp_fd tcp_server_fd fd rest k (clients : list (list ready * relay_state)) ss more :
  Z.of_nat udp_fd < FD_SETSIZE -> ready_for_clients tcp_server_fd fd rest k ->
  Forall2 (fun c s => forward c.1 c.2 = Done (true, s)) clients ss ->
  serve_clients (Z.of_nat udp_fd) (Z.of_nat tcp_server_fd) ((Some <$> clients) ++ more) k =
  (serve_clients (Z.of_nat udp_fd) (Z.of_nat tcp_server_fd) more k ≫= fun '(ss', k') => Done (ss ++ ss', k')).
Proof.
  intros Hudp (Hf & Hfd & r & p & Hlisten) Hserved.
  destruct (free_head k fd rest Hf) as (_ & Hnone & _).
  induction Hserved as [|c s clients ss Hc _ IH]; cbn [fmap list_fmap app].
  { destruct (serve_clients _ _ more k) as [[ss' k']| | | |]; done. }
  cbn [serve_clients]. unfold mbind at 1, kio_bind at 1. unfold accept. rewrite object_at, Hlisten, new_fd_run, Hf, bind_done.
  cbv beta iota. destruct c as [rs s0]. cbn [fst snd] in Hc. unfold mbind at 1, kio_bind at 1. unfold forward_fds.
  set (k1 := set_fds _ k).
  assert (Hfwd : (_ ← pure_io (FD_SET (Z.of_nat udp_fd)); _ ← pure_io (FD_SET (Z.of_nat fd));
    '(closed, s) ← pure_io (forward rs s0);
    if (closed : bool) then sys_close (Z.of_nat fd) ;; mret (true, s) else mret (false, s)) k1 = Done ((true, s), k)).
  { unfold mbind, kio_bind, pure_io. rewrite !FD_SET_ok, Hc by done. cbn [mbind outcome_bind mret kio_ret].
    erewrite close_run by apply lookup_insert_eq. cbn [set_fds fds k1]. rewrite insert_then_delete by done. by destruct k. }
  rewrite Hfwd, bind_done. cbv beta iota. unfold mbind at 1, kio_bind at 1. rewrite IH.
  destruct (serve_clients _ _ more k) as [[ss' k']| | | |]; done.
Qed.

(** Without a descriptor to hand to [select], which is what a failing [accept] gives, a bit
    before the array of the set is written. *)
Lemma serve_without_fd udp_fd tcp_server_fd c clients k : Z.of_nat udp_fd < FD_SETSIZE ->
  accept tcp_server_fd (match c with Some _ => true | None => false end) k = Done (-1, k) ->
  serve_clients (Z.of_nat udp_fd) tcp_server_fd (c :: clients) k = Faulty OutOfBounds.
Proof.
  intros Hudp Ha. cbn [serve_clients]. rewrite (kio_bind_run _ _ _ _ _ Ha). destruct c as [[rs s]|].
  all: unfold mbind, kio_bind, forward_fds, mbind, kio_bind, pure_io; by rewrite FD_SET_ok.
Qed.

Lemma serve_without_udp tcp_server_fd c clients k fd k' :
  accept tcp_server_fd (match c with Some _ => true | None => false end) k = Done (fd, k') ->
  serve_clients (-1) tcp_server_fd (c :: clients) k = Faulty OutOfBounds.
Proof. intros Ha. cbn [serve_clients]. rewrite (kio_bind_run _ _ _ _ _ Ha). by destruct c as [[rs s]|]. Qed.

Context {P : Protos} {IP : InputsPack P}.

Lemma announce_run answer : Z.of_nat (length (user_inputs__pack [disconnected_gamepad])) < 65536 ->
  send_gamepad_disconnected answer = Done (snd (sys_sendto answer (user_inputs__pack [disconnected_gamepad]))).
Proof.
  intros Hl. set (d := user_inputs__pack [disconnected_gamepad]) in *. unfold send_gamepad_disconnected, alloc_or_exit.
  destruct (malloc_ok 8) as (b1 & -> & _). destruct (malloc_ok (8 * 4)) as (b2 & -> & _). rewrite !bind_ret. fold d.
  rewrite u16_small, Nat2Z.id by lia. destruct (malloc_ok (length d)) as (b3 & -> & Hb).
  rewrite bind_ret, buf_write_prefix, bind_done by lia. by rewrite <- Hb, drop_all, app_nil_r.
Qed.

(** [main] after its UDP socket is created, and when no socket is created at all. *)
Lemma main_sockets refuses answer cs k fd rest : Z.of_nat (length (user_inputs__pack [disconnected_gamepad])) < 65536 ->
  free_fds k = fd :: rest -> refuses Socket = false ->
  converter_main refuses answer cs k =
  (start_tcp_exposed_port refuses (set_fds (<[fd := InetSock SOCK_DGRAM false None false]> (fds k)) k) ≫= fun '(server, k') =>
     serve_clients (Z.of_nat fd) server cs k' ≫= fun '(ss, k') =>
       Done ((snd (sys_sendto answer (user_inputs__pack [disconnected_gamepad])), ss), k')).
Proof.
  intros Hl Hfree Hs. unfold converter_main. set (k1 := set_fds _ k).
  assert (Hudp : start_udp_relay refuses k = Done (Z.of_nat fd, k1)).
  { unfold start_udp_relay. erewrite kio_bind_run by (by rewrite socket_run, Hfree, Hs). by autorewrite with fds. }
  rewrite (kio_bind_run _ _ _ _ _ Hudp). autorewrite with fds. unfold mbind at 1, kio_bind at 1.
  destruct (start_tcp_exposed_port refuses k1) as [[server k']| | | |]; try done. rewrite !bind_done. cbv beta iota.
  assert (Ha : pure_io (send_gamepad_disconnected answer) k' =
    Done (snd (sys_sendto answer (user_inputs__pack [disconnected_gamepad])), k')) by (unfold pure_io; by rewrite announce_run, bind_done).
  rewrite (kio_bind_run _ _ _ _ _ Ha). done.
Qed.

Lemma main_no_socket refuses answer c cs k : Z.of_nat (length (user_inputs__pack [disconnected_gamepad])) < 65536 ->
  refuses Socket = true -> converter_main refuses answer (c :: cs) k = Faulty OutOfBounds.
Proof.
  intros Hl Hs. unfold converter_main. rewrite (kio_bind_run _ _ k (-1) k) by (unfold start_udp_relay, socket; by rewrite Hs).
  rewrite (kio_bind_run _ _ k (-1) k) by (unfold start_tcp_exposed_port, socket; by rewrite Hs). cbn [Z.ltb Z.compare].
  assert (Ha : pure_io (send_gamepad_disconnected SendErr) k =
    Done (snd (sys_sendto SendErr (user_inputs__pack [disconnected_gamepad])), k)) by (unfold pure_io; by rewrite announce_run, bind_done).
  rewrite (kio_bind_run _ _ _ _ _ Ha). unfold mbind, kio_bind.
  by rewrite (serve_without_udp (-1) c cs k (-1) k).
Qed.

(** C27: the converter's whole run. With both sockets, it announces itself once and serves one client
    after the other, each exactly as [forward] serves it, and every connection's descriptor is
    closed again, so that the next client finds the same. It checks neither its sockets nor
    what [accept] returns: when one of the sockets cannot be had, or [accept] fails once, it
    hands the descriptor -1 to [FD_SET], which writes outside the set. *)
Theorem converter_serves refuses answer k fd1 fd2 fd3 rest clients ss :
  Z.of_nat (length (user_inputs__pack [disconnected_gamepad])) < 65536 ->
  free_fds k = fd1 :: fd2 :: fd3 :: rest -> Z.of_nat ((fd1 `max` fd2) `max` fd3) < FD_SETSIZE ->
  Forall2 (fun c s => forward c.1 c.2 = Done (true, s)) clients ss ->
  let announced := snd (sys_sendto answer (user_inputs__pack [disconnected_gamepad])) in
  (refuses Socket = false -> refuses (Bind FWD_TCP_PORT) = false -> refuses (Listen FWD_TCP_PORT) = false ->
   (exists k', converter_main refuses answer (Some <$> clients) k = Done ((announced, ss), k') /\
      free_fds k' = fd3 :: rest /\ fds k' !! fd1 = Some (InetSock SOCK_DGRAM false None false) /\
      fds k' !! fd2 = Some (InetSock SOCK_STREAM (negb (refuses SetSockOpt)) (Some FWD_TCP_PORT) true)) /\
   (forall more, converter_main refuses answer ((Some <$> clients) ++ None :: more) k = Faulty OutOfBounds)) /\
  (refuses Socket || refuses (Bind FWD_TCP_PORT) || refuses (Listen FWD_TCP_PORT) = true ->
   forall c more, converter_main refuses answer (c :: more) k = Faulty OutOfBounds).
Proof.
  intros Hl Hfree Hmax Hserved announced.
  set (o := InetSock SOCK_DGRAM false None false). set (k1 := set_fds (<[fd1 := o]> (fds k)) k).
  assert (Hf1 : free_fds k1 = fd2 :: fd3 :: rest) by exact (free_after_insert k fd1 o _ Hfree).
  destruct (free_head k1 fd2 _ Hf1) as (_ & Hnone & _).
  assert (Hne : fd2 ≠ fd1) by (intros ->; unfold k1 in Hnone; cbn [set_fds fds] in Hnone; by rewrite lookup_insert_eq in Hnone).
  set (k2 := listening_at refuses fd2 FWD_TCP_PORT k1).
  assert (Hf2 : free_fds k2 = fd3 :: rest) by exact (free_after_insert k1 fd2 _ _ Hf1).
  assert (Htcp := tcp_port_run refuses k1). rewrite Hf1 in Htcp. unfold server_refused in Htcp. rewrite Hf1 in Htcp.
  split.
  - intros Hs Hb Hl2. rewrite Hs, Hb, Hl2 in Htcp. cbn [orb] in Htcp. fold k2 in Htcp.
    assert (Hrun : forall more, converter_main refuses answer ((Some <$> clients) ++ more) k =
      (serve_clients (Z.of_nat fd1) (Z.of_nat fd2) more k2 ≫= fun '(ss', k') => Done ((announced, ss ++ ss'), k'))).
    { intros more. rewrite (main_sockets refuses answer _ k fd1 (fd2 :: fd3 :: rest)) by done. fold o k1.
      rewrite Htcp, bind_done. cbv beta iota.
      rewrite (serve_clients_run fd1 fd2 fd3 rest k2 clients ss more); [|lia| |done].
      - by destruct (serve_clients _ _ more k2) as [[ss' k']| | | |].
      - split; [done|]. split; [lia|]. eexists _, _. apply lookup_insert_eq. }
    split.
    + exists k2. split; [|split; [done|split]].
      * specialize (Hrun []). rewrite !app_nil_r in Hrun. rewrite Hrun. unfold serve_clients, mret, kio_ret. by rewrite bind_done, app_nil_r.
      * etrans; [by apply lookup_insert_ne | apply lookup_insert_eq].
      * apply lookup_insert_eq.
    + intros more. rewrite Hrun, (serve_without_fd fd1 (Z.of_nat fd2) None more k2); [done | lia |].
      unfold accept. rewrite object_at. unfold k2, listening_at. cbn [set_fds fds]. by rewrite lookup_insert_eq.
  - intros Hor c more. destruct (refuses Socket) eqn:Hs.
    + by apply main_no_socket.
    + cbn [orb] in *. rewrite Hor in Htcp. rewrite (main_sockets refuses answer _ k fd1 (fd2 :: fd3 :: rest)) by done. fold o k1.
      rewrite Htcp, bind_done. cbv beta iota. rewrite serve_without_fd; [done | lia | done].
Qed.

End Clients.

#[local] Instance demo_inputs_pack : InputsPack demo_protos :=
  {| user_inputs__pack := fun ins => flat_map (fun i => in_source i :: (if in_connected i then 1 else 0) :: in_buttons i :: in_axes i) ins |}.

Lemma converter_serves_witness :
  let gone := ([Ready None (Some SentAll)], RelayState [Eof] [] [] [] 0) in
  let after := RelayState [Eof] [] [] [] 0 in
  exists k', converter_main (H := zero_heap) (P := demo_protos) (fun _ => false) SentAll (Some <$> [gone; gone]) (Kernel ∅ 16 ∅ []) =
    Done (([[0; 0; 0; 0; 0; 0; 0]], [after; after]), k').
Proof.
  intros gone after.
  destruct (converter_serves (H := zero_heap) (HR := zero_heap_reliable) (P := demo_protos) (fun _ => false) SentAll (Kernel ∅ 16 ∅ [])
    0 1 2 (seq 3 13) [gone; gone] [after; after]) as [Hok _].
  - reflexivity.
  - reflexivity.
  - reflexivity.
  - constructor; [reflexivity|]. constructor; [reflexivity|]. constructor.
  - destruct (Hok eq_refl eq_refl eq_refl) as [(k' & Hk & _) _]. exists k'. exact Hk.
Defined.

(** ** The logger's FIFO *)

Lemma open_ok_run refuses name k fd rest : refuses (Open name) = false -> free_fds k = fd :: rest ->
  sys_open refuses name k = Done (Z.of_nat fd, set_fds (<[fd := File name]> (fds k)) k).
Proof. intros Hr Hf. unfold sys_open. by rewrite Hr, new_fd_run, Hf. Qed.

Lemma fifo_open_run refuses l f k fd rest : refuses (Open LOG_FIFO) = false -> free_fds k = fd :: rest ->
  open_fifo_fd refuses l f k =
  Done ((set_fifo_up true l, LogFiles (log_file f) (Z.of_nat fd)), set_fds (<[fd := File LOG_FIFO]> (fds k)) k).
Proof.
  intros Hr Hf. unfold open_fifo_fd. rewrite (kio_bind_run _ _ _ _ _ (open_ok_run refuses LOG_FIFO k fd rest Hr Hf)).
  by autorewrite with fds.
Qed.

Lemma readers_return_run refuses n : forall l f k, refuses (Open LOG_FIFO) = false -> fifo_up l = true -> (n <= length (free_fds k))%nat ->
  exists f' k', readers_return refuses n l f k = Done ((l, f'), k') /\ log_file f' = log_file f /\
    free_fds k' = drop n (free_fds k) /\
    (forall i o, fds k !! i = Some o -> fds k' !! i = Some o) /\
    (forall i, i ∈ take n (free_fds k) -> fds k' !! i = Some (File LOG_FIFO)) /\
    (n = 0%nat -> f' = f /\ k' = k).
Proof.
  induction n as [|n IH]; intros l f k Hr Hup Hn.
  { exists f, k. do 4 (split; [done|]). split; [|done]. intros i Hi. by apply not_elem_of_nil in Hi. }
  destruct (free_fds k) as [|fd rest] eqn:Hf; [simpl in Hn; lia|]. cbn [readers_return].
  assert (Hnone := free_head k fd rest Hf). destruct Hnone as (_ & Hnone & _).
  set (k1 := set_fds (<[fd := File LOG_FIFO]> (fds k)) k).
  assert (H1 : reader_returns refuses l f k = Done ((l, LogFiles (log_file f) (Z.of_nat fd)), k1)).
  { unfold reader_returns. rewrite (fifo_open_run _ _ _ k fd rest) by done. destruct l. cbn in Hup. by subst. }
  rewrite (kio_bind_run _ _ _ _ _ H1).
  assert (Hf1 : free_fds k1 = rest) by exact (free_after_insert k fd _ rest Hf).
  destruct (IH l (LogFiles (log_file f) (Z.of_nat fd)) k1 Hr Hup) as (f' & k' & Hr' & Hl & Hfree & Hkeep & Hnew & _).
  { rewrite Hf1. simpl in Hn. lia. }
  exists f', k'. split; [done|]. split; [done|]. rewrite Hf1 in Hfree, Hnew. split; [done|]. split; [|split; [|done]].
  - intros i o Hi. apply Hkeep. unfold k1. cbn [set_fds fds]. rewrite lookup_insert_ne; [done|]. intros <-. congruence.
  - intros i Hi. cbn [take] in Hi. apply elem_of_cons in Hi as [->|Hi]; [|by apply Hnew].
    apply Hkeep, lookup_insert_eq.
Qed.

(** Every time that the reader of the FIFO goes and another comes, the logger opens the FIFO
    again without closing the descriptor that it had: after [n] times [n] more are open. What
    [logger_exit] closes is the log file and the last one. *)
Theorem fifo_descriptors_leak refuses n l f k fd fd' rest :
  (forall name, refuses (Open name) = false) -> bit_on (OUTPUTS l) LOG_FILE = true -> bit_on (OUTPUTS l) LOG_NETWORK = true ->
  free_fds k = fd :: fd' :: rest -> (n <= length rest)%nat ->
  exists l1 f1 k1 f2 k2, logger_open refuses l f k = Done ((l1, f1), k1) /\ free_fds k1 = rest /\
    readers_return refuses n l1 f1 k1 = Done ((l1, f2), k2) /\ free_fds k2 = drop n rest /\
    (forall i, i ∈ fd' :: take n rest -> fds k2 !! i = Some (File LOG_FIFO)) /\
    (n = 0%nat -> exists k3, logger_exit l1 f2 k2 = Done (tt, k3) /\ fds k3 = fds k).
Proof.
  intros Hr Hfile Hnet Hf Hn.
  destruct (free_head k fd _ Hf) as (_ & Hnone & _). set (name := log_file_path l).
  set (k0 := set_fds (<[fd := File name]> (fds k)) k).
  assert (Hf0 : free_fds k0 = fd' :: rest) by exact (free_after_insert k fd _ _ Hf).
  destruct (free_head k0 fd' _ Hf0) as (_ & Hnone0 & _).
  set (k1 := set_fds (<[fd' := File LOG_FIFO]> (fds k0)) k0).
  assert (Hf1 : free_fds k1 = rest) by exact (free_after_insert k0 fd' _ _ Hf0).
  set (l1 := set_fifo_up true l). set (f1 := LogFiles (Z.of_nat fd) (Z.of_nat fd')).
  assert (Hopen : logger_open refuses l f k = Done ((l1, f1), k1)).
  { unfold logger_open. rewrite Hfile, Hnet. fold name.
    eapply eq_trans; [apply (kio_bind_run _ _ k (LogFiles (Z.of_nat fd) (fifo_fd f)) k0)|];
      [|by rewrite (fifo_open_run _ _ _ k0 fd' rest)].
    rewrite (kio_bind_run _ _ _ _ _ (open_ok_run refuses name k fd _ (Hr _) Hf)). autorewrite with fds.
    rewrite (kio_bind_run _ _ _ _ _ (close_run fd k0 (File name) (lookup_insert_eq _ _ _))). unfold k0 at 1. cbn [set_fds fds].
    rewrite insert_then_delete by done. change (set_fds (fds k) k0) with (set_fds (fds k) k). rewrite set_fds_id.
    rewrite (kio_bind_run _ _ _ _ _ (open_ok_run refuses name k fd _ (Hr _) Hf)). by autorewrite with fds. }
  destruct (readers_return_run refuses n l1 f1 k1) as (f2 & k2 & Hrun & _ & Hfree & Hkeep & Hnew & H0); [done | done | by rewrite Hf1 |].
  rewrite Hf1 in Hfree, Hnew. exists l1, f1, k1, f2, k2. do 4 (split; [done|]). split.
  - intros i Hi. apply elem_of_cons in Hi as [->|Hi]; [|by apply Hnew]. apply Hkeep, lookup_insert_eq.
  - intros Hz. destruct (H0 Hz) as [-> ->]. unfold logger_exit. change (OUTPUTS l1) with (OUTPUTS l). rewrite Hfile, Hnet.
    assert (Hne : fd' ≠ fd) by (intros ->; unfold k0 in Hnone0; cbn [set_fds fds] in Hnone0; by rewrite lookup_insert_eq in Hnone0).
    assert (Hlog : fds k1 !! fd = Some (File name)) by (etrans; [by apply lookup_insert_ne | apply lookup_insert_eq]).
    set (k2 := set_fds (delete fd (fds k1)) k1).
    assert (Hfifo : fds k2 !! fd' = Some (File LOG_FIFO)) by (etrans; [by apply lookup_delete_ne | apply lookup_insert_eq]).
    exists (set_fds (delete fd' (fds k2)) k2). split.
    + unfold mbind, kio_bind. cbn [f1 log_file fifo_fd]. rewrite (close_run fd k1 _ Hlog). cbn [mbind outcome_bind mret kio_ret].
      fold k2. change (fifo_up l1) with true. cbn [andb]. by rewrite (close_run fd' k2 _ Hfifo).
    + cbn [set_fds fds k2 k1 k0]. rewrite delete_insert_ne by congruence.
      rewrite (delete_insert_id (fds k)) by done. apply delete_insert_id.
      unfold k0 in Hnone0. cbn [set_fds fds] in Hnone0. by rewrite lookup_insert_ne in Hnone0 by congruence.
Qed.

(** ** The executor *)

(** The parent of the executor runs its loop once the challenge socket is bound, and the old
    socket's file has been removed; when the kernel refuses the socket or the name it ends with
    1, in the second case with the socket still open. *)
Theorem executor_starts refuses stacks forks k fd rest st : free_fds k = fd :: rest ->
  (refuses Socket = true -> run (executor_main refuses stacks forks k) st = Exited 1) /\
  (refuses (BindName CHALLENGE_SOCKET) = true -> run (executor_main refuses stacks forks k) st = Exited 1 /\
     (refuses Socket = false -> exists k', challenge_setup refuses k = Done (None, k') /\
        fds k' !! fd = Some (UnixSock None None) /\ free_fds k' = rest)) /\
  (refuses Socket = false -> refuses (BindName CHALLENGE_SOCKET) = false ->
     run (executor_main refuses stacks forks k) st = run (Executor.main_loop stacks (Executor.executor_start forks)) st /\
     exists k', challenge_setup refuses k = Done (Some (Z.of_nat fd), k') /\ fds k' !! fd = Some (NamedSock CHALLENGE_SOCKET)).
Proof.
  intros Hf. set (k1 := Kernel (fds k) (fd_limit k) (ttys k) (CHALLENGE_SOCKET :: removed k)).
  assert (Hf1 : free_fds k1 = fd :: rest) by exact Hf.
  set (k2 := set_fds (<[fd := UnixSock None None]> (fds k1)) k1).
  assert (Hsetup : challenge_setup refuses k =
    if refuses Socket then Done (None, k1)
    else if refuses (BindName CHALLENGE_SOCKET) then Done (None, k2)
    else Done (Some (Z.of_nat fd), update_fd (Z.of_nat fd) (NamedSock CHALLENGE_SOCKET) k2)).
  { unfold challenge_setup. rewrite (kio_bind_run _ _ k tt k1) by done. destruct (refuses Socket) eqn:Hs.
    - by rewrite (kio_bind_run _ _ k1 (-1) k1) by (by rewrite socket_run, Hf1, Hs).
    - rewrite (kio_bind_run _ _ k1 (Z.of_nat fd) k2) by (by rewrite socket_run, Hf1, Hs). autorewrite with fds.
      unfold mbind, kio_bind, bind_name. rewrite object_at. unfold k2 at 1. cbn [set_fds fds]. rewrite lookup_insert_eq.
      by destruct (refuses (BindName _)). }
  unfold executor_main. rewrite Hsetup. split; [by intros ->|]. split.
  - intros Hb. rewrite Hb. split; [by destruct (refuses Socket)|]. intros ->. exists k2. split; [done|].
    split; [apply lookup_insert_eq | exact (free_after_insert k1 fd _ rest Hf1)].
  - intros -> ->. split; [done|]. eexists. split; [done|]. unfold update_fd. rewrite Nat2Z.id. apply lookup_insert_eq.
Qed.
