(* ===== verification/StudentApi.v ===== *)
(** * The student API (src/executor/studentapi.pyx).

    What the student's Python code calls: reading the gamepad and the keyboard, reading and
    setting parameters of devices, logging, subscriptions, and actions in threads of their own.
    The module is Cython: Python values cross into C types, which can raise. A text is the list
    of its code points. A call is a program over the shared memory whose result is a value or
    an exception. What Python takes for digits and spaces beyond ASCII, and how its numbers
    become C numbers, are parameters ([PythonValues]) with the documented laws. *)

From stdpp Require Import gmap strings.
From S2P Require Export GameState.

(** ** Values and exceptions *)

Inductive pyval : Set :=
| PyInt (z : Z)
| PyFloat (bits : Z)              (* the 64 bits of a Python float *)
| PyBool (b : bool)
| PyOther (type_name : string).

Inductive exn : Set :=
| NotImplementedError | DeviceError | KeyError | ValueError | IndexError | RuntimeError
| TypeError | OverflowError | MemoryError | UnicodeEncodeError.

#[export] Instance pyval_eq_dec : EqDecision pyval.
Proof. solve_decision. Defined.
#[export] Instance exn_eq_dec : EqDecision exn.
Proof. solve_decision. Defined.

Inductive pyres (A : Type) : Type := Val (a : A) | Raise (e : exn).
Arguments Val {A} a.
Arguments Raise {A} e.

#[export] Instance pyres_ret : MRet pyres := fun A a => Val a.
#[export] Instance pyres_bind : MBind pyres := fun A B f r =>
  match r with Val a => f a | Raise e => Raise e end.

(** A call that may raise, over the shared memory. *)
Definition py (A : Type) : Type := prog (M := shm_mem) (pyres A).
Definition value {A} (a : A) : py A := mret (Val a).
Definition raise {A} (e : exn) : py A := mret (Raise e).
Definition attempt {A} (r : pyres A) : py A := mret r.
Definition call {A} (p : prog (M := shm_mem) A) : py A := a ← p; mret (Val a).
Definition py_bind {A B} (m : py A) (f : A -> py B) : py B :=
  prog_bind_def (M := shm_mem) (fun r => match r with Val a => f a | Raise e => mret (Raise e) end) m.

Declare Scope py_scope.
Notation "'try' x ':=' m 'in' k" := (py_bind m (fun x => k))
  (at level 10, x name, m at level 200, k at level 200) : py_scope.
Notation "'try' ' x ':=' m 'in' k" := (py_bind m (fun x => k))
  (at level 10, x strict pattern, m at level 200, k at level 200) : py_scope.
#[local] Open Scope py_scope.

(** ** Text *)

(** The code points of an ASCII text. *)
Fixpoint text (s : string) : list Z :=
  match s with EmptyString => [] | String c s => Z.of_nat (Ascii.nat_of_ascii c) :: text s end.

(** The bytes of a code point in UTF-8; surrogates have none. *)
Definition utf8 (c : Z) : option (list Z) :=
  if c <? 128 then Some [c]
  else if c <? 2048 then Some [192 + c / 64; 128 + c mod 64]
  else if (55296 <=? c) && (c <? 57344) then None
  else if c <? 65536 then Some [224 + c / 4096; 128 + c / 64 mod 64; 128 + c mod 64]
  else Some [240 + c / 262144; 128 + c / 4096 mod 64; 128 + c / 64 mod 64; 128 + c mod 64].

Fixpoint bytes_string (bs : list Z) : string :=
  match bs with [] => EmptyString | b :: bs => String (Ascii.ascii_of_nat (Z.to_nat b)) (bytes_string bs) end.

(** [str.encode('utf-8')]. *)
Fixpoint encode (s : list Z) : pyres string :=
  match s with
  | [] => Val EmptyString
  | c :: s =>
      match utf8 c with
      | None => Raise UnicodeEncodeError
      | Some bs => rest ← encode s; Val (bytes_string bs +:+ rest)
      end
  end.

(** A [bytes] object given as a [char*] ends at its first zero byte. *)
Fixpoint c_str (s : string) : string :=
  match s with
  | EmptyString => EmptyString
  | String c s => if Ascii.eqb c Ascii.zero then EmptyString else String c (c_str s)
  end.

(** [str.split(c)]. *)
Fixpoint str_split (c : Z) (s : list Z) : list (list Z) :=
  match s with
  | [] => [[]]
  | x :: s =>
      if x =? c then [] :: str_split c s
      else match str_split c s with w :: ws => (x :: w) :: ws | [] => [[x]] end
  end.

Definition underscore : Z := 95.

(** What the interpreter takes for a decimal digit and for a space, and how its values become C
    values: an [int32_t], a [float] by its bits, [int(value)]; and a [float] as a Python one. *)
Class PythonValues : Type := {
  digit_of : Z -> option Z;
  is_blank : Z -> bool;
  int32_of : pyval -> pyres Z;
  float_of : pyval -> pyres Z;
  int_of : pyval -> pyres Z;
  widen : Z -> Z
}.

Definition int32_range (z : Z) : bool := (-2147483648 <=? z) && (z <=? 2147483647).
Definition uint64_range (z : Z) : bool := (0 <=? z) && (z <? 2 ^ 64).
Definition uint8_range (z : Z) : bool := (0 <=? z) && (z <? 256).

Section Text.
Context {PV : PythonValues}.

Fixpoint skip_blanks (s : list Z) : list Z :=
  match s with c :: s' => if is_blank c then skip_blanks s' else s | [] => [] end.
Definition strip_blanks (s : list Z) : list Z := reverse (skip_blanks (reverse (skip_blanks s))).

Fixpoint digits_value (acc : Z) (s : list Z) : option Z :=
  match s with
  | [] => Some acc
  | c :: s => match digit_of c with Some d => digits_value (10 * acc + d) s | None => None end
  end.

Definition unsigned (s : list Z) : option Z := match s with [] => None | _ => digits_value 0 s end.

(** [int(text)] for a text without underscores: 43 and 45 are the signs. An interpreter's limit
    on the number of digits is not modelled. *)
Definition py_int (s : list Z) : pyres Z :=
  let parsed := match strip_blanks s with
                | 43 :: s => unsigned s
                | 45 :: s => Z.opp <$> unsigned s
                | s => unsigned s
                end in
  match parsed with Some z => Val z | None => Raise ValueError end.

(** A Python integer assigned to a C variable. *)
Definition to_c (range : Z -> bool) (z : Z) : pyres Z := if range z then Val z else Raise OverflowError.

(** ** Devices and their parameters *)

(** [device_type] and [device_uid], of [splits]. *)
Definition parse_id (device_id : list Z) : pyres (Z * Z) :=
  match str_split underscore device_id with
  | [a; b] =>
      type ← py_int a; type ← to_c int32_range type;
      uid ← py_int b; uid ← to_c uint64_range uid;
      Val (type, uid)
  | _ => Raise ValueError
  end.

(** The common beginning of [get_value] and [set_value]: [get_device] takes the low byte of
    [device_type]. *)
Definition find_target (device_id param_name : list Z) : pyres (Z * Z * nat * param_type_t) :=
  param ← encode param_name;
  '(device_type, device_uid) ← parse_id device_id;
  match get_device (u8 device_type) with
  | None => Raise DeviceError
  | Some device =>
      match find_param device param with
      | None => Raise DeviceError
      | Some (param_idx, desc) => Val (device_type, device_uid, param_idx, pd_type desc)
      end
  end.

Definition param_bit (param_idx : nat) : Z := u32 (Z.shiftl 1 (Z.of_nat param_idx)).

(** A parameter as the student sees it. *)
Definition read_value (ty : param_type_t) (v : param_val_t) : pyval :=
  match ty with
  | INT => PyInt (p_i v)
  | FLOAT => PyFloat (widen (p_f v))
  | BOOL => PyBool (negb (p_b v =? 0))
  end.

(** The member of the union is assigned from the student's value. *)
Definition store_value (ty : param_type_t) (v : param_val_t) (x : pyval) : pyres param_val_t :=
  match ty with
  | INT => z ← int32_of x; Val (set_p_i v z)
  | FLOAT => w ← float_of x; Val (set_p_f v w)
  | BOOL => z ← int_of x; z ← to_c uint8_range z; Val (set_p_b v z)
  end.

(** [PyMem_Malloc] of MAX_PARAMS values: their contents, if there is memory. *)
Definition allocated : Set := option (list param_val_t).

End Text.

Module Robot.
Section Robot.
Context {PV : PythonValues}.

Definition get_value (mem : allocated) (device_id param_name : list Z) : py pyval :=
  try '(device_type, device_uid, param_idx, param_type) := attempt (find_target device_id param_name) in
  match mem with
  | None => raise MemoryError
  | Some param_value =>
      try '(err, param_value) := call (device_read_uid device_uid EXECUTOR DATA (param_bit param_idx) param_value) in
      if err =? -1 then raise DeviceError
      else
        try v := call (local (buf_get param_value param_idx)) in
        value (read_value param_type v)
  end.

(** [g]: the game states of the executor's filter, which takes the type as a byte. *)
Definition set_value (g : gamestate_t) (mem : allocated) (device_id param_name : list Z) (x : pyval) : py unit :=
  try '(device_type, device_uid, param_idx, param_type) := attempt (find_target device_id param_name) in
  match mem with
  | None => raise MemoryError
  | Some param_value =>
      try old := call (local (buf_get param_value param_idx)) in
      try v := attempt (store_value param_type old x) in
      try param_value := call (local (buf_set param_value param_idx v)) in
      try '(err, _) := call (filter_device_write_uid g (u8 device_type) device_uid EXECUTOR COMMAND (param_bit param_idx) param_value) in
      if err =? -1 then raise DeviceError else value tt
  end.

(** The type and the value that [log] writes; [param] is what the stack holds. *)
Definition log_value (param : param_val_t) (x : pyval) : pyres (param_type_t * param_val_t) :=
  match x with
  | PyInt _ => v ← store_value INT param x; Val (INT, v)
  | PyFloat _ => v ← store_value FLOAT param x; Val (FLOAT, v)
  | PyBool b => Val (BOOL, set_p_b param (if b then 1 else 0))
  | PyOther _ => Raise ValueError
  end.

Definition log (param : param_val_t) (key : list Z) (x : pyval) : py unit :=
  if (LOG_KEY_LENGTH <=? length key)%nat then raise ValueError
  else
    try key_bytes := attempt (encode key) in
    try '(param_type, v) := attempt (log_value param x) in
    try err := call (log_data_write (c_str key_bytes) param_type v) in
    if err =? -1 then raise IndexError
    else if err =? -2 then raise RuntimeError
    else value tt.

(** [__cinit__]: whether the robot starts on the left. *)
Definition start_pos : py bool :=
  try v := call (robot_desc_read START_POS) in value (v =? val_index LEFT).

End Robot.
End Robot.

(** ** Inputs *)

(** The position of a name in one of the C arrays. *)
Definition name_index (names : list string) (name : string) : option nat := fst <$> list_find (fun s => s = name) names.

(** [__cinit__] of both: whether the run mode is TELEOP. *)
Definition available : py bool :=
  try mode := call (robot_desc_read RUN_MODE) in value (mode =? val_index TELEOP).

(** [b] and [js] are what the stack holds in [buttons] and [joysticks]. The loop variable is a
    Python integer, so that [1 << i] has a bit for each of the keys. *)
Module Gamepad.
Definition get_value {PV : PythonValues} (available : bool) (b : Z) (js : list Z) (param_name : list Z) : py pyval :=
  if negb available then raise NotImplementedError
  else
    try param := attempt (encode param_name) in
    try '(err, buttons, joysticks) := call (input_read b js GAMEPAD) in
    if err =? -1 then raise DeviceError
    else match name_index (take NUM_GAMEPAD_BUTTONS BUTTON_NAMES) param with
    | Some i => value (PyBool (bit_on buttons i))
    | None =>
        match name_index JOYSTICK_NAMES param with
        | Some i => try v := call (local (buf_get joysticks i)) in value (PyFloat (widen v))
        | None => raise KeyError
        end
    end.
End Gamepad.

Module Keyboard.
Definition get_value (available : bool) (b : Z) (js : list Z) (param_name : list Z) : py pyval :=
  if negb available then raise NotImplementedError
  else
    try param := attempt (encode param_name) in
    try '(err, buttons, joysticks) := call (input_read b js KEYBOARD) in
    if err =? -1 then raise DeviceError
    else match name_index (take NUM_KEYBOARD_BUTTONS KEY_NAMES) param with
    | Some i => value (PyBool (bit_on buttons i))
    | None => raise KeyError
    end.
End Keyboard.

(** ** Subscriptions *)

(** The loops over the names and the parameters of a device. *)
Fixpoint request_of (device : device_t) (names : list (list Z)) (request : Z) : pyres Z :=
  match names with
  | [] => Val request
  | p :: names =>
      param ← encode p;
      request_of device names
        (foldl (fun r i => match params device !! i with
                           | Some d => if bool_decide (pd_name d = Some param) then bit_set r i else r
                           | None => r
                           end) request (seq 0 (num_params device)))
  end.

(** The loop over the identifiers that the student's code uses, with the names of the
    parameters that it reads of each, as [get_all_params] has found them. Here too [1 << i] is a
    Python integer; the messages for the log are left out. *)
Fixpoint make_device_subs {PV : PythonValues} (params : list (list Z * list (list Z))) : py unit :=
  match params with
  | [] => value tt
  | (id, names) :: params =>
      try '(type, uid) := attempt (match str_split underscore id with
        | a :: b :: _ => type ← py_int a; uid ← py_int b; Val (type, uid)
        | [a] => type ← py_int a; Raise IndexError
        | [] => Raise IndexError
        end) in
      try type := attempt (to_c uint8_range type) in
      match get_device type with
      | None => make_device_subs params
      | Some device =>
          try request := attempt (request_of device names 0) in
          try uid := attempt (to_c uint64_range uid) in
          try _ := call (place_sub_request uid EXECUTOR request) in
          make_device_subs params
      end
  end.

(** ** Actions *)

Definition MAX_THREADS : nat := 8.

(** The dictionary of the threads by the names of their functions, and the threads alive. *)
Record actions : Set := Actions { running_actions : gmap string nat; alive : gset nat; next_thread : nat }.

Definition no_actions : actions := Actions ∅ ∅ 0.

Definition is_running (r : actions) (action : string) : bool :=
  match running_actions r !! action with
  | Some thread => bool_decide (thread ∈ alive r)
  | None => false
  end.

(** [others]: the threads of the interpreter that are no actions, the main thread among them. *)
Definition active_count (others : nat) (r : actions) : nat := others + size (alive r).

Inductive run_result : Set := Started | AlreadyRunning | TooMany.

(** The two tests of [run], and the start of the thread. *)
Definition run_check (others : nat) (r : actions) (action : string) : run_result :=
  if is_running r action then AlreadyRunning
  else if (MAX_THREADS <? active_count others r)%nat then TooMany
  else Started.

Definition run_start (r : actions) (action : string) : actions :=
  Actions (<[action := next_thread r]> (running_actions r)) ({[next_thread r]} ∪ alive r) (S (next_thread r)).

Definition run_action (others : nat) (r : actions) (action : string) : run_result * actions :=
  match run_check others r action with
  | Started => (Started, run_start r action)
  | refused => (refused, r)
  end.

Definition finish (thread : nat) (r : actions) : actions :=
  Actions (running_actions r) (alive r ∖ {[thread]}) (next_thread r).

(** The student's code runs actions, one call after the other, and they end. *)
Inductive act_step : actions -> actions -> Prop :=
| runs others action r : (0 < others)%nat -> act_step r (snd (run_action others r action))
| ends thread r : act_step r (finish thread r).
