(* ===== verification/StudentSpec.v ===== *)
(** * What the student's code can do.

    Theorems on [StudentApi]: the identifiers of devices, what a parameter reads as, where a
    value that is set arrives, which calls are refused, and the log. *)

From stdpp Require Import gmap strings pretty relations.
From S2P Require Export StudentApi GameSpec UdpSpec LowcarSpec.
#[local] Open Scope py_scope.

(** ** The laws of Python's values *)

Class PythonLaws (PV : PythonValues) : Prop := {
  digit_ascii : forall c, 0 <= c < 128 -> digit_of c = if (48 <=? c) && (c <? 58) then Some (c - 48) else None;
  blank_ascii : forall c, 33 <= c < 128 -> is_blank c = false;
  int32_of_int : forall z, int32_of (PyInt z) = if int32_range z then Val z else Raise OverflowError;
  int32_of_range : forall x z, int32_of x = Val z -> int32_range z = true;
  float_of_word : forall x w, float_of x = Val w -> word32 w;
  float_of_widen : forall w, word32 w -> f32_nan w = false -> float_of (PyFloat (widen w)) = Val w;
  int_of_bool : forall b, int_of (PyBool b) = Val (if b then 1 else 0)
}.

(** A concrete interpreter for examples, whose floats are those of 32 bits. *)
Definition demo_python : PythonValues := {|
  digit_of c := if (48 <=? c) && (c <? 58) then Some (c - 48) else None;
  is_blank c := (c =? 32) || ((9 <=? c) && (c <=? 13)) || ((28 <=? c) && (c <=? 31));
  int32_of x := match x with
    | PyInt z => if int32_range z then Val z else Raise OverflowError
    | PyBool b => Val (if b then 1 else 0)
    | _ => Raise TypeError
    end;
  float_of x := match x with PyFloat w => Val (u32 w) | _ => Raise TypeError end;
  int_of x := match x with PyInt z => Val z | PyBool b => Val (if b then 1 else 0) | _ => Raise TypeError end;
  widen w := w
|}.

#[export] Instance demo_python_laws : PythonLaws demo_python.
Proof.
  split; cbn -[int32_range]; try done.
  - intros c Hc. destruct (Z.eqb_spec c 32); [lia|]. destruct (Z.leb_spec c 13); [lia|]. destruct (Z.leb_spec c 31); [lia|].
    by rewrite !andb_false_r.
  - intros [z| |b|] z' Hz; try done.
    + destruct (int32_range z) eqn:E; [|done]. by injection Hz as <-.
    + injection Hz as <-. by destruct b.
  - intros [| | |] w Hw; try done. injection Hw as <-. apply Z.mod_pos_bound. lia.
  - intros w Hw _. by rewrite u32_small.
Qed.

(** ** Programs that may raise *)

Lemma run_py_bind {A B} (m : py A) (f : A -> py B) st :
  run (py_bind m f) st = (run m st ≫= fun '(r, st') =>
    match r with Val a => run (f a) st' | Raise e => Done (Raise e, st') end).
Proof.
  unfold py_bind.
  etrans; [exact (run_bind (M := shm_mem) m (fun r => match r with Val a => f a | Raise e => mret (Raise e) end) st)|].
  destruct (run m st) as [[[a|e] st']| | | |]; done.
Qed.

Lemma run_py {A B} (m : py A) (f : A -> py B) st a st' :
  run m st = Done (Val a, st') -> run (py_bind m f) st = run (f a) st'.
Proof. intros Hm. by rewrite run_py_bind, Hm. Qed.

Lemma run_call_last {A} (p : prog (M := shm_mem) A) st a st' :
  run p st = Done (a, st') -> run (call p) st = Done (Val a, st').
Proof. intros Hp. unfold call. by rewrite (run_then (M := shm_mem) _ _ _ _ _ Hp). Qed.

Lemma run_call {A B} (p : prog (M := shm_mem) A) (f : A -> py B) st a st' :
  run p st = Done (a, st') -> run (py_bind (call p) f) st = run (f a) st'.
Proof. intros Hp. by apply run_py, run_call_last. Qed.

Lemma run_attempt {A B} (r : pyres A) (f : A -> py B) st :
  run (py_bind (attempt r) f) st = match r with Val a => run (f a) st | Raise e => Done (Raise e, st) end.
Proof. by destruct r. Qed.

Lemma run_local {A B} (o : outcome A) (f : A -> py B) st a : o = Done a -> run (py_bind (call (local o)) f) st = run (f a) st.
Proof. by intros ->. Qed.

Lemma pyres_bind_val {A B} (r : pyres A) (f : A -> pyres B) b : (r ≫= f) = Val b -> exists a, r = Val a /\ f a = Val b.
Proof. destruct r as [a|e]; [by exists a | done]. Qed.

(** ** Identifiers *)

(** How a student writes the identifier of a device. *)
Definition id_text (type uid : Z) : list Z := text (pretty type +:+ "_" +:+ pretty uid).

Definition is_digit (c : Z) : Prop := 48 <= c < 58.

Lemma text_app s t : text (s +:+ t) = text s ++ text t.
Proof. induction s as [|c s IH]; [done|]. cbn [text app]. rewrite <- IH. reflexivity. Qed.

Lemma str_split_none c s : Forall (fun x => x ≠ c) s -> str_split c s = [s].
Proof.
  induction s as [|x s IH]; intros Hs; [done|]. apply Forall_cons_1 in Hs as [Hx Hs]. cbn.
  rewrite (proj2 (Z.eqb_neq _ _)) by done. by rewrite IH.
Qed.

Lemma str_split_app c a b : Forall (fun x => x ≠ c) a -> str_split c (a ++ c :: b) = a :: str_split c b.
Proof.
  induction a as [|x a IH]; intros Ha; cbn; [by rewrite Z.eqb_refl|]. apply Forall_cons_1 in Ha as [Hx Ha].
  rewrite (proj2 (Z.eqb_neq _ _)) by done. by rewrite IH.
Qed.

Section Identifiers.
Context {PV : PythonValues} {PL : PythonLaws PV}.

Lemma pretty_char_digit x : (x < 10)%N ->
  Z.of_nat (Ascii.nat_of_ascii (pretty_N_char x)) = 48 + Z.of_N x.
Proof.
  intros Hx. destruct x as [|p]; [done|].
  do 4 (destruct p as [p|p|]; try reflexivity; try lia).
Qed.

Lemma pretty_go_value x : forall s,
  digits_value 0 (text (pretty_N_go x s)) = digits_value (Z.of_N x) (text s) /\
  (Forall is_digit (text s) -> Forall is_digit (text (pretty_N_go x s))).
Proof.
  induction x as [x IH] using (well_founded_induction N.lt_wf_0). intros s.
  destruct (decide (x = 0%N)) as [->|Hx]; [by rewrite pretty_N_go_0|].
  rewrite pretty_N_go_step by lia.
  pose proof (N.mod_lt x 10 ltac:(done)) as Hm.
  destruct (IH (x / 10)%N ltac:(apply N.div_lt; lia) (String (pretty_N_char (x mod 10)) s)) as [IHv IHd].
  pose proof (pretty_char_digit _ Hm) as Hc. cbn [text] in IHv, IHd. rewrite Hc in IHv, IHd. clear Hc.
  pose proof (N.div_mod x 10 ltac:(done)) as Hdm.
  set (q := (x / 10)%N) in *. set (r := (x mod 10)%N) in *. clearbody q r.
  split.
  - rewrite IHv. cbn [digits_value]. rewrite digit_ascii by lia.
    replace ((48 <=? _) && _) with true by (symmetry; apply andb_true_iff; lia).
    f_equal. lia.
  - intros Hs. apply IHd. constructor; [|done]. unfold is_digit. lia.
Qed.

Lemma text_go_ne x s : s ≠ EmptyString -> text (pretty_N_go x s) ≠ [].
Proof.
  revert s. induction x as [x IH] using (well_founded_induction N.lt_wf_0). intros s Hs.
  destruct (decide (x = 0%N)) as [->|Hx]; [rewrite pretty_N_go_0; by destruct s|].
  rewrite pretty_N_go_step by lia. apply IH; [apply N.div_lt; lia | done].
Qed.

(** A number is written in decimal digits that stand for it. *)
Lemma pretty_digits z : 0 <= z ->
  text (pretty z) ≠ [] /\ Forall is_digit (text (pretty z)) /\ digits_value 0 (text (pretty z)) = Some z.
Proof.
  intros Hz. destruct z as [|p|p]; [|clear Hz|lia].
  - change (text (pretty 0)) with [48]. split; [done|]. split; [repeat constructor; unfold is_digit; lia|]. cbn [digits_value].
    by rewrite digit_ascii.
  - change (pretty (Z.pos p)) with (pretty (N.pos p)). unfold pretty, pretty_N. cbn [decide].
    rewrite decide_False by done. destruct (pretty_go_value (N.pos p) "") as [Hv Hd].
    split; [|by split; [apply Hd|]].
    rewrite pretty_N_go_step by lia. by apply text_go_ne.
Qed.

Lemma skip_digits c s : is_digit c -> skip_blanks (c :: s) = c :: s.
Proof. intros Hc. cbn. rewrite blank_ascii by (unfold is_digit in Hc; lia). done. Qed.

Lemma py_int_digits s z : s ≠ [] -> Forall is_digit s -> digits_value 0 s = Some z -> py_int s = Val z.
Proof.
  intros Hne Hd Hz. unfold py_int, strip_blanks. destruct s as [|c s]; [done|].
  pose proof (Forall_cons_1 _ _ _ Hd) as [Hc _]. rewrite skip_digits by done.
  destruct (reverse (c :: s)) as [|x r] eqn:Er.
  { apply (f_equal reverse) in Er. rewrite reverse_involutive in Er. done. }
  assert (Hx : is_digit x).
  { apply (Forall_reverse is_digit (c :: s)) in Hd. rewrite Er in Hd. by apply Forall_cons_1 in Hd as [? _]. }
  rewrite skip_digits by done. rewrite <- Er, reverse_involutive. clear Er.
  assert (Hu : unsigned (c :: s) = Some z) by done. unfold is_digit in Hc.
  assert (Hcases : c = 48 \/ c = 49 \/ c = 50 \/ c = 51 \/ c = 52 \/ c = 53 \/ c = 54 \/ c = 55 \/ c = 56 \/ c = 57) by lia.
  by repeat (destruct Hcases as [-> | Hcases]; [by rewrite Hu|]); subst c; rewrite Hu.
Qed.

Lemma digits_no_underscore s : Forall is_digit s -> Forall (fun x => x ≠ underscore) s.
Proof. apply Forall_impl. unfold is_digit, underscore. lia. Qed.

Lemma parse_id_text type uid : int32_range type = true -> 0 <= type -> uint64_range uid = true ->
  parse_id (id_text type uid) = Val (type, uid).
Proof.
  intros Ht Hp Hu. assert (H0 : 0 <= uid) by (unfold uint64_range in Hu; lia).
  destruct (pretty_digits type Hp) as (Ne1 & D1 & V1). destruct (pretty_digits uid H0) as (Ne2 & D2 & V2).
  unfold parse_id, id_text. rewrite text_app. change (text ("_" +:+ pretty uid)) with (underscore :: text (pretty uid)).
  rewrite str_split_app, str_split_none by (by apply digits_no_underscore).
  rewrite (py_int_digits _ type Ne1 D1 V1), (py_int_digits _ uid Ne2 D2 V2). cbn [mbind pyres_bind].
  unfold to_c. rewrite Ht. cbn [mbind pyres_bind]. by rewrite Hu.
Qed.

End Identifiers.

(** ** Looking a parameter up *)

Definition ascii (s : string) : Prop := Forall (fun c => c < 128) (text s).

Lemma encode_text s : ascii s -> encode (text s) = Val s.
Proof.
  unfold ascii. induction s as [|c s IH]; [done|]. cbn [text]. intros [Hc Hs]%Forall_cons_1. cbn [encode].
  unfold utf8. rewrite (proj2 (Z.ltb_lt _ _)) by done. rewrite IH by done. cbn [mbind pyres_bind bytes_string].
  by rewrite Nat2Z.id, Ascii.ascii_nat_embedding.
Qed.

Definition param_names (d : device_t) : list string := omap pd_name (params d).

Lemma registry_ascii i d : DEVICES !! i = Some (Some d) -> Forall ascii (param_names d).
Proof.
  intros Hi. apply (bool_decide_eq_true_1 _).
  refine (registry_forall_lookup (fun _ d => bool_decide (Forall ascii (param_names d))) _ _ _ _ Hi).
  vm_compute. reflexivity.
Qed.

Lemma find_param_facts t d name i p : get_device t = Some d -> find_param d name = Some (i, p) ->
  (i < MAX_PARAMS)%nat /\ (i < num_params d)%nat /\ params d !! i = Some p /\ pd_name p = Some name /\ ascii name.
Proof.
  intros Hd Hf. apply (find_param_Some t) in Hf as (Hi & Hp & Hn); [|done].
  pose proof (get_device_wf _ _ Hd) as (_ & _ & Hmax & _). split; [lia|]. do 3 (split; [done|]).
  apply get_device_Some in Hd as [_ Hd]. apply registry_ascii in Hd. rewrite Forall_forall in Hd. apply Hd.
  unfold param_names. apply list_elem_of_In, list_elem_of_omap. exists p. split; [|done]. by eapply list_elem_of_lookup_2.
Qed.

Lemma bit_on_param i j : (i < MAX_PARAMS)%nat -> bit_on (param_bit i) j = bool_decide (i = j).
Proof.
  intros Hi. unfold param_bit. rewrite u32_small; [|rewrite Z.shiftl_1_l; split; [lia | apply Z.pow_lt_mono_r; unfold MAX_PARAMS in Hi; lia]].
  rewrite <- (Z.lor_0_l (Z.shiftl _ _)). change (Z.lor 0 _) with (bit_set 0 i). by rewrite bit_on_set, bit_on_0, orb_false_r.
Qed.

Lemma param_bit_word i : word32 (param_bit i).
Proof. apply Z.mod_pos_bound. lia. Qed.

Section Lookup.
Context {PV : PythonValues} {PL : PythonLaws PV}.

(** The type that is named counts modulo 256. *)
Lemma find_target_text type uid d name i p :
  int32_range type = true -> 0 <= type -> uint64_range uid = true ->
  get_device (u8 type) = Some d -> find_param d name = Some (i, p) ->
  find_target (id_text type uid) (text name) = Val (type, uid, i, pd_type p).
Proof.
  intros Ht H0 Hu Hd Hf. destruct (find_param_facts _ _ _ _ _ Hd Hf) as (_ & _ & _ & _ & Ha).
  unfold find_target. rewrite encode_text by done. cbn [mbind pyres_bind]. rewrite parse_id_text by done.
  cbn [mbind pyres_bind]. by rewrite Hd, Hf.
Qed.

Lemma find_target_index device_id param_name type uid i ty : find_target device_id param_name = Val (type, uid, i, ty) ->
  (i < MAX_PARAMS)%nat /\ uint64_range uid = true.
Proof.
  unfold find_target. intros (param & _ & ([t u] & Hid & H)%pyres_bind_val)%pyres_bind_val.
  destruct (get_device (u8 t)) as [d|] eqn:Hd; [|done]. destruct (find_param d param) as [[j p]|] eqn:Hp; [|done].
  injection H as <- <- <- <-. split; [by destruct (find_param_facts _ _ _ _ _ Hd Hp)|].
  unfold parse_id in Hid. destruct (str_split _ _) as [|a [|b [|? ?]]]; try done.
  apply pyres_bind_val in Hid as (z & _ & (z' & _ & (y & _ & (y' & Hy & [= _ <-])%pyres_bind_val)%pyres_bind_val)%pyres_bind_val).
  unfold to_c in Hy. destruct (uint64_range y) eqn:E; [|done]. by injection Hy as <-.
Qed.

Lemma registered_type type d : get_device type = Some d -> int32_range type = true /\ 0 <= type /\ u8 type = type.
Proof.
  intros [Hr _]%get_device_Some. unfold int32_range. split; [|split; [lia|]]; [|apply u8_small; lia].
  apply andb_true_iff. lia.
Qed.

Lemma store_value_word ty old x v : word32 old -> store_value ty old x = Val v -> word32 v.
Proof.
  unfold store_value. intros Ho. destruct ty.
  - intros (z & _ & [= <-])%pyres_bind_val. apply Z.mod_pos_bound. lia.
  - intros (w & _ & [= <-])%pyres_bind_val. apply Z.mod_pos_bound. lia.
  - intros (z & _ & (b & _ & [= <-])%pyres_bind_val)%pyres_bind_val. unfold set_p_b, word32 in *.
    assert (0 <= u8 b < 256) by (apply Z.mod_pos_bound; lia). Z.to_euclidean_division_equations. lia.
Qed.

End Lookup.

(** ** Reading and setting parameters *)

(** The value that is stored for a value of the student: the filter's, for a velocity. *)
Definition filtered_value (g : gamestate_t) (type : Z) (i : nat) (v : Z) : Z :=
  if (type =? KOALABEAR) && ((i =? 0)%nat || (i =? 8)%nat) then GameSpec.filtered g v else v.

Lemma let_through_lookup g type ps i v : length ps = MAX_PARAMS -> (i < MAX_PARAMS)%nat ->
  let_through g type (<[i := v]> ps) !! i = Some (filtered_value g type i v).
Proof.
  intros Hl Hi. unfold let_through, filtered_value. destruct (type =? KOALABEAR); [|by rewrite list_lookup_insert_eq by lia].
  cbn [andb]. unfold filter_params. destruct (Nat.eqb_spec i 0) as [->|H0].
  - rewrite list_lookup_insert_ne, list_lookup_insert_eq by (rewrite ?length_insert; lia).
    by rewrite (nth_lookup_Some _ _ _ v) by (by rewrite list_lookup_insert_eq by lia).
  - destruct (Nat.eqb_spec i 8) as [->|H8]; cbn [orb].
    + rewrite list_lookup_insert_eq by (rewrite !length_insert; lia).
      by rewrite (nth_lookup_Some _ _ _ v) by (by rewrite list_lookup_insert_eq by lia).
    + by rewrite !list_lookup_insert_ne, list_lookup_insert_eq by lia.
Qed.

Section Parameters.
Context {PV : PythonValues} {PL : PythonLaws PV}.
Context (sm : gmap shm_sem nat) (Hfree : all_free sm).

(** A device of the type [type'] is connected as [ix]; the student names the type [type]. *)
Record named (m : shm_t) (ix : nat) (id : dev_id_t) (type : Z) (name : string) (i : nat) (p : param_desc_t) : Prop := {
  nd_wf : mem_wf (M := shm_mem) m;
  nd_unique : unique_uids m;
  nd_ix : (ix < MAX_DEVICES)%nat;
  nd_on : bit_on (cat m) ix = true;
  nd_id : ids m !! ix = Some id;
  nd_uid : uint64_range (id_uid id) = true;
  nd_int : int32_range type = true;
  nd_pos : 0 <= type;
  nd_param : exists d, get_device (u8 type) = Some d /\ find_param d name = Some (i, p)
}.

Lemma named_target m ix id type name i p : named m ix id type name i p ->
  find_target (id_text type (id_uid id)) (text name) = Val (type, id_uid id, i, pd_type p) /\ (i < MAX_PARAMS)%nat.
Proof.
  intros [_ _ _ _ _ Hu Ht H0 (d & Hd & Hf)]. split; [by eapply find_target_text|].
  by destruct (find_param_facts _ _ _ _ _ Hd Hf).
Qed.

Lemma set_value_run g ps x m ix id type name i p v :
  named m ix id type name i p -> params_wf ps -> store_value (pd_type p) (nth i ps 0) x = Val v ->
  exists to, params_wf to /\
    run (Robot.set_value g (Some ps) (id_text type (id_uid id)) (text name) x) (Sys m sm) =
      Done (Val tt, Sys (commanded ix (param_bit i) to m) sm) /\
    forall j, (j < MAX_PARAMS)%nat ->
      to !! j = if decide (j = i) then Some (filtered_value g (u8 type) i v) else pars m COMMAND ix !! j.
Proof.
  intros Hn [Hl Hw] Hv. destruct (named_target _ _ _ _ _ _ _ Hn) as [Htarget Hi].
  destruct Hn as [Hm Hu Hix Hon Hid _ _ _ _].
  destruct (lookup_lt_is_Some_2 ps i) as [old Hold]; [lia|].
  assert (Hvw : word32 v) by (eapply store_value_word; [|exact Hv]; rewrite (nth_lookup_Some _ _ _ _ Hold);
    exact (Forall_lookup_1 _ _ _ _ Hw Hold)).
  rewrite (nth_lookup_Some _ _ _ _ Hold) in Hv.
  assert (Hps : params_wf (<[i := v]> ps)) by (split; [by rewrite length_insert | by apply Forall_insert_word]).
  destruct (filter_run sm Hfree m g (u8 type) ix id (param_bit i) (<[i := v]> ps) Hm Hu Hix Hon Hid (param_bit_word i) Hps)
    as (to & Hto & Hrun & Hspec).
  exists to. split; [done|]. split.
  - unfold Robot.set_value. rewrite run_attempt, Htarget. cbv beta iota.
    rewrite (run_local _ _ _ old) by (by apply buf_get_done). rewrite run_attempt, Hv.
    rewrite (run_local _ _ _ (<[i := v]> ps)) by (apply buf_set_done; lia).
    by rewrite (run_call _ _ _ _ _ Hrun).
  - intros j Hj. rewrite Hspec, bit_on_param by done. case_decide as Hji.
    + subst j. rewrite bool_decide_true by done. by apply let_through_lookup.
    + by rewrite bool_decide_false by congruence.
Qed.

Lemma get_value_run ps m ix id type name i p :
  named m ix id type name i p -> params_wf ps ->
  run (Robot.get_value (Some ps) (id_text type (id_uid id)) (text name)) (Sys m sm) =
    Done (Val (read_value (pd_type p) (nth i (pars m DATA ix) 0)), Sys m sm).
Proof.
  intros Hn [Hl Hw]. destruct (named_target _ _ _ _ _ _ _ Hn) as [Htarget Hi].
  destruct Hn as [Hm Hu Hix Hon Hid _ _ _ _]. pose proof (Hm RCmdMap) as [Hcl _]. cbn in Hcl.
  destruct (pars_wf m DATA ix Hm Hix) as [Hpl _].
  destruct (copy_params_spec (param_bit i) (pars m DATA ix) ps Hpl Hl) as (to & Hc & Htl & Hto).
  assert (Hread : run (device_read_uid (id_uid id) EXECUTOR DATA (param_bit i) ps) (Sys m sm) = Done ((0, to), Sys m sm)).
  { unfold device_read_uid.
    rewrite (run_then (M := shm_mem) _ _ _ _ _ (find_run sm m (id_uid id) Hm)), (Hu ix Hix Hon id Hid).
    pose proof (read_helper_run sm Hfree m ix EXECUTOR DATA (param_bit i) ps to Hix Hcl Hc) as Hr.
    rewrite decide_False in Hr by (by intros [? _]). change (taken (M := shm_mem) [] sm) with sm in Hr.
    by rewrite (run_then (M := shm_mem) _ _ _ _ _ Hr). }
  unfold Robot.get_value. rewrite run_attempt, Htarget. cbv beta iota. rewrite (run_call _ _ _ _ _ Hread). cbv beta iota.
  change (0 =? -1) with false. cbv iota.
  destruct (lookup_lt_is_Some_2 (pars m DATA ix) i) as [v Hv]; [lia|].
  rewrite (run_local _ _ _ v); [by rewrite (nth_lookup_Some _ _ _ _ Hv)|].
  apply buf_get_done. rewrite Hto, bit_on_param, bool_decide_true by done. done.
Qed.

(** Nobody answers to the identifier. *)
Lemma not_connected_read ps uid mask m : mem_wf (M := shm_mem) m -> uid_index MAX_DEVICES 0 (cat m) (ids m) uid = None ->
  run (device_read_uid uid EXECUTOR DATA mask ps) (Sys m sm) = Done ((-1, ps), Sys m sm).
Proof.
  intros Hm Hn. unfold device_read_uid. by rewrite (run_then (M := shm_mem) _ _ _ _ _ (find_run sm m uid Hm)), Hn.
Qed.

Lemma not_connected_write g type ps uid mask m : mem_wf (M := shm_mem) m -> params_wf ps ->
  uid_index MAX_DEVICES 0 (cat m) (ids m) uid = None ->
  run (filter_device_write_uid g type uid EXECUTOR COMMAND mask ps) (Sys m sm) = Done ((-1, let_through g type ps), Sys m sm).
Proof.
  intros Hm Hps Hn. unfold filter_device_write_uid. rewrite filter_let_through by apply Hps.
  assert (Hw : run (device_write_uid uid EXECUTOR COMMAND mask (let_through g type ps)) (Sys m sm) = Done (-1, Sys m sm)).
  { unfold device_write_uid. by rewrite (run_then (M := shm_mem) _ _ _ _ _ (find_run sm m uid Hm)), Hn. }
  by rewrite (run_then (M := shm_mem) _ _ _ _ _ Hw).
Qed.

End Parameters.

(** ** The theorems on the student's calls *)

Lemma filtered_value_word g type i v : word32 v -> word32 (filtered_value g type i v).
Proof. intros Hv. unfold filtered_value. destruct (_ && _); [by apply filtered_word | done]. Qed.

(** The student sets a parameter; then the sender of the device looks. *)
Definition student_command {H : Heap} {PV : PythonValues} (logger : logger_t) (g : gamestate_t) (mem : allocated)
  (device_id param_name : list Z) (x : pyval) (relay : relay_t) (s : sender_t) : py sender_t :=
  try ok := Robot.set_value g mem device_id param_name x in call (write_command logger relay s).

(** C3: what the student sets is what the device gets. The student's code sets a parameter of a
    connected device, by the text of the device's type and identifier and by the parameter's
    registered name, to a value that C can hold. Then the call returns; the next look of the
    device's sender frames a message with every writable parameter that is pending, this one
    among them with the student's value (a velocity of a KoalaBear as the game states have
    changed it); and a device in contact that reads the message, behind any bytes that are no
    delimiter, hands those values to its class, performs its actions, and answers nothing. *)
Theorem student_sets_device {H : Heap} {HR : ReliableHeap H} {St : Stack} {D : Driver} d {P : Params D d}
    {PV : PythonValues} {PL : PythonLaws PV}
    ack unrecognized error logger sm g ps x m ix id name i p v relay s ws wtail now dv noise :
  all_free sm -> named m ix id (id_type id) name i p -> get_device (id_type id) = Some d ->
  params_wf ps -> store_value (pd_type p) (nth i ps 0) x = Val v ->
  dev_id relay = id -> shm_dev_idx relay = Z.of_nat ix -> length (sn_pmap s) = S MAX_DEVICES -> params_wf (sn_params s) ->
  io_ws (sn_io s) = ws ++ wtail -> room ws (MAX_PAYLOAD_SIZE + 6) ->
  in_contact now dv -> data_due now dv = false -> noiseless noise ->
  let pending := Z.lor (nth (S ix) (cmds m) 0) (param_bit i) in
  exists sent got s' m' dv',
    run (student_command logger g (Some ps) (id_text (id_type id) (id_uid id)) (text name) x relay s) (Sys m sm) =
      Done (Val s', Sys m' sm) /\
    (forall j, bit_on sent j = bit_on pending j && writable d j) /\
    got !! i = Some (filtered_value g (id_type id) i v) /\
    loop ack unrecognized error now (arrives (noise ++ drop (length (io_out (sn_io s))) (io_out (sn_io s'))) dv) = Done dv' /\
    driver dv' = snd (device_actions now (put_params d MAX_PARAMS 0 sent got (driver dv))) /\
    rx (serial (msngr dv')) = [] /\ tx (serial (msngr dv')) = tx (serial (msngr dv)) /\ enabled dv' = true.
Proof.
  intros Hf Hn Hd Hps Hv Hid Hsi Hpl Hsp Hws Hroom Hc Hdue Hnoise pending.
  pose proof Hn as [Hm _ Hix Hon _ _ _ _ _]. destruct (named_target _ _ _ _ _ _ _ Hn) as [_ Hi].
  destruct (registered_type _ _ Hd) as (_ & _ & Hu8).
  destruct (set_value_run sm Hf g ps x m ix id (id_type id) name i p v Hn Hps Hv) as (to & Hto & Hset & Hspec).
  rewrite Hu8 in Hspec. set (m1 := commanded ix (param_bit i) to m) in *.
  assert (Hm1 : mem_wf (M := shm_mem) m1) by (apply commanded_wf; [done | done | apply param_bit_word | done]).
  pose proof (Hm RCmdMap) as [Hl _]. cbn in Hl. fold (cmds m) in Hl.
  destruct (nth_pended ix (param_bit i) (cmds m)) as (H0 & H1 & _); [lia|].
  assert (Hp1 : nth (S ix) (cmds m1) 0 = pending) by exact H1.
  assert (Hflag : bit_on (nth 0 (cmds m1) 0) ix = true) by (change (cmds m1) with (cmd_pended ix (param_bit i) (cmds m)); rewrite H0; apply bit_on_set_eq).
  rewrite <- Hid in Hd.
  destruct (write_command_run logger sm d relay ix s m1 ws wtail Hf Hm1 Hix Hon Hd Hsi Hflag Hpl Hsp Hws Hroom)
    as (sent & got & s' & ws' & Hsw & Hgw & Hbits & Hgot & _ & _ & Hout & Hrun). rewrite Hp1 in *.
  destruct (loop_command (id_type (dev_id relay)) d Hd ack unrecognized error now
    (arrives (noise ++ frame (command_msg d sent got)) dv) sent got noise) as (dv' & Hloop & Hdr & Hser & _ & Hen);
    [done | | done | done | done | done | done |].
  { intros j Hj. rewrite Hbits in Hj. by apply andb_prop in Hj as [_ ?]. }
  exists sent, got, s'. eexists _, dv'. split; [|split; [done|split; [|split; [|split; [exact Hdr|by rewrite Hser]]]]].
  - unfold student_command. rewrite (run_py _ _ _ _ _ Hset). exact (run_call_last _ _ _ _ Hrun).
  - rewrite Hgot by (done || (unfold pending; by rewrite bit_on_lor, bit_on_param, bool_decide_true, orb_true_r)).
    unfold m1. rewrite commanded_pars by done. by rewrite Hspec, decide_True.
  - rewrite Hout, drop_app_length. exact Hloop.
Qed.

(** A DummyDevice is connected. *)
Definition dummy_shm : shm_t := connected 0 (DevId 0 1 77) (shm_start zero_shm).

Lemma dummy_named name i p : find_param RuntimeUtil.DummyDevice name = Some (i, p) ->
  named dummy_shm 0 (DevId 0 1 77) 0 name i p.
Proof.
  intros Hf. split; try reflexivity.
  - apply first_connected_wf.
  - apply first_unique.
  - unfold MAX_DEVICES. lia.
  - by exists RuntimeUtil.DummyDevice.
Qed.

Lemma student_sets_device_witness :
  let pending := Z.lor (nth 1 (cmds dummy_shm) 0) (param_bit 12) in
  exists sent got s' m' dv',
    run (@student_command zero_heap demo_python logger_start (GameState false false true) (Some (replicate 32 0))
        (id_text 0 77) (text "PIEF") (PyInt (-5)) dummy_relay demo_sender) (Sys dummy_shm sems_start) =
      Done (Val s', Sys m' sems_start) /\
    (forall j, bit_on sent j = bit_on pending j && writable RuntimeUtil.DummyDevice j) /\
    got !! 12%nat = Some (filtered_value (GameState false false true) 0 12 4294967291) /\
    loop (H := zero_heap) (fun _ _ => []) [] [] 110 (arrives ([5] ++ drop 0 (io_out (sn_io s'))) dummy_device) = Done dv' /\
    driver dv' = snd (@device_actions dummy 110 (put_params (D := dummy) RuntimeUtil.DummyDevice MAX_PARAMS 0 sent got DummyDevice.start)) /\
    rx (serial (msngr dv')) = [] /\ tx (serial (msngr dv')) = [] /\ enabled dv' = true.
Proof.
  apply (student_sets_device (H := zero_heap) (D := dummy) (PV := demo_python) RuntimeUtil.DummyDevice (fun _ _ => []) [] []
    logger_start sems_start (GameState false false true) (replicate 32 0) (PyInt (-5)) dummy_shm 0 (DevId 0 1 77) "PIEF" 12
    (Param "PIEF" INT 1 1) 4294967291 dummy_relay demo_sender [Wrote 100; Wrote 100] [] 110 dummy_device [5]);
    try reflexivity; try (split; [reflexivity | apply Forall_replicate; unfold word32; lia]).
  - exact sems_start_ok.
  - by apply dummy_named.
  - exists [100; 100]%nat. split; [repeat constructor | vm_compute; lia].
  - apply dummy_in_contact. lia.
  - repeat constructor; discriminate.
Defined.

(** What a value reads as depends only on the part that its type has. *)
Lemma read_value_agrees {PV : PythonValues} ty v w : word32 v -> word32 w -> agrees ty v w -> read_value ty w = read_value ty v.
Proof. unfold agrees, read_value, p_i, p_f, p_b. intros Hv Hw Ha. destruct ty; by rewrite Ha. Qed.

(** The receiver of the device reads; then the student reads a parameter. *)
Definition student_reading {H : Heap} {PV : PythonValues} (logger : logger_t) (relay : relay_t) (later : Z) (r : receiver_t)
  (mem : allocated) (device_id param_name : list Z) : py pyval :=
  try r' := call (receiver_step logger relay later r) in Robot.get_value mem device_id param_name.

Lemma named_data m ix id type name i p to : named m ix id type name i p -> params_wf to ->
  named (shm_store (RParams DATA ix) to m) ix id type name i p.
Proof. intros [Hm Hu Hix Hon Hid ? ? ? ?] Hto. split; try done. by apply store_params_wf. Qed.

(** C8: what a device measures is what the student reads. When the data of a device in contact
    are due, one iteration of its main loop performs its actions and puts bytes on the wire;
    however the kernel cuts them, once the device's receiver has read them the student who asks
    for a subscribed parameter, by the text of the device's type and identifier and by the
    parameter's registered name, gets the value that the parameter has in the device's class,
    as an integer, a float or a bool as the registry says. *)
Theorem student_reads_device {H : Heap} {HR : ReliableHeap H} {St : Stack} {D : Driver} d {P : Params D d}
    {PV : PythonValues} {PL : PythonLaws PV}
    ack unrecognized error logger sm ps relay m ix id name i p now dv :
  all_free sm -> named m ix id (id_type id) name i p -> get_device (id_type id) = Some d -> params_wf ps ->
  dev_id relay = id -> verified relay -> shm_dev_idx relay = Z.of_nat ix ->
  word32 (dv_params dv) -> (forall j, bit_on (dv_params dv) j = true -> readable d j = true) -> bit_on (dv_params dv) i = true ->
  in_contact now dv -> data_due now dv = true -> rx (serial (msngr dv)) = [] -> (200 <= tx_room (serial (msngr dv)))%nat ->
  let st := snd (device_actions now (driver dv)) in
  exists dv' bs, loop ack unrecognized error now dv = Done dv' /\ driver dv' = st /\
    tx (serial (msngr dv')) = tx (serial (msngr dv)) ++ bs /\
    forall later r cs tail, idle r -> Forall is_data cs -> stream cs = bs -> rc_io r = cs ++ tail ->
      exists m', run (student_reading logger relay later r (Some ps) (id_text (id_type id) (id_uid id)) (text name)) (Sys m sm) =
        Done (Val (read_value (pd_type p) (get_param i st)), Sys m' sm).
Proof.
  intros Hf Hn Hd Hps Hid Hv Hsi Hw Hr Hsub Hc Hdue Hrx Hroom st.
  pose proof Hn as [Hm _ Hix Hon _ _ _ _ _]. destruct (named_target _ _ _ _ _ _ _ Hn) as [_ Hi].
  destruct (loop_data (id_type id) d Hd ack unrecognized error now dv) as (dv' & Hloop & Hdr & _ & Htx);
    [done..|]. fold st in Htx. set (e := Report (dv_params dv) (param_values d st)) in *.
  exists dv', (frame (event_msg d e)). do 3 (split; [done|]). intros later r cs tail Hidle Hdata Hs Hio.
  assert (Hd' : get_device (id_type (dev_id relay)) = Some d) by (by rewrite Hid).
  destruct (receiver_step_run logger d relay ix later r m sm [] e [] cs tail)
    as (r' & to & cs' & Hrun & [Hto Hda] & _); try done.
  - split; [done | apply param_values_wf].
  - by apply Forall_nil.
  - rewrite Hs. symmetry. apply app_nil_r.
  - exists (shm_store (RParams DATA ix) to m). unfold student_reading. rewrite (run_call _ _ _ _ _ Hrun).
    rewrite (get_value_run sm Hf ps _ ix id (id_type id) name i p (named_data _ _ _ _ _ _ _ to Hn Hto) Hps).
    do 3 f_equal. rewrite (pars_store DATA ix to m Hm Hix).
    destruct Hn as [_ _ _ _ _ _ _ _ (d0 & Hd0 & Hfind)].
    destruct (registered_type _ _ Hd) as (_ & _ & Hu8). rewrite Hu8, Hd in Hd0. injection Hd0 as <-.
    destruct (find_param_facts _ _ _ _ _ Hd Hfind) as (_ & _ & Hp & _).
    specialize (Hda i Hi). cbn [reported e] in Hda. rewrite Hsub, param_values_lookup in Hda by done.
    destruct Hda as (p' & w & Hp' & Htoi & Hag). rewrite Hp in Hp'. injection Hp' as <-.
    rewrite (nth_lookup_Some _ _ _ _ Htoi). apply read_value_agrees; [| |exact Hag].
    + pose proof (param_values_wf d st) as [_ Hwf]. apply (Forall_lookup_1 _ _ i _ Hwf). by apply param_values_lookup.
    + destruct Hto as [_ Hwf]. exact (Forall_lookup_1 _ _ _ _ Hwf Htoi).
Qed.

Lemma student_reads_device_witness :
  let st := snd (@device_actions dummy 150 DummyDevice.start) in
  exists dv' bs, loop (H := zero_heap) (fun _ _ => []) [] [] 150 dummy_device = Done dv' /\ driver dv' = st /\
    tx (serial (msngr dv')) = [] ++ bs /\
    forall later r cs tail, idle r -> Forall is_data cs -> stream cs = bs -> rc_io r = cs ++ tail ->
      exists m', run (@student_reading zero_heap demo_python logger_start dummy_relay later r (Some (replicate 32 9))
          (id_text 0 77) (text "RUNTIME")) (Sys dummy_shm sems_start) =
        Done (Val (read_value (PV := demo_python) INT (get_param (D := dummy) (d := RuntimeUtil.DummyDevice) 0 st)), Sys m' sems_start).
Proof.
  intros st.
  apply (student_reads_device (H := zero_heap) (D := dummy) (PV := demo_python) RuntimeUtil.DummyDevice (fun _ _ => []) [] []
    logger_start sems_start (replicate 32 9) dummy_relay dummy_shm 0 (DevId 0 1 77) "RUNTIME" 0 (Param "RUNTIME" INT 1 0)
    150 dummy_device); try reflexivity; try (unfold MAX_DEVICES, word32; cbn; lia).
  - exact sems_start_ok.
  - by apply dummy_named.
  - split; [reflexivity | apply Forall_replicate; unfold word32; lia].
  - discriminate.
  - intros i Hi. destruct i as [|i]; [reflexivity|]. exfalso. cbn in Hi.
    rewrite bit_on_testbit in Hi. unfold Z.testbit in Hi. done.
  - apply dummy_in_contact. lia.
Defined.

(** C20: the game states can be evaded. Nothing compares the type that the student names with the
    type of the device: any text of a number that is the type of a device modulo 256 is taken
    for that type. If a robot is dehydrated, poisoned or slowed, and its KoalaBear is connected,
    the student who names it as a LineFollower and sets the parameter left (the first one there,
    as velocity_a is the first of a KoalaBear) stores any value at all, neither limited nor
    scaled, as the velocity of motor A, and makes it pending for the device. *)
Theorem filter_evaded {PV : PythonValues} {PL : PythonLaws PV} sm g ps x m ix id v n :
  all_free sm -> mem_wf (M := shm_mem) m -> unique_uids m -> (ix < MAX_DEVICES)%nat -> bit_on (cat m) ix = true ->
  ids m !! ix = Some id -> id_type id = KOALABEAR -> uint64_range (id_uid id) = true -> params_wf ps ->
  float_of x = Val v -> 0 <= n < 2 ^ 23 ->
  exists m', run (Robot.set_value g (Some ps) (id_text (2 + 256 * n) (id_uid id)) (text "left") x) (Sys m sm) =
      Done (Val tt, Sys m' sm) /\
    pars m' COMMAND ix !! 0%nat = Some v /\
    cmds m' = cmd_pended ix 1 (cmds m) /\
    exists d, get_device (id_type id) = Some d /\ find_param d "velocity_a" = Some (0%nat, Param "velocity_a" FLOAT 1 1).
Proof.
  intros Hf Hm Hu Hix Hon Hid Htype Huid Hps Hx Hn.
  assert (Hu8 : u8 (2 + 256 * n) = 2) by (unfold u8; rewrite Z.mul_comm, Z.mod_add by done; done).
  assert (Hnamed : named m ix id (2 + 256 * n) "left" 0 (Param "left" FLOAT 1 0)).
  { split; try done; [unfold int32_range; apply andb_true_iff; lia | lia |].
    exists RuntimeUtil.LineFollower. by rewrite Hu8. }
  pose proof (float_of_word _ _ Hx) as Hv.
  destruct (set_value_run sm Hf g ps x m ix id _ _ _ _ v Hnamed Hps) as (to & Hto & Hrun & Hspec).
  { cbn [pd_type Param store_value]. rewrite Hx. cbn [mbind pyres_bind]. unfold set_p_f. by rewrite u32_small. }
  exists (commanded ix (param_bit 0) to m). split; [exact Hrun|]. rewrite commanded_pars by done.
  split; [|split; [done|]].
  - rewrite Hspec by (unfold MAX_PARAMS; lia). rewrite decide_True by done. unfold filtered_value. by rewrite Hu8.
  - rewrite Htype. by eexists.
Qed.

(** Named as type 258, with the value 5.0, while the robot is dehydrated. *)
Lemma filter_evaded_witness :
  exists m', run (Robot.set_value (PV := demo_python) (GameState false false true) (Some (replicate 32 0))
        (id_text 258 77) (text "left") (PyFloat 0x40A00000)) (Sys demo sems_start) = Done (Val tt, Sys m' sems_start) /\
    pars m' COMMAND 0 !! 0%nat = Some 0x40A00000 /\
    cmds m' = cmd_pended 0 1 (cmds demo) /\
    exists d, get_device 6 = Some d /\ find_param d "velocity_a" = Some (0%nat, Param "velocity_a" FLOAT 1 1).
Proof.
  apply (filter_evaded (PV := demo_python) sems_start (GameState false false true) (replicate 32 0) (PyFloat 0x40A00000)
    demo 0 (DevId 6 1 77) 0x40A00000 1); try reflexivity; try lia.
  - exact sems_start_ok.
  - exact demo_wf.
  - exact demo_unique.
  - unfold MAX_DEVICES. lia.
  - split; [reflexivity | apply Forall_replicate; unfold word32; lia].
Defined.

(** C35: a call that is refused changes nothing. Reading or setting a parameter raises, and leaves
    the memory and the semaphores as they were, when the name of the parameter cannot be
    encoded, the identifier is not two numbers around one underscore that fit their C types, its
    type is not registered or has no such parameter (in all these cases the exception that the
    lookup raises), when there is no memory, when no connected device has the identifier, and,
    for setting, when the value cannot become a C value. An identifier with any other number of
    underscores is a ValueError. *)
Theorem refused_calls_change_nothing {PV : PythonValues} sm m g mem device_id param_name x :
  all_free sm -> mem_wf (M := shm_mem) m ->
  let read := run (Robot.get_value mem device_id param_name) (Sys m sm) in
  let set := run (Robot.set_value g mem device_id param_name x) (Sys m sm) in
  let raises (e : exn) (A : Type) := @Done (pyres A * sys (M := shm_mem)) (Raise e, Sys m sm) in
  (forall e, find_target device_id param_name = Raise e -> read = raises e pyval /\ set = raises e unit) /\
  (length (str_split underscore device_id) ≠ 2%nat -> parse_id device_id = Raise ValueError) /\
  forall type uid i ty, find_target device_id param_name = Val (type, uid, i, ty) ->
    match mem with
    | None => read = raises MemoryError pyval /\ set = raises MemoryError unit
    | Some ps => params_wf ps ->
        (uid_index MAX_DEVICES 0 (cat m) (ids m) uid = None -> read = raises DeviceError pyval) /\
        match store_value ty (nth i ps 0) x with
        | Raise e => set = raises e unit
        | Val v => uid_index MAX_DEVICES 0 (cat m) (ids m) uid = None -> set = raises DeviceError unit
        end
    end.
Proof.
  intros Hf Hm read set raises. split; [|split].
  - intros e He. unfold read, set, Robot.get_value, Robot.set_value. by rewrite !run_attempt, He.
  - intros Hne. unfold parse_id. destruct (str_split underscore device_id) as [|? [|? [|? ?]]]; try done.
  - intros type uid i ty Ht. unfold read, set, Robot.get_value, Robot.set_value. rewrite !run_attempt, Ht. cbv beta iota.
    destruct mem as [ps|]; [|done]. intros Hps. pose proof Hps as [Hl Hw].
    destruct (find_target_index _ _ _ _ _ _ Ht) as [Hi _].
    destruct (lookup_lt_is_Some_2 ps i) as [old Hold]; [lia|]. rewrite (nth_lookup_Some _ _ _ _ Hold). split.
    + intros Hno. by rewrite (run_call _ _ _ _ _ (not_connected_read sm ps uid (param_bit i) m Hm Hno)).
    + rewrite (run_local _ _ _ old) by (by apply buf_get_done). rewrite run_attempt.
      destruct (store_value ty old x) as [v|e] eqn:Ev; [|done]. intros Hno.
      rewrite (run_local _ _ _ (<[i := v]> ps)) by (apply buf_set_done; lia).
      assert (Hps' : params_wf (<[i := v]> ps)).
      { split; [by rewrite length_insert|]. apply Forall_insert_word; [done|]. eapply store_value_word; [|exact Ev].
        exact (Forall_lookup_1 _ _ _ _ Hw Hold). }
      by rewrite (run_call _ _ _ _ _ (not_connected_write sm g (u8 type) _ uid (param_bit i) m Hm Hps' Hno)).
Qed.

Lemma refused_calls_change_nothing_witness :
  let read := run (Robot.get_value (PV := demo_python) (Some (replicate 32 0)) (id_text 6 5) (text "enc_a")) (Sys demo sems_start) in
  let set := run (Robot.set_value (PV := demo_python) (GameState false false false) (Some (replicate 32 0)) (id_text 6 5)
    (text "enc_a") (PyOther "str")) (Sys demo sems_start) in
  let raises (e : exn) (A : Type) := @Done (pyres A * sys (M := shm_mem)) (Raise e, Sys demo sems_start) in
  (forall e, find_target (PV := demo_python) (id_text 6 5) (text "enc_a") = Raise e -> read = raises e pyval /\ set = raises e unit) /\
  (length (str_split underscore (id_text 6 5)) ≠ 2%nat -> parse_id (PV := demo_python) (id_text 6 5) = Raise ValueError) /\
  forall type uid i ty, find_target (PV := demo_python) (id_text 6 5) (text "enc_a") = Val (type, uid, i, ty) ->
    params_wf (replicate 32 0) ->
      (uid_index MAX_DEVICES 0 (cat demo) (ids demo) uid = None -> read = raises DeviceError pyval) /\
      match store_value (PV := demo_python) ty (nth i (replicate 32 0) 0) (PyOther "str") with
      | Raise e => set = raises e unit
      | Val v => uid_index MAX_DEVICES 0 (cat demo) (ids demo) uid = None -> set = raises DeviceError unit
      end.
Proof.
  exact (refused_calls_change_nothing (PV := demo_python) sems_start demo (GameState false false false) (Some (replicate 32 0))
    (id_text 6 5) (text "enc_a") (PyOther "str") sems_start_ok demo_wf).
Defined.

(** ** The log *)

Lemma string_length_app s t : String.length (s +:+ t) = (String.length s + String.length t)%nat.
Proof. induction s as [|c s IH]; [done|]. change (S (String.length (s +:+ t)) = S (String.length s + String.length t)). by rewrite IH. Qed.

Lemma c_str_length s : (String.length (c_str s) <= String.length s)%nat.
Proof. induction s as [|c s IH]; [done|]. cbn [c_str]. destruct (Ascii.eqb _ _); cbn [String.length]; lia. Qed.

(** An ASCII text has as many bytes as characters. *)
Lemma encode_ascii_length key kb : Forall (fun c => c < 128) key -> encode key = Val kb -> String.length kb = length key.
Proof.
  revert kb. induction key as [|c key IH]; intros kb Hk He; [by injection He as <-|].
  apply Forall_cons_1 in Hk as [Hc Hk]. cbn [encode] in He. unfold utf8 in He. rewrite (proj2 (Z.ltb_lt _ _)) in He by done.
  apply pyres_bind_val in He as (r & Hr & [= <-]). cbn [bytes_string]. rewrite string_length_app. cbn. by rewrite (IH r).
Qed.

(** C19: what a student's log does. A key of 64 characters or more is a ValueError, before any
    semaphore is taken. A key of fewer than 64 characters whose encoding has fewer than 64 bytes
    too, and that is known, or new while there are fewer than 255, is given the value (an
    integer or a float if C can hold it, or a bool) and nothing else of the memory changes. With
    255 other keys the call is an IndexError, and when fewer than 64 characters are encoded as
    64 bytes or more, which needs a character outside ASCII, a RuntimeError. Both of these leave
    the semaphore of the log data taken: from then on every log of a value that reaches the
    memory, and the thread that sends the values to Dawn, wait for ever. *)
Theorem student_log {PV : PythonValues} sm m param key x :
  all_free sm -> mem_wf (M := shm_mem) m ->
  ((64 <= length key)%nat -> run (Robot.log param key x) (Sys m sm) = Done (Raise ValueError, Sys m sm)) /\
  forall kb ty v, (length key < 64)%nat -> encode key = Val kb -> Robot.log_value param x = Val (ty, v) ->
  let idx := log_key_index (c_str kb) (log_data m) in
  let frozen := Sys (M := shm_mem) m (<[LogDataSem := 0%nat]> sm) in
  (Forall (fun c => c < 128) key -> (String.length (c_str kb) < 64)%nat) /\
  if (idx =? 255)%nat || (64 <=? String.length (c_str kb))%nat then
    run (Robot.log param key x) (Sys m sm) = Done (Raise (if (idx =? 255)%nat then IndexError else RuntimeError), frozen) /\
    (forall param' key' kb' x' r, (length key' < 64)%nat -> encode key' = Val kb' -> Robot.log_value param' x' = Val r ->
       run (Robot.log param' key' x') frozen = Blocked) /\
    (forall n t w, run (log_data_read n t w) frozen = Blocked)
  else
    run (Robot.log param key x) (Sys m sm) = Done (Val tt, Sys (shm_store RLog (log_written idx (c_str kb) ty v (log_data m)) m) sm).
Proof.
  intros Hf Hm. split.
  { intros Hlong. unfold Robot.log, LOG_KEY_LENGTH. by rewrite (proj2 (Nat.leb_le 64 _)). }
  intros kb ty v Hlen He Hv idx frozen.
  assert (Hlog : forall param key kb x ty v st, (length key < 64)%nat -> encode key = Val kb -> Robot.log_value param x = Val (ty, v) ->
    run (Robot.log param key x) st = run (try err := call (log_data_write (c_str kb) ty v) in
      if err =? -1 then raise IndexError else if err =? -2 then raise RuntimeError else value tt) st).
  { clear. intros param key kb x ty v st Hlen He Hv. unfold Robot.log, LOG_KEY_LENGTH.
    rewrite (proj2 (Nat.leb_gt 64 _)) by lia. by rewrite run_attempt, He, run_attempt, Hv. }
  split.
  - intros Ha. pose proof (encode_ascii_length _ _ Ha He). pose proof (c_str_length kb). lia.
  - destruct (_ || _) eqn:Eb; [split; [|split]|].
    + rewrite (Hlog _ _ _ _ _ _ _ Hlen He Hv). rewrite (run_call _ _ _ _ _ (log_write_error_run sm (c_str kb) ty v m Hf Eb)).
      fold idx. by destruct (idx =? 255)%nat.
    + intros param' key' kb' x' [ty' v'] Hlen' He' Hv'. rewrite (Hlog _ _ _ _ _ _ _ Hlen' He' Hv').
      rewrite run_py_bind. unfold call, log_data_write. cbn. by rewrite lookup_insert_eq.
    + intros n t w. cbn. by rewrite lookup_insert_eq.
    + rewrite (Hlog _ _ _ _ _ _ _ Hlen He Hv). apply orb_false_iff in Eb as [E1 E2]. apply Nat.eqb_neq in E1. apply Nat.leb_gt in E2.
      destruct (Hm RLog) as (Hn & Hln & _ & Hlp & Hlt). cbn in Hn, Hln, Hlp, Hlt. unfold UCHAR_MAX in *.
      destruct (log_key_index_spec (c_str kb) (log_data m)) as (Hidx & _ & _); [lia|].
      by rewrite (run_call _ _ _ _ _ (log_write_ok_run sm (c_str kb) ty v m Hf ltac:(lia) E2 Hln Hlp Hlt)).
Qed.

(** Thirty-two times the letter e with an acute accent; seventy times the letter a. *)
Lemma student_log_witness :
  let frozen := Sys (M := shm_mem) demo (<[LogDataSem := 0%nat]> sems_start) in
  run (Robot.log (PV := demo_python) 0 (replicate 70 97) (PyInt 5)) (Sys demo sems_start) =
    Done (Raise ValueError, Sys (M := shm_mem) demo sems_start) /\
  exists kb, String.length (c_str kb) = 64%nat /\
  (Forall (fun c => c < 128) (replicate 32 233) -> (String.length (c_str kb) < 64)%nat) /\
  run (Robot.log (PV := demo_python) 0 (replicate 32 233) (PyInt 5)) (Sys demo sems_start) = Done (Raise RuntimeError, frozen) /\
  (forall param' key' kb' x' r, (length key' < 64)%nat -> encode key' = Val kb' -> Robot.log_value (PV := demo_python) param' x' = Val r ->
     run (Robot.log (PV := demo_python) param' key' x') frozen = Blocked) /\
  (forall n t w, run (log_data_read n t w) frozen = Blocked).
Proof.
  split.
  { apply (student_log (PV := demo_python) sems_start demo 0 (replicate 70 97) (PyInt 5) sems_start_ok demo_wf). vm_compute. lia. }
  destruct (encode (replicate 32 233)) as [kb|e] eqn:He; [|discriminate He]. exists kb.
  assert (Hl : String.length (c_str kb) = 64%nat) by (vm_compute in He; injection He as <-; reflexivity).
  split; [exact Hl|].
  destruct (student_log (PV := demo_python) sems_start demo 0 (replicate 32 233) (PyInt 5) sems_start_ok demo_wf) as [_ Hlog].
  pose proof (Hlog kb INT 5 ltac:(vm_compute; lia) He eq_refl) as Hw.
  cbv zeta in Hw. rewrite Hl in Hw.
  assert (Hi : (log_key_index (c_str kb) (log_data demo) =? 255)%nat = false) by reflexivity. rewrite Hi in Hw. rewrite Hl. exact Hw.
Defined.
