(* ===== verification/StudentSystem.v ===== *)
(** * The student's code in the running system.

    Theorems on [StudentApi] beyond single parameters: the actions in threads of their own, the
    inputs from Dawn, the subscriptions, and any number of the student's threads together with
    the other processes of the runtime. *)

From stdpp Require Import gmap strings pretty relations.
From S2P Require Export StudentSpec.
#[local] Open Scope py_scope.

(** ** Actions *)

(** Threads are numbered as they start; a thread that is alive is the one of a single name. *)
Record actions_ok (r : actions) : Prop := {
  ao_bound : (size (alive r) <= MAX_THREADS)%nat;
  ao_fresh : forall a t, running_actions r !! a = Some t -> (t < next_thread r)%nat;
  ao_named : forall t, t ∈ alive r -> exists a, running_actions r !! a = Some t;
  ao_inj : forall a b t, running_actions r !! a = Some t -> running_actions r !! b = Some t -> a = b
}.

Lemma is_running_true r a : is_running r a = true <-> exists t, running_actions r !! a = Some t /\ t ∈ alive r.
Proof.
  unfold is_running. destruct (running_actions r !! a) as [t|]; [rewrite bool_decide_eq_true|].
  - split; [intros Ht; by exists t | by intros (t' & [= ->] & Ht)].
  - split; [done | by intros (t & Ht & _)].
Qed.

Lemma fresh_not_alive r : actions_ok r -> next_thread r ∉ alive r.
Proof. intros [_ Hf Hn _] Hin. destruct (Hn _ Hin) as [a Ha]. apply Hf in Ha. lia. Qed.

Lemma run_start_alive r a : actions_ok r -> size (alive (run_start r a)) = S (size (alive r)).
Proof. intros Hr. cbn. rewrite size_union, size_singleton; [done|]. pose proof (fresh_not_alive r Hr). set_solver. Qed.

Lemma run_start_ok r a : actions_ok r -> is_running r a = false -> (size (alive r) < MAX_THREADS)%nat ->
  actions_ok (run_start r a).
Proof.
  intros Hr Hidle Hlt. pose proof (run_start_alive r a Hr) as Hsize. destruct Hr as [_ Hf Hn Hi]. split.
  - rewrite Hsize. lia.
  - intros b t. cbn [running_actions run_start next_thread]. intros [[_ <-] | [_ Hb]]%lookup_insert_Some; [lia|].
    apply Hf in Hb. lia.
  - intros t. cbn [running_actions run_start alive]. intros [->%elem_of_singleton | Ht]%elem_of_union.
    + exists a. apply lookup_insert_eq.
    + destruct (Hn t Ht) as [b Hb]. exists b. rewrite lookup_insert_ne; [done|]. intros <-.
      assert (is_running r a = true) by (apply is_running_true; by exists t). congruence.
  - intros b c t. cbn [running_actions run_start].
    intros [[<- <-] | [Hb1 Hb]]%lookup_insert_Some [[<- Hc] | [Hc1 Hc]]%lookup_insert_Some; try done.
    + apply Hf in Hc. lia.
    + subst t. apply Hf in Hb. lia.
    + by apply (Hi b c t).
Qed.

Lemma act_step_ok r r' : act_step r r' -> actions_ok r -> actions_ok r'.
Proof.
  intros [others a r0 Ho | t r0] Hr.
  - unfold run_action, run_check. destruct (is_running r0 a) eqn:E; [done|].
    destruct (Nat.ltb_spec MAX_THREADS (active_count others r0)) as [|Hle]; [done|].
    apply run_start_ok; [done | done |]. unfold active_count in Hle. lia.
  - destruct Hr as [Hb Hf Hn Hi]. split; cbn [finish running_actions alive next_thread]; [| done | | done].
    + assert (size (alive r0 ∖ {[t]}) <= size (alive r0))%nat by (apply subseteq_size, subseteq_difference_l; done). lia.
    + intros t' [Ht' _]%elem_of_difference. by apply Hn.
Qed.

(** C34: the student's actions are bounded. Whatever actions the student's code runs, one call
    after the other, and whenever they end: at most eight are alive, each is the thread of just
    one action's name, and a call for an action that is running starts nothing. A call that is
    let through starts one thread, after which the action is running. But the two tests and the
    start are not one step: two threads of the student that both pass the tests of the same
    action before either starts it leave it running twice, and one of the two threads is
    unknown to [is_running]. *)
Theorem actions_bounded r others action :
  rtc act_step no_actions r -> (0 < others)%nat ->
  actions_ok r /\
  (let '(res, r') := run_action others r action in
   (is_running r action = true -> res = AlreadyRunning) /\
   ((res ≠ Started) -> r' = r) /\
   (res = Started -> is_running r action = false /\ is_running r' action = true /\ size (alive r') = S (size (alive r)))) /\
  (run_check others r action = Started ->
   let r2 := run_start (run_start r action) action in
   size (alive r2) = S (S (size (alive r))) /\
   exists t, (t ∈ alive r2) /\ (t ∉ alive r) /\ forall a, running_actions r2 !! a ≠ Some t).
Proof.
  intros Hr Ho.
  assert (Hok : actions_ok r).
  { assert (H0 : actions_ok no_actions) by (split; [cbn [alive no_actions]; rewrite size_empty; lia | done | intros t Ht; set_solver | done]).
    clear Ho. induction Hr as [r|r1 r2 r3 Hs _ IH]; [done|]. apply IH. by eapply act_step_ok. }
  split; [done|]. split.
  - unfold run_action, run_check. destruct (is_running r action) eqn:E; [done|].
    destruct (_ <? _)%nat eqn:El; [done|]. split; [done|]. split; [done|]. intros _. split; [done|].
    split; [|by apply run_start_alive]. apply is_running_true. exists (next_thread r). cbn.
    split; [apply lookup_insert_eq | set_solver].
  - unfold run_check. destruct (is_running r action) eqn:E; [done|]. destruct (_ <? _)%nat eqn:El; [done|]. intros _.
    apply Nat.ltb_ge in El. unfold active_count in El.
    pose proof (run_start_ok r action Hok E ltac:(lia)) as Hok1. cbv zeta. split; [by rewrite !run_start_alive|].
    exists (next_thread r). split; [cbn; set_solver|]. split; [by apply fresh_not_alive|].
    intros a. cbn [running_actions run_start next_thread].
    intros [[_ Ha] | [Hne [[Heq _] | [_ Ha]]%lookup_insert_Some]]%lookup_insert_Some; [lia | done |].
    apply (ao_fresh r Hok) in Ha. lia.
Qed.

Lemma actions_bounded_witness :
  let r := run_start no_actions "drive" in
  actions_ok r /\
  (let '(res, r') := run_action 1 r "blink" in
   (is_running r "blink" = true -> res = AlreadyRunning) /\
   ((res ≠ Started) -> r' = r) /\
   (res = Started -> is_running r "blink" = false /\ is_running r' "blink" = true /\ size (alive r') = S (size (alive r)))) /\
  (run_check 1 r "blink" = Started ->
   let r2 := run_start (run_start r "blink") "blink" in
   size (alive r2) = S (S (size (alive r))) /\
   exists t, (t ∈ alive r2) /\ (t ∉ alive r) /\ forall a, running_actions r2 !! a ≠ Some t).
Proof.
  apply (actions_bounded (run_start no_actions "drive") 1 "blink"); [|lia].
  apply rtc_once. apply (runs 1 "drive" no_actions). lia.
Defined.

(** ** Inputs *)

(** What the student's code is told of an input. *)
Definition gamepad_answer {PV : PythonValues} (input : pb_input) (name : string) : pyres pyval :=
  if in_connected input then
    match name_index (take NUM_GAMEPAD_BUTTONS BUTTON_NAMES) name with
    | Some i => Val (PyBool (bit_on (in_buttons input) i))
    | None => match name_index JOYSTICK_NAMES name with
              | Some i => Val (PyFloat (widen (nth i (in_axes input) 0)))
              | None => Raise KeyError
              end
    end
  else Raise DeviceError.

Definition keyboard_answer (input : pb_input) (name : string) : pyres pyval :=
  if in_connected input then
    match name_index (take NUM_KEYBOARD_BUTTONS KEY_NAMES) name with
    | Some i => Val (PyBool (bit_on (in_buttons input) i))
    | None => Raise KeyError
    end
  else Raise DeviceError.

(** A datagram arrives; then the student asks. *)
Definition student_input {P : Protos} (datagram : bytes) (ask : py pyval) : py pyval :=
  try ok := call (update_inputs (Some datagram)) in ask.

Lemma name_index_lt names name i : name_index names name = Some i -> (i < length names)%nat.
Proof.
  unfold name_index. destruct (list_find _ names) as [[j s]|] eqn:E; [|done]. intros [= <-].
  apply list_find_Some in E as (Hj & _). by apply lookup_lt_Some in Hj.
Qed.

(** C18: what Dawn's user presses is what the student's code is told. Of the inputs in a datagram
    the last one for a source counts. When it is connected, the student who asks the gamepad for
    a button gets its bit of that input, for a joystick its axis as a Python float, and for any
    other name a KeyError, and likewise with the keyboard and its keys; when it is not, a
    DeviceError. When the object was made in another mode than TELEOP every name is a
    NotImplementedError. *)
Theorem student_reads_inputs {P : Protos} {PV : PythonValues} sm m datagram before input after b js name :
  all_free sm -> mem_wf (M := shm_mem) m -> length js = 4%nat -> ascii name ->
  user_inputs__unpack (take UDP_SIZE datagram) = Some (before ++ input :: after) ->
  Forall (fun other => source_of other ≠ source_of input) after ->
  (source_of input = GAMEPAD -> length (in_axes input) = 4%nat) ->
  exists m',
    (source_of input = GAMEPAD ->
     run (student_input datagram (Gamepad.get_value true b js (text name))) (Sys m sm) = Done (gamepad_answer input name, Sys m' sm) /\
     run (student_input datagram (Gamepad.get_value false b js (text name))) (Sys m sm) = Done (Raise NotImplementedError, Sys m' sm)) /\
    (source_of input = KEYBOARD ->
     run (student_input datagram (Keyboard.get_value true b js (text name))) (Sys m sm) = Done (keyboard_answer input name, Sys m' sm) /\
     run (student_input datagram (Keyboard.get_value false b js (text name))) (Sys m sm) = Done (Raise NotImplementedError, Sys m' sm)).
Proof.
  intros Hf Hm Hjs Ha Hun Hafter Haxes.
  destruct (update_inputs_run sm m datagram before input after Hf Hm Hun Hafter Haxes) as (m' & Hm' & Hrun & Hread).
  specialize (Hread b js Hjs). exists m'. unfold student_input.
  split; intros Hs; rewrite !(run_call _ _ _ _ _ Hrun); (split; [|reflexivity]); rewrite Hs in Hread.
  - unfold Gamepad.get_value, gamepad_answer. cbn [negb]. rewrite run_attempt, encode_text by done.
    rewrite (run_call _ _ _ _ _ Hread). destruct (in_connected input); cbv beta iota; [|done].
    change (0 =? -1) with false. cbv iota. destruct (name_index (take _ _) name); [done|].
    destruct (name_index JOYSTICK_NAMES name) as [i|] eqn:Ei; [|done]. apply name_index_lt in Ei. cbn [length JOYSTICK_NAMES] in Ei.
    rewrite decide_True by done. specialize (Haxes Hs).
    destruct (lookup_lt_is_Some_2 (in_axes input) i) as [v Hv]; [lia|].
    rewrite (run_local _ _ _ v) by (by apply buf_get_done). by rewrite (nth_lookup_Some _ _ _ _ Hv).
  - unfold Keyboard.get_value, keyboard_answer. cbn [negb]. rewrite run_attempt, encode_text by done.
    rewrite (run_call _ _ _ _ _ Hread). destruct (in_connected input); cbv beta iota; [|done].
    change (0 =? -1) with false. cbv iota. by destruct (name_index (take _ _) name).
Qed.

Lemma student_reads_inputs_witness :
  let input := PbInput 0 true 9 [10; 20; 30; 40] in let sent := [0; 1; 9; 10; 20; 30; 40] in
  exists m',
    (source_of (P := demo_protos) input = GAMEPAD ->
     run (student_input (P := demo_protos) sent (Gamepad.get_value (PV := demo_python) true 0 [0; 0; 0; 0] (text "button_y")))
       (Sys demo sems_start) = Done (gamepad_answer (PV := demo_python) input "button_y", Sys m' sems_start) /\
     run (student_input (P := demo_protos) sent (Gamepad.get_value (PV := demo_python) false 0 [0; 0; 0; 0] (text "button_y")))
       (Sys demo sems_start) = Done (Raise NotImplementedError, Sys m' sems_start)) /\
    (source_of (P := demo_protos) input = KEYBOARD ->
     run (student_input (P := demo_protos) sent (Keyboard.get_value true 0 [0; 0; 0; 0] (text "button_y")))
       (Sys demo sems_start) = Done (keyboard_answer input "button_y", Sys m' sems_start) /\
     run (student_input (P := demo_protos) sent (Keyboard.get_value false 0 [0; 0; 0; 0] (text "button_y")))
       (Sys demo sems_start) = Done (Raise NotImplementedError, Sys m' sems_start)).
Proof.
  apply (student_reads_inputs (P := demo_protos) (PV := demo_python) sems_start demo [0; 1; 9; 10; 20; 30; 40] []
    (PbInput 0 true 9 [10; 20; 30; 40]) [] 0 [0; 0; 0; 0] "button_y"); try reflexivity.
  - exact sems_start_ok.
  - exact demo_wf.
  - repeat constructor.
  - apply Forall_nil_2.
Defined.

(** ** Subscriptions *)

(** A device that the student's code reads: its type, its identifier, the parameters. *)
Record use : Set := Use { use_type : Z; use_uid : Z; use_names : list string }.

Definition use_text (u : use) : list Z * list (list Z) := (id_text (use_type u) (use_uid u), text <$> use_names u).

Definition use_ok (u : use) : Prop :=
  uint8_range (use_type u) = true /\ uint64_range (use_uid u) = true /\ Forall ascii (use_names u).

(** The index of the device, if its type is registered and it is connected. *)
Definition use_index (m : shm_t) (u : use) : option nat :=
  match get_device (use_type u) with
  | Some _ => uid_index MAX_DEVICES 0 (cat m) (ids m) (use_uid u)
  | None => None
  end.

(** [mask] is the set of the parameters of the type that have one of the names. *)
Definition requests (u : use) (mask : Z) : Prop :=
  exists d, get_device (use_type u) = Some d /\ word32 mask /\
    forall j, bit_on mask j = true <-> (j < num_params d)%nat /\ exists p name, params d !! j = Some p /\ pd_name p = Some name /\ name ∈ use_names u.

(** The parameter [i] of the device has the name. *)
Definition has_name (d : device_t) (name : string) (i : nat) : bool :=
  match params d !! i with Some p => bool_decide (pd_name p = Some name) | None => false end.

Lemma request_loop d name n : forall request,
  let r := foldl (fun r i => match params d !! i with
                             | Some p => if bool_decide (pd_name p = Some name) then bit_set r i else r
                             | None => r
                             end) request (seq 0 n) in
  forall j, bit_on r j = bit_on request j || ((j <? n)%nat && has_name d name j).
Proof.
  induction n as [|n IH]; intros request r j; [cbn; by rewrite orb_false_r|]. unfold r. rewrite seq_S, foldl_app. cbn [foldl Nat.add].
  set (r0 := foldl _ request (seq 0 n)). pose proof (IH request j) as Hj. cbv zeta in Hj. fold r0 in Hj.
  assert (Hstep : forall r', (r' = if has_name d name n then bit_set r0 n else r0) ->
    bit_on r' j = bit_on request j || ((j <? S n)%nat && has_name d name j)).
  { intros r' ->. destruct (decide (j = n)) as [->|Hne].
    - rewrite (proj2 (Nat.ltb_lt n (S n))) by lia. cbn [andb].
      rewrite (proj2 (Nat.ltb_ge n n)), andb_false_l, orb_false_r in Hj by lia.
      destruct (has_name d name n); [by rewrite bit_on_set_eq, orb_true_r | by rewrite orb_false_r].
    - replace (j <? S n)%nat with (j <? n)%nat by (destruct (Nat.ltb_spec j n), (Nat.ltb_spec j (S n)); (done || lia)).
      rewrite <- Hj. destruct (has_name d name n); [by apply bit_on_set_ne | done]. }
  apply Hstep. unfold has_name. destruct (params d !! n); [by case_bool_decide | done].
Qed.

Lemma request_loop_word d name n : (n <= MAX_PARAMS)%nat -> forall request, word32 request ->
  word32 (foldl (fun r i => match params d !! i with
                            | Some p => if bool_decide (pd_name p = Some name) then bit_set r i else r
                            | None => r
                            end) request (seq 0 n)).
Proof.
  intros Hn. induction n as [|n IH]; intros request Hw; [done|]. rewrite seq_S, foldl_app. cbn [foldl Nat.add].
  specialize (IH ltac:(lia) request Hw). destruct (params d !! n) as [p|]; [|done].
  case_bool_decide; [|done]. apply word32_set; [done | unfold MAX_PARAMS in Hn; lia].
Qed.

Lemma request_of_run d names : (num_params d <= MAX_PARAMS)%nat -> Forall ascii names -> forall request, word32 request ->
  exists mask, request_of d (text <$> names) request = Val mask /\ word32 mask /\
    forall j, bit_on mask j = true <-> bit_on request j = true \/
      ((j < num_params d)%nat /\ exists name, name ∈ names /\ has_name d name j = true).
Proof.
  intros Hn. induction names as [|name names IH]; intros Ha request Hw.
  { exists request. split; [done|]. split; [done|]. intros j. split; [by left|]. intros [?|(_ & name & Hin & _)]; [done|].
    by apply elem_of_nil in Hin. }
  apply Forall_cons_1 in Ha as [Hname Ha]. cbn [fmap list_fmap request_of]. rewrite encode_text by done. cbn [mbind pyres_bind].
  destruct (IH Ha _ (request_loop_word d name (num_params d) Hn request Hw)) as (mask & Hr & Hmw & Hbits).
  exists mask. split; [exact Hr|]. split; [done|]. intros j.
  rewrite Hbits, request_loop, orb_true_iff, andb_true_iff, Nat.ltb_lt. clear. split.
  - intros [[?|[Hj Hh]]|(Hj & n & Hin & Hh)]; [by left | right | right]; (split; [done|]).
    + exists name. split; [apply elem_of_cons; by left | done].
    + exists n. split; [apply elem_of_cons; by right | done].
  - intros [?|(Hj & n & [->|Hin]%elem_of_cons & Hh)]; [by left; left | by left; right | right]. split; [done|]. by exists n.
Qed.

Lemma requests_request_of u d : get_device (use_type u) = Some d -> Forall ascii (use_names u) ->
  exists mask, request_of d (text <$> use_names u) 0 = Val mask /\ requests u mask.
Proof.
  intros Hd Ha. destruct (get_device_wf _ _ Hd) as (_ & _ & Hn & _).
  destruct (request_of_run d (use_names u) Hn Ha 0 word32_0) as (mask & Hr & Hw & Hbits).
  exists mask. split; [done|]. exists d. split; [done|]. split; [done|]. intros j. rewrite Hbits, bit_on_0. clear.
  split.
  - intros [?|(Hj & name & Hin & Hh)]; [done|]. split; [done|]. unfold has_name in Hh.
    destruct (params d !! j) as [p|] eqn:Hp; [|done]. apply bool_decide_eq_true in Hh. by exists p, name.
  - intros (Hj & p & name & Hp & Hname & Hin). right. split; [done|]. exists name. split; [done|].
    unfold has_name. rewrite Hp. by apply bool_decide_true.
Qed.

Section Subscriptions.
Context {PV : PythonValues} {PL : PythonLaws PV} (sm : gmap shm_sem nat) (Hfree : all_free sm).

(** The executor's subscription map. *)
Definition exec_subs (m : shm_t) : list Z := exec_sub_map (dev_shm m).

Lemma subscribe_run m u mask : mem_wf (M := shm_mem) m -> requests u mask ->
  exists m' r, run (place_sub_request (use_uid u) EXECUTOR mask) (Sys m sm) = Done (r, Sys m' sm) /\
    mem_wf (M := shm_mem) m' /\ cat m' = cat m /\ ids m' = ids m /\ net_sub_map (dev_shm m') = net_sub_map (dev_shm m) /\
    forall ix, (ix < MAX_DEVICES)%nat ->
      exec_subs m' !! S ix = if decide (use_index m u = Some ix) then Some mask else exec_subs m !! S ix.
Proof.
  intros Hm (d & Hd & Hw & _). unfold use_index. rewrite Hd.
  destruct (uid_index MAX_DEVICES 0 (cat m) (ids m) (use_uid u)) as [ix|] eqn:Hu.
  - destruct (uid_index_Some _ _ _ _ _ _ Hu) as ([_ Hix] & _). cbn [Nat.add] in Hix.
    pose proof (place_sub_request_run sm Hfree m (use_uid u) EXECUTOR mask ix Hm (or_intror eq_refl) Hix Hu) as Hr.
    change (taken (M := shm_mem) [] sm) with sm in Hr.
    pose proof (Hm RSubMap) as [Hnw Hew]. cbn in Hnw, Hew.
    destruct (subscribed_wf EXECUTOR ix mask (net_sub_map (dev_shm m)) (exec_sub_map (dev_shm m)) Hw Hix Hnw Hew) as [Hn' He'].
    fold (subs m) in Hn', He'. destruct Hew as [Hel _]. fold (exec_subs m) in Hel.
    eexists _, 0. split; [exact Hr|]. split; [|split; [|split; [|split]]].
    + apply (store_wf (M := shm_mem) RSubMap); [done|]. by destruct (subscribed EXECUTOR ix mask (subs m)).
    + by destruct (subscribed EXECUTOR ix mask (subs m)).
    + by destruct (subscribed EXECUTOR ix mask (subs m)).
    + done.
    + intros jx Hjx.
      assert (Hexec : exec_subs (shm_store RSubMap (subscribed EXECUTOR ix mask (subs m)) m) =
        if default 0 (exec_subs m !! S ix) =? mask then exec_subs m
        else alter (fun v => bit_set v ix) 0%nat (<[S ix := mask]> (exec_subs m))) by done.
      rewrite Hexec. destruct (lookup_lt_is_Some_2 (exec_subs m) (S ix)) as [v Hv]; [lia|]. rewrite Hv. change (default 0 (Some v)) with v.
      case_decide as Hij.
      * injection Hij as <-. destruct (Z.eqb_spec v mask) as [->|]; [exact Hv|].
        rewrite list_lookup_alter_ne by done. rewrite list_lookup_insert_eq by lia. done.
      * destruct (v =? mask); [done|]. rewrite list_lookup_alter_ne by done. apply list_lookup_insert_ne. congruence.
  - exists m, (-1). split; [|do 4 (split; [done|]); intros ix Hix; by rewrite decide_False by done].
    unfold place_sub_request. change (negb (bool_decide (EXECUTOR = NET_HANDLER) || bool_decide (EXECUTOR = EXECUTOR))) with false.
    cbv iota. by rewrite (run_then (M := shm_mem) _ _ _ _ _ (find_run sm m (use_uid u) Hm)), Hu.
Qed.

(** The last use of the device [ix]. *)
Definition last_use (m : shm_t) (ix : nat) (uses : list use) : option use :=
  list.last (filter (fun u => use_index m u = Some ix) uses).

Lemma make_device_subs_run uses : forall m, mem_wf (M := shm_mem) m -> Forall use_ok uses ->
  exists m', run (make_device_subs (use_text <$> uses)) (Sys m sm) = Done (Val tt, Sys m' sm) /\
    mem_wf (M := shm_mem) m' /\ cat m' = cat m /\ ids m' = ids m /\ net_sub_map (dev_shm m') = net_sub_map (dev_shm m) /\
    forall ix, (ix < MAX_DEVICES)%nat ->
      match last_use m ix uses with
      | Some u => exists mask, requests u mask /\ exec_subs m' !! S ix = Some mask
      | None => exec_subs m' !! S ix = exec_subs m !! S ix
      end.
Proof.
  induction uses as [|u uses IH]; intros m Hm Hok; [exists m; done|].
  apply Forall_cons_1 in Hok as [(Ht & Hu & Ha) Hok].
  assert (Hsame : forall m1 ix, cat m1 = cat m -> ids m1 = ids m ->
    last_use m1 ix uses = last_use m ix uses).
  { intros m1 ix Hc Hi. unfold last_use. f_equal. apply list_filter_iff. intros w. unfold use_index. by rewrite Hc, Hi. }
  assert (Hlast : forall ix, last_use m ix (u :: uses) =
    match last_use m ix uses with Some w => Some w | None => if decide (use_index m u = Some ix) then Some u else None end).
  { intros ix. unfold last_use. rewrite filter_cons. case_decide as Hi; [|by destruct (list.last _)]. rewrite last_cons. by destruct (list.last _). }
  assert (Hrange : 0 <= use_type u < 256) by (unfold uint8_range in Ht; lia).
  cbn [fmap list_fmap make_device_subs use_text]. rewrite run_attempt. unfold id_text at 1.
  rewrite text_app. change (text ("_" +:+ pretty (use_uid u))) with (underscore :: text (pretty (use_uid u))).
  assert (Hu0 : 0 <= use_uid u) by (unfold uint64_range in Hu; lia).
  destruct (pretty_digits (use_type u)) as (Ne1 & D1 & V1); [lia|]. destruct (pretty_digits (use_uid u) Hu0) as (Ne2 & D2 & V2).
  rewrite str_split_app, str_split_none by (by apply digits_no_underscore).
  rewrite (py_int_digits _ (use_type u) Ne1 D1 V1), (py_int_digits _ (use_uid u) Ne2 D2 V2). cbn [mbind pyres_bind].
  rewrite run_attempt. unfold to_c at 1. rewrite Ht.
  destruct (get_device (use_type u)) as [d|] eqn:Hd.
  - destruct (requests_request_of u d Hd Ha) as (mask & Hreq & Hmask). rewrite run_attempt, Hreq, run_attempt. unfold to_c. rewrite Hu.
    destruct (subscribe_run m u mask Hm Hmask) as (m1 & r & Hr & Hm1 & Hc & Hi & Hn & Hsub). rewrite (run_call _ _ _ _ _ Hr).
    destruct (IH m1 Hm1 Hok) as (m' & Hrun & Hm' & Hc' & Hi' & Hn' & Hsubs). exists m'. split; [exact Hrun|].
    split; [done|]. do 3 (split; [congruence|]). intros ix Hix. specialize (Hsubs ix Hix). rewrite Hsame in Hsubs by done.
    rewrite Hlast. destruct (last_use m ix uses) as [w|]; [done|]. rewrite Hsub in Hsubs by done.
    case_decide; [by exists mask | done].
  - destruct (IH m Hm Hok) as (m' & Hrun & Hm' & Hc' & Hi' & Hn' & Hsubs). exists m'. split; [exact Hrun|].
    do 4 (split; [done|]). intros ix Hix. specialize (Hsubs ix Hix). rewrite Hlast.
    destruct (last_use m ix uses); [done|]. rewrite decide_False; [done|]. unfold use_index. by rewrite Hd.
Qed.

End Subscriptions.

(** C21: the student's code is subscribed to what it reads. For every list of the uses that
    have been found in the code, the executor ends without an exception, and then its request
    for a connected device of a registered type is exactly the set of the parameters of that
    type which the last use of the device names; the device handler sees those together with
    the network handler's. A use of a device that is not connected, or of a type that is not
    registered, changes nothing: if the device connects later it is not subscribed. The
    requests for all other devices, and those of the network handler, stay as they were. *)
Theorem student_subscribed {PV : PythonValues} {PL : PythonLaws PV} sm m uses :
  all_free sm -> mem_wf (M := shm_mem) m -> Forall use_ok uses ->
  exists m', run (make_device_subs (use_text <$> uses)) (Sys m sm) = Done (Val tt, Sys m' sm) /\
    mem_wf (M := shm_mem) m' /\ net_sub_map (dev_shm m') = net_sub_map (dev_shm m) /\
    forall ix, (ix < MAX_DEVICES)%nat ->
      match last_use m ix uses with
      | Some u => exists mask, requests u mask /\ exec_subs m' !! S ix = Some mask /\
          forall j, bit_on (sub_val DEV_HANDLER (S ix) (subs m')) j = bit_on (sub_val NET_HANDLER (S ix) (subs m)) j || bit_on mask j
      | None => exec_subs m' !! S ix = exec_subs m !! S ix
      end.
Proof.
  intros Hf Hm Hok. destruct (make_device_subs_run sm Hf uses m Hm Hok) as (m' & Hr & Hm' & _ & _ & Hn & Hsubs).
  exists m'. do 3 (split; [done|]). intros ix Hix. specialize (Hsubs ix Hix).
  destruct (last_use m ix uses) as [u|]; [|done]. destruct Hsubs as (mask & Hreq & He). exists mask. do 2 (split; [done|]).
  intros j. unfold sub_val, subs. cbn [fst snd]. fold (exec_subs m'). rewrite He, Hn. apply bit_on_lor.
Qed.

Lemma student_subscribed_witness :
  let uses := [Use 6 77 ["velocity_a"; "enc_b"]; Use 6 78 ["enc_a"]; Use 9 77 ["enc_a"]]%string in
  exists m', run (make_device_subs (PV := demo_python) (use_text <$> uses)) (Sys demo sems_start) = Done (Val tt, Sys m' sems_start) /\
    mem_wf (M := shm_mem) m' /\ net_sub_map (dev_shm m') = net_sub_map (dev_shm demo) /\
    forall ix, (ix < MAX_DEVICES)%nat ->
      match last_use demo ix uses with
      | Some u => exists mask, requests u mask /\ exec_subs m' !! S ix = Some mask /\
          forall j, bit_on (sub_val DEV_HANDLER (S ix) (subs m')) j = bit_on (sub_val NET_HANDLER (S ix) (subs demo)) j || bit_on mask j
      | None => exec_subs m' !! S ix = exec_subs demo !! S ix
      end.
Proof.
  intros uses. apply (student_subscribed (PV := demo_python) sems_start demo uses sems_start_ok demo_wf).
  repeat (apply Forall_cons; [split; [reflexivity|]; split; [reflexivity|]|]); [..|apply Forall_nil_2].
  all: unfold ascii; match goal with |- ?P => apply (bool_decide_eq_true_1 P) end; vm_compute; reflexivity.
Defined.

(** ** All calls together *)

(** What the student's code and the executor call of the wrapper, with a stack of four joysticks
    and arrays of the documented size. [Robot.log] is left out: its error paths end with a
    semaphore taken, which no locking discipline allows. *)
Inductive student_call : Set :=
| SGet (mem : allocated) (device_id param_name : list Z)
| SSet (g : gamestate_t) (mem : allocated) (device_id param_name : list Z) (x : pyval)
| SGamepad (available : bool) (b : Z) (js : list Z) (param_name : list Z)
| SKeyboard (available : bool) (b : Z) (js : list Z) (param_name : list Z)
| SStart
| SAvailable
| SSubs (params : list (list Z * list (list Z))).

(** The student's code goes on whatever a call returns or raises. *)
Definition discard {A} (m : py A) : prog (M := shm_mem) unit := prog_bind_def (M := shm_mem) (fun _ => mret tt) m.

Definition exec_student {PV : PythonValues} (c : student_call) : prog (M := shm_mem) unit :=
  match c with
  | SGet mem id name => discard (Robot.get_value mem id name)
  | SSet g mem id name x => discard (Robot.set_value g mem id name x)
  | SGamepad av b js name => discard (Gamepad.get_value av b js name)
  | SKeyboard av b js name => discard (Keyboard.get_value av b js name)
  | SStart => discard (Robot.start_pos)
  | SAvailable => discard (available)
  | SSubs params => discard (make_device_subs params)
  end.

Definition student_ok (c : student_call) : Prop :=
  match c with
  | SGet (Some ps) _ _ => params_wf ps
  | SSet _ (Some ps) _ _ _ => params_wf ps
  | SGamepad _ _ js _ => length js = 4%nat
  | SKeyboard _ _ js _ => length js = 4%nat
  | _ => True
  end.

Lemma disc_discard {A} (m : py A) Q : disc (M := shm_mem) [] m [] Q -> disc (M := shm_mem) [] (discard m) [] (fun _ => True).
Proof.
  intros Hm. exact (disc_bind (M := shm_mem) m (fun _ => mret tt) [] [] [] Q _ Hm
    (fun a _ => disc_ret (M := shm_mem) [] tt (fun _ => True) I)).
Qed.

Lemma disc_py {A B} (m : py A) (f : A -> py B) Q R :
  disc (M := shm_mem) [] m [] Q -> (forall a, Q (Val a) -> disc (M := shm_mem) [] (f a) [] R) -> (forall e, R (Raise e)) ->
  disc (M := shm_mem) [] (py_bind m f) [] R.
Proof.
  intros Hm Hf He. unfold py_bind. set (k := fun r => _).
  assert (Hk : forall r, Q r -> disc (M := shm_mem) [] (k r) [] R) by (intros [a|e] Hr; [by apply Hf | by split; [|apply He]]).
  exact (disc_bind (M := shm_mem) m k [] [] [] Q R Hm Hk).
Qed.

Lemma disc_call {A B} (p : prog (M := shm_mem) A) (f : A -> py B) Q R :
  disc (M := shm_mem) [] p [] Q -> (forall a, Q a -> disc (M := shm_mem) [] (f a) [] R) -> (forall e, R (Raise e)) ->
  disc (M := shm_mem) [] (py_bind (call p) f) [] R.
Proof.
  intros Hp Hf He. apply (disc_py _ _ (fun r => match r with Val a => Q a | Raise _ => False end)); [|done|done].
  unfold call. eapply disc_bind; [exact Hp|]. intros a Ha. by apply disc_ret.
Qed.

Lemma disc_attempt {A B} (r : pyres A) (f : A -> py B) R :
  (forall a, r = Val a -> disc (M := shm_mem) [] (f a) [] R) -> (forall e, R (Raise e)) ->
  disc (M := shm_mem) [] (py_bind (attempt r) f) [] R.
Proof.
  intros Hf He. apply (disc_py _ _ (fun r' => r' = r)); [by apply disc_ret | by intros a <-; apply Hf | done].
Qed.

Section Discipline.
Context {PV : PythonValues}.

Lemma disc_get_value mem id name : student_ok (SGet mem id name) ->
  disc (M := shm_mem) [] (Robot.get_value mem id name) [] (fun _ => True).
Proof.
  intros Hok. apply disc_attempt; [|done]. intros [[[type uid] i] ty] Ht.
  destruct (find_target_index _ _ _ _ _ _ Ht) as [Hi _]. destruct mem as [ps|]; [|by apply disc_ret].
  eapply disc_call; [by apply disc_device_read_uid | | done]. intros [err ps'] [Hl _]. cbn [snd] in Hl.
  destruct (err =? -1); [by apply disc_ret|].
  destruct (lookup_lt_is_Some_2 ps' i) as [v Hv]; [lia|]. rewrite (buf_get_done _ _ _ Hv).
  by apply (disc_call _ _ (fun _ => True)).
Qed.

Lemma disc_filter_write g type uid mask ps : params_wf ps -> word32 mask ->
  disc (M := shm_mem) [] (filter_device_write_uid g type uid EXECUTOR COMMAND mask ps) [] (fun _ => True).
Proof.
  intros Hps Hm. unfold filter_device_write_uid. rewrite filter_let_through by apply Hps.
  eapply disc_bind; [apply disc_device_write_uid; [by apply let_through_wf | done]|]. intros r _. by apply disc_ret.
Qed.

Lemma disc_set_value g mem id name x : student_ok (SSet g mem id name x) ->
  disc (M := shm_mem) [] (Robot.set_value g mem id name x) [] (fun _ => True).
Proof.
  intros Hok. apply disc_attempt; [|done]. intros [[[type uid] i] ty] Ht.
  destruct (find_target_index _ _ _ _ _ _ Ht) as [Hi _]. destruct mem as [ps|]; [|by apply disc_ret]. destruct Hok as [Hl Hw].
  destruct (lookup_lt_is_Some_2 ps i) as [old Hold]; [lia|]. rewrite (buf_get_done _ _ _ Hold).
  apply (disc_call _ _ (fun v => v = old)); [done | intros ? -> | done].
  apply disc_attempt; [|done]. intros v Hv. rewrite buf_set_done by lia.
  apply (disc_call _ _ (fun ps' => ps' = <[i := v]> ps)); [done | intros ? -> | done].
  eapply disc_call; [|intros [err ps'] _; by destruct (err =? -1) | done].
  apply disc_filter_write; [|apply param_bit_word]. split; [by rewrite length_insert|]. apply Forall_insert_word; [done|].
  eapply store_value_word; [|exact Hv]. exact (Forall_lookup_1 _ _ _ _ Hw Hold).
Qed.

Lemma disc_gamepad av b js name : length js = 4%nat -> disc (M := shm_mem) [] (Gamepad.get_value av b js name) [] (fun _ => True).
Proof.
  intros Hjs. unfold Gamepad.get_value. destruct (negb av); [by apply disc_ret|]. apply disc_attempt; [|done]. intros param _.
  eapply disc_call; [by apply disc_input_read | | done]. intros [[err bs] js'] Hl. cbn [snd] in Hl.
  destruct (err =? -1); [by apply disc_ret|]. destruct (name_index (take _ _) param); [by apply disc_ret|].
  destruct (name_index JOYSTICK_NAMES param) as [i|] eqn:Ei; [|by apply disc_ret]. apply name_index_lt in Ei. cbn [length JOYSTICK_NAMES] in Ei.
  destruct (lookup_lt_is_Some_2 js' i) as [v Hv]; [lia|]. rewrite (buf_get_done _ _ _ Hv). by apply (disc_call _ _ (fun _ => True)).
Qed.

Lemma disc_keyboard av b js name : length js = 4%nat -> disc (M := shm_mem) [] (Keyboard.get_value av b js name) [] (fun _ => True).
Proof.
  intros Hjs. unfold Keyboard.get_value. destruct (negb av); [by apply disc_ret|]. apply disc_attempt; [|done]. intros param _.
  eapply disc_call; [by apply disc_input_read | | done]. intros [[err bs] js'] _.
  destruct (err =? -1); [by apply disc_ret|]. by destruct (name_index (take _ _) param).
Qed.

Lemma request_of_word d names : (num_params d <= MAX_PARAMS)%nat -> forall request mask, word32 request ->
  request_of d names request = Val mask -> word32 mask.
Proof.
  intros Hn. induction names as [|name names IH]; intros request mask Hw Hr; [by injection Hr as <-|].
  cbn [request_of] in Hr. apply pyres_bind_val in Hr as (param & _ & Hr). eapply IH; [|exact Hr].
  by apply request_loop_word.
Qed.

Lemma disc_make_subs params : disc (M := shm_mem) [] (make_device_subs params) [] (fun _ => True).
Proof.
  induction params as [|[id names] params IH]; [by apply disc_ret|]. cbn [make_device_subs].
  apply disc_attempt; [|done]. intros [type uid] _. apply disc_attempt; [|done]. intros type' _.
  destruct (get_device type') as [d|] eqn:Hd; [|exact IH]. destruct (get_device_wf _ _ Hd) as (_ & _ & Hn & _).
  apply disc_attempt; [|done]. intros mask Hmask. apply disc_attempt; [|done]. intros uid' _.
  eapply disc_call; [apply disc_place_sub_request | intros _ _; exact IH | done].
  eapply request_of_word; [done | exact word32_0 | exact Hmask].
Qed.

Lemma exec_student_disc c : student_ok c -> disc (M := shm_mem) [] (exec_student c) [] (fun _ => True).
Proof.
  destruct c; cbn [student_ok exec_student]; intros Hok; apply disc_discard with (Q := fun _ => True).
  - by apply disc_get_value.
  - by apply disc_set_value.
  - by apply disc_gamepad.
  - by apply disc_keyboard.
  - eapply disc_call; [apply disc_robot_desc_read | done | done].
  - eapply disc_call; [apply disc_robot_desc_read | done | done].
  - apply disc_make_subs.
Qed.

(** A thread of the student's code. *)
Definition student_thread (calls : list student_call) : prog (M := shm_mem) unit :=
  foldr (fun c rest => exec_student c ;; rest) (mret tt) calls.

Lemma student_thread_disc calls : Forall student_ok calls -> thread_ok (M := shm_mem) [] (student_thread calls).
Proof.
  unfold thread_ok. induction 1 as [|c calls Hc _ IH]; [by apply disc_ret|].
  eapply disc_bind; [by apply exec_student_disc|]. intros _ _. exact IH.
Qed.

End Discipline.

(** The processes and the student's threads at the start. *)
Definition student_system {PV : PythonValues} (old : shm_t) (calls : list (list shm_call)) (threads : list (list student_call))
  : config (M := shm_mem) :=
  Config (Sys (shm_start old) sems_start) ((client <$> calls) ++ (student_thread <$> threads)).

Lemma student_system_reach {PV : PythonValues} old calls threads c :
  mem_wf (M := shm_mem) old -> Forall (Forall call_ok) calls -> Forall (Forall student_ok) threads ->
  rtc step (student_system old calls threads) c -> safe c.
Proof.
  intros Hold Hcalls Hthreads. apply disciplined_safe; [by apply shm_start_wf | apply sems_start_ok |].
  apply Forall_app_2; apply Forall_fmap.
  - eapply Forall_impl; [|exact Hcalls]. intros cs. apply client_disc.
  - eapply Forall_impl; [|exact Hthreads]. intros cs. apply student_thread_disc.
Qed.

(** C1: the runtime and the student's code are safe together, logging apart. Take any number of
    processes, each making any sequence of calls of the wrapper, of all of its functions except
    [log_data_write], with arguments of the documented sizes, on memory that [shm_start] has
    set up, and any number of threads of the student's code, each making any sequence of calls
    on the gamepad, the keyboard, the values of devices and the subscriptions, but not
    [Robot.log], with any texts and values at all. Whatever the interleaving, in every state
    they reach: each block is well-formed (sizes, 32-bit bitmaps, bytes), nobody is about to
    fault, two access one region at the same time only where the code reads the catalog or the
    identifiers without a semaphore, and if some process or thread has not finished, one can
    move: there is no deadlock. Logging is left out because it would make the last claim false:
    [log_data_write] returns on its errors with the semaphore of the log taken ([StudentSpec]). *)
Theorem student_system_safe {PV : PythonValues} old (calls : list (list shm_call)) (threads : list (list student_call)) c :
  mem_wf (M := shm_mem) old -> Forall (Forall call_ok) calls -> Forall (Forall student_ok) threads ->
  rtc step (student_system old calls threads) c -> safe c.
Proof. apply student_system_reach. Qed.

(** A process that connects a KoalaBear, and two threads of a student. *)
Definition demo_calls : list (list shm_call) := [[CallConnect (DevId 6 1 77); CallGetCmdMap (replicate 33 0)]].
Definition demo_threads : list (list student_call) :=
  [[SSet (GameState false false true) (Some (replicate 32 0)) (id_text 6 77) (text "velocity_a") (PyFloat 5)];
   [SGamepad true 0 [0; 0; 0; 0] (text "button_a"); SGet None [1; 2; 3] []]].

Lemma demo_calls_ok : Forall (Forall call_ok) demo_calls.
Proof. match goal with |- ?P => apply (bool_decide_eq_true_1 P) end. vm_compute. reflexivity. Qed.

Lemma demo_threads_ok : Forall (Forall student_ok) demo_threads.
Proof.
  constructor; [|constructor; [|constructor]].
  - constructor; [|constructor]. split; [reflexivity|]. apply Forall_replicate. unfold word32. lia.
  - constructor; [reflexivity|]. constructor; [exact I | constructor].
Qed.

Lemma student_system_safe_witness : safe (student_system (PV := demo_python) zero_shm demo_calls demo_threads).
Proof.
  apply (student_system_safe (PV := demo_python) zero_shm demo_calls demo_threads _ zero_shm_wf demo_calls_ok demo_threads_ok).
  apply rtc_refl.
Defined.


